(* ===== verification/_CoqProject ===== *)
-Q . S2P
Prelude.v
CLib.v
Posix.v
Wp.v
Protocol.v
NetworkIO.v
Logger.v
Daemon.v
LoggerTest.v
ClientManager.v
Registry.v
RegistrySpec.v
Sending.v
PerfTimer.v
FileLock.v
FileManager.v
Store.v
Upload.v
Download.v
Listing.v
ClientHandler.v
Receive.v
Session.v
ServerMain.v
Dialogue.v
DownloadClient.v
Threads.v
UploadClient.v
ClientMain.v
ClientSpeech.v
Conversation.v
ClientHang.v
Discipline.v
Crowd.v
CrowdRegistry.v
CrowdStreams.v
CrowdManager.v
CrowdServer.v
CrowdHandler.v
Service.v
Custody.v
CustodyServer.v
CustodyHandler.v
CustodyEffects.v
CustodyInvariant.v
ManyClients.v
SharedStore.v
Together.v
OpenSockets.v
CustodyRun.v
StoreSpec.v
Races.v
