(* ===== verification/Prelude.v ===== *)
(** * SyncChat: a verification development

    SyncChat is a chat and file-sharing system in C: a server with one thread
    per client, a logging daemon, and a console client.  This library models
    the program function by function, as programs over a small model of the
    operating system, and proves what makes it correct.

    ** The parts of the program and their interaction

    A client connects over TCP and sends frames (an 8-byte header, type and
    length in network order, and a text).  The server's main thread accepts
    the connection and starts [client_handler] on it, which logs the client
    in, dispatches its messages, and takes it out of the registry at the end.
    The registry (client_manager.c) is shared by all threads under one mutex;
    every write to a client's socket goes through it, under the send mutex of
    the client's slot.  Uploads, downloads and the file list (file_manager.c)
    use a storage directory and per-name advisory locks (file_lock.c).  Every
    part reports to the daemon over a datagram socket (logger_client.c,
    logger/main.c), best effort.  The console client has two threads: the main
    thread reads commands and sends (client/main.c), and uploads
    (upload_client.c); the receiver thread is the only reader of the socket,
    prints messages, saves downloads (download_client.c) and hands the
    answers to an upload over to the main thread through a slot guarded by a
    mutex and a condition variable.

    ** How the program is modelled

    A program is a tree of system calls ([Posix.prog]), written with the
    notation of a monad; the definitions keep the functions' names, their
    order of calls, their early returns and their error paths.  [Posix.sem]
    gives the effect of one call on a world: the process's static variables,
    the file tree, inodes, descriptors, locks, socket streams, console, and
    an environment.  The environment holds a script of outcomes: any finite
    list of successes, short transfers and failures with arbitrary errno
    values; past its end calls succeed in full.  A theorem for every script
    is a theorem about every way in which calls may fail; [faultless] is the
    empty script.  [Wp.wp] is total correctness: the run ends, and in a world
    with the given property; [Wp.runs] states it of [Posix.run].

    C strings are lists of bytes without the final NUL, [char] arrays are cut
    at it ([CLib.c_str], [CLib.strncpy_terminated], [CLib.snprintf]);
    machine integers are [Z] with their conversions written out ([u32],
    [i32], ...); [double] is binary64 from the Standard Library.
    [CLib.Libc] stands for the library texts that differ between systems
    (strerror, localtime_r).

    Loops that depend on the environment carry fuel, and running out of it is
    [Diverge], which [wp] refutes: every theorem shows that the fuel suffices.
    [fuel_ok F en] (more fuel than scripted faults) is enough for the transfer
    loops, because each iteration either makes progress or consumes a fault;
    [stream_fuel] adds the 6400 chunks of the largest file; [list_fuel] the
    entries of the store; [Session.roomy] the bytes a client sends.  The loops
    of the daemon and of the accepting server need as much as there are
    datagrams or connections and faults; the loops of the client as much as
    there are lines of input or messages.  A signal is the end of what
    arrives, or an EINTR in the script, at the call that waits: its handler
    runs there ([Posix.interruptible]).

    The two threads of the client run interleaved ([Threads.v]): an event lets
    one thread make its next call, where a lock waits for a free mutex, a
    sleeper for a notification (or it wakes up without reason), a join for
    the end of the other thread.  [Threads.reachable] is the closure of these
    steps.  [Threads.safe] is a partial-correctness logic for the main thread
    in which every call may find the state changed by the other thread, as
    long as what is observed is the same; there, [Diverge] is a thread that
    has not ended.

    ** The files

    - Prelude: bytes, integers, notations, automation, list lemmas.
    - CLib: the C library functions the code calls, with their facts.
    - Posix: system calls, worlds, the semantics of calls and programs.
    - Wp: the program logic and the rules for each call.
    - Protocol (common/protocol.c, common/file_transfer.c): message types,
      limits, frames, the policies for user and file names.
    - NetworkIO (common/network_io.c): complete transfers.
    - Logger (logger/): the packet, the client's datagram, the daemon's loop.
      Daemon (logger/main.c): the daemon's set-up, [main] and cleanup;
      LoggerTest (logger/test_client.c): the manual test.
    - ClientManager (server/client_manager.c): the registry's operations.
      Registry: its invariant and the effect of each operation; RegistrySpec:
      its contract, a map from names to sockets and ids, and the refinement;
      Sending: which bytes reach which client.
    - PerfTimer (common/performance_timer.c).
    - FileLock (server/file_lock.c).
    - FileManager (server/file_manager.c): the three handlers.  Store: the
      view of the world from a handler, rules for the calls on the store;
      Upload, Download, Listing: what each handler does.
    - ClientHandler (server/client_handler.c): login, message loop, dispatch,
      end of a connection.  Receive: the frames received; Session: a whole
      connection, for every input and every script; Service: what it leaves in
      the registry, after CrowdHandler; Dialogue: the answers when nothing
      fails.
    - ServerMain (server/main.c): the listening socket, the accept loop, the
      creation of the threads, the shutdown.
    - DownloadClient (client/download_client.c): definitions and proofs.
    - Threads: two threads, interleaved.
    - UploadClient (client/upload_client.c), ClientMain (client/main.c): the
      definitions of the client.  ClientSpeech: what it sends, in every
      interleaving; ClientHang: an execution in which it waits for ever.
    - Conversation: client and server together.
    - Discipline: programs that keep an account of what they may do next.
    - Crowd: the threads of the server, interleaved, and the logic.
      CrowdRegistry: the invariant of mutexes and registry, its preservation,
      and what follows (soundness, no deadlock, nobody left behind);
      CrowdStreams: that of the clients' streams.  CrowdManager, CrowdServer,
      CrowdHandler: client_manager.c, file_manager.c, client_handler.c keep to
      the discipline.  ManyClients: the theorems, with computed runs; Races:
      three executions that go wrong.
    - Custody: a second discipline, of descriptors, of the temporary file of
      an upload and of the input received.  CustodyServer, CustodyHandler: the
      program keeps to it.  CustodyEffects: what the permitted calls do to
      descriptors and files; CustodyInvariant: the invariant of all threads
      and its preservation.  SharedStore: the theorems, with computed runs.
    - Together: the program keeps to both disciplines at once; OpenSockets:
      the joint invariant, and that only open sockets are written to.
    - CustodyRun: what custody says of a run without other threads; StoreSpec:
      the contract of file_manager.c, a map from names to contents, and the
      refinement.

    ** What the theorems show

    - Registry: sequences of operations answer as the abstract map does; the
      invariant (names, sockets and ids unique, inactive slots clean) holds
      whatever fails (RegistrySpec).
    - Delivery: a broadcast, a private message and a file stream append exactly
      the intended frames to exactly the intended streams; a delivery to a
      client that left reaches nobody (Sending).
    - Files: an upload publishes the complete bytes or nothing, never
      overwrites, leaks nothing and leaves the stream in step; a download
      sends the exact file; a list is framed and, without faults, complete;
      after a failed call a client has got a prefix of an answer; locks
      exclude (Upload, Download, Listing, FileLock); sequences of
      requests act on the directory as on the abstract map (StoreSpec).
    - Protocol: frames round-trip, malformed ones are refused; the accepted
      names cannot leave the store (Receive, Protocol, Upload).
    - Connections: the thread of a client always ends and leaves the rest of
      the server as it was (Session), and the registry too unless a mutex
      failed (Service); login, chat, private messages and the
      user list are answered as they should be (Dialogue).
    - Many clients: in every interleaving the registry stays sound and changes
      by whole registrations and removals; nobody waits for a mutex for ever,
      unless a thread is in [send], under a send mutex, to a client that does
      not read; in the end nobody is left in the registry; no message is
      written in the middle of another or of the bytes of a file, unless a
      [send] or the [read] of the file fails (ManyClients).  But a message can
      reach a client before its welcome, a client that does not read can stop
      the others, and after a failed [read] a message can take the place of a
      file (Races).
    - Many clients and the files: in every interleaving a descriptor is used by
      the thread that opened it only, apart from the [send] to another client's
      socket, and is closed in the end; what is in the
      store stays there, and what is new there is a complete upload of a
      client (SharedStore); a client is registered only while its socket is
      open, and nobody writes to a closed one (OpenSockets).
    - Logging: the daemon stores the valid packets in order, and what a client
      logs arrives (Logger); the daemon ends and cleans up whatever fails, and
      its file has the old contents and the new lines (Daemon).
    - Accepting: the server's main thread ends, gives every connection it can a
      thread and a descriptor of its own, and leaks none (ServerMain); each
      thread starts in the state that the theorems of Session and Service need.
    - The client: what it sends is what the server's parsers accept, whatever
      its threads do (ClientSpeech); it saves what is announced or nothing, and
      stays in step (DownloadClient); between transfers it prints every message
      in full (Conversation);
      it can miss the end of the connection and hang (ClientHang).
    - Both ends: lines typed at one client appear at the others, and a file of
      the store becomes the same file at the client (Conversation).

    ** What is not modelled

    The theorems on what one operation or one connection achieves take that
    thread's calls alone, between which nothing else happens; those of
    ManyClients, SharedStore and OpenSockets take all threads.  There,
    [send] and [recv] are one step, whenever it comes: that they may wait for
    a client is accounted for in what is said of progress
    ([CrowdRegistry.waits_for_reader]).  There, too, the
    number of a socket that has been closed may go to a file, but not to a
    later connection (the threads are given at the start, each with a socket
    of its own), the main thread is not one of the threads (it does not touch
    the registry after [client_manager_init]), and [Pthread_self] gives all
    threads one number (the names of temporary files differ by the socket).
    Other processes leave the store alone.  For the client,
    the theorems on single runs (Conversation, DownloadClient) take
    a thread alone, those of ClientSpeech and ClientHang both together; the
    bytes that the server sends are given in advance, so they do not depend on
    what the client has sent in the same execution.  [malloc] only
    succeeds or fails; clock readings are given by the environment.  Paths resolve [.]
    and [..] by name and follow a symbolic link only at the end; [shutdown] is
    recorded, but later sends on the socket may still succeed (the theorems
    allow for more than can happen).  A signal between two calls, other than
    at the waiting ones, is not modelled.  Of the headers only constants and
    types are. *)

From Stdlib Require Export ZArith Lia.
From Stdlib Require Export Init.Byte.
From Stdlib Require Import Strings.Byte Strings.String.
From stdpp Require Export prelude gmap.

#[global] Open Scope Z_scope.

(** ** Bytes *)

Abbreviation bytes := (list byte).

#[export] Instance byte_eq_decision : EqDecision byte := Byte.byte_eq_dec.

#[export] Instance byte_countable : Countable byte :=
  inj_countable Byte.to_N Byte.of_N Byte.of_to_N.

#[export] Instance byte_inhabited : Inhabited byte := populate x00.

Export String.StringSyntax.

(** A C string literal of the source, without its terminating NUL. *)
Definition B (s : String.string) : bytes := String.list_byte_of_string s.
#[global] Arguments B s%_string_scope.

(** ** Machine integers *)

Definition u8 (z : Z) : Z := z mod 2 ^ 8.
Definition u16 (z : Z) : Z := z mod 2 ^ 16.
Definition u32 (z : Z) : Z := z mod 2 ^ 32.
Definition u64 (z : Z) : Z := z mod 2 ^ 64.
(** Conversion of an unsigned int to int (two's complement). *)
Definition i32 (z : Z) : Z := (z + 2 ^ 31) mod 2 ^ 32 - 2 ^ 31.

(** ** Notations of the C operators *)

Declare Scope c_scope.
Delimit Scope c_scope with C.
Notation "x == y" := (Z.eqb x y) (at level 70, no associativity) : c_scope.
Notation "x != y" := (negb (Z.eqb x y)) (at level 70, no associativity) : c_scope.
Notation "x ||| y" := (Z.lor x y) (at level 50, left associativity) : c_scope.
#[global] Open Scope c_scope.

(** The length of a list as a [size_t]. *)
Definition zlen {A} (l : list A) : Z := Z.of_nat (length l).

(** ** Automation *)

Create HintDb sync discriminated.
Create Rewrite HintDb sync.

(** Turns the boolean tests of the code into propositions. *)
Ltac unbool :=
  repeat match goal with
  | H : negb _ = true |- _ => apply negb_true_iff in H
  | H : negb _ = false |- _ => apply negb_false_iff in H
  | H : _ && _ = true |- _ => apply andb_true_iff in H as [? ?]
  | H : _ || _ = false |- _ => apply orb_false_iff in H as [? ?]
  | H : (_ =? _)%Z = true |- _ => apply Z.eqb_eq in H
  | H : (_ =? _)%Z = false |- _ => apply Z.eqb_neq in H
  | H : (_ <? _)%Z = true |- _ => apply Z.ltb_lt in H
  | H : (_ <? _)%Z = false |- _ => apply Z.ltb_ge in H
  | H : (_ <=? _)%Z = true |- _ => apply Z.leb_le in H
  | H : (_ <=? _)%Z = false |- _ => apply Z.leb_gt in H
  | H : bool_decide _ = true |- _ => apply bool_decide_eq_true_1 in H
  | H : bool_decide _ = false |- _ => apply bool_decide_eq_false_1 in H
  end.

(** Splits the first conditional of the goal, remembering the test. *)
Ltac case_if :=
  match goal with
  | |- context [if ?b then _ else _] =>
      lazymatch type of b with
      | bool => let E := fresh "E" in destruct b eqn:E; unbool
      | _ => destruct b
      end
  end.

(** ** List lemmas *)

Lemma zlen_nonneg {A} (l : list A) : 0 <= zlen l.
Proof. unfold zlen. lia. Qed.

Lemma zlen_app {A} (l k : list A) : zlen (l ++ k) = zlen l + zlen k.
Proof. unfold zlen. rewrite length_app. lia. Qed.

Lemma zlen_cons {A} (x : A) (l : list A) : zlen (x :: l) = 1 + zlen l.
Proof. unfold zlen. simpl. lia. Qed.

Lemma zlen_nil {A} : zlen (@nil A) = 0.
Proof. reflexivity. Qed.

Lemma zlen_zero {A} (l : list A) : zlen l = 0 -> l = [].
Proof. destruct l; [done|]. unfold zlen. simpl. lia. Qed.

#[export] Hint Rewrite @zlen_app @zlen_cons @zlen_nil : sync.
#[export] Hint Resolve zlen_nonneg : sync.

Lemma take_min_length {A} (n : nat) (l : list A) : take (Nat.min n (length l)) l = take n l.
Proof.
  destruct (le_lt_dec n (length l)); [by rewrite Nat.min_l by lia|].
  rewrite Nat.min_r by lia. by rewrite !take_ge by lia.
Qed.

Lemma take_add_drop {A} (n m : nat) (l : list A) : take n l ++ take m (drop n l) = take (n + m) l.
Proof.
  revert l. induction n as [|n IH]; intros [|x l]; simpl; rewrite ?take_nil; [done..|].
  by rewrite IH.
Qed.

Lemma filter_all {A} (P : A -> Prop) `{!forall x, Decision (P x)} (l : list A) : Forall P l -> filter P l = l.
Proof. induction 1 as [|x l Hx _ IH]; [done|]. rewrite filter_cons, decide_True by done. by f_equal. Qed.

Lemma Forall2_impl_l {A A'} (P : A -> Prop) (R R' : A -> A' -> Prop) l k :
  Forall P l -> Forall2 R l k -> (forall x y, P x -> R x y -> R' x y) -> Forall2 R' l k.
Proof. intros HP HR H. revert HP. induction HR; intros HP; [constructor|]. inversion HP; subst. constructor; auto. Qed.

Lemma Forall2_impl_r {A A'} (P : A' -> Prop) (R R' : A -> A' -> Prop) l k :
  Forall P k -> Forall2 R l k -> (forall x y, P y -> R x y -> R' x y) -> Forall2 R' l k.
Proof. intros HP HR H. apply Forall2_flip. apply (Forall2_impl_l P (flip R)); [done|by apply Forall2_flip|]. naive_solver. Qed.
