(* ===== verification/CLib.v ===== *)
(** * The C standard library, as far as the program uses it

    Strings are lists of bytes without the terminating NUL ([c_str] cuts a
    buffer at its first NUL, [cstring] says that a list holds none); a
    [const char *] that the code compares with NULL is an [option bytes].
    The locale is the initial "C" locale: no file under src/ calls
    [setlocale]. *)

From S2P Require Import Prelude.

(** ** Characters *)

Definition byte_val (b : byte) : Z := Z.of_N (Byte.to_N b).

(** The conversion of an integer to [unsigned char]. *)
Definition byte_of (z : Z) : byte :=
  match Byte.of_N (Z.to_N (z mod 256)) with Some b => b | None => x00 end.

Definition in_range (lo hi : Z) (b : byte) : bool :=
  (lo <=? byte_val b) && (byte_val b <=? hi).

Definition isdigit (b : byte) : bool := in_range 48 57 b.
Definition isupper (b : byte) : bool := in_range 65 90 b.
Definition islower (b : byte) : bool := in_range 97 122 b.
Definition isalnum (b : byte) : bool := isdigit b || isupper b || islower b.
(** Space, or one of [\t \n \v \f \r]. *)
Definition isspace (b : byte) : bool := (byte_val b == 32) || in_range 9 13 b.

Abbreviation NUL := x00 (only parsing).
Abbreviation NEWLINE := x0a (only parsing).
Abbreviation SPACE := x20 (only parsing).
Abbreviation SLASH := x2f (only parsing).
Abbreviation DOT := x2e (only parsing).
Abbreviation DASH := x2d (only parsing).
Abbreviation UNDERSCORE := x5f (only parsing).
Abbreviation BAR := x7c (only parsing).

(** ** Strings *)

(** The longest prefix whose bytes satisfy [p], and the rest. *)
Fixpoint span (p : byte -> bool) (s : bytes) : bytes * bytes :=
  match s with
  | [] => ([], [])
  | b :: s' => if p b then let '(u, v) := span p s' in (b :: u, v) else ([], s)
  end.

Definition cstring (s : bytes) : Prop := NUL ∉ s.

(** The C string a buffer holds. *)
Definition c_str (buffer : bytes) : bytes := fst (span (fun b => bool_decide (b ≠ NUL)) buffer).

Definition strlen (s : bytes) : Z := zlen s.

(** [strnlen(s, n)] on a buffer of at least [n] bytes. *)
Definition strnlen (buffer : bytes) (n : Z) : Z := strlen (c_str (take (Z.to_nat n) buffer)).

(** The index of the first occurrence, if any. *)
Fixpoint strchr (s : bytes) (c : byte) : option nat :=
  match s with
  | [] => None
  | b :: s' => if decide (b = c) then Some 0%nat else S <$> strchr s' c
  end.

(** The index of the last occurrence, if any. *)
Fixpoint strrchr (s : bytes) (c : byte) : option nat :=
  match s with
  | [] => None
  | b :: s' => match strrchr s' c with
               | Some i => Some (S i)
               | None => if decide (b = c) then Some 0%nat else None
               end
  end.

(** [strncmp(s, t, n) == 0]. *)
Definition strneq (s t : bytes) (n : nat) : bool := bool_decide (take n s = take n t).

(** [strcmp(s, t) == 0]. *)
Definition streq (s t : bytes) : bool := bool_decide (s = t).

(** The index of the first occurrence of a string, if any. *)
Fixpoint strstr (s t : bytes) : option nat :=
  if strneq s t (length t) then Some 0%nat
  else match s with [] => None | _ :: s' => S <$> strstr s' t end.

(** [strcspn(s, "\n")] *)
Definition strcspn_newline (s : bytes) : nat := length (fst (span (fun b => bool_decide (b ≠ NEWLINE)) s)).

(** [strncpy(d, s, size - 1); d[size - 1] = '\0'] *)
Definition strncpy_terminated (s : bytes) (size : Z) : bytes := take (Z.to_nat (size - 1)) s.

(** [snprintf] of an already formatted text: the return value, which is the
    untruncated length, and the string left in the buffer. *)
Definition snprintf (size : Z) (text : bytes) : Z * bytes :=
  (zlen text, take (Z.to_nat (size - 1)) text).

(** [fgets(buffer, size, stdin)]: [None] at end of file, otherwise the line
    read (with its newline when it fits) and the rest of the input. *)
Fixpoint read_line (n : nat) (input : bytes) : bytes * bytes :=
  match n, input with
  | S n', b :: input' =>
      if decide (b = NEWLINE) then ([b], input')
      else let '(u, v) := read_line n' input' in (b :: u, v)
  | _, _ => ([], input)
  end.

Definition fgets (size : Z) (input : bytes) : option (bytes * bytes) :=
  match input with [] => None | _ => Some (read_line (Z.to_nat (size - 1)) input) end.

(** ** Numbers in decimal *)

Definition digit (z : Z) : byte := byte_of (48 + z).

Fixpoint dec_digits (fuel : nat) (z : Z) : bytes :=
  match fuel with
  | O => [digit (z mod 10)]
  | S f => if z <? 10 then [digit z] else dec_digits f (z / 10) ++ [digit (z mod 10)]
  end.

(** [%u], [%lu], [%zu] and [PRIu64] of a non-negative value. *)
Definition dec (z : Z) : bytes := dec_digits (Z.to_nat (Z.log2 z)) z.

(** [%d] and [%ld] *)
Definition sdec (z : Z) : bytes := if z <? 0 then DASH :: dec (- z) else dec z.

(** [%02d] and [%04d] *)
Definition dec_pad (width : nat) (z : Z) : bytes :=
  let d := sdec z in replicate (width - length d) (digit 0) ++ d.

Definition digits_value (s : bytes) : Z :=
  fold_left (fun v b => 10 * v + (byte_val b - 48)) s 0.

Definition ULLONG_MAX : Z := 2 ^ 64 - 1.

(** Errno values (Linux). *)
Definition ENOENT : Z := 2.
Definition EINTR : Z := 4.
Definition EIO : Z := 5.
Definition EBADF : Z := 9.
Definition EEXIST : Z := 17.
Definition ENOTDIR : Z := 20.
Definition EISDIR : Z := 21.
Definition EINVAL : Z := 22.
Definition ERANGE : Z := 34.
Definition ENAMETOOLONG : Z := 36.
Definition ELOOP : Z := 40.
Definition EADDRINUSE : Z := 98.

(** The result of [strtoull(text, &end, 10)]: the value, the offset of [end]
    and the errno it sets, if any. *)
Record strtoull_result := { st_value : Z; st_end : nat; st_errno : option Z }.

Definition strtoull (text : bytes) : strtoull_result :=
  let '(blanks, r) := span isspace text in
  let '(negative, sign, r) :=
    match r with
    | x2d :: r' => (true, 1%nat, r')
    | x2b :: r' => (false, 1%nat, r')
    | _ => (false, 0%nat, r)
    end in
  let '(digits, _) := span isdigit r in
  match digits with
  | [] => {| st_value := 0; st_end := 0%nat; st_errno := None |}
  | _ =>
      let v := digits_value digits in
      let e := (length blanks + sign + length digits)%nat in
      if ULLONG_MAX <? v
      then {| st_value := ULLONG_MAX; st_end := e; st_errno := Some ERANGE |}
      else {| st_value := if negative : bool then u64 (- v) else v; st_end := e; st_errno := None |}
  end.

(** ** Byte order *)

(** The four bytes in memory of [htonl(z)]. *)
Definition be32 (z : Z) : bytes :=
  [byte_of (z / 2 ^ 24); byte_of (z / 2 ^ 16); byte_of (z / 2 ^ 8); byte_of z].

(** [ntohl] of four bytes read from memory. *)
Definition of_be32 (s : bytes) : Z := fold_left (fun v b => 256 * v + byte_val b) s 0.

(** Little-endian layout of an integer member of a struct (x86-64). *)
Fixpoint le_bytes (n : nat) (z : Z) : bytes :=
  match n with O => [] | S n' => byte_of z :: le_bytes n' (z / 256) end.

Fixpoint of_le_bytes (s : bytes) : Z :=
  match s with [] => 0 | b :: s' => byte_val b + 256 * of_le_bytes s' end.

(** ** Library functions whose result is the system's choice *)

Record tm := { tm_year : Z; tm_mon : Z; tm_mday : Z; tm_hour : Z; tm_min : Z; tm_sec : Z }.

(** The error texts and the time zone rules. *)
Class Libc := {
  strerror : Z -> bytes;
  localtime_r : Z -> option tm
}.

(** A library for the examples: no message texts, and a clock that stands still. *)
Definition plain_libc : Libc := {|
  strerror := fun _ => B "Error";
  localtime_r := fun _ => Some {| tm_year := 70; tm_mon := 0; tm_mday := 1; tm_hour := 0; tm_min := 0; tm_sec := 0 |}
|}.

(** ** Lemmas on characters *)

Lemma byte_val_range b : 0 <= byte_val b < 256.
Proof. unfold byte_val. pose proof (Byte.to_N_bounded b). lia. Qed.

Lemma byte_val_of z : byte_val (byte_of z) = z mod 256.
Proof.
  unfold byte_val, byte_of.
  pose proof (Z.mod_pos_bound z 256 ltac:(lia)) as Hr.
  destruct (Byte.of_N (Z.to_N (z mod 256))) as [b|] eqn:E.
  - apply Byte.to_of_N in E. rewrite E. lia.
  - apply Byte.of_N_None_iff in E. lia.
Qed.

Lemma byte_val_inj b c : byte_val b = byte_val c -> b = c.
Proof.
  unfold byte_val. intros H. apply N2Z.inj in H.
  pose proof (Byte.of_to_N b) as Hb. pose proof (Byte.of_to_N c) as Hc.
  rewrite H in Hb. congruence.
Qed.

Lemma byte_of_val b : byte_of (byte_val b) = b.
Proof.
  apply byte_val_inj. rewrite byte_val_of. apply Z.mod_small, byte_val_range.
Qed.

#[export] Instance byte_val_injective : Inj eq eq byte_val := byte_val_inj.

Lemma byte_val_digit z : 0 <= z < 10 -> byte_val (digit z) = 48 + z.
Proof. intros. unfold digit. rewrite byte_val_of. apply Z.mod_small. lia. Qed.

Lemma isdigit_digit z : 0 <= z < 10 -> isdigit (digit z) = true.
Proof.
  intros. unfold isdigit, in_range. rewrite byte_val_digit by lia.
  apply andb_true_iff. split; apply Z.leb_le; lia.
Qed.

(** ** Lemmas on strings *)

Lemma span_app p s u v : span p s = (u, v) -> s = u ++ v.
Proof.
  revert u v. induction s as [|b s IH]; intros u v; simpl; [by intros [= <- <-]|].
  destruct (p b); [|by intros [= <- <-]].
  destruct (span p s) as [u' v'] eqn:E. intros [= <- <-]. simpl. f_equal. by apply IH.
Qed.

Lemma span_all p s u v : span p s = (u, v) -> Forall (fun b => p b = true) u.
Proof.
  revert u v. induction s as [|b s IH]; intros u v; simpl; [intros [= <- <-]; constructor|].
  destruct (p b) eqn:Hb; [|intros [= <- <-]; constructor].
  destruct (span p s) as [u' v'] eqn:E. intros [= <- <-]. constructor; eauto.
Qed.

Lemma span_stop p u b v : Forall (fun b => p b = true) u -> p b = false -> span p (u ++ b :: v) = (u, b :: v).
Proof.
  intros Hu Hb. induction Hu as [|c u Hc Hu IH]; simpl; [by rewrite Hb|].
  by rewrite Hc, IH.
Qed.

Lemma span_full p u : Forall (fun b => p b = true) u -> span p u = (u, []).
Proof. induction 1 as [|b u Hb Hu IH]; simpl; [done|]. by rewrite Hb, IH. Qed.

Lemma c_str_cstring buffer : cstring (c_str buffer).
Proof.
  unfold cstring, c_str. destruct (span _ buffer) as [u v] eqn:E. simpl.
  apply span_all in E. intros H. rewrite Forall_forall in E. apply E in H. by unbool.
Qed.

Lemma cstring_all s : cstring s -> Forall (fun b => bool_decide (b ≠ NUL) = true) s.
Proof.
  unfold cstring. intros Hs. apply Forall_forall. intros x Hx. apply bool_decide_eq_true.
  intros ->. by apply Hs.
Qed.

Lemma c_str_id s : cstring s -> c_str s = s.
Proof. intros Hs. unfold c_str. by rewrite (span_full _ _ (cstring_all _ Hs)). Qed.

Lemma c_str_terminated s rest : cstring s -> c_str (s ++ NUL :: rest) = s.
Proof.
  intros Hs. unfold c_str. rewrite (span_stop _ _ _ _ (cstring_all _ Hs)); [done|].
  apply bool_decide_eq_false. naive_solver.
Qed.

Lemma c_str_length buffer : (length (c_str buffer) <= length buffer)%nat.
Proof.
  unfold c_str. destruct (span _ buffer) as [u v] eqn:E. apply span_app in E as ->.
  simpl. rewrite length_app. lia.
Qed.

Lemma cstring_app s t : cstring (s ++ t) <-> cstring s /\ cstring t.
Proof. unfold cstring. rewrite elem_of_app. tauto. Qed.

Lemma cstring_take n s : cstring s -> cstring (take n s).
Proof. intros H. rewrite <- (take_drop n s) in H. by apply cstring_app in H as [? _]. Qed.

Lemma cstring_drop n s : cstring s -> cstring (drop n s).
Proof. intros H. rewrite <- (take_drop n s) in H. by apply cstring_app in H as [_ ?]. Qed.

#[export] Instance cstring_dec s : Decision (cstring s).
Proof. unfold cstring. apply _. Defined.

Lemma strchr_Some s c i :
  strchr s c = Some i ->
  (s = take i s ++ (c :: drop (S i) s)) /\ (c ∉ take i s) /\ (i < length s)%nat.
Proof.
  revert i. induction s as [|b s IH]; intros i; simpl; [done|].
  case_decide as Hb; [intros [= <-]; subst; simpl; split_and!; [done|set_solver|lia]|].
  destruct (strchr s c) as [j|] eqn:E; simpl; [|done]. intros [= <-].
  destruct (IH j eq_refl) as (Hs & Hn & Hl). simpl. split_and!.
  - by f_equal.
  - set_solver.
  - lia.
Qed.

Lemma strchr_None s c : strchr s c = None <-> c ∉ s.
Proof.
  induction s as [|b s IH]; simpl; [split; [set_solver|done]|].
  case_decide; [subst; split; [done|set_solver]|].
  rewrite fmap_None, IH. set_solver.
Qed.

Lemma strchr_app s c t : c ∉ s -> strchr (s ++ c :: t) c = Some (length s).
Proof.
  induction s as [|b s IH]; simpl; intros H; [by rewrite decide_True|].
  rewrite decide_False by set_solver. rewrite IH by set_solver. done.
Qed.

Lemma strneq_true s t n : strneq s t n = true <-> take n s = take n t.
Proof. unfold strneq. by rewrite bool_decide_eq_true. Qed.

Lemma strneq_prefix p s : strneq (p ++ s) p (length p) = true.
Proof. apply strneq_true. by rewrite take_app_length, take_ge. Qed.

Lemma streq_true s t : streq s t = true <-> s = t.
Proof. unfold streq. by rewrite bool_decide_eq_true. Qed.

Lemma strstr_None s t : strstr s t = None -> forall u v, s ≠ u ++ t ++ v.
Proof.
  revert t. induction s as [|b s IH]; intros t; simpl.
  - destruct (strneq [] t (length t)) eqn:E; [done|]. intros _ u v H.
    symmetry in H. apply app_eq_nil in H as [-> [-> ->]%app_eq_nil]. done.
  - destruct (strneq (b :: s) t (length t)) eqn:E; [done|].
    destruct (strstr s t) eqn:E'; [done|]. intros _ [|c u] v H; simpl in H.
    + rewrite H, strneq_prefix in E. done.
    + injection H as -> H. eapply IH; eauto.
Qed.

Lemma strstr_Some s t i : strstr s t = Some i -> exists u v, s = u ++ t ++ v.
Proof.
  revert i. induction s as [|b s IH]; intros i; cbn [strstr].
  - destruct (strneq [] t (length t)) eqn:E; [|done]. intros _. apply strneq_true in E.
    rewrite take_nil, take_ge in E by lia. exists [], []. by subst.
  - destruct (strneq (b :: s) t (length t)) eqn:E.
    + intros _. apply strneq_true in E. rewrite (take_ge t) in E by lia.
      exists [], (drop (length t) (b :: s)). rewrite <- E at 1. by rewrite app_nil_l, take_drop.
    + destruct (strstr s t) as [j|]; [|done]. intros _.
      destruct (IH j eq_refl) as (u & v & ->). by exists (b :: u), v.
Qed.

Lemma snprintf_fits size text n s :
  snprintf size text = (n, s) -> n < size -> s = text.
Proof.
  unfold snprintf. intros [= <- <-] H. apply take_ge. unfold zlen in H. lia.
Qed.

(** ** Lemmas on numbers *)

Lemma dec_digits_value fuel z acc :
  0 <= z < 10 ^ (Z.of_nat fuel + 1) ->
  fold_left (fun v b => 10 * v + (byte_val b - 48)) (dec_digits fuel z) acc
  = acc * 10 ^ zlen (dec_digits fuel z) + z.
Proof.
  revert z acc. induction fuel as [|f IH]; intros z acc Hz; cbn [dec_digits].
  - change (10 ^ (Z.of_nat 0 + 1)) with 10 in Hz. rewrite Z.mod_small by lia.
    simpl. rewrite byte_val_digit by lia. unfold zlen. simpl. lia.
  - case_if; simpl.
    + rewrite byte_val_digit by lia. unfold zlen. simpl. lia.
    + rewrite fold_left_app, IH.
      * simpl. rewrite byte_val_digit by (apply Z.mod_pos_bound; lia).
        rewrite zlen_app, Z.pow_add_r by (auto with sync; unfold zlen; simpl; lia).
        change (zlen [digit (z mod 10)]) with 1. pose proof (Z.div_mod z 10). lia.
      * replace (Z.of_nat (S f) + 1) with (Z.succ (Z.of_nat f + 1)) in Hz by lia.
        rewrite Z.pow_succ_r in Hz by lia. split; [apply Z.div_pos; lia|].
        apply Z.div_lt_upper_bound; lia.
Qed.

Lemma dec_digits_digits fuel z :
  0 <= z -> Forall (fun b => isdigit b = true) (dec_digits fuel z).
Proof.
  revert z. induction fuel as [|f IH]; intros z Hz; cbn [dec_digits].
  - constructor; [|constructor]. apply isdigit_digit, Z.mod_pos_bound. lia.
  - case_if; [constructor; [apply isdigit_digit; lia|constructor]|].
    apply Forall_app; split; [apply IH, Z.div_pos; lia|].
    constructor; [|constructor]. apply isdigit_digit, Z.mod_pos_bound. lia.
Qed.

Lemma dec_digits_nonempty fuel z : dec_digits fuel z ≠ [].
Proof. destruct fuel; simpl; [done|]. case_if; [done|]. by destruct (dec_digits _ _). Qed.

Lemma log2_pow10 z : 0 <= z -> z < 10 ^ (Z.of_nat (Z.to_nat (Z.log2 z)) + 1).
Proof.
  intros Hz. rewrite Z2Nat.id by apply Z.log2_nonneg.
  destruct (Z.eq_dec z 0) as [->|]; [reflexivity|].
  pose proof (Z.log2_spec z ltac:(lia)) as [_ Hs].
  eapply Z.lt_le_trans; [exact Hs|]. rewrite <- Z.add_1_r.
  apply Z.pow_le_mono_l. lia.
Qed.

(** Printing then reading a number back. *)
Lemma digits_value_dec z : 0 <= z -> digits_value (dec z) = z.
Proof.
  intros Hz. unfold digits_value, dec. rewrite dec_digits_value; [lia|].
  split; [done|by apply log2_pow10].
Qed.

Lemma dec_digits_all z : 0 <= z -> Forall (fun b => isdigit b = true) (dec z).
Proof. apply dec_digits_digits. Qed.

Lemma dec_nonempty z : dec z ≠ [].
Proof. apply dec_digits_nonempty. Qed.

Lemma dec_digits_length fuel z n :
  0 <= z < 10 ^ Z.of_nat (S n) -> (length (dec_digits fuel z) <= S n)%nat.
Proof.
  revert z n. induction fuel as [|f IH]; intros z n Hz; cbn [dec_digits]; [simpl; lia|].
  case_if; [simpl; lia|]. destruct n as [|n].
  - change (10 ^ Z.of_nat 1) with 10 in Hz. lia.
  - rewrite length_app. simpl. enough (length (dec_digits f (z / 10)) <= S n)%nat by lia.
    apply IH. replace (Z.of_nat (S (S n))) with (Z.succ (Z.of_nat (S n))) in Hz by lia.
    rewrite Z.pow_succ_r in Hz by lia. split; [apply Z.div_pos; lia|].
    apply Z.div_lt_upper_bound; lia.
Qed.

(** The length of a decimal number of at most [n + 1] digits. *)
Lemma dec_length z n : 0 <= z < 10 ^ Z.of_nat (S n) -> zlen (dec z) <= Z.of_nat (S n).
Proof. intros Hz. unfold zlen, dec. pose proof (dec_digits_length (Z.to_nat (Z.log2 z)) z n Hz). lia. Qed.

Lemma isdigit_val b : isdigit b = true -> 48 <= byte_val b <= 57.
Proof. unfold isdigit, in_range. intros H. unbool. lia. Qed.

Lemma isdigit_not_isspace b : isdigit b = true -> isspace b = false.
Proof.
  intros H%isdigit_val. unfold isspace, in_range.
  apply orb_false_iff. split; [apply Z.eqb_neq; lia|].
  apply andb_false_iff. right. apply Z.leb_gt. lia.
Qed.

Lemma dec_cstring z : 0 <= z -> cstring (dec z).
Proof.
  intros Hz Hin. pose proof (dec_digits_all z Hz) as Hd. rewrite Forall_forall in Hd.
  apply Hd in Hin. by vm_compute in Hin.
Qed.

Lemma dec_not_in z b : 0 <= z -> isdigit b = false -> b ∉ dec z.
Proof.
  intros Hz Hb Hin. pose proof (dec_digits_all z Hz) as Hd. rewrite Forall_forall in Hd.
  apply Hd in Hin. congruence.
Qed.

(** [strtoull] reads back what [PRIu64] printed. *)
Lemma strtoull_dec z :
  0 <= z <= ULLONG_MAX ->
  strtoull (dec z) = {| st_value := z; st_end := length (dec z); st_errno := None |}.
Proof.
  intros Hz. pose proof (dec_digits_all z ltac:(lia)) as Hd.
  pose proof (digits_value_dec z ltac:(lia)) as Hv.
  destruct (dec z) as [|b s] eqn:E; [by apply dec_nonempty in E|].
  pose proof (Forall_inv Hd) as Hb. simpl in Hb.
  unfold strtoull. cbn [span]. rewrite (isdigit_not_isspace _ Hb).
  assert (Hsign : b ≠ x2d /\ b ≠ x2b) by (split; intros ->; by vm_compute in Hb).
  replace (match b :: s with
           | x2d :: r' => (true, 1%nat, r')
           | x2b :: r' => (false, 1%nat, r')
           | _ => (false, 0%nat, b :: s)
           end) with (false, 0%nat, b :: s) by (destruct b; tauto).
  rewrite (span_full _ _ Hd). rewrite Hv.
  replace (ULLONG_MAX <? z) with false by (symmetry; apply Z.ltb_ge; lia).
  reflexivity.
Qed.

(** ** Lemmas on byte order *)

Lemma length_be32 z : length (be32 z) = 4%nat.
Proof. reflexivity. Qed.

Lemma of_be32_be32 z : 0 <= z < 2 ^ 32 -> of_be32 (be32 z) = z.
Proof.
  intros Hz. unfold of_be32, be32. cbn [fold_left]. rewrite !byte_val_of.
  replace (z / 2 ^ 8) with (z / 256) by reflexivity.
  replace (z / 2 ^ 16) with (z / 256 / 256) by (rewrite Z.div_div by lia; reflexivity).
  replace (z / 2 ^ 24) with (z / 256 / 256 / 256) by (rewrite !Z.div_div by lia; reflexivity).
  assert (z / 256 / 256 / 256 < 256).
  { rewrite !Z.div_div by lia. apply Z.div_lt_upper_bound; lia. }
  assert (0 <= z / 256 / 256 / 256) by (rewrite !Z.div_div by lia; apply Z.div_pos; lia).
  rewrite (Z.mod_small (z / 256 / 256 / 256)) by lia.
  pose proof (Z.div_mod z 256). pose proof (Z.div_mod (z / 256) 256).
  pose proof (Z.div_mod (z / 256 / 256) 256). lia.
Qed.

Lemma of_be32_range s : length s = 4%nat -> 0 <= of_be32 s < 2 ^ 32.
Proof.
  intros Hs. destruct s as [|a [|b [|c [|d [|]]]]]; try done. unfold of_be32. cbn [fold_left].
  pose proof (byte_val_range a). pose proof (byte_val_range b). pose proof (byte_val_range c). pose proof (byte_val_range d). lia.
Qed.

Lemma be32_of_be32 s : length s = 4%nat -> be32 (of_be32 s) = s.
Proof.
  intros Hs. pose proof (of_be32_range s Hs) as Hr. destruct s as [|a [|b [|c [|d [|]]]]]; try done.
  unfold be32, of_be32 in *. cbn [fold_left] in *.
  assert (Hb : forall z x y, z = 256 * y + byte_val x -> byte_of z = x /\ z / 256 = y).
  { intros z x y ->. pose proof (byte_val_range x). split.
    - apply byte_val_inj. rewrite byte_val_of. rewrite Z.mul_comm, Z.add_comm, Z_mod_plus_full. by apply Z.mod_small.
    - rewrite Z.mul_comm, Z.div_add_l by lia. rewrite (Z.div_small (byte_val x)) by done. lia. }
  destruct (Hb _ d (256 * (256 * (256 * 0 + byte_val a) + byte_val b) + byte_val c) eq_refl) as [-> E1].
  destruct (Hb _ c (256 * (256 * 0 + byte_val a) + byte_val b) eq_refl) as [E2 E3].
  destruct (Hb _ b (256 * 0 + byte_val a) eq_refl) as [E4 E5].
  destruct (Hb _ a 0 eq_refl) as [E6 _].
  replace (2 ^ 24) with (256 * 256 * 256) by done. replace (2 ^ 16) with (256 * 256) by done. replace (2 ^ 8) with 256 by done.
  rewrite <- !Z.div_div by lia. by rewrite E1, E2, E3, E4, E5, E6.
Qed.

Lemma of_le_le n z : 0 <= z < 256 ^ Z.of_nat n -> of_le_bytes (le_bytes n z) = z.
Proof.
  revert z. induction n as [|n IH]; intros z Hz; cbn [le_bytes of_le_bytes]; [simpl in Hz; lia|].
  replace (Z.of_nat (S n)) with (Z.succ (Z.of_nat n)) in Hz by lia.
  rewrite Z.pow_succ_r in Hz by lia. rewrite byte_val_of, IH.
  - pose proof (Z.div_mod z 256). lia.
  - split; [apply Z.div_pos; lia|apply Z.div_lt_upper_bound; lia].
Qed.

Lemma length_le_bytes n z : length (le_bytes n z) = n.
Proof. revert z. induction n; intros; simpl; [done|]. by f_equal. Qed.

Lemma digits_value_nonneg s : Forall (fun b => isdigit b = true) s -> 0 <= digits_value s.
Proof.
  intros Hs. unfold digits_value. assert (H : forall v, 0 <= v -> 0 <= fold_left (fun v b => 10 * v + (byte_val b - 48)) s v).
  { induction Hs as [|b s Hb Hs IH]; intros v Hv; simpl; [done|]. apply IH. apply isdigit_val in Hb. lia. }
  by apply H.
Qed.

Lemma strtoull_range text : 0 <= st_value (strtoull text) <= ULLONG_MAX.
Proof.
  unfold strtoull. destruct (span isspace text) as [blanks r].
  destruct (match r with x2d :: r' => _ | x2b :: r' => _ | _ => _ end) as [[negative sign] r'].
  destruct (span isdigit r') as [digits rest] eqn:E. apply span_all in E.
  destruct digits as [|b s] eqn:Ed; [by vm_compute|]. rewrite <- Ed in *.
  pose proof (digits_value_nonneg _ E). case_if; [by vm_compute|]. simpl.
  destruct negative; [|done]. unfold u64, ULLONG_MAX. pose proof (Z.mod_pos_bound (- digits_value digits) (2 ^ 64)). lia.
Qed.

(** The texts that [strtoull] reads as a number to their very end: blanks, a
    sign, digits that fit (a negative number wraps around). *)
Definition numeral (text : bytes) (n : Z) : Prop :=
  exists blanks sign digits, text = blanks ++ sign ++ digits /\
    Forall (fun b => isspace b = true) blanks /\ Forall (fun b => isdigit b = true) digits /\ digits ≠ [] /\
    digits_value digits <= ULLONG_MAX /\
    ((sign = [] \/ sign = [x2b]) /\ n = digits_value digits \/ sign = [x2d] /\ n = u64 (- digits_value digits)).

Lemma span_blanks blanks sign digits :
  Forall (fun b => isspace b = true) blanks -> Forall (fun b => isdigit b = true) digits -> digits ≠ [] ->
  sign = [] \/ sign = [x2b] \/ sign = [x2d] ->
  span isspace (blanks ++ sign ++ digits) = (blanks, sign ++ digits).
Proof.
  intros Hb Hd Hne Hs. destruct (sign ++ digits) as [|c t] eqn:E; [by destruct sign, digits|].
  apply span_stop; [done|]. destruct Hs as [->|[->| ->]]; [|by injection E as <- _..].
  simpl in E. subst digits. inversion Hd; subst. by apply isdigit_not_isspace.
Qed.

Lemma strtoull_parts blanks sign digits :
  Forall (fun b => isspace b = true) blanks -> Forall (fun b => isdigit b = true) digits -> digits ≠ [] ->
  sign = [] \/ sign = [x2b] \/ sign = [x2d] ->
  strtoull (blanks ++ sign ++ digits) =
    if ULLONG_MAX <? digits_value digits
    then {| st_value := ULLONG_MAX; st_end := length (blanks ++ sign ++ digits); st_errno := Some ERANGE |}
    else {| st_value := if decide (sign = [x2d]) then u64 (- digits_value digits) else digits_value digits;
            st_end := length (blanks ++ sign ++ digits); st_errno := None |}.
Proof.
  intros Hb Hd Hne Hs. unfold strtoull. rewrite span_blanks by done. rewrite !length_app.
  destruct Hs as [->|[->| ->]]; cbn [app].
  2,3: rewrite (span_full _ _ Hd); destruct digits as [|c t]; [done|]; rewrite Nat.add_assoc; by case_if.
  destruct digits as [|c t] eqn:Ed; [done|]. assert (Hc : isdigit c = true) by (by inversion Hd).
  destruct c; try (by vm_compute in Hc); rewrite (span_full _ _ Hd); cbn [length]; by rewrite Nat.add_assoc.
Qed.

Lemma strtoull_numeral text n :
  st_errno (strtoull text) = None /\ (st_end (strtoull text) ≠ 0)%nat /\ drop (st_end (strtoull text)) text = [] /\
    st_value (strtoull text) = n <->
  numeral text n.
Proof.
  split.
  - intros (He & Hz & Hd & Hv). unfold strtoull in *.
    destruct (span isspace text) as [blanks r] eqn:Eb.
    assert (exists sign r' neg, (match r with x2d :: r' => (true, 1%nat, r') | x2b :: r' => (false, 1%nat, r') | _ => (false, 0%nat, r) end)
              = (neg, length sign, r') /\ r = sign ++ r' /\
              (neg = true /\ sign = [x2d] \/ neg = false /\ (sign = [] \/ sign = [x2b]))) as (sign & r' & neg & E & Hr & Hs).
    { destruct r as [|c r0]; [by exists [], [], false; split_and!; auto|].
      destruct c; try (by eexists [], _, false; split_and!; auto);
        [by exists [x2b], r0, false; split_and!; auto|by exists [x2d], r0, true; split_and!; auto]. }
    rewrite E in *. destruct (span isdigit r') as [digits rest] eqn:Ed.
    pose proof (span_app _ _ _ _ Eb) as Ht. pose proof (span_app _ _ _ _ Ed) as Hr'.
    destruct digits as [|c t] eqn:Edd; [done|]. rewrite <- Edd in *.
    destruct (ULLONG_MAX <? digits_value digits) eqn:El; [done|]. simpl in *. unbool.
    exists blanks, sign, digits. split_and!; [|by eapply span_all|by eapply span_all|by subst|done|].
    + rewrite Ht, Hr, Hr' in Hd |- *. rewrite !app_assoc, <- length_app, <- length_app, drop_app_length in Hd by idtac.
      rewrite Hd. by rewrite app_nil_r.
    + destruct Hs as [[-> ->]|[-> ?]]; auto.
  - intros (blanks & sign & digits & -> & Hb & Hd & Hne & Hm & Hs).
    assert (Hsign : sign = [] \/ sign = [x2b] \/ sign = [x2d]) by tauto.
    rewrite strtoull_parts by done. rewrite (proj2 (Z.ltb_ge _ _)) by done. cbn [st_errno st_end st_value].
    split_and!; [done| |by apply drop_ge| ].
    + rewrite !length_app. destruct digits; [done|simpl; lia].
    + destruct Hs as [[[->| ->] ->]|[-> ->]]; by case_decide.
Qed.
