(* ===== verification/Posix.v ===== *)
(** * The operating system seen by the program

    Programs are trees of calls ([prog]); [sem] gives the effect of one call
    on a [world], and [run]/[wp] execute a whole program.  A world has
    - [env]: what the environment decides or observes outside the system's
      own state: the script of outcomes of the coming fallible calls (an
      arbitrary finite list: any call may fail with any errno or transfer
      fewer bytes than asked; past its end calls succeed in full), errno, the
      datagrams sent to the logger and the clock readings;
    - [kern]: the file tree, descriptor table, file locks, socket streams,
      held mutexes, console and static variables of the process.
    Loops of the source carry a fuel; running out of it is [Diverge], which
    [wp] forbids, so every [wp] theorem is one of total correctness. *)

From S2P Require Import Prelude CLib.

(** ** Calls *)

(** The mutexes of the server ([clients_mutex], [clients[i].send_mutex]) and
    of the client ([upload_mutex], [output_mutex]). *)
Inductive mutex :=
  | Clients_mutex
  | Send_mutex (slot : Z)
  | Upload_mutex
  | Output_mutex.

#[export] Instance mutex_eq_dec : EqDecision mutex.
Proof. solve_decision. Defined.

#[export] Instance mutex_countable : Countable mutex.
Proof.
  refine (inj_countable'
    (fun m => match m with
      | Clients_mutex => inl 0%nat | Upload_mutex => inl 1%nat
      | Output_mutex => inl 2%nat | Send_mutex s => inr s end)
    (fun x => match x with
      | inl 0%nat => Clients_mutex | inl 1%nat => Upload_mutex
      | inl _ => Output_mutex | inr s => Send_mutex s end) _).
  by intros [].
Defined.

(** Open flags (Linux, x86-64). *)
Definition O_RDONLY : Z := 0.
Definition O_WRONLY : Z := 1.
Definition O_RDWR : Z := 2.
Definition O_CREAT : Z := 64.
Definition O_EXCL : Z := 128.
Definition O_APPEND : Z := 1024.
Definition O_DIRECTORY : Z := 65536.
Definition O_NOFOLLOW : Z := 131072.
Definition O_CLOEXEC : Z := 524288.

Definition MODE_0600 : Z := 384.
Definition MODE_0644 : Z := 420.
Definition MODE_0755 : Z := 493.

Definition EXIT_SUCCESS : Z := 0.
Definition EXIT_FAILURE : Z := 1.
Definition SIGINT : Z := 2.
Definition SIGTERM : Z := 15.

Definition has (flags bit : Z) : bool := Z.land flags bit != 0.

(** What [stat] reports. *)
Inductive file_type := S_IFREG | S_IFDIR | S_IFLNK | S_IFOTHER.

Record stat_t := { st_type : file_type; st_size : Z }.

Definition S_ISREG (i : stat_t) : bool := match st_type i with S_IFREG => true | _ => false end.
Definition S_ISDIR (i : stat_t) : bool := match st_type i with S_IFDIR => true | _ => false end.

(** Lock types of [struct flock]; the locked range is always the whole file. *)
Inductive lock_type := F_RDLCK | F_WRLCK | F_UNLCK.

#[export] Instance lock_type_eq_dec : EqDecision lock_type.
Proof. solve_decision. Defined.

Inductive sys (S : Type) :=
  | Get_static | Put_static (s : S) | Modify (f : S -> S)
  | Errno | Set_errno (e : Z)
  | Mutex_init (m : mutex) | Mutex_destroy (m : mutex)
  | Mutex_lock (m : mutex) | Mutex_unlock (m : mutex)
  | Cond_sleep (m : mutex) | Cond_wake (m : mutex) | Cond_notify
  | Pthread_self | Getpid
  | Send (fd : Z) (buffer : bytes) | Recv (fd : Z) (length : Z) | Shutdown (fd : Z)
  | Open (path : bytes) (flags mode : Z) | Openat (dirfd : Z) (path : bytes) (flags mode : Z)
  | Close (fd : Z)
  | Read (fd : Z) (length : Z) | Write (fd : Z) (buffer : bytes)
  | Stat (path : bytes) | Lstat (path : bytes) | Fstat (fd : Z)
  | Fstatat_nofollow (dirfd : Z) (path : bytes)
  | Access (path : bytes)
  | Mkdir (path : bytes) (mode : Z)
  | Unlink (path : bytes) | Unlinkat (dirfd : Z) (path : bytes)
  | Link (old new : bytes) | Linkat (olddir : Z) (old : bytes) (newdir : Z) (new : bytes)
  | Fsync (fd : Z) | Fchmod (fd mode : Z)
  | Fdopendir (fd : Z) | Readdir (dir : Z) | Closedir (dir : Z)
  | Fcntl_setlk (fd : Z) (l : lock_type)
  | Socket_dgram | Sendto (fd : Z) (packet : bytes)
  | Socket_stream | Setsockopt (fd : Z) | Bind (fd port : Z) | Bind_path (fd : Z) (path : bytes)
  | Listen (fd backlog : Z) | Connect (fd : Z) (host : bytes) (port : Z)
  | Inet_ntop (address : bytes) | Inet_pton (text : bytes)
  | Sigemptyset | Sigaction (signal : Z)
  | Malloc (size : Z)
  | Pthread_create (argument : Z) | Pthread_detach (thread : Z) | Pthread_join (thread : Z)
  | Recvfrom (fd size : Z) (handler : S -> S) | Accept (fd : Z) (handler : S -> S)
  | Clock_gettime
  | Puts (text : bytes) | Eputs (text : bytes) | Fgets (size : Z).

Arguments Get_static {S}.
Arguments Put_static {S} s.
Arguments Modify {S} f.
Arguments Errno {S}.
Arguments Set_errno {S} e.
Arguments Mutex_init {S} m.
Arguments Mutex_destroy {S} m.
Arguments Mutex_lock {S} m.
Arguments Mutex_unlock {S} m.
Arguments Cond_sleep {S} m.
Arguments Cond_wake {S} m.
Arguments Cond_notify {S}.
Arguments Pthread_self {S}.
Arguments Getpid {S}.
Arguments Send {S} fd buffer.
Arguments Recv {S} fd length.
Arguments Shutdown {S} fd.
Arguments Open {S} path flags mode.
Arguments Openat {S} dirfd path flags mode.
Arguments Close {S} fd.
Arguments Read {S} fd length.
Arguments Write {S} fd buffer.
Arguments Stat {S} path.
Arguments Lstat {S} path.
Arguments Fstat {S} fd.
Arguments Fstatat_nofollow {S} dirfd path.
Arguments Access {S} path.
Arguments Mkdir {S} path mode.
Arguments Unlink {S} path.
Arguments Unlinkat {S} dirfd path.
Arguments Link {S} old new.
Arguments Linkat {S} olddir old newdir new.
Arguments Fsync {S} fd.
Arguments Fchmod {S} fd mode.
Arguments Fdopendir {S} fd.
Arguments Readdir {S} dir.
Arguments Closedir {S} dir.
Arguments Fcntl_setlk {S} fd l.
Arguments Socket_dgram {S}.
Arguments Sendto {S} fd packet.
Arguments Socket_stream {S}.
Arguments Setsockopt {S} fd.
Arguments Bind {S} fd port.
Arguments Bind_path {S} fd path.
Arguments Listen {S} fd backlog.
Arguments Connect {S} fd host port.
Arguments Inet_ntop {S} address.
Arguments Inet_pton {S} text.
Arguments Sigemptyset {S}.
Arguments Sigaction {S} signal.
Arguments Malloc {S} size.
Arguments Pthread_create {S} argument.
Arguments Pthread_detach {S} thread.
Arguments Pthread_join {S} thread.
Arguments Recvfrom {S} fd size handler.
Arguments Accept {S} fd handler.
Arguments Clock_gettime {S}.
Arguments Puts {S} text.
Arguments Eputs {S} text.
Arguments Fgets {S} size.

(** What a call returns; [None] stands for the failure value of a call that
    also fills a buffer (-1 of [recv], NULL of [readdir], ...). *)
Definition ans {S} (e : sys S) : Type :=
  match e with
  | Get_static => S
  | Put_static _ | Modify _ | Set_errno _ | Cond_wake _ | Cond_notify | Puts _ | Eputs _ => unit
  | Recv _ _ | Read _ _ | Readdir _ | Fgets _ | Recvfrom _ _ _ | Inet_ntop _ => option bytes
  | Accept _ _ => option (Z * (bytes * Z))
  | Pthread_create _ => Z * Z
  | Stat _ | Lstat _ | Fstat _ | Fstatat_nofollow _ _ => option stat_t
  | Clock_gettime => option (Z * Z)
  | _ => Z
  end.

(** ** Programs *)

Inductive prog (S A : Type) :=
  | Ret (a : A)
  | Call (e : sys S) (k : ans e -> prog S A)
  | Diverge.

Arguments Ret {S A} a.
Arguments Call {S A} e k.
Arguments Diverge {S A}.

Fixpoint prog_bind {S A A'} (p : prog S A) (f : A -> prog S A') : prog S A' :=
  match p with
  | Ret a => f a
  | Call e k => Call e (fun r => prog_bind (k r) f)
  | Diverge => Diverge
  end.

#[export] Instance prog_mret S : MRet (prog S) := fun A a => Ret a.
#[export] Instance prog_mbind S : MBind (prog S) := fun A A' f p => prog_bind p f.

Definition call {S} (e : sys S) : prog S (ans e) := Call e Ret.

(** [pthread_cond_wait]: the thread releases the mutex and sleeps; when it
    wakes, it has the mutex again. *)
Definition pthread_cond_wait {S} (m : mutex) : prog S Z :=
  r ← call (Cond_sleep m);
  if r =? 0 then _ ← call (Cond_wake m); mret 0 else mret r.

(** ** Worlds *)

Definition path := list bytes.

(** The outcome of a fallible call: success (possibly transferring at most
    the given number of bytes), or failure with an errno (never 0). *)
Inductive outcome := Full | Short (n : nat) | Fail (e : positive).

(** A connection that a client makes: its address (four bytes) and port, and
    all it will send. *)
Record conn := { c_address : bytes; c_port : Z; c_input : bytes }.

Record env := mk_env {
  e_script : list outcome;
  e_errno : Z;
  e_dgrams : list bytes;
  e_clock : list (Z * Z);
  e_conns : list conn
}.

Inductive node :=
  | NReg (ino : positive)
  | NDir
  | NSymlink (target : bytes)
  | NOther.

Record inode := mk_inode { i_data : bytes; i_mode : Z }.

Inductive fdesc :=
  | FdSocket
  | FdListen
  | FdDgram
  | FdDir (p : path)
  | FdStream (p : path) (entries : list bytes)
  | FdFile (ino : positive) (off : nat) (flags : Z)
  | FdOther.

Record kern (S : Type) := mk_kern {
  k_static : S;
  k_held : gset mutex;
  k_tree : gmap path node;
  k_inodes : gmap positive inode;
  k_fds : gmap Z fdesc;
  k_locks : list (positive * Z * lock_type);
  k_in : gmap Z bytes;
  k_out : gmap Z bytes;
  k_shut : gset Z;
  k_stdin : bytes;
  k_stdout : bytes;
  k_stderr : bytes;
  k_pid : Z;
  k_self : Z;
  k_threads : list Z
}.
Arguments mk_kern {S}.
Arguments k_static {S}. Arguments k_held {S}. Arguments k_tree {S}. Arguments k_inodes {S}.
Arguments k_fds {S}. Arguments k_locks {S}. Arguments k_in {S}. Arguments k_out {S}.
Arguments k_shut {S}. Arguments k_stdin {S}. Arguments k_stdout {S}. Arguments k_stderr {S}.
Arguments k_pid {S}. Arguments k_self {S}. Arguments k_threads {S}.

Record world (S : Type) := W { w_env : env; w_kern : kern S }.
Arguments W {S}. Arguments w_env {S}. Arguments w_kern {S}.

Section kern_setters.
Context {S : Type}.

Definition with_static s (k : kern S) : kern S := mk_kern s (k_held k) (k_tree k) (k_inodes k) (k_fds k) (k_locks k)
  (k_in k) (k_out k) (k_shut k) (k_stdin k) (k_stdout k) (k_stderr k) (k_pid k) (k_self k) (k_threads k).
Definition with_held h (k : kern S) : kern S := mk_kern (k_static k) h (k_tree k) (k_inodes k) (k_fds k) (k_locks k)
  (k_in k) (k_out k) (k_shut k) (k_stdin k) (k_stdout k) (k_stderr k) (k_pid k) (k_self k) (k_threads k).
Definition with_tree t (k : kern S) : kern S := mk_kern (k_static k) (k_held k) t (k_inodes k) (k_fds k) (k_locks k)
  (k_in k) (k_out k) (k_shut k) (k_stdin k) (k_stdout k) (k_stderr k) (k_pid k) (k_self k) (k_threads k).
Definition with_inodes i (k : kern S) : kern S := mk_kern (k_static k) (k_held k) (k_tree k) i (k_fds k) (k_locks k)
  (k_in k) (k_out k) (k_shut k) (k_stdin k) (k_stdout k) (k_stderr k) (k_pid k) (k_self k) (k_threads k).
Definition with_fds f (k : kern S) : kern S := mk_kern (k_static k) (k_held k) (k_tree k) (k_inodes k) f (k_locks k)
  (k_in k) (k_out k) (k_shut k) (k_stdin k) (k_stdout k) (k_stderr k) (k_pid k) (k_self k) (k_threads k).
Definition with_locks l (k : kern S) : kern S := mk_kern (k_static k) (k_held k) (k_tree k) (k_inodes k) (k_fds k) l
  (k_in k) (k_out k) (k_shut k) (k_stdin k) (k_stdout k) (k_stderr k) (k_pid k) (k_self k) (k_threads k).
Definition with_in i (k : kern S) : kern S := mk_kern (k_static k) (k_held k) (k_tree k) (k_inodes k) (k_fds k) (k_locks k)
  i (k_out k) (k_shut k) (k_stdin k) (k_stdout k) (k_stderr k) (k_pid k) (k_self k) (k_threads k).
Definition with_out o (k : kern S) : kern S := mk_kern (k_static k) (k_held k) (k_tree k) (k_inodes k) (k_fds k) (k_locks k)
  (k_in k) o (k_shut k) (k_stdin k) (k_stdout k) (k_stderr k) (k_pid k) (k_self k) (k_threads k).
Definition with_shut s (k : kern S) : kern S := mk_kern (k_static k) (k_held k) (k_tree k) (k_inodes k) (k_fds k) (k_locks k)
  (k_in k) (k_out k) s (k_stdin k) (k_stdout k) (k_stderr k) (k_pid k) (k_self k) (k_threads k).
Definition with_stdin s (k : kern S) : kern S := mk_kern (k_static k) (k_held k) (k_tree k) (k_inodes k) (k_fds k) (k_locks k)
  (k_in k) (k_out k) (k_shut k) s (k_stdout k) (k_stderr k) (k_pid k) (k_self k) (k_threads k).
Definition with_stdout s (k : kern S) : kern S := mk_kern (k_static k) (k_held k) (k_tree k) (k_inodes k) (k_fds k) (k_locks k)
  (k_in k) (k_out k) (k_shut k) (k_stdin k) s (k_stderr k) (k_pid k) (k_self k) (k_threads k).
Definition with_stderr s (k : kern S) : kern S := mk_kern (k_static k) (k_held k) (k_tree k) (k_inodes k) (k_fds k) (k_locks k)
  (k_in k) (k_out k) (k_shut k) (k_stdin k) (k_stdout k) s (k_pid k) (k_self k) (k_threads k).
Definition with_threads l (k : kern S) : kern S := mk_kern (k_static k) (k_held k) (k_tree k) (k_inodes k) (k_fds k) (k_locks k)
  (k_in k) (k_out k) (k_shut k) (k_stdin k) (k_stdout k) (k_stderr k) (k_pid k) (k_self k) l.
End kern_setters.

Definition with_script s en := mk_env s (e_errno en) (e_dgrams en) (e_clock en) (e_conns en).
Definition with_errno e en := mk_env (e_script en) e (e_dgrams en) (e_clock en) (e_conns en).
Definition with_dgrams d en := mk_env (e_script en) (e_errno en) d (e_clock en) (e_conns en).
Definition with_clock c en := mk_env (e_script en) (e_errno en) (e_dgrams en) c (e_conns en).
Definition with_conns c en := mk_env (e_script en) (e_errno en) (e_dgrams en) (e_clock en) c.

(** The bytes of a socket stream ([k_in], [k_out]). *)
Definition stream (m : gmap Z bytes) (fd : Z) : bytes := default [] (m !! fd).

(** Appending to, and consuming from, a stream. *)
Definition app_stream (fd : Z) (s : bytes) (m : gmap Z bytes) : gmap Z bytes :=
  match s with [] => m | _ => <[fd := stream m fd ++ s]> m end.

Definition drop_stream (fd : Z) (n : nat) (m : gmap Z bytes) : gmap Z bytes :=
  match n with O => m | _ => <[fd := drop n (stream m fd)]> m end.

(** ** Path resolution *)

Fixpoint split_slash (s : bytes) : path :=
  match s with
  | [] => [[]]
  | b :: s' =>
      if decide (b = SLASH) then [] :: split_slash s'
      else match split_slash s' with c :: cs => (b :: c) :: cs | [] => [[b]] end
  end.

Definition walk (d : path) (c : bytes) : path :=
  if bool_decide (c = []) || bool_decide (c = [DOT]) then d
  else if bool_decide (c = [DOT; DOT]) then removelast d
  else d ++ [c].

(** The tree node a C path names, relative to a directory: [.] and [..] are
    resolved; an absolute path starts at the component ["/"]. *)
Definition resolve (base : path) (p : bytes) : path :=
  fold_left walk (split_slash p)
    (match p with x2f :: _ => [[SLASH]] | _ => base end).

(** ** The file system *)

Definition lookup_errno (o : option node) : Z := match o with Some _ => EEXIST | None => ENOENT end.

Definition is_dir {S} (k : kern S) (p : path) : bool :=
  match p with
  | [] => true
  | _ => match k_tree k !! p with Some NDir => true | _ => false end
  end.

(** The lowest descriptor that is not open. *)
Definition next_fd (fds : gmap Z fdesc) : Z :=
  default (Z.of_nat (size fds))
    (list_find (fun fd => fds !! fd = None) (seqZ 0 (Z.of_nat (size fds))) ≫= fun x => Some (snd x)).

Definition add_fd {S} (d : fdesc) (k : kern S) : Z * kern S :=
  let fd := next_fd (k_fds k) in (fd, with_fds (<[fd := d]> (k_fds k)) k).

Definition stat_node {S} (k : kern S) (nd : node) : option stat_t :=
  match nd with
  | NReg ino => i ← k_inodes k !! ino; Some {| st_type := S_IFREG; st_size := zlen (i_data i) |}
  | NDir => Some {| st_type := S_IFDIR; st_size := 4096 |}
  | NSymlink t => Some {| st_type := S_IFLNK; st_size := zlen t |}
  | NOther => Some {| st_type := S_IFOTHER; st_size := 0 |}
  end.

(** The node behind a final symbolic link ([ELOOP] on a chain of links). *)
Definition follow {S} (k : kern S) (p : path) : Z + node :=
  match k_tree k !! p with
  | None => inl ENOENT
  | Some (NSymlink t) =>
      match k_tree k !! resolve (removelast p) t with
      | None => inl ENOENT
      | Some (NSymlink _) => inl ELOOP
      | Some nd => inr nd
      end
  | Some nd => inr nd
  end.

Definition open_node {S} (k : kern S) (p : path) (nd : node) (flags : Z) : Z + (Z * kern S) :=
  match nd with
  | NSymlink _ => inl ELOOP
  | NDir => if has flags (O_WRONLY ||| O_RDWR) then inl EISDIR else inr (add_fd (FdDir p) k)
  | NReg ino => if has flags O_DIRECTORY then inl ENOTDIR else inr (add_fd (FdFile ino 0 flags) k)
  | NOther => if has flags O_DIRECTORY then inl ENOTDIR else inr (add_fd FdOther k)
  end.

Definition create_file {S} (k : kern S) (p : path) (flags mode : Z) : Z * kern S :=
  let ino := fresh (dom (k_inodes k)) in
  add_fd (FdFile ino 0 flags)
    (with_tree (<[p := NReg ino]> (k_tree k))
      (with_inodes (<[ino := mk_inode [] mode]> (k_inodes k)) k)).

Definition open_path {S} (k : kern S) (p : path) (flags mode : Z) : Z + (Z * kern S) :=
  match k_tree k !! p with
  | Some nd =>
      if has flags O_CREAT && has flags O_EXCL then inl EEXIST
      else if has flags O_NOFOLLOW then open_node k p nd flags
      else match follow k p with inl e => inl e | inr nd' => open_node k p nd' flags end
  | None =>
      if has flags O_CREAT
      then if is_dir k (removelast p) then inr (create_file k p flags mode) else inl ENOENT
      else inl ENOENT
  end.

Definition mkdir_path {S} (k : kern S) (p : path) : Z + (Z * kern S) :=
  match k_tree k !! p with
  | Some _ => inl EEXIST
  | None => if is_dir k (removelast p) then inr (0, with_tree (<[p := NDir]> (k_tree k)) k) else inl ENOENT
  end.

Definition unlink_path {S} (k : kern S) (p : path) : Z + (Z * kern S) :=
  match k_tree k !! p with
  | None => inl ENOENT
  | Some NDir => inl EISDIR
  | Some _ => inr (0, with_tree (delete p (k_tree k)) k)
  end.

Definition link_path {S} (k : kern S) (old new : path) : Z + (Z * kern S) :=
  match k_tree k !! old with
  | None => inl ENOENT
  | Some NDir => inl EISDIR
  | Some nd =>
      match k_tree k !! new with
      | Some _ => inl EEXIST
      | None => if is_dir k (removelast new)
                then inr (0, with_tree (<[new := nd]> (k_tree k)) k) else inl ENOENT
      end
  end.

Definition lstat_path {S} (k : kern S) (p : path) : Z + (option stat_t * kern S) :=
  match k_tree k !! p with
  | None => inl ENOENT
  | Some nd => match stat_node k nd with Some i => inr (Some i, k) | None => inl EIO end
  end.

Definition stat_path {S} (k : kern S) (p : path) : Z + (option stat_t * kern S) :=
  match follow k p with
  | inl e => inl e
  | inr nd => match stat_node k nd with Some i => inr (Some i, k) | None => inl EIO end
  end.

Definition fstat_fd {S} (k : kern S) (fd : Z) : Z + (option stat_t * kern S) :=
  match k_fds k !! fd with
  | None => inl EBADF
  | Some (FdDir _) | Some (FdStream _ _) => inr (Some {| st_type := S_IFDIR; st_size := 4096 |}, k)
  | Some (FdFile ino _ _) =>
      match stat_node k (NReg ino) with Some i => inr (Some i, k) | None => inl EIO end
  | Some _ => inr (Some {| st_type := S_IFOTHER; st_size := 0 |}, k)
  end.

(** The directory a descriptor gives access to. *)
Definition fd_dir {S} (k : kern S) (fd : Z) : Z + path :=
  match k_fds k !! fd with
  | Some (FdDir d) | Some (FdStream d _) => inr d
  | Some _ => inl ENOTDIR
  | None => inl EBADF
  end.

Definition at_dir {S X} (k : kern S) (fd : Z) (f : path -> Z + (X * kern S)) : Z + (X * kern S) :=
  match fd_dir k fd with inl e => inl e | inr d => f d end.

(** The names in a directory, [.] and [..] first. *)
Definition dir_names {S} (k : kern S) (d : path) : list bytes :=
  [DOT] :: [DOT; DOT] ::
  omap (fun '(p, _) => if bool_decide (removelast p = d /\ p ≠ []) then last p else None)
    (map_to_list (k_tree k)).

(** A transfer of at most [lim] bytes. *)
Definition limit (lim : option nat) (n : nat) : nat :=
  match lim with Some m => Nat.min m n | None => n end.

Definition read_fd {S} (k : kern S) (fd : Z) (n : nat) (lim : option nat) : Z + (option bytes * kern S) :=
  match k_fds k !! fd with
  | Some (FdFile ino off flags) =>
      match k_inodes k !! ino with
      | None => inl EIO
      | Some i =>
          let chunk := take (limit lim n) (drop off (i_data i)) in
          inr (Some chunk, with_fds (<[fd := FdFile ino (off + length chunk) flags]> (k_fds k)) k)
      end
  | Some (FdDir _) | Some (FdStream _ _) => inl EISDIR
  | Some _ => inl EINVAL
  | None => inl EBADF
  end.

Definition splice (data : bytes) (off : nat) (chunk : bytes) : bytes :=
  take off data ++ chunk ++ drop (off + length chunk) data.

Definition write_fd {S} (k : kern S) (fd : Z) (buffer : bytes) (lim : option nat) : Z + (Z * kern S) :=
  match k_fds k !! fd with
  | Some (FdFile ino off flags) =>
      match k_inodes k !! ino with
      | None => inl EIO
      | Some i =>
          if has flags (O_WRONLY ||| O_RDWR) then
            let chunk := take (limit lim (length buffer)) buffer in
            let off := if has flags O_APPEND then length (i_data i) else off in
            inr (zlen chunk, match chunk with [] => k | _ =>
                 with_fds (<[fd := FdFile ino (off + length chunk) flags]> (k_fds k))
                   (with_inodes (<[ino := mk_inode (splice (i_data i) off chunk) (i_mode i)]> (k_inodes k)) k) end)
          else inl EBADF
      end
  | Some _ => inl EINVAL
  | None => inl EBADF
  end.

Definition fchmod_fd {S} (k : kern S) (fd mode : Z) : Z + (Z * kern S) :=
  match k_fds k !! fd with
  | Some (FdFile ino _ _) =>
      match k_inodes k !! ino with
      | None => inl EIO
      | Some i => inr (0, with_inodes (<[ino := mk_inode (i_data i) mode]> (k_inodes k)) k)
      end
  | Some _ => inl EINVAL
  | None => inl EBADF
  end.

(** Closing releases the descriptor and its open-file-description locks. *)
Definition close_fd {S} (k : kern S) (fd : Z) : kern S :=
  with_locks (match k_fds k !! fd with
              | Some (FdFile _ _ _) => filter (fun l => l.1.2 ≠ fd) (k_locks k)
              | _ => k_locks k
              end)
    (with_fds (delete fd (k_fds k)) k).

Definition fdopendir_fd {S} (k : kern S) (fd : Z) : Z + (Z * kern S) :=
  match k_fds k !! fd with
  | Some (FdDir d) => inr (fd, with_fds (<[fd := FdStream d (dir_names k d)]> (k_fds k)) k)
  | Some _ => inl ENOTDIR
  | None => inl EBADF
  end.

Definition readdir_fd {S} (k : kern S) (fd : Z) : Z + (option bytes * kern S) :=
  match k_fds k !! fd with
  | Some (FdStream d (x :: rest)) => inr (Some x, with_fds (<[fd := FdStream d rest]> (k_fds k)) k)
  | Some (FdStream d []) => inr (None, k)
  | _ => inl EBADF
  end.

(** [F_OFD_SETLKW] returns only when no lock of another open file description
    conflicts: those that did have been released by then. *)
Definition compatible (l l' : lock_type) : bool :=
  match l, l' with F_RDLCK, F_RDLCK => true | _, _ => false end.

Definition setlk_fd {S} (k : kern S) (fd : Z) (l : lock_type) : Z + (Z * kern S) :=
  match k_fds k !! fd with
  | Some (FdFile ino _ _) =>
      let others := filter (fun x => x.1.2 ≠ fd) (k_locks k) in
      match l with
      | F_UNLCK => inr (0, with_locks others k)
      | _ => inr (0, with_locks ((ino, fd, l) ::
               filter (fun x => x.1.1 ≠ ino \/ compatible l x.2 = true) others) k)
      end
  | _ => inl EBADF
  end.

(** ** Sockets *)

Definition send_fd {S} (k : kern S) (fd : Z) (buffer : bytes) (lim : option nat) : Z + (Z * kern S) :=
  match k_fds k !! fd with
  | Some FdSocket =>
      let chunk := take (limit lim (length buffer)) buffer in
      inr (zlen chunk, with_out (app_stream fd chunk (k_out k)) k)
  | _ => inl EBADF
  end.

(** [recv] delivers bytes the peer sent; no bytes means that it closed. *)
Definition recv_fd {S} (k : kern S) (fd : Z) (n : nat) (lim : option nat) : Z + (option bytes * kern S) :=
  match k_fds k !! fd with
  | Some FdSocket =>
      let chunk := take (limit lim n) (stream (k_in k) fd) in
      inr (Some chunk, with_in (drop_stream fd (length chunk) (k_in k)) k)
  | _ => inl EBADF
  end.

(** A new connection on a listening socket, with fresh streams. *)
Definition accept_fd {S} (c : conn) (k : kern S) : Z * kern S :=
  let '(fd, k') := add_fd FdSocket k in (fd, with_in (<[fd := c_input c]> (k_in k')) (with_out (delete fd (k_out k')) k')).

(** Binding and listening. *)
Definition bind_fd {S} (k : kern S) (fd : Z) : Z + (Z * kern S) :=
  match k_fds k !! fd with Some FdSocket => inr (0, k) | Some _ => inl EINVAL | None => inl EBADF end.

Definition bind_path {S} (k : kern S) (fd : Z) (p : path) : Z + (Z * kern S) :=
  match k_fds k !! fd with
  | Some FdDgram =>
      match k_tree k !! p with
      | Some _ => inl EADDRINUSE
      | None => if is_dir k (removelast p) then inr (0, with_tree (<[p := NOther]> (k_tree k)) k) else inl ENOENT
      end
  | Some _ => inl EINVAL
  | None => inl EBADF
  end.

Definition listen_fd {S} (k : kern S) (fd : Z) : Z + (Z * kern S) :=
  match k_fds k !! fd with
  | Some FdSocket => inr (0, with_fds (<[fd := FdListen]> (k_fds k)) k)
  | Some _ => inl EINVAL
  | None => inl EBADF
  end.

(** An address as [inet_ntop] prints it. *)
Definition dotted (address : bytes) : bytes :=
  match address with
  | [a; b; c; d] => dec (byte_val a) ++ B "." ++ dec (byte_val b) ++ B "." ++ dec (byte_val c) ++ B "." ++ dec (byte_val d)
  | _ => []
  end.

(** ** The effect of one call *)

Definition pop (en : env) : outcome * env :=
  match e_script en with [] => (Full, en) | o :: s => (o, with_script s en) end.

(** A call that may fail: with the errno the environment chose, or with the
    one its own arguments call for. *)
Definition fallible {S X} (w : world S) (ko : X) (f : option nat -> kern S -> Z + (X * kern S)) : X * world S :=
  match pop (w_env w) with
  | (Fail e, en) => (ko, W (with_errno (Zpos e) en) (w_kern w))
  | (o, en) =>
      match f (match o with Short n => Some n | _ => None end) (w_kern w) with
      | inl e => (ko, W (with_errno e en) (w_kern w))
      | inr (x, k) => (x, W en k)
      end
  end.

(** A pthread call returns an error number instead. *)
Definition pthread_call {S} (w : world S) (f : kern S -> kern S) : Z * world S :=
  match pop (w_env w) with
  | (Fail e, en) => (Zpos e, W en (w_kern w))
  | (_, en) => (0, W en (f (w_kern w)))
  end.

(** A call that waits for something to arrive.  The signal handler of the
    process, installed without [SA_RESTART], interrupts it with [EINTR]; with
    nothing left to arrive that is how the wait ends. *)
Definition interruptible {S X} (w : world S) (handler : S -> S) (ko : X)
    (f : env -> kern S -> option (X * world S)) : X * world S :=
  let interrupted en k := (ko, W (with_errno EINTR en) (with_static (handler (k_static k)) k)) in
  match pop (w_env w) with
  | (Fail e, en) =>
      if Zpos e == EINTR then interrupted en (w_kern w) else (ko, W (with_errno (Zpos e) en) (w_kern w))
  | (_, en) => match f en (w_kern w) with Some r => r | None => interrupted en (w_kern w) end
  end.

Definition sem {S} (e : sys S) (w : world S) : ans e * world S :=
  let en := w_env w in
  let k := w_kern w in
  match e as e return ans e * world S with
  | Get_static => (k_static k, w)
  | Put_static s => (tt, W en (with_static s k))
  | Modify f => (tt, W en (with_static (f (k_static k)) k))
  | Errno => (e_errno en, w)
  | Set_errno z => (tt, W (with_errno z en) k)
  | Mutex_init m => pthread_call w (fun k => k)
  | Mutex_destroy m => pthread_call w (fun k => k)
  | Mutex_lock m => pthread_call w (fun k => with_held ({[m]} ∪ k_held k) k)
  | Mutex_unlock m => pthread_call w (fun k => with_held (k_held k ∖ {[m]}) k)
  | Cond_sleep m => pthread_call w (fun k => with_held (k_held k ∖ {[m]}) k)
  | Cond_wake m => (tt, W en (with_held ({[m]} ∪ k_held k) k))
  | Cond_notify => (tt, w)
  | Pthread_self => (k_self k, w)
  | Getpid => (k_pid k, w)
  | Send fd s => fallible w (-1) (fun lim k => send_fd k fd s lim)
  | Recv fd n => fallible w None (fun lim k => recv_fd k fd (Z.to_nat n) lim)
  | Shutdown fd => fallible w (-1) (fun _ k => inr (0, with_shut ({[fd]} ∪ k_shut k) k))
  | Open p fl m => fallible w (-1) (fun _ k => open_path k (resolve [] p) fl m)
  | Openat d p fl m => fallible w (-1) (fun _ k => at_dir k d (fun b => open_path k (resolve b p) fl m))
  | Close fd =>
      match pop en with
      | (Fail e, en') => (-1, W (with_errno (Zpos e) en') (close_fd k fd))
      | (_, en') => (0, W en' (close_fd k fd))
      end
  | Read fd n => fallible w None (fun lim k => read_fd k fd (Z.to_nat n) lim)
  | Write fd s => fallible w (-1) (fun lim k => write_fd k fd s lim)
  | Stat p => fallible w None (fun _ k => stat_path k (resolve [] p))
  | Lstat p => fallible w None (fun _ k => lstat_path k (resolve [] p))
  | Fstat fd => fallible w None (fun _ k => fstat_fd k fd)
  | Fstatat_nofollow d p => fallible w None (fun _ k => at_dir k d (fun b => lstat_path k (resolve b p)))
  | Access p => fallible w (-1) (fun _ k => match follow k (resolve [] p) with inl e => inl e | inr _ => inr (0, k) end)
  | Mkdir p _ => fallible w (-1) (fun _ k => mkdir_path k (resolve [] p))
  | Unlink p => fallible w (-1) (fun _ k => unlink_path k (resolve [] p))
  | Unlinkat d p => fallible w (-1) (fun _ k => at_dir k d (fun b => unlink_path k (resolve b p)))
  | Link p q => fallible w (-1) (fun _ k => link_path k (resolve [] p) (resolve [] q))
  | Linkat d p d' q => fallible w (-1) (fun _ k => at_dir k d (fun b => at_dir k d' (fun b' =>
      link_path k (resolve b p) (resolve b' q))))
  | Fsync fd => fallible w (-1) (fun _ k => if bool_decide (is_Some (k_fds k !! fd)) then inr (0, k) else inl EBADF)
  | Fchmod fd m => fallible w (-1) (fun _ k => fchmod_fd k fd m)
  | Fdopendir fd => fallible w (-1) (fun _ k => fdopendir_fd k fd)
  | Readdir d => fallible w None (fun _ k => readdir_fd k d)
  | Closedir d =>
      match pop en with
      | (Fail e, en') => (-1, W (with_errno (Zpos e) en') (close_fd k d))
      | (_, en') => (0, W en' (close_fd k d))
      end
  | Fcntl_setlk fd l => fallible w (-1) (fun _ k => setlk_fd k fd l)
  | Socket_dgram => fallible w (-1) (fun _ k => inr (add_fd FdDgram k))
  | Sendto fd s =>
      match pop en with
      | (Fail e, en') => (-1, W (with_errno (Zpos e) en') k)
      | (_, en') => (zlen s, W (with_dgrams (e_dgrams en' ++ [s]) en') k)
      end
  | Recvfrom fd size handler => interruptible w handler None (fun en k =>
      match e_dgrams en with
      | [] => None
      | d :: ds => Some (Some (take (Z.to_nat size) d), W (with_dgrams ds en) k)
      end)
  | Accept fd handler => interruptible w handler None (fun en k =>
      match k_fds k !! fd, e_conns en with
      | Some FdListen, [] => None
      | Some FdListen, c :: cs =>
          let '(z, k') := accept_fd c k in Some (Some (z, (c_address c, c_port c)), W (with_conns cs en) k')
      | _, _ => Some (None, W (with_errno EBADF en) k)
      end)
  | Socket_stream => fallible w (-1) (fun _ k => inr (add_fd FdSocket k))
  | Setsockopt fd => fallible w (-1) (fun _ k => if bool_decide (is_Some (k_fds k !! fd)) then inr (0, k) else inl EBADF)
  | Bind fd _ => fallible w (-1) (fun _ k => bind_fd k fd)
  | Bind_path fd p => fallible w (-1) (fun _ k => bind_path k fd (resolve [] p))
  | Listen fd _ => fallible w (-1) (fun _ k => listen_fd k fd)
  | Connect fd _ _ => fallible w (-1) (fun _ k => bind_fd k fd)
  | Inet_ntop a => fallible w None (fun _ k => inr (Some (dotted a), k))
  | Inet_pton _ => fallible w 0 (fun _ k => inr (1, k))
  | Sigemptyset => fallible w (-1) (fun _ k => inr (0, k))
  | Sigaction _ => fallible w (-1) (fun _ k => inr (0, k))
  | Malloc _ => fallible w 0 (fun _ k => inr (1, k))
  | Pthread_create a =>
      match pop en with
      | (Fail e, en') => ((Zpos e, 0), W en' k)
      | (_, en') => ((0, zlen (k_threads k) + 2), W en' (with_threads (k_threads k ++ [a]) k))
      end
  | Pthread_detach _ => pthread_call w (fun k => k)
  | Pthread_join _ => pthread_call w (fun k => k)
  | Clock_gettime =>
      match pop en with
      | (Fail e, en') => (None, W (with_errno (Zpos e) en') k)
      | (_, en') => match e_clock en' with
                    | [] => (Some (0, 0), W en' k)
                    | t :: ts => (Some t, W (with_clock ts en') k)
                    end
      end
  | Puts s => (tt, W en (with_stdout (k_stdout k ++ s) k))
  | Eputs s => (tt, W en (with_stderr (k_stderr k ++ s) k))
  | Fgets size =>
      match fgets size (k_stdin k) with
      | None => (None, w)
      | Some (line, rest) => (Some line, W en (with_stdin rest k))
      end
  end.

(** ** Execution *)

Fixpoint run {S A} (p : prog S A) (w : world S) : option (A * world S) :=
  match p with
  | Ret a => Some (a, w)
  | Call e k => let '(r, w') := sem e w in run (k r) w'
  | Diverge => None
  end.

Fixpoint wp {S A} (p : prog S A) (Q : A -> world S -> Prop) (w : world S) : Prop :=
  match p with
  | Ret a => Q a w
  | Call e k => let '(r, w') := sem e w in wp (k r) Q w'
  | Diverge => False
  end.

(** A process that has opened nothing yet, and an environment without faults. *)
Definition idle {S} (s : S) : kern S := mk_kern s ∅ ∅ ∅ ∅ [] ∅ ∅ ∅ [] [] [] 1 1 [].
Definition calm : env := mk_env [] 0 [] [] [].
