(* ===== verification/Wp.v ===== *)
(** * Reasoning about programs

    Monad laws, the rules of [wp] for sequencing and for each kind of call,
    and the lemmas on streams, descriptors and fuel the components share. *)

From S2P Require Import Prelude CLib Posix.

(** ** Monad laws *)

Lemma bind_ret_l {S A A'} (a : A) (f : A -> prog S A') : mret a ≫= f = f a.
Proof. reflexivity. Qed.

Lemma bind_assoc_wp {S A A' A''} (p : prog S A) (f : A -> prog S A') (g : A' -> prog S A'') Q w :
  wp ((p ≫= f) ≫= g) Q w <-> wp (p ≫= fun x => f x ≫= g) Q w.
Proof.
  revert w. induction p as [a|e k IH|]; intros w; simpl; [done| |done].
  destruct (sem e w) as [r w']. apply IH.
Qed.

(** ** Sequencing *)

Lemma wp_mono {S A} (p : prog S A) (Q Q' : A -> world S -> Prop) w :
  wp p Q w -> (forall a w', Q a w' -> Q' a w') -> wp p Q' w.
Proof.
  revert w. induction p as [a|e k IH|]; cbn [wp]; intros w Hp HQ; [auto| |done].
  destruct (sem e w) as [r w']. by apply (IH r).
Qed.

Lemma wp_bind_iff {S A A'} (p : prog S A) (f : A -> prog S A') Q w :
  wp (p ≫= f) Q w <-> wp p (fun a => wp (f a) Q) w.
Proof.
  revert w. induction p as [a|e k IH|]; intros w; [done| |done].
  cbn [mbind prog_mbind prog_bind wp].
  destruct (sem e w) as [r w']. apply IH.
Qed.

Lemma wp_bind {S A A'} (p : prog S A) (f : A -> prog S A') Q w :
  wp p (fun a => wp (f a) Q) w -> wp (p ≫= f) Q w.
Proof. apply wp_bind_iff. Qed.

Lemma wp_ret {S A} (a : A) (Q : A -> world S -> Prop) w : Q a w -> wp (mret a) Q w.
Proof. done. Qed.

(** [wp] is total correctness: the run ends, in a result satisfying [Q]. *)
Lemma wp_run {S A} (p : prog S A) Q (w : world S) :
  wp p Q w <-> exists a w', run p w = Some (a, w') /\ Q a w'.
Proof.
  revert w. induction p as [a|e k IH|]; cbn [run wp]; intros w.
  - split; [eauto|]. by intros (? & ? & [= <- <-] & ?).
  - destruct (sem e w) as [r w']. apply IH.
  - split; [done|]. by intros (? & ? & ? & ?).
Qed.

(** What holds of the run under a further hypothesis. *)
Lemma wp_given {S A} (H : Prop) (p : prog S A) (Q Q' : A -> world S -> Prop) w :
  wp p Q w -> (H -> wp p Q' w) -> wp p (fun a w' => Q a w' /\ (H -> Q' a w')) w.
Proof.
  intros (a & w' & Hr & HQ)%wp_run HQ'. apply wp_run. exists a, w'. split; [done|]. split; [done|].
  intros (a' & w'' & Hr' & ?)%HQ'%wp_run. congruence.
Qed.

(** The program ends in the world [w], with a result and a world that satisfy [Q]. *)
Definition runs {S A} (p : prog S A) (w : world S) (Q : A -> world S -> Prop) : Prop :=
  exists a w', run p w = Some (a, w') /\ Q a w'.

Lemma wp_runs {S A} (p : prog S A) Q (w : world S) : wp p Q w -> runs p w Q.
Proof. apply wp_run. Qed.

Lemma runs_wp {S A} (p : prog S A) Q (w : world S) : runs p w Q -> wp p Q w.
Proof. apply wp_run. Qed.

Lemma wp_and {S A} (p : prog S A) (Q Q' : A -> world S -> Prop) w :
  wp p Q w -> wp p Q' w -> wp p (fun a w' => Q a w' /\ Q' a w') w.
Proof.
  rewrite !wp_run. intros (a & w1 & H & HQ) (a' & w2 & H' & HQ'). exists a, w1. naive_solver.
Qed.

(** ** The environment: scripts and fuel *)

Definition script_len (en : env) : nat := length (e_script en).
Definition env_le (en' en : env) : Prop := (script_len en' <= script_len en)%nat.
Definition env_lt (en' en : env) : Prop := (script_len en' < script_len en)%nat.

(** Enough fuel for any loop that repeats only when the environment makes it. *)
Definition fuel_ok (F : nat) (en : env) : Prop := (script_len en + 1 < F)%nat.

(** No fault is scheduled. *)
Definition faultless (en : env) : Prop := e_script en = [].

#[export] Instance env_le_preorder : PreOrder env_le.
Proof. split; red; unfold env_le; lia. Qed.

Lemma env_lt_le en' en : env_lt en' en -> env_le en' en.
Proof. unfold env_lt, env_le. lia. Qed.

Lemma env_le_lt_trans e1 e2 e3 : env_le e1 e2 -> env_lt e2 e3 -> env_lt e1 e3.
Proof. unfold env_lt, env_le. lia. Qed.

Lemma env_lt_le_trans e1 e2 e3 : env_lt e1 e2 -> env_le e2 e3 -> env_lt e1 e3.
Proof. unfold env_lt, env_le. lia. Qed.

Lemma fuel_ok_le F en en' : env_le en' en -> fuel_ok F en -> fuel_ok F en'.
Proof. unfold env_le, fuel_ok. lia. Qed.

Lemma faultless_not_lt en en' : faultless en -> ~ env_lt en' en.
Proof. unfold faultless, env_lt, script_len. intros ->. simpl. lia. Qed.

Lemma faultless_le en en' : env_le en' en -> faultless en -> faultless en'.
Proof.
  unfold faultless, env_le, script_len. intros H E. rewrite E in H.
  destruct (e_script en'); simpl in *; [done|lia].
Qed.

(** Arithmetic on script lengths. *)
Ltac env_lia :=
  unfold env_le, env_lt, fuel_ok, script_len in *; simpl in *; lia.

(** ** Calls *)

Lemma wp_call {S A} (e : sys S) (g : ans e -> prog S A) Q w :
  wp (call e ≫= g) Q w <-> wp (g (fst (sem e w))) Q (snd (sem e w)).
Proof. cbn [mbind prog_mbind prog_bind call wp]. by destruct (sem e w). Qed.

Lemma pop_cases en :
  (exists e en', pop en = (Fail e, en') /\ env_lt en' en) \/
  (exists o en' lim, pop en = (o, en') /\ env_le en' en /\ e_errno en' = e_errno en /\
     (match o with Fail _ => False | Short n => lim = Some n | Full => lim = None end) /\
     (lim = None \/ env_lt en' en) /\ e_dgrams en' = e_dgrams en /\ e_clock en' = e_clock en /\ e_conns en' = e_conns en).
Proof.
  unfold pop. destruct (e_script en) as [|o s] eqn:E.
  - right. exists Full, en, None. split_and!; auto. unfold env_le. lia.
  - assert (Hlt : env_lt (with_script s en) en) by (unfold env_lt, script_len; rewrite E; simpl; lia).
    pose proof (env_lt_le _ _ Hlt) as Hle.
    destruct o as [|n|e]; [right; exists Full, (with_script s en), None
                          |right; exists (Short n), (with_script s en), (Some n)
                          |left; eauto]; split_and!; auto.
Qed.

#[global] Arguments wp : simpl never.
#[global] Arguments prog_bind : simpl never.
#[global] Arguments prog_mbind : simpl never.
#[global] Arguments call : simpl never.
#[global] Arguments sem : simpl never.

(** The rule of the fallible calls. *)
Lemma wp_fallible {S A} (e : sys S) (ko : ans e) f (g : ans e -> prog S A) Q en (k : kern S) :
  (forall w, sem e w = fallible w ko f) ->
  (forall en', env_lt en' en -> 0 < e_errno en' -> wp (g ko) Q (W en' k)) ->
  (forall en' lim, env_le en' en -> e_errno en' = e_errno en -> (lim = None \/ env_lt en' en) ->
     match f lim k with
     | inl err => wp (g ko) Q (W (with_errno err en') k)
     | inr (x, k') => wp (g x) Q (W en' k')
     end) ->
  wp (call e ≫= g) Q (W en k).
Proof.
  intros Hsem Hko Hok. apply wp_call. rewrite Hsem. unfold fallible. simpl.
  destruct (pop_cases en) as [(er & en' & -> & Hlt)|(o & en' & lim & -> & Hle & He & Ho & Hlim & _)].
  - apply Hko; [exact Hlt|]. simpl. lia.
  - specialize (Hok en' lim Hle He Hlim).
    destruct o as [|n|]; [| |done]; subst lim; destruct (f _ k) as [err|[x k']]; exact Hok.
Qed.

(** The rules of the calls whose failure value is not reported in errno. *)
Lemma pthread_call_wp {S A} f (g : Z -> prog S A) Q en (k : kern S) :
  (forall en' z, env_lt en' en -> 0 < z -> wp (g z) Q (W en' k)) ->
  (forall en', env_le en' en -> e_errno en' = e_errno en -> wp (g 0) Q (W en' (f k))) ->
  let '(r, w') := pthread_call (W en k) f in wp (g r) Q w'.
Proof.
  intros Hko Hok. unfold pthread_call. simpl.
  destruct (pop_cases en) as [(er & en' & -> & Hlt)|(o & en' & lim & -> & Hle & He & Ho & _)].
  - apply Hko; [done|lia].
  - destruct o; try done; auto.
Qed.

Section call_rules.
Context {S A : Type}.
Implicit Types (Q : A -> world S -> Prop) (en : env) (k : kern S).

Lemma wp_get g Q en k : wp (g (k_static k)) Q (W en k) -> wp (call Get_static ≫= g) Q (W en k).
Proof. done. Qed.

Lemma wp_put s g Q en k :
  wp (g tt) Q (W en (with_static s k)) -> wp (call (Put_static s) ≫= g) Q (W en k).
Proof. done. Qed.

Lemma wp_modify f g Q en k :
  wp (g tt) Q (W en (with_static (f (k_static k)) k)) -> wp (call (Modify f) ≫= g) Q (W en k).
Proof. done. Qed.

Lemma wp_errno g Q en k : wp (g (e_errno en)) Q (W en k) -> wp (call Errno ≫= g) Q (W en k).
Proof. done. Qed.

Lemma wp_set_errno z g Q en k :
  wp (g tt) Q (W (with_errno z en) k) -> wp (call (Set_errno z) ≫= g) Q (W en k).
Proof. done. Qed.

Lemma wp_self g Q en k : wp (g (k_self k)) Q (W en k) -> wp (call Pthread_self ≫= g) Q (W en k).
Proof. done. Qed.

Lemma wp_getpid g Q en k : wp (g (k_pid k)) Q (W en k) -> wp (call Getpid ≫= g) Q (W en k).
Proof. done. Qed.

Lemma wp_puts s g Q en k :
  wp (g tt) Q (W en (with_stdout (k_stdout k ++ s) k)) -> wp (call (Puts s) ≫= g) Q (W en k).
Proof. done. Qed.

Lemma wp_eputs s g Q en k :
  wp (g tt) Q (W en (with_stderr (k_stderr k ++ s) k)) -> wp (call (Eputs s) ≫= g) Q (W en k).
Proof. done. Qed.

Lemma wp_lock m g Q en k :
  (forall en' z, env_lt en' en -> 0 < z -> wp (g z) Q (W en' k)) ->
  (forall en', env_le en' en -> e_errno en' = e_errno en ->
     wp (g 0) Q (W en' (with_held ({[m]} ∪ k_held k) k))) ->
  wp (call (Mutex_lock m) ≫= g) Q (W en k).
Proof. exact (pthread_call_wp _ g Q en k). Qed.

Lemma wp_unlock m g Q en k :
  (forall en' z, env_lt en' en -> 0 < z -> wp (g z) Q (W en' k)) ->
  (forall en', env_le en' en -> e_errno en' = e_errno en ->
     wp (g 0) Q (W en' (with_held (k_held k ∖ {[m]}) k))) ->
  wp (call (Mutex_unlock m) ≫= g) Q (W en k).
Proof. exact (pthread_call_wp _ g Q en k). Qed.

Lemma wp_close fd g Q en k :
  (forall en' z, env_le en' en -> (z = 0 \/ z = -1 /\ env_lt en' en) -> wp (g z) Q (W en' (close_fd k fd))) ->
  wp (call (Close fd) ≫= g) Q (W en k).
Proof.
  intros H. apply wp_call. unfold sem. simpl.
  destruct (pop_cases en) as [(er & en' & -> & Hlt)|(o & en' & lim & -> & Hle & He & Ho & _)].
  - apply H; [by apply env_lt_le|auto].
  - destruct o; try done; apply H; auto.
Qed.

Lemma wp_sendto fd s g Q en k :
  (forall en', env_lt en' en -> wp (g (-1)) Q (W en' k)) ->
  (forall en', env_le en' en -> wp (g (zlen s)) Q (W en' k)) ->
  wp (call (Sendto fd s) ≫= g) Q (W en k).
Proof.
  intros Hko Hok. apply wp_call. unfold sem. simpl.
  destruct (pop_cases en) as [(er & en' & -> & Hlt)|(o & en' & lim & -> & Hle & He & Ho & _)].
  - by apply Hko.
  - destruct o; try done; by apply Hok.
Qed.

Lemma wp_clock g Q en k :
  (forall en', env_lt en' en -> wp (g None) Q (W en' k)) ->
  (forall en' t, env_le en' en -> wp (g (Some t)) Q (W en' k)) ->
  wp (call Clock_gettime ≫= g) Q (W en k).
Proof.
  intros Hko Hok. apply wp_call. unfold sem. simpl.
  destruct (pop_cases en) as [(er & en' & -> & Hlt)|(o & en' & lim & -> & Hle & He & Ho & _)].
  - by apply Hko.
  - destruct o; try done; destruct (e_clock en'); by apply Hok.
Qed.

(** Reads and writes on a connected socket. *)
Lemma wp_send fd s g Q en k :
  k_fds k !! fd = Some FdSocket ->
  (forall en', env_lt en' en -> 0 < e_errno en' -> wp (g (-1)) Q (W en' k)) ->
  (forall en' n, env_le en' en -> (n <= length s)%nat -> (n = length s \/ env_lt en' en) ->
     wp (g (Z.of_nat n)) Q (W en' (with_out (app_stream fd (take n s) (k_out k)) k))) ->
  wp (call (Send fd s) ≫= g) Q (W en k).
Proof.
  intros Hfd Hko Hok. eapply wp_fallible; [reflexivity|done|].
  intros en' lim Hle _ Hlim. unfold send_fd. rewrite Hfd.
  replace (zlen (take (limit lim (length s)) s)) with (Z.of_nat (limit lim (length s)))
    by (unfold zlen; rewrite length_take; destruct lim; simpl; lia).
  apply Hok; [done| |]; destruct lim; simpl; try lia; destruct Hlim; auto; done.
Qed.

Lemma wp_recv fd n g Q en k :
  k_fds k !! fd = Some FdSocket ->
  (forall en', env_lt en' en -> 0 < e_errno en' -> wp (g None) Q (W en' k)) ->
  (forall en' m, env_le en' en -> (m <= Z.to_nat n)%nat -> (m <= length (stream (k_in k) fd))%nat ->
     (m = Nat.min (Z.to_nat n) (length (stream (k_in k) fd)) \/ env_lt en' en) ->
     wp (g (Some (take m (stream (k_in k) fd)))) Q (W en' (with_in (drop_stream fd m (k_in k)) k))) ->
  wp (call (Recv fd n) ≫= g) Q (W en k).
Proof.
  intros Hfd Hko Hok. eapply wp_fallible; [reflexivity|done|].
  intros en' lim Hle _ Hlim. unfold recv_fd. rewrite Hfd.
  set (st := stream (k_in k) fd) in *.
  rewrite <- (take_min_length (limit lim (Z.to_nat n)) st), length_take.
  replace (Nat.min (Nat.min _ (length st)) (length st)) with (Nat.min (limit lim (Z.to_nat n)) (length st)) by lia.
  apply Hok; [done| | |]; destruct lim; simpl; try lia; destruct Hlim; auto; done.
Qed.
End call_rules.

(** ** Streams *)

Lemma stream_app fd s m fd' :
  stream (app_stream fd s m) fd' = if decide (fd' = fd) then stream m fd ++ s else stream m fd'.
Proof.
  destruct s as [|b s]; simpl.
  - case_decide; [subst; by rewrite app_nil_r|done].
  - unfold stream at 1. case_decide; [subst; by rewrite lookup_insert_eq|by rewrite lookup_insert_ne].
Qed.

Lemma stream_app_eq fd s m : stream (app_stream fd s m) fd = stream m fd ++ s.
Proof. rewrite stream_app. by rewrite decide_True. Qed.

Lemma stream_app_ne fd s m fd' : fd' ≠ fd -> stream (app_stream fd s m) fd' = stream m fd'.
Proof. intros. rewrite stream_app. by rewrite decide_False. Qed.

Lemma app_stream_app fd s t m : app_stream fd t (app_stream fd s m) = app_stream fd (s ++ t) m.
Proof.
  destruct s as [|b s]; [done|]. destruct t as [|c t]; [by rewrite app_nil_r|].
  simpl. rewrite insert_insert_eq. unfold stream. rewrite lookup_insert_eq. simpl.
  by rewrite <- app_assoc.
Qed.

Lemma stream_drop fd n m fd' :
  stream (drop_stream fd n m) fd' = if decide (fd' = fd) then drop n (stream m fd) else stream m fd'.
Proof.
  destruct n as [|n]; simpl.
  - case_decide; [by subst; rewrite drop_0|done].
  - unfold stream at 1. case_decide; [subst; by rewrite lookup_insert_eq|by rewrite lookup_insert_ne].
Qed.

Lemma stream_drop_eq fd n m : stream (drop_stream fd n m) fd = drop n (stream m fd).
Proof. rewrite stream_drop. by rewrite decide_True. Qed.

Lemma drop_stream_drop fd n n' m :
  drop_stream fd n' (drop_stream fd n m) = drop_stream fd (n + n') m.
Proof.
  destruct n as [|n]; [done|]. destruct n' as [|n']; [by rewrite Nat.add_0_r|].
  simpl. rewrite insert_insert_eq. unfold stream. rewrite lookup_insert_eq. simpl.
  rewrite drop_drop. by replace (S n + S n')%nat with (S (n + S n')) by lia.
Qed.

#[export] Hint Rewrite stream_app_eq stream_drop_eq app_stream_app drop_stream_drop : sync.

Lemma with_out_id {S} (k : kern S) : with_out (k_out k) k = k.
Proof. by destruct k. Qed.
Lemma with_in_id {S} (k : kern S) : with_in (k_in k) k = k.
Proof. by destruct k. Qed.
Lemma with_stderr_id {S} (k : kern S) : with_stderr (k_stderr k) k = k.
Proof. by destruct k. Qed.
Lemma with_held_id {S} (k : kern S) : with_held (k_held k) k = k.
Proof. by destruct k. Qed.
Lemma with_fds_id {S} (k : kern S) : with_fds (k_fds k) k = k.
Proof. by destruct k. Qed.
Lemma with_locks_id {S} (k : kern S) : with_locks (k_locks k) k = k.
Proof. by destruct k. Qed.

(** ** Descriptors *)

Lemma next_fd_fresh (fds : gmap Z fdesc) : fds !! next_fd fds = None.
Proof.
  unfold next_fd. destruct (list_find _ _) as [[i fd]|] eqn:E; simpl.
  - by apply list_find_Some in E as (_ & ? & _).
  - apply list_find_None in E. rewrite Forall_forall in E.
    destruct (fds !! Z.of_nat (size fds)) eqn:Hs; [|done]. exfalso.
    assert (Hsub : list_to_set (seqZ 0 (Z.of_nat (S (size fds)))) ⊆ dom fds).
    { intros x Hx%elem_of_list_to_set%elem_of_seqZ. apply elem_of_dom.
      destruct (decide (x = Z.of_nat (size fds))) as [->|Hne]; [eauto|].
      destruct (fds !! x) eqn:Hx'; [eauto|]. destruct (E x); [|done].
      apply elem_of_seqZ. lia. }
    apply subseteq_size in Hsub. rewrite size_list_to_set, length_seqZ, size_dom in Hsub by apply NoDup_seqZ.
    lia.
Qed.

Lemma next_fd_nonneg (fds : gmap Z fdesc) : 0 <= next_fd fds.
Proof.
  unfold next_fd. destruct (list_find _ _) as [[i fd]|] eqn:E; simpl; [|lia].
  apply list_find_Some in E as (Hi & _). apply lookup_seqZ in Hi. lia.
Qed.

(** Opening a descriptor that is not a file and closing it changes nothing. *)
Lemma close_add_fd {S} d (k : kern S) :
  (forall i o f, d ≠ FdFile i o f) ->
  close_fd (with_fds (<[next_fd (k_fds k) := d]> (k_fds k)) k) (next_fd (k_fds k)) = k.
Proof.
  intros Hd. unfold close_fd. simpl. rewrite lookup_insert_eq.
  rewrite delete_insert_id by apply next_fd_fresh.
  destruct d; try (by destruct k). by destruct (Hd ino off flags).
Qed.

(** ** Runs without faults *)

Lemma pop_faultless en : faultless en -> pop en = (Full, en).
Proof. unfold faultless, pop. by intros ->. Qed.

Lemma wp_fallible_faultless {S A} (e : sys S) (ko : ans e) f (g : ans e -> prog S A) Q en (k : kern S) :
  (forall w, sem e w = fallible w ko f) ->
  faultless en ->
  match f None k with
  | inl err => wp (g ko) Q (W (with_errno err en) k)
  | inr (x, k') => wp (g x) Q (W en k')
  end ->
  wp (call e ≫= g) Q (W en k).
Proof.
  intros Hsem Hf H. apply wp_call. rewrite Hsem. unfold fallible. simpl.
  rewrite pop_faultless by done. by destruct (f None k) as [|[]].
Qed.

Lemma wp_pthread_faultless {S A} (m : mutex) (g : Z -> prog S A) Q en (k : kern S) :
  faultless en ->
  (wp (g 0) Q (W en (with_held ({[m]} ∪ k_held k) k)) -> wp (call (Mutex_lock m) ≫= g) Q (W en k)) /\
  (wp (g 0) Q (W en (with_held (k_held k ∖ {[m]}) k)) -> wp (call (Mutex_unlock m) ≫= g) Q (W en k)).
Proof.
  intros Hf. split; intros HQ; apply wp_call; unfold sem, pthread_call; simpl; rewrite pop_faultless by done; exact HQ.
Qed.

(** ** The record of held mutexes *)

(** No call depends on which mutexes are recorded as held. *)
Definition held_map {S X} (h : gset mutex) (r : Z + (X * kern S)) : Z + (X * kern S) :=
  match r with inl e => inl e | inr (x, k) => inr (x, with_held h k) end.

Lemma fallible_held {S X} en (k : kern S) h (ko : X) f :
  (forall lim, f lim (with_held h k) = held_map h (f lim k)) ->
  exists h', fallible (W en (with_held h k)) ko f =
    (fst (fallible (W en k) ko f), W (w_env (snd (fallible (W en k) ko f))) (with_held h' (w_kern (snd (fallible (W en k) ko f))))).
Proof.
  intros Hf. exists h. unfold fallible. cbn [w_env w_kern]. destruct (pop en) as [[|n|e] en'].
  - rewrite Hf. by destruct (f _ k) as [|[]].
  - rewrite Hf. by destruct (f _ k) as [|[]].
  - done.
Qed.

Lemma open_node_held {S} (k : kern S) h p nd fl : open_node (with_held h k) p nd fl = held_map h (open_node k p nd fl).
Proof. unfold open_node. destruct nd; try case_if; done. Qed.

Lemma follow_held {S} (k : kern S) h p : follow (with_held h k) p = follow k p.
Proof. done. Qed.

Lemma open_path_held {S} (k : kern S) h p fl m : open_path (with_held h k) p fl m = held_map h (open_path k p fl m).
Proof.
  unfold open_path. cbn [k_tree with_held]. change (follow (with_held h k) p) with (follow k p).
  change (is_dir (with_held h k)) with (is_dir k).
  destruct (k_tree k !! p) as [nd|]; repeat case_if; try done; [apply open_node_held|].
  destruct (follow k p); [done|]. apply open_node_held.
Qed.

(** Case analysis on whatever the operation looks at. *)
Ltac held_cases :=
  cbn [k_static k_held k_tree k_inodes k_fds k_locks k_in k_out k_shut k_stdin with_held];
  repeat match goal with |- context [match ?x with _ => _ end] => destruct x; try done end; try done.

Ltac held_op :=
  unfold at_dir;
  repeat match goal with
  | |- context [fd_dir (with_held ?h ?k) ?d] => change (fd_dir (with_held h k) d) with (fd_dir k d); destruct (fd_dir k d); [done|]
  end;
  first [apply open_path_held | done |
  unfold send_fd, recv_fd, read_fd, write_fd, stat_path, lstat_path, fstat_fd, mkdir_path, unlink_path, link_path,
    fchmod_fd, fdopendir_fd, readdir_fd, setlk_fd, stat_node, bind_fd, bind_path, listen_fd;
  repeat match goal with
  | |- context [follow (with_held ?h ?k)] => change (follow (with_held h k)) with (follow k)
  | |- context [is_dir (with_held ?h ?k)] => change (is_dir (with_held h k)) with (is_dir k)
  end; held_cases].

Lemma pthread_held {S} en (k : kern S) h (f : kern S -> kern S) :
  (forall h1, exists h2, f (with_held h1 k) = with_held h2 (f k)) ->
  exists h', pthread_call (W en (with_held h k)) f =
    (fst (pthread_call (W en k) f), W (w_env (snd (pthread_call (W en k) f))) (with_held h' (w_kern (snd (pthread_call (W en k) f))))).
Proof.
  intros Hf. unfold pthread_call. cbn [w_env w_kern]. destruct (Hf h) as [h2 Hh].
  destruct (pop en) as [[| |e] en']; [exists h2|exists h2|by exists h]; by rewrite Hh.
Qed.

Lemma sem_held {S} (e : sys S) en (k : kern S) h :
  exists h', sem e (W en (with_held h k)) = (fst (sem e (W en k)), W (w_env (snd (sem e (W en k)))) (with_held h' (w_kern (snd (sem e (W en k)))))).
Proof.
  destruct e; try (apply pthread_held; intros h1; eexists; reflexivity);
    try (apply fallible_held; intros lim; cbv beta; held_op);
    try (eexists; reflexivity).
  all: exists h; unfold sem, interruptible; cbn [w_env w_kern].
  all: try (destruct (pop en) as [[|n|e] en1]); cbn [k_stdin with_held]; try done.
  all: try (by destruct (e_dgrams en1)); try (by destruct (e_clock en1) as [|[] ?]); try (by case_if).
  all: try (by destruct (fgets size (k_stdin k)) as [[]|]).
  all: cbn [k_fds with_held]; by destruct (k_fds k !! fd) as [[]|], (e_conns en1) as [|? ?].
Qed.

Lemma with_held_held {S} h h' (k : kern S) : with_held h (with_held h' k) = with_held h k.
Proof. done. Qed.

(** Nor does a program. *)
Lemma wp_held {S A} (p : prog S A) Q en (k : kern S) h :
  wp p (fun a w => forall h', Q a (W (w_env w) (with_held h' (w_kern w)))) (W en k) -> wp p Q (W en (with_held h k)).
Proof.
  revert en k h. induction p as [a|e g IH|]; intros en k h Hw; [exact (Hw h)| |done].
  change (let '(r, w') := sem e (W en (with_held h k)) in wp (g r) Q w').
  match type of Hw with wp _ ?Q' _ => change (let '(r, w') := sem e (W en k) in wp (g r) Q' w') in Hw end.
  destruct (sem_held e en k h) as [h' ->]. destruct (sem e (W en k)) as [r [en1 k1]]. by apply IH.
Qed.

(** So a rule that needs some mutexes to be free holds without them, when
    nothing is to be known of the mutexes afterwards. *)
Lemma wp_any_held {S A} (P : gset mutex -> Prop) `{forall h, Decision (P h)} (p : prog S A) Q en (k : kern S) :
  P ∅ ->
  (P (k_held k) -> wp p Q (W en k)) ->
  (~ P (k_held k) -> wp p (fun a w => forall h', Q a (W (w_env w) (with_held h' (w_kern w)))) (W en (with_held ∅ k))) ->
  wp p Q (W en k).
Proof.
  intros He Hyes Hno. destruct (decide (P (k_held k))) as [?|Hn]; [by apply Hyes|].
  rewrite <- (with_held_id k), <- (with_held_held (k_held k) ∅ k). by apply wp_held, Hno.
Qed.

(** ** Names in the file tree *)

Section paths.
Context {S A : Type}.
Implicit Types (Q : A -> world S -> Prop) (en : env) (k : kern S).

Lemma wp_unlink name g Q en k :
  let p := resolve [] name in
  (forall en' nd, env_le en' en -> k_tree k !! p = Some nd -> nd ≠ NDir -> wp (g 0) Q (W en' (with_tree (delete p (k_tree k)) k))) ->
  (forall en', env_le en' en ->
     env_lt en' en \/ k_tree k !! p = None /\ e_errno en' = ENOENT \/ k_tree k !! p = Some NDir -> wp (g (-1)) Q (W en' k)) ->
  wp (call (Unlink name) ≫= g) Q (W en k).
Proof.
  intros p Hok Hko. eapply wp_fallible; [reflexivity| |].
  - intros en' Hlt _. apply Hko; [by apply env_lt_le|by left].
  - intros en' lim Hle _ _. unfold unlink_path. fold p. destruct (k_tree k !! p) as [nd|] eqn:E.
    + destruct nd; try (by eapply Hok). apply Hko; [done|right; by right].
    + apply Hko; [done|right; by left].
Qed.

Lemma wp_bind_path fd name g Q en k :
  let p := resolve [] name in
  k_fds k !! fd = Some FdDgram ->
  (forall en', env_le en' en -> k_tree k !! p = None -> wp (g 0) Q (W en' (with_tree (<[p := NOther]> (k_tree k)) k))) ->
  (forall en', env_le en' en ->
     env_lt en' en \/ is_Some (k_tree k !! p) \/ is_dir k (removelast p) = false -> wp (g (-1)) Q (W en' k)) ->
  wp (call (Bind_path fd name) ≫= g) Q (W en k).
Proof.
  intros p Hfd Hok Hko. eapply wp_fallible; [reflexivity| |].
  - intros en' Hlt _. apply Hko; [by apply env_lt_le|by left].
  - intros en' lim Hle _ _. unfold bind_path. rewrite Hfd. fold p. destruct (k_tree k !! p) as [nd|] eqn:E.
    + apply Hko; [done|right; left; by exists nd].
    + destruct (is_dir k (removelast p)) eqn:Ed; [by apply Hok|]. apply Hko; [done|right; by right].
Qed.

(** The exclusive creation of a file. *)
Lemma wp_open_excl name flags mode g Q en k :
  let p := resolve [] name in
  has flags O_CREAT && has flags O_EXCL = true -> has flags O_CREAT = true ->
  (forall en' ino, env_le en' en -> k_tree k !! p = None -> is_dir k (removelast p) = true -> k_inodes k !! ino = None ->
     let fd := next_fd (k_fds k) in
     wp (g fd) Q (W en' (with_fds (<[fd := FdFile ino 0 flags]> (k_fds k))
                           (with_tree (<[p := NReg ino]> (k_tree k))
                             (with_inodes (<[ino := mk_inode [] mode]> (k_inodes k)) k))))) ->
  (forall en', env_le en' en ->
     env_lt en' en \/ is_Some (k_tree k !! p) \/ is_dir k (removelast p) = false -> wp (g (-1)) Q (W en' k)) ->
  wp (call (Open name flags mode) ≫= g) Q (W en k).
Proof.
  intros p Hx Hc Hok Hko. eapply wp_fallible; [reflexivity|intros; apply Hko; [by apply env_lt_le|by left]|].
  intros en' lim Hle _ _. cbv beta. change (resolve [] name) with p. unfold open_path. rewrite Hx, Hc.
  destruct (k_tree k !! p) as [nd|] eqn:E; [apply Hko; [done|right; left; by eexists]|].
  destruct (is_dir k (removelast p)) eqn:Ed; [|apply Hko; [done|by right; right]].
  apply (Hok en' (fresh (dom (k_inodes k)))); [done|done|done|]. apply not_elem_of_dom, is_fresh.
Qed.

Lemma wp_link old new ino g Q en k :
  k_tree k !! resolve [] old = Some (NReg ino) ->
  (forall en', env_le en' en -> k_tree k !! resolve [] new = None ->
     wp (g 0) Q (W en' (with_tree (<[resolve [] new := NReg ino]> (k_tree k)) k))) ->
  (forall en', env_le en' en ->
     env_lt en' en \/ is_Some (k_tree k !! resolve [] new) \/ is_dir k (removelast (resolve [] new)) = false ->
     wp (g (-1)) Q (W en' k)) ->
  wp (call (Link old new) ≫= g) Q (W en k).
Proof.
  intros Ho Hok Hko. eapply wp_fallible; [reflexivity|intros; apply Hko; [by apply env_lt_le|by left]|].
  intros en' lim Hle _ _. cbv beta. unfold link_path. rewrite Ho.
  destruct (k_tree k !! resolve [] new) as [nd|] eqn:E; [apply Hko; [done|right; left; by eexists]|].
  destruct (is_dir k (removelast (resolve [] new))) eqn:Ed; [by apply Hok|apply Hko; [done|by right; right]].
Qed.

Lemma wp_access name g Q en k :
  (forall en', env_le en' en -> is_Some (k_tree k !! resolve [] name) -> wp (g 0) Q (W en' k)) ->
  (forall en', env_le en' en -> wp (g (-1)) Q (W en' k)) ->
  wp (call (Access name) ≫= g) Q (W en k).
Proof.
  intros Hok Hko. eapply wp_fallible; [reflexivity|intros; apply Hko; by apply env_lt_le|].
  intros en' lim Hle _ _. cbv beta. unfold follow.
  destruct (k_tree k !! resolve [] name) as [[| |t|]|] eqn:E; try (apply Hok; [done|by eexists]); [|by apply Hko].
  destruct (k_tree k !! resolve (removelast (resolve [] name)) t) as [[]|]; first [apply Hok; [done|by eexists] | by apply Hko].
Qed.

(** The last calls on a file. *)
Lemma wp_fsync fd g Q en k :
  is_Some (k_fds k !! fd) ->
  (forall en' z, env_le en' en -> z = 0 \/ z = -1 /\ env_lt en' en -> wp (g z) Q (W en' k)) ->
  wp (call (Fsync fd) ≫= g) Q (W en k).
Proof.
  intros Hfd HQ. eapply wp_fallible; [reflexivity|intros; apply HQ; [by apply env_lt_le|by right]|].
  intros en' lim Hle _ _. cbv beta. rewrite bool_decide_eq_true_2 by done. apply HQ; [done|by left].
Qed.

Lemma wp_fchmod fd mode ino off fl i g Q en k :
  k_fds k !! fd = Some (FdFile ino off fl) -> k_inodes k !! ino = Some i ->
  (forall en', env_le en' en -> wp (g 0) Q (W en' (with_inodes (<[ino := mk_inode (i_data i) mode]> (k_inodes k)) k))) ->
  (forall en', env_lt en' en -> wp (g (-1)) Q (W en' k)) ->
  wp (call (Fchmod fd mode) ≫= g) Q (W en k).
Proof.
  intros Hfd Hi Hok Hko. eapply wp_fallible; [reflexivity|intros; by apply Hko|].
  intros en' lim Hle _ _. cbv beta. unfold fchmod_fd. rewrite Hfd, Hi. by apply Hok.
Qed.
End paths.

(** ** Which calls a program makes *)

(** Every call that [p] can make, whatever the answers, satisfies [P]. *)
Fixpoint calls {S A} (P : sys S -> Prop) (p : prog S A) : Prop :=
  match p with
  | Ret _ => True
  | Call e g => P e /\ forall r, calls P (g r)
  | Diverge => True
  end.

Lemma calls_ret {S A} P (a : A) : calls P (mret a : prog S A).
Proof. done. Qed.

Lemma calls_bind {S A A'} P (p : prog S A) (g : A -> prog S A') :
  calls P p -> (forall a, calls P (g a)) -> calls P (p ≫= g).
Proof.
  intros Hp Hg. induction p as [a|e f IH|]; [exact (Hg a)| |done].
  destruct Hp as [He Hp]. split; [done|]. intros r. by apply IH.
Qed.

Lemma calls_mono {S A} (P P' : sys S -> Prop) (p : prog S A) : (forall e, P e -> P' e) -> calls P p -> calls P' p.
Proof. intros HP. induction p as [a|e g IH|]; [done| |done]. intros [He Hg]. split; [by apply HP|]. intros r. by apply IH. Qed.

Lemma calls_call {S} P (e : sys S) : P e -> calls P (call e).
Proof. done. Qed.

(** Walks through the code of a program. *)
Ltac solve_calls :=
  repeat first
    [ apply calls_ret
    | apply calls_call; repeat split
    | apply calls_bind; [|intros ?]
    | match goal with |- calls _ (match ?x with _ => _ end) => destruct x end ].

(** A relation that each of these calls maintains holds of the whole run. *)
Lemma wp_calls {S A} (P : sys S -> Prop) (R : world S -> world S -> Prop) `{!PreOrder R} (p : prog S A) Q w :
  (forall e w, P e -> R w (snd (sem e w))) -> calls P p -> wp p Q w -> wp p (fun a w' => Q a w' /\ R w w') w.
Proof.
  intros HR. revert w. induction p as [a|e g IH|]; intros w Hp Hw; [by split| |done].
  destruct Hp as [He Hp]. specialize (HR e w He).
  change (let '(r, w') := sem e w in wp (g r) Q w') in Hw.
  change (let '(r, w') := sem e w in wp (g r) (fun a w'' => Q a w'' /\ R w w'') w').
  destruct (sem e w) as [r w']. eapply wp_mono; [by apply IH|]. intros a w'' [? ?]. split; [done|]. by etransitivity.
Qed.

(** The calls that leave the datagrams, the clock, the connections of the
    environment alone. *)
Definition no_datagram {S} (e : sys S) : Prop :=
  match e with Sendto _ _ | Recvfrom _ _ _ => False | _ => True end.
Definition no_clock {S} (e : sys S) : Prop := match e with Clock_gettime => False | _ => True end.
Definition no_accept {S} (e : sys S) : Prop := match e with Accept _ _ => False | _ => True end.

(** Only the script and errno of the environment may have changed, as far as
    the call [e] is concerned. *)
Definition feeds {S} (e : sys S) (en en' : env) : Prop :=
  (no_datagram e -> e_dgrams en' = e_dgrams en) /\ (no_clock e -> e_clock en' = e_clock en) /\
  (no_accept e -> e_conns en' = e_conns en).

Lemma feeds_pop {S} (e : sys S) en en' : snd (pop en) = en' -> feeds e en en'.
Proof. intros <-. unfold feeds, pop. by destruct (e_script en). Qed.

Lemma feeds_fallible {S X} (e : sys S) (w : world S) (ko : X) f : feeds e (w_env w) (w_env (snd (fallible w ko f))).
Proof.
  unfold fallible. pose proof (feeds_pop e (w_env w) _ eq_refl) as Hp. destruct (pop (w_env w)) as [[|n|z] en]; simpl in *;
    try destruct (f _ _) as [|[]]; done.
Qed.

Lemma sem_feeds {S} (e : sys S) w : feeds e (w_env w) (w_env (snd (sem e w))).
Proof.
  pose proof (feeds_pop e (w_env w) _ eq_refl) as Hp.
  destruct e; try done; try apply feeds_fallible; unfold sem, pthread_call, interruptible; destruct (pop (w_env w)) as [[|n|z] en];
    cbn [snd fst w_env] in *; try done; try (by destruct Hp as (? & ? & ?));
    try (case_if; exact Hp);
    try (by destruct Hp as (? & ? & ?); destruct (k_fds (w_kern w) !! fd) as [[]|], (e_conns en) as [|? ?]);
    try (by destruct Hp as (? & ? & ?); destruct (e_dgrams en) as [|? ?]);
    try (by destruct Hp as (? & ? & ?); destruct (e_clock en) as [|? ?]);
    try (by destruct (fgets _ _) as [[]|]).
Qed.

(** A program without datagrams leaves the queue as it is. *)
Lemma wp_queue {S A} (p : prog S A) Q w :
  calls no_datagram p -> wp p Q w -> wp p (fun a w' => Q a w' /\ e_dgrams (w_env w') = e_dgrams (w_env w)) w.
Proof.
  intros Hp Hw. refine (wp_calls no_datagram (fun w w' => e_dgrams (w_env w') = e_dgrams (w_env w)) p Q w _ Hp Hw).
  - split; [by intros ?|]. intros w1 w2 w3 H1 H2. congruence.
  - intros e w' He. by apply sem_feeds.
Qed.

(** A program that never accepts leaves the pending connections as they are. *)
Lemma wp_pending {S A} (p : prog S A) Q w :
  calls no_accept p -> wp p Q w -> wp p (fun a w' => Q a w' /\ e_conns (w_env w') = e_conns (w_env w)) w.
Proof.
  intros Hp Hw. refine (wp_calls no_accept (fun w w' => e_conns (w_env w') = e_conns (w_env w)) p Q w _ Hp Hw).
  - split; [by intros ?|]. intros w1 w2 w3 H1 H2. congruence.
  - intros e w' He. by apply sem_feeds.
Qed.

(** Only faults have been consumed, and errno set. *)
Definition quiet {S} (e : sys S) : Prop := no_datagram e /\ no_clock e /\ no_accept e.
Definition same_feeds (en en' : env) : Prop :=
  e_dgrams en' = e_dgrams en /\ e_clock en' = e_clock en /\ e_conns en' = e_conns en.

#[export] Instance same_feeds_preorder : PreOrder same_feeds.
Proof. split; [done|]. intros e1 e2 e3 (? & ? & ?) (? & ? & ?). repeat split; congruence. Qed.

Lemma wp_quiet {S A A'} (p : prog S A) (g : A -> prog S A') R Q en k :
  calls quiet p -> wp p R (W en k) ->
  (forall a en' k', R a (W en' k') -> same_feeds en en' -> wp (g a) Q (W en' k')) ->
  wp (p ≫= g) Q (W en k).
Proof.
  intros Hp Hw HQ. apply wp_bind. eapply wp_mono.
  - refine (wp_calls quiet (fun w w' => same_feeds (w_env w) (w_env w')) p R _ _ Hp Hw).
    + split; [by intros ?|]. intros w1 w2 w3 H1 H2. by etransitivity.
    + intros e w (? & ? & ?). destruct (sem_feeds e w) as (? & ? & ?). repeat split; auto.
  - intros a [en' k'] [? ?]. by apply HQ.
Qed.

(** ** Opening a file, whatever it is *)

Lemma open_path_any {S} (k : kern S) p fl m fd k' :
  open_path k p fl m = inr (fd, k') ->
  fd = next_fd (k_fds k) /\ k_static k' = k_static k /\ exists d, k_fds k' = <[fd := d]> (k_fds k).
Proof.
  intros H. assert (Hn : forall nd, open_node k p nd fl = inr (fd, k') ->
    fd = next_fd (k_fds k) /\ k_static k' = k_static k /\ exists d, k_fds k' = <[fd := d]> (k_fds k)).
  { intros nd Hnd. unfold open_node in Hnd. destruct nd; try done; try (destruct (has _ _); [done|]);
      injection Hnd as <- <-; split_and!; try done; by eexists. }
  unfold open_path in H. destruct (k_tree k !! p) as [nd|].
  - destruct (has fl O_CREAT && _); [done|]. destruct (has fl O_NOFOLLOW); [by eapply Hn|].
    destruct (follow k p); [done|]. by eapply Hn.
  - destruct (has fl O_CREAT); [|done]. destruct (is_dir k _); [|done].
    injection H as <- <-. split_and!; [done|done|by eexists].
Qed.

Lemma wp_of_bind {S A} (p : prog S A) Q w : wp (p ≫= mret) Q w -> wp p Q w.
Proof. intros Hw. apply wp_bind_iff in Hw. exact Hw. Qed.

(** ** Setting up the signal handlers *)

Definition signal_call {S} (p : prog S Z) : Prop := p = call Sigemptyset \/ exists z, p = call (Sigaction z).

Lemma wp_signal {S A} (p : prog S Z) (g : Z -> prog S A) Q en k :
  signal_call p ->
  (forall en', env_lt en' en -> wp (g (-1)) Q (W en' k)) ->
  (forall en', env_le en' en -> same_feeds en en' -> wp (g 0) Q (W en' k)) ->
  wp (p ≫= g) Q (W en k).
Proof.
  intros Hp Hko Hok.
  eapply (wp_quiet _ _ (fun r w => w_kern w = k /\ (r = -1 /\ env_lt (w_env w) en \/ r = 0 /\ env_le (w_env w) en))).
  - destruct Hp as [->|[z ->]]; by apply calls_call.
  - apply wp_of_bind. destruct Hp as [->|[z ->]]; (eapply wp_fallible; [reflexivity| |]); intros;
      apply wp_ret; (split; [done|]); [by left|by right|by left|by right].
  - intros r en' k' [Hk [[-> Hlt]|[-> Hle]]] Hs; cbn [w_kern] in Hk; subst k'; auto.
Qed.

(** ** The script only shrinks *)

Lemma sem_env_le {S} (e : sys S) w : env_le (w_env (snd (sem e w))) (w_env w).
Proof.
  assert (Hp : env_le (snd (pop (w_env w))) (w_env w)).
  { unfold env_le, script_len, pop. destruct (e_script (w_env w)) eqn:E; simpl; rewrite ?E; simpl; lia. }
  assert (Hfal : forall X (ko : X) f, env_le (w_env (snd (fallible w ko f))) (w_env w)).
  { intros X ko f. unfold fallible. destruct (pop (w_env w)) as [[|n|z] en]; simpl in *; try destruct (f _ _) as [|[]]; done. }
  destruct e; try done; try apply Hfal; unfold sem, pthread_call, interruptible; destruct (pop (w_env w)) as [[|n|z] en];
    cbn [snd fst w_env] in *; try done;
    try (case_if; exact Hp);
    try (by destruct (k_fds (w_kern w) !! fd) as [[]|], (e_conns en) as [|? ?]);
    try (by destruct (e_dgrams en) as [|? ?]);
    try (by destruct (e_clock en) as [|? ?]);
    try (by destruct (fgets _ _) as [[]|]); try (unfold env_le, script_len; simpl; lia).
Qed.

Lemma wp_env_le {S A} (p : prog S A) Q w :
  wp p Q w -> wp p (fun a w' => Q a w' /\ env_le (w_env w') (w_env w)) w.
Proof.
  revert w. induction p as [a|e g IH|]; intros w Hw; [by split| |done].
  change (let '(r, w') := sem e w in wp (g r) Q w') in Hw.
  change (let '(r, w') := sem e w in wp (g r) (fun a w'' => Q a w'' /\ env_le (w_env w'') (w_env w)) w').
  pose proof (sem_env_le e w) as Hle. destruct (sem e w) as [r w']. cbn [snd] in Hle.
  eapply wp_mono; [by apply IH|]. intros a w'' [? ?]. split; [done|]. by etransitivity.
Qed.

(** ** What a call leaves alone *)

Lemma fallible_obs {S X O} (obs : kern S -> O) (w : world S) (ko : X) f :
  (forall lim k x k', f lim k = inr (x, k') -> obs k' = obs k) -> obs (w_kern (snd (fallible w ko f))) = obs (w_kern w).
Proof.
  intros Hf. unfold fallible. destruct (pop (w_env w)) as [[|n|z] en]; [| |done].
  - destruct (f None (w_kern w)) as [e|[x k']] eqn:E; [done|]. by eapply Hf.
  - destruct (f (Some n) (w_kern w)) as [e|[x k']] eqn:E; [done|]. by eapply Hf.
Qed.

(** The operations on files and descriptors change nothing of the process
    itself. *)
Ltac solve_obs :=
  intros lim k x k' E; unfold at_dir, open_path, open_node, create_file, lstat_path, stat_path, fstat_fd, mkdir_path, unlink_path,
    link_path, recv_fd, send_fd, read_fd, write_fd, fchmod_fd, fdopendir_fd, readdir_fd, setlk_fd, bind_fd, bind_path, listen_fd, add_fd in E;
  repeat match type of E with context [match ?x with _ => _ end] => destruct x; try done end; by injection E as <- <-.
