(* ===== verification/Protocol.v ===== *)
(** * Protocol constants and name policies

    [src/common/protocol.c], [src/common/file_transfer.c] and their headers. *)

From S2P Require Import Prelude CLib Posix.

(** ** Limits and message types *)

Definition MESSAGE_MAX_SIZE : Z := 4096.
Definition USERNAME_MAX_SIZE : Z := 32.
Definition FILE_CHUNK_SIZE : Z := 8192.
Definition FILE_NAME_MAX_SIZE : Z := 128.
Definition FILE_MAX_SIZE : Z := 50 * 1024 * 1024.

Definition MSG_LOGIN : Z := 1.
Definition MSG_CHAT : Z := 2.
Definition MSG_DISCONNECT : Z := 3.
Definition MSG_UPLOAD : Z := 4.
Definition MSG_DOWNLOAD : Z := 5.
Definition MSG_LIST_FILES : Z := 6.
Definition MSG_RESPONSE : Z := 7.
Definition MSG_ERROR : Z := 8.
Definition MSG_BROADCAST : Z := 9.
Definition MSG_USERLIST : Z := 10.
Definition MSG_LIST_USERS : Z := 11.
Definition MSG_PRIVATE : Z := 12.
Definition MSG_FILELIST : Z := 13.

(** The wire image of [message_header_t]: both members in network order. *)
Definition message_header (type length : Z) : bytes := be32 type ++ be32 length.

(** A complete frame. *)
Definition frame (type : Z) (payload : bytes) : bytes := message_header type (strlen payload) ++ payload.

Definition is_valid_message_type (type : Z) : bool :=
  existsb (Z.eqb type)
    [MSG_LOGIN; MSG_CHAT; MSG_DISCONNECT; MSG_UPLOAD; MSG_DOWNLOAD; MSG_LIST_FILES; MSG_RESPONSE;
     MSG_ERROR; MSG_BROADCAST; MSG_USERLIST; MSG_LIST_USERS; MSG_PRIVATE; MSG_FILELIST].

(** ** Names *)

Definition username_char (c : byte) : bool := isalnum c || bool_decide (c = UNDERSCORE).

Definition is_valid_username (username : option bytes) : bool :=
  match username with
  | None => false
  | Some s =>
      let length := strlen s in
      if (length == 0) || (USERNAME_MAX_SIZE <=? length) then false
      else forallb username_char s
  end.

Definition filename_char (c : byte) : bool :=
  isalnum c || bool_decide (c = UNDERSCORE) || bool_decide (c = DASH) || bool_decide (c = DOT).

Definition is_valid_shared_filename (filename : option bytes) : bool :=
  match filename with
  | None => false
  | Some s =>
      let length := strlen s in
      if (length == 0) || (FILE_NAME_MAX_SIZE <=? length) then false
      else
        let first := hd NUL s in
        if negb (isalnum first) && negb (bool_decide (first = UNDERSCORE)) then false
        else match strstr s (B "..") with
             | Some _ => false
             | None => forallb filename_char s
             end
  end.

(** ** The policies *)

Definition username_ok (s : bytes) : Prop :=
  1 <= zlen s <= 31 /\ Forall (fun c => isalnum c = true \/ c = UNDERSCORE) s.

Definition filename_ok (s : bytes) : Prop :=
  1 <= zlen s <= 127 /\
  Forall (fun c => isalnum c = true \/ c = UNDERSCORE \/ c = DASH \/ c = DOT) s /\
  (exists c t, s = c :: t /\ (isalnum c = true \/ c = UNDERSCORE)) /\
  (forall u v, s ≠ u ++ [DOT; DOT] ++ v).

Lemma forallb_Forall {A} (f : A -> bool) (P : A -> Prop) l :
  (forall x, f x = true <-> P x) -> forallb f l = true <-> Forall P l.
Proof.
  intros Hf. induction l as [|x l IH]; simpl; [split; [constructor|done]|].
  rewrite andb_true_iff, Hf, IH, Forall_cons. done.
Qed.

Lemma username_char_iff c : username_char c = true <-> isalnum c = true \/ c = UNDERSCORE.
Proof. unfold username_char. by rewrite orb_true_iff, bool_decide_eq_true. Qed.

Lemma filename_char_iff c :
  filename_char c = true <-> isalnum c = true \/ c = UNDERSCORE \/ c = DASH \/ c = DOT.
Proof. unfold filename_char. rewrite !orb_true_iff, !bool_decide_eq_true. tauto. Qed.

Lemma is_valid_username_iff s : is_valid_username (Some s) = true <-> username_ok s.
Proof.
  unfold is_valid_username, username_ok, strlen, USERNAME_MAX_SIZE.
  destruct ((zlen s == 0) || (32 <=? zlen s)) eqn:E.
  - split; [done|]. intros [? _]. apply orb_true_iff in E. destruct E; unbool; lia.
  - unbool. rewrite forallb_Forall by apply username_char_iff.
    pose proof (zlen_nonneg s). split; [intros; split; [lia|done]|tauto].
Qed.

Lemma strstr_here s t v : s = t ++ v -> strstr s t = Some 0%nat.
Proof. intros ->. destruct (t ++ v) eqn:E; simpl; rewrite <- E; by rewrite strneq_prefix. Qed.

Lemma strstr_found u t v : is_Some (strstr (u ++ t ++ v) t).
Proof.
  destruct (strstr (u ++ t ++ v) t) eqn:E; [done|].
  by destruct (strstr_None _ _ E u v).
Qed.

Lemma is_valid_shared_filename_iff s : is_valid_shared_filename (Some s) = true <-> filename_ok s.
Proof.
  unfold is_valid_shared_filename, filename_ok, strlen, FILE_NAME_MAX_SIZE.
  pose proof (zlen_nonneg s).
  destruct ((zlen s == 0) || (128 <=? zlen s)) eqn:E.
  { split; [done|]. intros [? _]. apply orb_true_iff in E. destruct E; unbool; lia. }
  unbool. destruct s as [|c t]; [by rewrite zlen_nil in *|]. simpl hd.
  destruct (negb (isalnum c) && negb (bool_decide (c = UNDERSCORE))) eqn:Ec.
  { split; [done|]. intros (_ & _ & (c' & t' & [= <- <-] & Hc) & _). unbool.
    destruct Hc; congruence. }
  assert (Hc : isalnum c = true \/ c = UNDERSCORE).
  { apply andb_false_iff in Ec. rewrite !negb_false_iff, bool_decide_eq_true in Ec. done. }
  destruct (strstr (c :: t) (B "..")) eqn:Es.
  - split; [done|]. intros (_ & _ & _ & Hn).
    destruct (strstr_Some _ _ _ Es) as (u & v & E'). by destruct (Hn u v).
  - rewrite forallb_Forall by apply filename_char_iff.
    pose proof (strstr_None _ _ Es) as Hn.
    split; [|tauto]. intros Hf. split_and!; [lia..|done|eauto|exact Hn].
Qed.

(** ** Consequences for the storage paths *)

Lemma isalnum_not c d : isalnum d = false -> isalnum c = true -> c ≠ d.
Proof. congruence. Qed.

Lemma filename_ok_no_slash s : filename_ok s -> (SLASH ∉ s) /\ (BAR ∉ s) /\ cstring s.
Proof.
  intros (_ & Hf & _). rewrite Forall_forall in Hf.
  split_and!; intros H; apply Hf in H; destruct H as [H|[H|[H|H]]]; by vm_compute in H.
Qed.

Lemma username_ok_chars s : username_ok s -> cstring s /\ (SPACE ∉ s) /\ (NEWLINE ∉ s).
Proof.
  intros (_ & Hf). rewrite Forall_forall in Hf.
  split_and!; intros H; apply Hf in H; destruct H as [H|H]; by vm_compute in H.
Qed.

Lemma split_slash_single s : SLASH ∉ s -> split_slash s = [s].
Proof.
  induction s as [|b s IH]; [done|]. intros H. simpl. rewrite decide_False by set_solver.
  rewrite IH by set_solver. done.
Qed.

(** A name without slashes other than "", "." and ".." is an entry of the directory. *)
Lemma resolve_name d s : SLASH ∉ s -> s ≠ [] -> s ≠ [DOT] -> s ≠ [DOT; DOT] -> resolve d s = d ++ [s].
Proof.
  intros Hs H0 H1 H2. unfold resolve. rewrite split_slash_single by done. cbn [fold_left].
  unfold walk. rewrite !bool_decide_eq_false_2 by done. simpl.
  destruct s as [|[] s]; try done. exfalso. apply Hs. constructor.
Qed.

Lemma filename_ok_resolve d s : filename_ok s -> resolve d s = d ++ [s].
Proof.
  intros Hok. pose proof (filename_ok_no_slash _ Hok) as [Hs _].
  destruct Hok as (_ & _ & (c & t & -> & Hc) & _).
  apply resolve_name; [done|done| |]; intros [= -> _]; destruct Hc as [Hc|Hc]; by vm_compute in Hc.
Qed.

(** ** Properties *)

(** [is_valid_username] accepts exactly the names of 1 to 31 letters,
    digits and underscores. *)
Lemma username_policy s : is_valid_username (Some s) = true <-> username_ok s.
Proof. apply is_valid_username_iff. Qed.

(** C40. [is_valid_shared_filename] accepts exactly the names of 1 to 127
    letters, digits, underscores, dashes and dots that start with a letter, a
    digit or an underscore and have no two dots in a row. *)
Theorem filename_policy s : is_valid_shared_filename (Some s) = true <-> filename_ok s.
Proof. apply is_valid_shared_filename_iff. Qed.

(** A file name that passes the check names an entry of the directory it
    is used in: no name escapes from it, and different names are different entries. *)
Theorem filename_confined d s t :
  is_valid_shared_filename (Some s) = true -> is_valid_shared_filename (Some t) = true ->
  resolve d s = d ++ [s] /\ (resolve d s = resolve d t -> s = t).
Proof.
  intros Hs%is_valid_shared_filename_iff Ht%is_valid_shared_filename_iff.
  rewrite !filename_ok_resolve by done. split; [done|].
  intros E%(inj (app d)). by injection E.
Qed.

Lemma filename_confined_witness :
  resolve [B "storage"] (B "a.b-c_d") = [B "storage"] ++ [B "a.b-c_d"] /\
  (resolve [B "storage"] (B "a.b-c_d") = resolve [B "storage"] (B "_x") -> B "a.b-c_d" = B "_x").
Proof. apply filename_confined; vm_compute; reflexivity. Defined.
