(* ===== verification/NetworkIO.v ===== *)
(** * Complete transfers over sockets and files

    [src/common/network_io.c] and the [write_all] loops of the file manager,
    the download client and the logger daemon. *)

From S2P Require Import Prelude CLib Posix Wp.

(** ** The loops *)

Fixpoint send_all_loop {S} (fuel : nat) (socket_fd : Z) (buffer : bytes) (total_sent : Z) : prog S Z :=
  match fuel with
  | O => Diverge
  | Datatypes.S fuel =>
      if total_sent <? zlen buffer then
        sent ← call (Send socket_fd (drop (Z.to_nat total_sent) buffer));
        if sent <? 0 then
          errno ← call Errno;
          if errno == EINTR then send_all_loop fuel socket_fd buffer total_sent
          else mret (-1)
        else if sent == 0 then mret (-1)
        else send_all_loop fuel socket_fd buffer (total_sent + sent)
      else mret 0
  end.

Definition send_all {S} (F : nat) (socket_fd : Z) (buffer : bytes) : prog S Z :=
  send_all_loop F socket_fd buffer 0.

(** Returns the C result and the bytes written at the start of the buffer. *)
Fixpoint recv_all_loop {S} (fuel : nat) (socket_fd : Z) (length : Z) (received_bytes : bytes) : prog S (Z * bytes) :=
  match fuel with
  | O => Diverge
  | Datatypes.S fuel =>
      if zlen received_bytes <? length then
        received ← call (Recv socket_fd (length - zlen received_bytes));
        match received with
        | None =>
            errno ← call Errno;
            if errno == EINTR then recv_all_loop fuel socket_fd length received_bytes
            else mret (-1, received_bytes)
        | Some [] => mret (1, received_bytes)
        | Some chunk => recv_all_loop fuel socket_fd length (received_bytes ++ chunk)
        end
      else mret (0, received_bytes)
  end.

Definition recv_all {S} (F : nat) (socket_fd : Z) (length : Z) : prog S (Z * bytes) :=
  recv_all_loop F socket_fd length [].

(** [write_all_file] of the server also sets errno when [write] returns 0;
    the two other copies do not. *)
Fixpoint write_all_loop {S} (set_eio : bool) (fuel : nat) (file_fd : Z) (buffer : bytes) (written_total : Z) : prog S Z :=
  match fuel with
  | O => Diverge
  | Datatypes.S fuel =>
      if written_total <? zlen buffer then
        written ← call (Write file_fd (drop (Z.to_nat written_total) buffer));
        if written <? 0 then
          errno ← call Errno;
          if errno == EINTR then write_all_loop set_eio fuel file_fd buffer written_total
          else mret (-1)
        else if written == 0 then
          _ ← (if set_eio then call (Set_errno EIO) else mret tt);
          mret (-1)
        else write_all_loop set_eio fuel file_fd buffer (written_total + written)
      else mret 0
  end.

Definition write_all_file {S} (F : nat) (file_fd : Z) (buffer : bytes) : prog S Z :=
  write_all_loop true F file_fd buffer 0.

Definition write_all {S} (F : nat) (file_fd : Z) (buffer : bytes) : prog S Z :=
  write_all_loop false F file_fd buffer 0.

(** [perror] *)
Definition perror `{Libc} {S} (prefix : bytes) : prog S unit :=
  errno ← call Errno;
  call (Eputs (prefix ++ B ": " ++ strerror errno ++ [NEWLINE])).

(** ** [send_all] *)

Definition sent_out {S} (fd : Z) (s : bytes) (k : kern S) : kern S :=
  with_out (app_stream fd s (k_out k)) k.

Lemma sent_out_app {S} fd s t (k : kern S) : sent_out fd t (sent_out fd s k) = sent_out fd (s ++ t) k.
Proof. unfold sent_out. simpl. by rewrite app_stream_app. Qed.

Lemma sent_out_nil {S} fd (k : kern S) : sent_out fd [] k = k.
Proof. by destruct k. Qed.

Lemma wp_send_all_loop {S} fuel fd buf n Q en (k : kern S) :
  k_fds k !! fd = Some FdSocket ->
  (n <= length buf)%nat ->
  (script_len en + 1 < fuel \/ n = length buf /\ 0 < fuel)%nat ->
  (forall en', env_le en' en -> Q 0 (W en' (sent_out fd (drop n buf) k))) ->
  (forall en' m, env_lt en' en -> (n + m < length buf)%nat ->
     Q (-1) (W en' (sent_out fd (take m (drop n buf)) k))) ->
  wp (send_all_loop fuel fd buf (Z.of_nat n)) Q (W en k).
Proof.
  revert n en k. induction fuel as [|fuel IH]; intros n en k Hfd Hn Hfuel Hok Hko; [lia|].
  cbn [send_all_loop]. unfold zlen. case_if.
  2:{ apply wp_ret. replace k with (sent_out fd (drop n buf) k); [by apply Hok|].
      rewrite drop_ge by lia. apply sent_out_nil. }
  rewrite Nat2Z.id. apply wp_send; [done| |].
  - intros en1 Hlt _. simpl. apply wp_errno. case_if.
    + apply IH; [done..|left; env_lia| |].
      * intros. apply Hok. env_lia.
      * intros. apply Hko; [env_lia|done].
    + apply wp_ret. replace k with (sent_out fd (take 0 (drop n buf)) k); [apply Hko; [done|lia]|].
      apply sent_out_nil.
  - intros en1 m Hle Hm Hfull. rewrite length_drop in Hm, Hfull.
    replace (Z.of_nat m <? 0) with false by (symmetry; apply Z.ltb_ge; lia).
    change (with_out (app_stream fd (take m (drop n buf)) (k_out k)) k) with (sent_out fd (take m (drop n buf)) k).
    case_if.
    + apply wp_ret. apply Hko; [destruct Hfull; [lia|done]|lia].
    + rewrite <- Nat2Z.inj_add.
      apply IH; [done|lia|destruct Hfull; [right|left]; env_lia| |].
      * intros en2 Hle2. rewrite sent_out_app, <- drop_drop, take_drop.
        apply Hok. env_lia.
      * intros en2 m2 Hlt2 Hm2.
        rewrite sent_out_app, <- drop_drop, take_add_drop.
        apply Hko; [env_lia|lia].
Qed.

(** [send_all] always ends; it returns 0 after sending the whole buffer, and
    -1, which needs a fault, after a strict prefix of it. *)
Lemma wp_send_all {S} F fd buf Q en (k : kern S) :
  k_fds k !! fd = Some FdSocket ->
  fuel_ok F en ->
  (forall en', env_le en' en -> Q 0 (W en' (sent_out fd buf k))) ->
  (forall en' m, env_lt en' en -> (m < length buf)%nat -> Q (-1) (W en' (sent_out fd (take m buf) k))) ->
  wp (send_all F fd buf) Q (W en k).
Proof.
  intros Hfd HF Hok Hko. apply (wp_send_all_loop F fd buf 0); [done|lia|left; env_lia|done|].
  intros. by apply Hko.
Qed.

Lemma wp_send_all_calm {S} F fd buf Q en (k : kern S) :
  k_fds k !! fd = Some FdSocket -> faultless en -> (1 < F)%nat ->
  Q 0 (W en (sent_out fd buf k)) -> wp (send_all F fd buf) Q (W en k).
Proof.
  intros Hfd Hf HF HQ. unfold send_all. destruct F as [|[|F]]; [lia..|]. cbn [send_all_loop]. case_if.
  2:{ destruct buf; [apply wp_ret; by rewrite sent_out_nil in HQ|rewrite zlen_cons in *; pose proof (zlen_nonneg buf); lia]. }
  change (drop (Z.to_nat 0) buf) with buf. eapply wp_fallible_faultless; [reflexivity|done|].
  cbv beta. unfold send_fd. rewrite Hfd. cbn [limit]. rewrite firstn_all.
  replace (zlen buf <? 0) with false by (symmetry; apply Z.ltb_ge; lia).
  replace (zlen buf == 0) with false by (symmetry; apply Z.eqb_neq; lia).
  rewrite Z.add_0_l, Z.ltb_irrefl. by apply wp_ret.
Qed.

(** ** [recv_all] *)

Definition received_in {S} (fd : Z) (n : nat) (k : kern S) : kern S :=
  with_in (drop_stream fd n (k_in k)) k.

Lemma received_in_add {S} fd n m (k : kern S) :
  received_in fd m (received_in fd n k) = received_in fd (n + m) k.
Proof. unfold received_in. simpl. by rewrite drop_stream_drop. Qed.

Lemma received_in_0 {S} fd (k : kern S) : received_in fd 0 k = k.
Proof. by destruct k. Qed.

Lemma wp_recv_all_loop {S} fuel fd len got Q en (k : kern S) :
  let st := stream (k_in k) fd in
  let need := (Z.to_nat len - length got)%nat in
  k_fds k !! fd = Some FdSocket ->
  zlen got <= len ->
  (script_len en + 1 < fuel \/ (need = 0 \/ length st = 0) /\ script_len en < fuel)%nat ->
  (forall en', env_le en' en -> (need <= length st)%nat ->
     Q (0, got ++ take need st) (W en' (received_in fd need k))) ->
  (forall en' r m, env_le en' en -> (m < need)%nat -> (m <= length st)%nat ->
     (r = 1 /\ m = length st \/ (r = 1 \/ r = -1) /\ env_lt en' en) ->
     Q (r, got ++ take m st) (W en' (received_in fd m k))) ->
  wp (recv_all_loop fuel fd len got) Q (W en k).
Proof.
  revert got en k. induction fuel as [|fuel IH]; intros got en k st need Hfd Hgot Hfuel Hok Hko; [lia|].
  cbn [recv_all_loop]. assert (Hgot0 := zlen_nonneg got). case_if.
  2:{ apply wp_ret. assert (need = 0)%nat as Hneed by (unfold need, zlen in *; lia).
      rewrite Hneed in Hok. specialize (Hok en ltac:(reflexivity) ltac:(lia)).
      by rewrite take_0, app_nil_r, received_in_0 in Hok. }
  assert (Z.to_nat (len - zlen got) = need) as Hn by (unfold need, zlen in *; lia).
  assert (0 < need)%nat by (unfold need, zlen in *; lia).
  apply wp_recv; [done| |].
  - intros en1 Hlt _. apply wp_errno. case_if.
    + apply IH; [done..|destruct Hfuel as [?|[? ?]]; [left|right; split; [done|]]; env_lia| |].
      * intros. apply Hok; [env_lia|done].
      * intros en2 r m Hle Hm Hm' Hr. apply Hko; [env_lia|done|done|].
        destruct Hr as [Hr|[? ?]]; [by left|right; split; [done|env_lia]].
    + apply wp_ret. specialize (Hko en1 (-1) 0%nat ltac:(env_lia) ltac:(lia) ltac:(lia)).
      rewrite take_0, app_nil_r, received_in_0 in Hko. apply Hko. auto.
  - intros en1 m Hle Hm Hm' Hfull. rewrite Hn in Hm, Hfull. fold st in Hm', Hfull |- *.
    change (with_in (drop_stream fd m (k_in k)) k) with (received_in fd m k).
    destruct (take m st) as [|b chunk] eqn:Ech.
    + assert (m = 0)%nat as -> by (apply (f_equal length) in Ech; rewrite length_take in Ech; simpl in Ech; lia).
      apply wp_ret. specialize (Hko en1 1 0%nat Hle ltac:(lia) ltac:(lia)).
      rewrite take_0, app_nil_r in Hko. apply Hko.
      destruct Hfull; [left; split; [done|lia]|right; auto].
    + assert (0 < m)%nat by (destruct m; [done|lia]). rewrite <- Ech. clear Ech b chunk.
      set (k1 := received_in fd m k).
      assert (Hst : stream (k_in k1) fd = drop m st) by apply stream_drop_eq.
      assert (Hlen : length (got ++ take m st) = (length got + m)%nat) by (rewrite length_app, length_take; lia).
      apply IH; rewrite ?Hst, ?Hlen, ?length_drop.
      * done.
      * unfold zlen in *. rewrite Hlen. lia.
      * destruct Hfull as [->|?]; [right|left; env_lia]. unfold need in *. split; [lia|env_lia].
      * intros en2 Hle2 Hlast. unfold k1. rewrite received_in_add, <- app_assoc, take_add_drop.
        replace (m + (Z.to_nat len - (length got + m)))%nat with need by (unfold need in *; lia).
        apply Hok; [env_lia|unfold need in *; lia].
      * intros en2 r m2 Hle2 Hm2 Hm2' Hr.
        unfold k1. rewrite received_in_add, <- app_assoc, take_add_drop.
        apply Hko; [env_lia|unfold need in *; lia|lia|].
        destruct Hr as [[? ?]|[? ?]]; [left; split; [done|lia]|right; split; [done|env_lia]].
Qed.

(** [recv_all] always ends; it returns 0 with exactly [len] bytes taken from
    the stream, or else 1 (end of stream) or -1 with fewer bytes taken, and
    without a fault it returns 1 only when the stream was too short. *)
Lemma wp_recv_all {S} F fd len Q en (k : kern S) :
  let st := stream (k_in k) fd in
  let n := Z.to_nat len in
  k_fds k !! fd = Some FdSocket ->
  0 <= len ->
  fuel_ok F en ->
  (forall en', env_le en' en -> (n <= length st)%nat -> Q (0, take n st) (W en' (received_in fd n k))) ->
  (forall en' r m, env_le en' en -> (m < n)%nat -> (m <= length st)%nat ->
     (r = 1 /\ m = length st \/ (r = 1 \/ r = -1) /\ env_lt en' en) ->
     Q (r, take m st) (W en' (received_in fd m k))) ->
  wp (recv_all F fd len) Q (W en k).
Proof.
  intros st n Hfd Hlen HF Hok Hko. unfold recv_all.
  apply wp_recv_all_loop; simpl length; rewrite ?Nat.sub_0_r; [done|by rewrite zlen_nil|left; env_lia|done|done].
Qed.

(** ** [write_all] *)

(** The descriptor writes at the end of its file. *)
Definition appendable {S} (k : kern S) (fd : Z) : Prop :=
  exists ino off fl i, k_fds k !! fd = Some (FdFile ino off fl) /\ k_inodes k !! ino = Some i /\
    has fl (O_WRONLY ||| O_RDWR) = true /\ (has fl O_APPEND = true \/ off = length (i_data i)).

(** The effect of writing [s] there. *)
Definition file_app {S} (fd : Z) (s : bytes) (k : kern S) : kern S :=
  match s, k_fds k !! fd with
  | _ :: _, Some (FdFile ino off fl) =>
      match k_inodes k !! ino with
      | Some i => with_fds (<[fd := FdFile ino (length (i_data i ++ s)) fl]> (k_fds k))
                    (with_inodes (<[ino := mk_inode (i_data i ++ s) (i_mode i)]> (k_inodes k)) k)
      | None => k
      end
  | _, _ => k
  end.

Lemma splice_end data s : splice data (length data) s = data ++ s.
Proof.
  unfold splice. rewrite take_ge by lia. rewrite drop_ge by lia. by rewrite app_nil_r.
Qed.

Lemma appendable_app {S} fd s (k : kern S) : appendable k fd -> appendable (file_app fd s k) fd.
Proof.
  intros (ino & off & fl & i & Hfd & Hino & Hw & Ha). unfold file_app.
  destruct s as [|b s]; [by exists ino, off, fl, i|]. rewrite Hfd, Hino.
  exists ino, (length (i_data i ++ b :: s)), fl, (mk_inode (i_data i ++ b :: s) (i_mode i)). simpl.
  rewrite !lookup_insert_eq. auto.
Qed.

Lemma file_app_app {S} fd s t (k : kern S) :
  file_app fd t (file_app fd s k) = file_app fd (s ++ t) k.
Proof.
  destruct s as [|b s]; [done|]. destruct t as [|c t]; [by rewrite app_nil_r|].
  unfold file_app. simpl. destruct (k_fds k !! fd) as [[]|] eqn:Hfd; rewrite ?Hfd; try done.
  destruct (k_inodes k !! ino) as [i|] eqn:Hi; [|by rewrite Hfd, Hi].
  simpl. rewrite !lookup_insert_eq. simpl. unfold with_fds, with_inodes. simpl.
  rewrite !insert_insert_eq, <- !app_assoc. done.
Qed.

Lemma write_fd_app {S} (k : kern S) fd s lim :
  appendable k fd ->
  write_fd k fd s lim = inr (zlen (take (limit lim (length s)) s), file_app fd (take (limit lim (length s)) s) k).
Proof.
  intros (ino & off & fl & i & Hfd & Hino & Hw & Ha). unfold write_fd. rewrite Hfd, Hino, Hw.
  unfold file_app. rewrite Hfd, Hino. destruct (take _ s) as [|b chunk] eqn:E; [done|].
  replace (if has fl O_APPEND then length (i_data i) else off) with (length (i_data i))
    by (destruct Ha as [-> | ->]; [done|by destruct (has fl O_APPEND)]).
  by rewrite splice_end, length_app.
Qed.

Lemma wp_write {S A} fd s (g : Z -> prog S A) Q en k :
  appendable k fd ->
  (forall en', env_lt en' en -> 0 < e_errno en' -> wp (g (-1)) Q (W en' k)) ->
  (forall en' n, env_le en' en -> (n <= length s)%nat -> (n = length s \/ env_lt en' en) ->
     wp (g (Z.of_nat n)) Q (W en' (file_app fd (take n s) k))) ->
  wp (call (Write fd s) ≫= g) Q (W en k).
Proof.
  intros Hfd Hko Hok. eapply wp_fallible; [reflexivity|done|].
  intros en' lim Hle _ Hlim. cbv beta. rewrite write_fd_app by done.
  replace (zlen (take (limit lim (length s)) s)) with (Z.of_nat (limit lim (length s)))
    by (unfold zlen; rewrite length_take; destruct lim; simpl; lia).
  apply Hok; [done| |]; destruct lim; simpl; try lia; destruct Hlim; auto; done.
Qed.

Lemma wp_write_all_loop {S} eio fuel fd buf n Q en (k : kern S) :
  appendable k fd ->
  (n <= length buf)%nat ->
  (script_len en + 1 < fuel \/ n = length buf /\ 0 < fuel)%nat ->
  (forall en', env_le en' en -> Q 0 (W en' (file_app fd (drop n buf) k))) ->
  (forall en' m, env_lt en' en -> (n + m < length buf)%nat ->
     Q (-1) (W en' (file_app fd (take m (drop n buf)) k))) ->
  wp (write_all_loop eio fuel fd buf (Z.of_nat n)) Q (W en k).
Proof.
  revert n en k. induction fuel as [|fuel IH]; intros n en k Hfd Hn Hfuel Hok Hko; [lia|].
  cbn [write_all_loop]. unfold zlen. case_if.
  2:{ apply wp_ret. rewrite drop_ge in Hok by lia. apply Hok. env_lia. }
  rewrite Nat2Z.id. apply wp_write; [done| |].
  - intros en1 Hlt _. simpl. apply wp_errno. case_if.
    + apply IH; [done..|left; env_lia| |].
      * intros. apply Hok. env_lia.
      * intros. apply Hko; [env_lia|done].
    + apply wp_ret. specialize (Hko en1 0%nat Hlt ltac:(lia)). by rewrite take_0 in Hko.
  - intros en1 m Hle Hm Hfull. rewrite length_drop in Hm, Hfull.
    replace (Z.of_nat m <? 0) with false by (symmetry; apply Z.ltb_ge; lia).
    case_if.
    + assert (m = 0)%nat as -> by lia. destruct Hfull as [?|Hlt]; [lia|].
      destruct eio; [apply wp_set_errno|apply wp_bind, wp_ret]; apply wp_ret;
        (apply Hko; [env_lia|lia]).
    + rewrite <- Nat2Z.inj_add.
      apply IH; [by apply appendable_app|lia|destruct Hfull; [right|left]; env_lia| |].
      * intros en2 Hle2. rewrite file_app_app, <- drop_drop, take_drop. apply Hok. env_lia.
      * intros en2 m2 Hlt2 Hm2. rewrite file_app_app, <- drop_drop, take_add_drop.
        apply Hko; [env_lia|lia].
Qed.

(** [write_all] always ends; it returns 0 after writing the whole buffer at
    the end of the file, and -1, which needs a fault, after a strict prefix. *)
Lemma wp_write_all {S} eio F fd buf Q en (k : kern S) :
  appendable k fd ->
  fuel_ok F en ->
  (forall en', env_le en' en -> Q 0 (W en' (file_app fd buf k))) ->
  (forall en' m, env_lt en' en -> (m < length buf)%nat -> Q (-1) (W en' (file_app fd (take m buf) k))) ->
  wp (write_all_loop eio F fd buf 0) Q (W en k).
Proof.
  intros Hfd HF Hok Hko. apply (wp_write_all_loop eio F fd buf 0); [done|lia|left; env_lia|done|].
  intros. by apply Hko.
Qed.

Lemma wp_write_all_faultless {S} eio F fd buf Q en (k : kern S) :
  appendable k fd -> faultless en -> (1 < F)%nat ->
  Q 0 (W en (file_app fd buf k)) ->
  wp (write_all_loop eio F fd buf 0) Q (W en k).
Proof.
  intros Hfd Hf HF HQ. destruct F as [|[|F]]; [lia..|]. cbn [write_all_loop]. case_if.
  2:{ destruct buf; [done|rewrite zlen_cons in *; pose proof (zlen_nonneg buf); lia]. }
  change (drop (Z.to_nat 0) buf) with buf. eapply wp_fallible_faultless; [reflexivity|done|].
  cbv beta. rewrite write_fd_app by done. cbn [limit]. rewrite firstn_all.
  replace (zlen buf <? 0) with false by (symmetry; apply Z.ltb_ge; lia).
  replace (zlen buf == 0) with false by (symmetry; apply Z.eqb_neq; lia).
  rewrite Z.add_0_l, Z.ltb_irrefl. by apply wp_ret.
Qed.

(** The contents of the file behind a descriptor. *)
Definition fd_data {S} (k : kern S) (fd : Z) : option bytes :=
  match k_fds k !! fd with
  | Some (FdFile ino _ _) => i_data <$> k_inodes k !! ino
  | _ => None
  end.

Lemma fd_data_app {S} (k : kern S) fd s data :
  appendable k fd -> fd_data k fd = Some data -> fd_data (file_app fd s k) fd = Some (data ++ s).
Proof.
  intros (ino & off & fl & i & Hfd & Hino & _) Hd. unfold fd_data in Hd. rewrite Hfd, Hino in Hd.
  injection Hd as <-. unfold fd_data, file_app. rewrite Hfd, Hino.
  destruct s as [|b s]; simpl; [by rewrite Hfd, Hino, app_nil_r|].
  by rewrite !lookup_insert_eq.
Qed.

Lemma file_app_static {S} fd s (k : kern S) : k_static (file_app fd s k) = k_static k.
Proof.
  unfold file_app. destruct s; [done|]. destruct (k_fds k !! fd) as [[]|]; try done.
  by destruct (k_inodes k !! ino).
Qed.

(** ** Reading a file *)

(** The descriptor is open on a file; [rest] is what lies after its offset. *)
Definition reading {S} (k : kern S) (fd : Z) (rest : bytes) : Prop :=
  exists ino off fl i, k_fds k !! fd = Some (FdFile ino off fl) /\ k_inodes k !! ino = Some i /\
    rest = drop off (i_data i).

(** The effect of reading [n] bytes. *)
Definition read_ahead {S} (fd : Z) (n : nat) (k : kern S) : kern S :=
  match n, k_fds k !! fd with
  | Datatypes.S _, Some (FdFile ino off fl) => with_fds (<[fd := FdFile ino (off + n) fl]> (k_fds k)) k
  | _, _ => k
  end.

Lemma reading_ahead {S} (k : kern S) fd rest n :
  reading k fd rest -> reading (read_ahead fd n k) fd (drop n rest).
Proof.
  intros (ino & off & fl & i & Hfd & Hi & ->). unfold read_ahead, reading.
  destruct n as [|n]; [by exists ino, off, fl, i|]. rewrite Hfd. simpl.
  exists ino, (off + Datatypes.S n)%nat, fl, i. by rewrite lookup_insert_eq, drop_drop.
Qed.

Lemma read_ahead_add {S} (k : kern S) fd n m : read_ahead fd m (read_ahead fd n k) = read_ahead fd (n + m) k.
Proof.
  destruct n as [|n]; [done|]. destruct m as [|m]; [by rewrite Nat.add_0_r|].
  unfold read_ahead. simpl. destruct (k_fds k !! fd) as [[]|] eqn:E; rewrite ?E; try done.
  simpl. rewrite lookup_insert_eq. unfold with_fds. simpl. rewrite insert_insert_eq, <- Nat.add_assoc.
  done.
Qed.

Lemma wp_read {S A} fd n rest (g : option bytes -> prog S A) Q en k :
  reading k fd rest ->
  (forall en', env_lt en' en -> 0 < e_errno en' -> wp (g None) Q (W en' k)) ->
  (forall en' m, env_le en' en -> (m <= Z.to_nat n)%nat -> (m <= length rest)%nat ->
     (m = Nat.min (Z.to_nat n) (length rest) \/ env_lt en' en) ->
     wp (g (Some (take m rest))) Q (W en' (read_ahead fd m k))) ->
  wp (call (Read fd n) ≫= g) Q (W en k).
Proof.
  intros (ino & off & fl & i & Hfd & Hi & ->) Hko Hok. eapply wp_fallible; [reflexivity|done|].
  intros en' lim Hle _ Hlim. cbv beta. unfold read_fd. rewrite Hfd, Hi. set (rest := drop off (i_data i)) in *.
  rewrite <- (take_min_length (limit lim (Z.to_nat n)) rest), length_take.
  replace (Nat.min (Nat.min _ (length rest)) (length rest)) with (Nat.min (limit lim (Z.to_nat n)) (length rest)) by lia.
  assert (Hr : forall m, with_fds (<[fd := FdFile ino (off + m) fl]> (k_fds k)) k = read_ahead fd m k).
  { intros [|m]; unfold read_ahead; [|by rewrite Hfd]. rewrite Nat.add_0_r, insert_id by done. by destruct k. }
  rewrite Hr. apply Hok; [done| | |]; destruct lim; simpl; try lia; destruct Hlim; auto; done.
Qed.

(** ** Writing to any descriptor *)

(** The file behind a descriptor. *)
Definition fd_ino {S} (k : kern S) (fd : Z) : option positive :=
  match k_fds k !! fd with Some (FdFile ino _ _) => Some ino | _ => None end.

(** Only the descriptor's offset and the contents of files have changed. *)
Definition wrote {S} (fd : Z) (k k' : kern S) : Prop :=
  k' = with_fds (k_fds k') (with_inodes (k_inodes k') k) /\
  (forall fd', fd' ≠ fd -> k_fds k' !! fd' = k_fds k !! fd') /\ fd_ino k' fd = fd_ino k fd.

Lemma wrote_refl {S} fd (k : kern S) : wrote fd k k.
Proof. split; [by destruct k|done]. Qed.

Lemma wrote_trans {S} fd (k1 k2 k3 : kern S) : wrote fd k1 k2 -> wrote fd k2 k3 -> wrote fd k1 k3.
Proof.
  intros (E1 & H1 & I1) (E2 & H2 & I2). split; [rewrite E2, E1; by destruct k1|]. split; [|congruence].
  intros fd' Hne. by rewrite H2, H1.
Qed.

Lemma write_fd_wrote {S} (k k' : kern S) fd s lim n :
  write_fd k fd s lim = inr (n, k') -> wrote fd k k' /\ n = zlen (take (limit lim (length s)) s).
Proof.
  unfold write_fd. destruct (k_fds k !! fd) as [[| | | | |ino off fl|]|] eqn:Hfd; try done.
  destruct (k_inodes k !! ino) as [i|]; [|done]. destruct (has fl _); [|done]. cbv zeta.
  set (chunk := take _ s). intros [= <- <-]. split; [|done]. destruct chunk; [apply wrote_refl|].
  split; [by destruct k|]. split; [intros fd' Hne; simpl; by rewrite lookup_insert_ne|].
  unfold fd_ino. simpl. by rewrite lookup_insert_eq, Hfd.
Qed.

Lemma wp_write_any {S A} fd s (g : Z -> prog S A) Q en k :
  (forall en', env_lt en' en \/ env_le en' en /\ e_errno en' ≠ EINTR -> wp (g (-1)) Q (W en' k)) ->
  (forall en' n k', env_le en' en -> (n <= length s)%nat -> (n = length s \/ env_lt en' en) -> wrote fd k k' ->
     wp (g (Z.of_nat n)) Q (W en' k')) ->
  wp (call (Write fd s) ≫= g) Q (W en k).
Proof.
  intros Hko Hok. eapply wp_fallible; [reflexivity| |].
  - intros en' Hlt _. apply Hko. by left.
  - intros en' lim Hle _ Hlim. destruct (write_fd k fd s lim) as [err|[n k']] eqn:E.
    + apply Hko. right. split; [done|]. simpl. unfold write_fd in E.
      repeat match type of E with context [match ?x with _ => _ end] => destruct x; try done end; injection E as <-; done.
    + apply write_fd_wrote in E as [Hw ->]. unfold zlen. rewrite length_take.
      apply Hok; [done|lia| |done]. destruct Hlim as [->|?]; [left; simpl; lia|by right].
Qed.

Lemma wp_write_all_any {S} eio fuel fd buf n Q en (k : kern S) :
  (n <= length buf)%nat ->
  (script_len en + 1 < fuel \/ n = length buf /\ 0 < fuel)%nat ->
  (forall en' k' r, env_le en' en -> wrote fd k k' -> Q r (W en' k')) ->
  wp (write_all_loop eio fuel fd buf (Z.of_nat n)) Q (W en k).
Proof.
  revert n en k. induction fuel as [|fuel IH]; intros n en k Hn Hfuel HQ; [lia|].
  cbn [write_all_loop]. unfold zlen. case_if; [|apply wp_ret, HQ; [done|apply wrote_refl]].
  rewrite Nat2Z.id. apply wp_write_any.
  - intros en1 Hen. simpl. apply wp_errno. case_if.
    + apply IH; [done|left; destruct Hen as [?|[_ ?]]; [env_lia|done]|].
      intros en2 k2 r Hle2 Hw. apply HQ; [destruct Hen as [?|[? _]]; env_lia|done].
    + apply wp_ret, HQ; [destruct Hen as [?|[? _]]; env_lia|apply wrote_refl].
  - intros en1 m k1 Hle Hm Hfull Hw. rewrite length_drop in Hm, Hfull. rewrite (proj2 (Z.ltb_ge _ _)) by lia.
    case_if.
    + destruct eio; [apply wp_set_errno|apply wp_bind, wp_ret]; by apply wp_ret, HQ.
    + rewrite <- Nat2Z.inj_add. apply IH; [lia|destruct Hfull; [right|left]; env_lia|].
      intros en2 k2 r Hle2 Hw2. apply HQ; [env_lia|by eapply wrote_trans].
Qed.

Lemma wp_perror `{Libc} {S A} prefix (g : unit -> prog S A) Q en k :
  (forall err, wp (g tt) Q (W en (with_stderr err k))) -> wp (perror prefix ≫= g) Q (W en k).
Proof. intros HQ. unfold perror. apply wp_bind, wp_errno. apply HQ. Qed.
