(* ===== verification/Logger.v ===== *)
(** * The logging service

    [src/logger/logger_client.c] (the best-effort client every server function
    calls) and [src/logger/main.c] (the daemon), with
    [include/logger/logger_protocol.h]. *)

From S2P Require Import Prelude CLib Posix Wp NetworkIO.

(** ** The packet *)

Definition LOGGER_SOCKET_PATH : bytes := B "/tmp/syncchat_logger.sock".
Definition LOGGER_LOG_FILE : bytes := B "logs/server.log".
Definition LOGGER_MAGIC : Z := 0x53434C47.
Definition LOGGER_VERSION : Z := 1.
Definition LOGGER_MESSAGE_MAX : Z := 1024.
Definition LOGGER_SOURCE_MAX : Z := 32.
(** [sizeof(((struct sockaddr_un * )0)->sun_path)] *)
Definition SUN_PATH_SIZE : Z := 108.

Definition LOG_DEBUG : Z := 0.
Definition LOG_INFO : Z := 1.
Definition LOG_WARN : Z := 2.
Definition LOG_ERROR : Z := 3.

Record log_packet_t := {
  magic : Z;
  version : Z;
  level : Z;
  sender_pid : Z;
  source : bytes;
  message : bytes
}.

(** The bytes of the struct (members are contiguous: 4+2+2+4+32+1024). *)
Definition packet_bytes (p : log_packet_t) : bytes :=
  le_bytes 4 (magic p) ++ le_bytes 2 (version p) ++ le_bytes 2 (level p) ++
  le_bytes 4 (u32 (sender_pid p)) ++ source p ++ message p.

Definition packet_of_bytes (s : bytes) : log_packet_t := {|
  magic := of_le_bytes (take 4 s);
  version := of_le_bytes (take 2 (drop 4 s));
  level := of_le_bytes (take 2 (drop 6 s));
  sender_pid := i32 (of_le_bytes (take 4 (drop 8 s)));
  source := take 32 (drop 12 s);
  message := take 1024 (drop 44 s)
|}.

Definition SIZEOF_PACKET : Z := 1068.

(** A [char] array of the given size, zeroed, then filled. *)
Definition char_array (size : Z) (s : bytes) : bytes := s ++ replicate (Z.to_nat size - length s) NUL.

(** The packet the client builds; a text over 1023 bytes is cut. *)
Definition client_packet (lvl pid : Z) (src text : bytes) : log_packet_t := {|
  magic := LOGGER_MAGIC;
  version := LOGGER_VERSION;
  level := u16 lvl;
  sender_pid := pid;
  source := char_array LOGGER_SOURCE_MAX src;
  message := char_array LOGGER_MESSAGE_MAX (snd (snprintf LOGGER_MESSAGE_MAX text))
|}.

(** ** The client *)

(** [text] is the formatted message, [None] a NULL format. *)
Definition logger_client_log {S} (lvl : Z) (src text : option bytes) : prog S Z :=
  match src, text with
  | Some src, Some text =>
      if (lvl <? LOG_DEBUG) || (LOG_ERROR <? lvl) then mret (-1) else
      let source_length := strlen src in
      if (source_length == 0) || (LOGGER_SOURCE_MAX <=? source_length) then mret (-1) else
      pid ← call Getpid;
      let packet := client_packet lvl pid src text in
      logger_socket ← call Socket_dgram;
      if logger_socket <? 0 then mret (-1) else
      if SUN_PATH_SIZE <=? strlen LOGGER_SOCKET_PATH then
        _ ← call (Close logger_socket);
        mret (-1)
      else
      sent ← call (Sendto logger_socket (packet_bytes packet));
      close_result ← call (Close logger_socket);
      if sent != SIZEOF_PACKET then mret (-1) else
      if close_result != 0 then mret (-1) else
      mret 0
  | _, _ => mret (-1)
  end.

(** The calls of the server, whose results are ignored. *)
Definition log {S} (lvl : Z) (src text : bytes) : prog S unit :=
  _ ← logger_client_log lvl (Some src) (Some text); mret tt.

(** ** The daemon *)

(** [running], [logger_socket], [log_file] *)
Record daemon := { running : bool; logger_socket : Z; log_file : Z }.

Definition handle_signal (d : daemon) : daemon :=
  {| running := false; logger_socket := logger_socket d; log_file := log_file d |}.

Definition log_level_name (lvl : Z) : bytes :=
  if lvl == LOG_DEBUG then B "DEBUG"
  else if lvl == LOG_INFO then B "INFO"
  else if lvl == LOG_WARN then B "WARN"
  else if lvl == LOG_ERROR then B "ERROR"
  else B "UNKNOWN".

Definition validate_packet (packet : log_packet_t) : Z :=
  if magic packet != LOGGER_MAGIC then -1 else
  if version packet != LOGGER_VERSION then -1 else
  if LOG_ERROR <? level packet then -1 else
  let source_length := strnlen (source packet) LOGGER_SOURCE_MAX in
  if source_length == LOGGER_SOURCE_MAX then -1 else
  let message_length := strnlen (message packet) LOGGER_MESSAGE_MAX in
  if message_length == LOGGER_MESSAGE_MAX then -1 else
  if source_length == 0 then -1 else
  if message_length == 0 then -1 else
  0.

Definition timestamp_text (t : tm) : bytes :=
  dec_pad 4 (tm_year t + 1900) ++ B "-" ++ dec_pad 2 (tm_mon t + 1) ++ B "-" ++ dec_pad 2 (tm_mday t) ++
  B " " ++ dec_pad 2 (tm_hour t) ++ B ":" ++ dec_pad 2 (tm_min t) ++ B ":" ++ dec_pad 2 (tm_sec t).

Definition TIMESTAMP_SIZE : Z := 32.

Definition entry_text (timestamp : bytes) (packet : log_packet_t) : bytes :=
  B "[" ++ timestamp ++ B "] [PID:" ++ sdec (sender_pid packet) ++ B "] [" ++
  log_level_name (level packet) ++ B "] [" ++ c_str (source packet) ++ B "] " ++
  c_str (message packet) ++ [NEWLINE].

Section daemon.
Context `{Libc}.
Variable F : nat.

(** [None] for the result -1, otherwise the text left in the buffer. *)
Definition create_timestamp {S} (buffer_size : Z) : prog S (option bytes) :=
  current_time ← call Clock_gettime;
  match current_time with
  | None => mret None
  | Some (tv_sec, _) =>
      match localtime_r tv_sec with
      | None => mret None
      | Some local_time =>
          let '(length, text) := snprintf buffer_size (timestamp_text local_time) in
          if buffer_size <=? length then mret None else mret (Some text)
      end
  end.

Definition write_log_entry (packet : log_packet_t) : prog daemon Z :=
  timestamp ← create_timestamp TIMESTAMP_SIZE;
  match timestamp with
  | None => mret (-1)
  | Some timestamp =>
      let '(length, entry) := snprintf (LOGGER_MESSAGE_MAX + 128) (entry_text timestamp packet) in
      if LOGGER_MESSAGE_MAX + 128 <=? length then mret (-1) else
      d ← call Get_static;
      r ← write_all F (log_file d) entry;
      if r != 0 then mret (-1) else
      _ ← call (Puts entry);
      mret 0
  end.

(** The main loop; the result says why it ended: [false] on an error. *)
Fixpoint daemon_loop (fuel : nat) : prog daemon bool :=
  match fuel with
  | O => Diverge
  | Datatypes.S fuel =>
      d ← call Get_static;
      if negb (running d) then mret true else
      received ← call (Recvfrom (logger_socket d) SIZEOF_PACKET handle_signal);
      match received with
      | None =>
          errno ← call Errno;
          if errno == EINTR then daemon_loop fuel
          else _ ← perror (B "recvfrom"); mret false
      | Some data =>
          if zlen data != SIZEOF_PACKET then
            _ ← call (Eputs (B "Rejected malformed log packet: " ++ sdec (zlen data) ++ B " bytes" ++ [NEWLINE]));
            daemon_loop fuel
          else
          let packet := packet_of_bytes data in
          if validate_packet packet != 0 then
            _ ← call (Eputs (B "Rejected invalid log packet." ++ [NEWLINE]));
            daemon_loop fuel
          else
          r ← write_log_entry packet;
          if r != 0 then _ ← perror (B "write log entry"); mret false
          else daemon_loop fuel
      end
  end.
End daemon.

(** ** The client never disturbs its caller *)

Lemma wp_logger_client_log {S} lvl src text Q en (k : kern S) :
  (forall en' r, env_le en' en -> Q r (W en' k)) ->
  wp (logger_client_log lvl src text) Q (W en k).
Proof.
  intros HQ. assert (HQ0 := fun r => HQ en r ltac:(reflexivity)).
  unfold logger_client_log. destruct src as [src|], text as [text|]; try by apply wp_ret.
  do 2 (case_if; [by apply wp_ret|]). apply wp_getpid.
  eapply wp_fallible; [reflexivity|intros en1 Hlt _; apply wp_ret, HQ; env_lia|].
  intros en1 lim Hle1 _ _. cbn [add_fd]. pose proof (next_fd_nonneg (k_fds k)). case_if; [lia|].
  replace (SUN_PATH_SIZE <=? strlen LOGGER_SOCKET_PATH) with false by reflexivity.
  assert (Hclose : forall e2 e3, env_le e2 en -> env_le e3 e2 ->
     wp (close_result ← call (Close (next_fd (k_fds k)));
         if -1 != SIZEOF_PACKET then mret (-1) else if close_result != 0 then mret (-1) else mret 0) Q
       (W e2 (with_fds (<[next_fd (k_fds k) := FdDgram]> (k_fds k)) k))).
  { intros. apply wp_close. intros e4 z Hle4 _. rewrite close_add_fd by done.
    simpl. apply wp_ret, HQ. env_lia. }
  apply wp_sendto; intros en2 Hle2.
  - apply (Hclose en2 en2); env_lia.
  - apply wp_close. intros en3 z Hle3 _. rewrite close_add_fd by done.
    do 2 (case_if; [apply wp_ret, HQ; env_lia|]). apply wp_ret, HQ. env_lia.
Qed.

Lemma wp_log {S A} lvl src text (g : unit -> prog S A) Q en k :
  (forall en', env_le en' en -> wp (g tt) Q (W en' k)) ->
  wp (log lvl src text ≫= g) Q (W en k).
Proof.
  intros H. unfold log. apply wp_bind, wp_bind, wp_logger_client_log. intros. apply wp_ret. by apply H.
Qed.

(** ** Packets survive the socket *)

Definition wf_packet (p : log_packet_t) : Prop :=
  0 <= magic p < 2 ^ 32 /\ 0 <= version p < 2 ^ 16 /\ 0 <= level p < 2 ^ 16 /\
  - 2 ^ 31 <= sender_pid p < 2 ^ 31 /\
  length (source p) = 32%nat /\ length (message p) = 1024%nat.

Lemma i32_u32 z : - 2 ^ 31 <= z < 2 ^ 31 -> i32 (u32 z) = z.
Proof.
  intros Hz. unfold i32, u32. rewrite Z.add_mod_idemp_l by lia. rewrite Z.mod_small by lia. lia.
Qed.

Lemma take_drop_app {A} (l k : list A) n : n = length l -> take n (l ++ k) = l /\ drop n (l ++ k) = k.
Proof. intros ->. by rewrite take_app_length, drop_app_length. Qed.

Lemma packet_roundtrip_aux p : wf_packet p -> packet_of_bytes (packet_bytes p) = p.
Proof.
  intros (Hm & Hv & Hl & Hp & Hs & Ht). unfold packet_of_bytes.
  destruct (take_drop_app (le_bytes 4 (magic p)) (le_bytes 2 (version p) ++ le_bytes 2 (level p) ++
    le_bytes 4 (u32 (sender_pid p)) ++ source p ++ message p) 4) as [T4 D4]; [by rewrite length_le_bytes|].
  destruct (take_drop_app (le_bytes 2 (version p)) (le_bytes 2 (level p) ++
    le_bytes 4 (u32 (sender_pid p)) ++ source p ++ message p) 2) as [T6 D6]; [by rewrite length_le_bytes|].
  destruct (take_drop_app (le_bytes 2 (level p)) (le_bytes 4 (u32 (sender_pid p)) ++ source p ++ message p) 2)
    as [T8 D8]; [by rewrite length_le_bytes|].
  destruct (take_drop_app (le_bytes 4 (u32 (sender_pid p))) (source p ++ message p) 4) as [T12 D12];
    [by rewrite length_le_bytes|].
  destruct (take_drop_app (source p) (message p) 32) as [T44 D44]; [done|].
  unfold packet_bytes. set (w := le_bytes 4 (magic p) ++ _) in *.
  assert (E6 : drop 6 w = drop 2 (drop 4 w)) by by rewrite drop_drop.
  assert (E8 : drop 8 w = drop 2 (drop 2 (drop 4 w))) by by rewrite !drop_drop.
  assert (E12 : drop 12 w = drop 4 (drop 2 (drop 2 (drop 4 w)))) by by rewrite !drop_drop.
  assert (E44 : drop 44 w = drop 32 (drop 4 (drop 2 (drop 2 (drop 4 w))))) by by rewrite !drop_drop.
  rewrite E44, E12, E8, E6, T4, D4, T6, D6, T8, D8, T12, D12, T44, D44.
  rewrite (take_ge (message p)) by lia.
  rewrite !of_le_le by (try (unfold u32; pose proof (Z.mod_pos_bound (sender_pid p) (2 ^ 32))); simpl; lia).
  rewrite i32_u32 by lia. by destruct p.
Qed.

Lemma length_char_array size s : zlen s <= size -> length (char_array size s) = Z.to_nat size.
Proof. unfold char_array, zlen. rewrite length_app, length_replicate. lia. Qed.

Lemma c_str_char_array size s : cstring s -> zlen s < size -> c_str (char_array size s) = s.
Proof.
  intros Hs Hl. unfold char_array, zlen in *.
  destruct (Z.to_nat size - length s)%nat eqn:E; [lia|]. by apply c_str_terminated.
Qed.

Lemma strnlen_char_array size s : cstring s -> zlen s < size -> strnlen (char_array size s) size = zlen s.
Proof.
  intros Hs Hl. unfold strnlen. rewrite take_ge by (rewrite length_char_array; lia).
  by rewrite c_str_char_array.
Qed.

Lemma snprintf_len size text : 0 < size -> zlen (snd (snprintf size text)) < size.
Proof. intros. simpl. unfold zlen. rewrite length_take. lia. Qed.

Lemma client_packet_wf lvl pid src text :
  0 <= lvl <= 3 -> - 2 ^ 31 <= pid < 2 ^ 31 -> zlen src < 32 -> wf_packet (client_packet lvl pid src text).
Proof.
  intros Hl Hp Hs. unfold wf_packet, client_packet.
  split_and!; cbn [magic version level sender_pid source message]; try (unfold LOGGER_MAGIC, LOGGER_VERSION; lia).
  - unfold u16. apply Z.mod_pos_bound. lia.
  - unfold u16. apply Z.mod_pos_bound. lia.
  - by rewrite length_char_array by (unfold LOGGER_SOURCE_MAX; lia).
  - rewrite length_char_array; [done|].
    pose proof (snprintf_len LOGGER_MESSAGE_MAX text). unfold LOGGER_MESSAGE_MAX in *. lia.
Qed.

(** A datagram the daemon accepts. *)
Definition accepted (data : bytes) : Prop :=
  zlen data = SIZEOF_PACKET /\ validate_packet (packet_of_bytes data) = 0.

#[export] Instance accepted_dec data : Decision (accepted data).
Proof. unfold accepted. apply _. Defined.

Lemma strnlen_lt buffer n : strnlen buffer n ≠ n -> 0 <= n -> strnlen buffer n < n.
Proof.
  unfold strnlen, strlen, zlen. pose proof (c_str_length (take (Z.to_nat n) buffer)) as H.
  rewrite length_take in H. lia.
Qed.

Lemma c_str_strnlen buffer n : zlen buffer = n -> strnlen buffer n = zlen (c_str buffer).
Proof. intros <-. unfold strnlen, zlen. rewrite take_ge by lia. done. Qed.

Lemma validate_packet_0 p :
  validate_packet p = 0 ->
  magic p = LOGGER_MAGIC /\ version p = LOGGER_VERSION /\ level p <= 3 /\
  1 <= strnlen (source p) 32 < 32 /\ 1 <= strnlen (message p) 1024 < 1024.
Proof.
  unfold validate_packet. do 7 (case_if; [done|]). intros _.
  assert (0 <= strnlen (source p) 32) by apply zlen_nonneg.
  assert (0 <= strnlen (message p) 1024) by apply zlen_nonneg.
  pose proof (strnlen_lt (source p) LOGGER_SOURCE_MAX).
  pose proof (strnlen_lt (message p) LOGGER_MESSAGE_MAX).
  unfold LOGGER_SOURCE_MAX, LOGGER_MESSAGE_MAX, LOG_ERROR in *. split_and!; try done; lia.
Qed.

Lemma sdec_length z : - 2 ^ 31 <= z < 2 ^ 31 -> zlen (sdec z) <= 11.
Proof.
  intros Hz. unfold sdec. case_if.
  - rewrite zlen_cons. pose proof (dec_length (- z) 9 ltac:(simpl; lia)). simpl in *. lia.
  - pose proof (dec_length z 9 ltac:(simpl; lia)). simpl in *. lia.
Qed.

Lemma log_level_name_length lvl : zlen (log_level_name lvl) <= 7.
Proof. unfold log_level_name. repeat case_if; by vm_compute. Qed.

Lemma entry_fits_aux p timestamp :
  validate_packet p = 0 -> wf_packet p -> zlen timestamp < 32 ->
  zlen (entry_text timestamp p) < LOGGER_MESSAGE_MAX + 128.
Proof.
  intros Hv (_ & _ & _ & Hp & Hs & Hm) Ht. apply validate_packet_0 in Hv as (_ & _ & _ & Hs' & Hm').
  rewrite c_str_strnlen in Hs' by (unfold zlen; rewrite Hs; done).
  rewrite c_str_strnlen in Hm' by (unfold zlen; rewrite Hm; done).
  unfold entry_text. rewrite !zlen_app.
  pose proof (sdec_length _ Hp). pose proof (log_level_name_length (level p)).
  change (zlen (B "[")) with 1. change (zlen (B "] [PID:")) with 7. change (zlen (B "] [")) with 3.
  change (zlen (B "] ")) with 2. change (zlen [NEWLINE]) with 1.
  unfold LOGGER_MESSAGE_MAX. lia.
Qed.

Lemma wf_packet_of_bytes data : zlen data = SIZEOF_PACKET -> wf_packet (packet_of_bytes data).
Proof.
  intros Hd. unfold SIZEOF_PACKET, zlen in Hd.
  assert (Hle : forall s n, length s = n -> 0 <= of_le_bytes s < 256 ^ Z.of_nat n).
  { intros s n <-. induction s as [|b s IH]; [simpl; lia|]. cbn [length of_le_bytes].
    rewrite Nat2Z.inj_succ, Z.pow_succ_r by lia. pose proof (byte_val_range b). lia. }
  unfold wf_packet, packet_of_bytes. cbn [magic version level sender_pid source message].
  split_and!; try (rewrite length_take, length_drop; lia).
  1,2: apply (Hle _ 4%nat); rewrite length_take; lia.
  1-4: apply (Hle _ 2%nat); rewrite length_take, length_drop; lia.
  all: unfold i32; pose proof (Z.mod_pos_bound (of_le_bytes (take 4 (drop 8 data)) + 2 ^ 31) (2 ^ 32)); lia.
Qed.

Section daemon_facts.
Context `{Libc}.
(** Documented behaviour of [localtime_r]: it converts every reading of the
    clock, and the year has at most 16 characters. *)
Hypothesis localtime_ok : forall t, exists tm, localtime_r t = Some tm /\ zlen (timestamp_text tm) < TIMESTAMP_SIZE.

Definition stamp (t : Z) : bytes :=
  match localtime_r t with Some tm => timestamp_text tm | None => [] end.

Definition next_reading (clock : list (Z * Z)) : (Z * Z) * list (Z * Z) :=
  match clock with [] => ((0, 0), []) | t :: ts => (t, ts) end.

(** What the daemon should write for a queue of datagrams. *)
Fixpoint log_lines (clock : list (Z * Z)) (queue : list bytes) : bytes :=
  match queue with
  | [] => []
  | d :: queue =>
      let data := take (Z.to_nat SIZEOF_PACKET) d in
      if decide (accepted data) then
        let '(t, clock) := next_reading clock in
        entry_text (stamp (fst t)) (packet_of_bytes data) ++ log_lines clock queue
      else log_lines clock queue
  end.

Lemma wp_create_timestamp {S A} (g : option bytes -> prog S A) Q en k :
  faultless en ->
  let '(t, clock) := next_reading (e_clock en) in
  wp (g (Some (stamp (fst t)))) Q (W (with_clock clock en) k) ->
  wp (create_timestamp TIMESTAMP_SIZE ≫= g) Q (W en k).
Proof.
  intros Hf. assert (Hts : forall t, wp (match localtime_r t with
      | None => mret None
      | Some local_time => let '(length, text) := snprintf TIMESTAMP_SIZE (timestamp_text local_time) in
          if TIMESTAMP_SIZE <=? length then mret None else mret (Some text) end)
    = wp (@mret (prog S) _ _ (Some (stamp t)))).
  { intros t. unfold stamp. destruct (localtime_ok t) as (tm & -> & Hl).
    destruct (snprintf TIMESTAMP_SIZE (timestamp_text tm)) as [n text] eqn:E.
    pose proof (snprintf_fits _ _ _ _ E) as Hfit. unfold snprintf in E. injection E as <- _.
    rewrite Hfit by done. by replace (TIMESTAMP_SIZE <=? zlen (timestamp_text tm)) with false
      by (symmetry; apply Z.leb_gt; lia). }
  unfold next_reading. destruct (e_clock en) as [|[s ns] ts] eqn:Ec; intros HQ;
    apply wp_bind; unfold create_timestamp; apply wp_call; unfold sem; simpl w_env; simpl w_kern;
    rewrite pop_faultless, Ec by done; cbn [fst snd]; rewrite Hts; apply wp_ret.
  - assert (with_clock [] en = en) as <-; [|done]. destruct en; simpl in *. by subst.
  - done.
Qed.

Lemma wp_write_log_entry F p Q en (k : kern daemon) :
  faultless en -> (1 < F)%nat ->
  validate_packet p = 0 -> wf_packet p ->
  appendable k (log_file (k_static k)) ->
  let '(t, clock) := next_reading (e_clock en) in
  let entry := entry_text (stamp (fst t)) p in
  let k' := file_app (log_file (k_static k)) entry k in
  Q 0 (W (with_clock clock en) (with_stdout (k_stdout k' ++ entry) k')) ->
  wp (write_log_entry F p) Q (W en k).
Proof.
  intros Hf HF Hv Hp Ha. destruct (next_reading (e_clock en)) as [t clock] eqn:Et.
  intros entry k' HQ. unfold write_log_entry.
  pose proof (wp_create_timestamp (fun timestamp => match timestamp with
    | None => mret (-1)
    | Some timestamp =>
      let '(length, entry) := snprintf (LOGGER_MESSAGE_MAX + 128) (entry_text timestamp p) in
      if LOGGER_MESSAGE_MAX + 128 <=? length then mret (-1) else
      d ← call Get_static;
      r ← write_all F (log_file d) entry;
      if r != 0 then mret (-1) else
      _ ← call (Puts entry);
      mret 0
    end) Q en k Hf) as Hts. rewrite Et in Hts. apply Hts. clear Hts. cbv beta iota.
  assert (Hl : zlen entry < LOGGER_MESSAGE_MAX + 128).
  { apply entry_fits_aux; [done|done|]. unfold stamp.
    destruct (localtime_ok (fst t)) as (tm & -> & Ht). exact Ht. }
  destruct (snprintf (LOGGER_MESSAGE_MAX + 128) (entry_text (stamp (fst t)) p)) as [n text] eqn:E.
  pose proof (snprintf_fits _ _ _ _ E) as Hfit. unfold snprintf in E. injection E as <- _.
  fold entry. fold entry in Hfit. rewrite Hfit by done.
  replace (_ <=? zlen entry) with false by (symmetry; apply Z.leb_gt; lia).
  apply wp_get, wp_bind, wp_write_all_faultless; [done|done|done|].
  apply wp_puts, wp_ret. exact HQ.
Qed.

(** The daemon, on any queue of datagrams: see the property below. *)
Lemma wp_daemon_loop F fuel en (k : kern daemon) old :
  faultless en -> (1 < F)%nat ->
  (length (e_dgrams en) + 1 < fuel)%nat ->
  running (k_static k) = true ->
  appendable k (log_file (k_static k)) ->
  fd_data k (log_file (k_static k)) = Some old ->
  wp (daemon_loop F fuel) (fun r w =>
    r = true /\ running (k_static (w_kern w)) = false /\ e_dgrams (w_env w) = [] /\
    fd_data (w_kern w) (log_file (k_static k)) = Some (old ++ log_lines (e_clock en) (e_dgrams en)))
    (W en k).
Proof.
  intros Hf HF. remember (e_dgrams en) as queue eqn:Eq.
  revert fuel en k old Hf Eq. induction queue as [|d queue IH]; intros fuel en k old Hf Eq Hfuel Hrun Ha Hd;
    (destruct fuel as [|fuel]; [lia|]); cbn [daemon_loop]; apply wp_get; rewrite Hrun; cbn [negb];
    apply wp_call; unfold sem, interruptible; cbn [w_env w_kern]; rewrite pop_faultless, <- Eq by done; cbn [fst snd].
  - destruct fuel as [|fuel]; [simpl in *; lia|]. cbn [daemon_loop]. apply wp_errno, wp_get, wp_ret.
    cbn [log_lines]. by rewrite app_nil_r.
  - set (data := take _ d). set (en1 := with_dgrams queue en).
    assert (Hf1 : faultless en1) by done.
    destruct (negb (zlen data =? SIZEOF_PACKET)) eqn:El; unbool.
    { apply wp_eputs. cbn [log_lines]. fold data. rewrite decide_False by (intros [? _]; done).
      match goal with |- wp _ _ (W _ ?k2) => apply (IH fuel en1 k2 old) end; try done. simpl in *; lia. }
    destruct (negb (validate_packet (packet_of_bytes data) =? 0)) eqn:Ev; unbool.
    { apply wp_eputs. cbn [log_lines]. fold data. rewrite decide_False by (intros [_ ?]; done).
      match goal with |- wp _ _ (W _ ?k2) => apply (IH fuel en1 k2 old) end; try done. simpl in *; lia. }
    apply wp_bind.
    pose proof (wp_write_log_entry F (packet_of_bytes data)) as Hw.
    cbn [log_lines]. fold data. rewrite decide_True by done.
    change (e_clock en) with (e_clock en1).
    match goal with |- wp _ ?Q _ => specialize (Hw Q en1 k Hf1 HF Ev (wf_packet_of_bytes _ El) Ha) end.
    destruct (next_reading (e_clock en1)) as [t clock]. apply Hw. clear Hw. cbn [negb Z.eqb].
    set (entry := entry_text _ _). set (k' := file_app _ entry k).
    assert (Hk : k_static k' = k_static k) by apply file_app_static.
    rewrite app_assoc, <- Hk.
    match goal with |- wp _ _ (W _ ?k2) =>
      apply (IH fuel (with_clock clock en1) k2 (old ++ entry)) end; simpl; rewrite ?Hk; try done.
    + simpl in *; lia.
    + by apply appendable_app.
    + by apply fd_data_app.
Qed.
End daemon_facts.

(** ** From the client to the log file *)

Lemma c_str_take_array text : cstring text -> c_str (char_array LOGGER_MESSAGE_MAX (take 1023 text)) = take 1023 text.
Proof.
  intros Hc. apply c_str_char_array.
  - by apply cstring_take.
  - unfold zlen. rewrite length_take. unfold LOGGER_MESSAGE_MAX. lia.
Qed.

Lemma client_packet_valid lvl pid src text :
  0 <= lvl <= 3 -> cstring src -> 1 <= zlen src < 32 -> cstring text -> text ≠ [] ->
  validate_packet (client_packet lvl pid src text) = 0.
Proof.
  intros Hl Hs Hsl Ht Hte.
  assert (Hm : zlen (take 1023 text) < LOGGER_MESSAGE_MAX) by (unfold zlen; rewrite length_take; unfold LOGGER_MESSAGE_MAX; lia).
  assert (Hct : cstring (take 1023 text)) by by apply cstring_take.
  assert (Hp : 0 < zlen (take 1023 text)) by (unfold zlen; rewrite length_take; destruct text; [done|simpl; lia]).
  unfold validate_packet, client_packet. cbn [magic version level source message]. cbn [Z.eqb negb LOGGER_MAGIC LOGGER_VERSION].
  unfold u16. rewrite Z.mod_small by lia. change (snd (snprintf LOGGER_MESSAGE_MAX text)) with (take 1023 text).
  rewrite !strnlen_char_array by (try done; unfold LOGGER_SOURCE_MAX; lia).
  unfold LOGGER_SOURCE_MAX, LOGGER_MESSAGE_MAX, LOG_ERROR in *.
  rewrite !(proj2 (Z.eqb_neq _ _)) by lia. rewrite (proj2 (Z.ltb_ge _ _)) by lia. done.
Qed.

(** ** Properties *)

(** C38. A message that a function of the server logs arrives, when no call
    fails and the text is not empty: the client sends one datagram, which the daemon accepts, and the line it makes of it
    has the sender, the level, the source and the first 1023 bytes of the
    text; the caller's state is unchanged. *)
Theorem log_message_arrives {S} lvl src text en (k : kern S) :
  0 <= lvl <= 3 -> cstring src -> 1 <= zlen src < 32 -> cstring text -> text ≠ [] -> - 2 ^ 31 <= k_pid k < 2 ^ 31 -> faultless en ->
  runs (logger_client_log lvl (Some src) (Some text)) (W en k) (fun r '(W en' k') => r = 0 /\ k' = k /\
    exists d, e_dgrams en' = e_dgrams en ++ [d] /\ accepted (take (Z.to_nat SIZEOF_PACKET) d) /\
      forall timestamp, entry_text timestamp (packet_of_bytes (take (Z.to_nat SIZEOF_PACKET) d)) =
        B "[" ++ timestamp ++ B "] [PID:" ++ sdec (k_pid k) ++ B "] [" ++ log_level_name lvl ++ B "] [" ++ src ++ B "] " ++
        take 1023 text ++ [NEWLINE]).
Proof.
  intros Hl Hs Hsl Ht Hte Hpid Hf. apply wp_runs. unfold logger_client_log.
  rewrite !(proj2 (Z.ltb_ge _ _)) by (unfold LOG_DEBUG, LOG_ERROR; lia). cbn [orb].
  rewrite (proj2 (Z.eqb_neq _ _)), (proj2 (Z.leb_gt _ _)) by (unfold strlen, LOGGER_SOURCE_MAX; lia). cbn [orb]. apply wp_getpid.
  set (p := client_packet lvl (k_pid k) src text).
  assert (Hw : wf_packet p) by (apply client_packet_wf; lia).
  assert (Hlen : length (packet_bytes p) = 1068%nat).
  { destruct Hw as (_ & _ & _ & _ & H1 & H2). unfold packet_bytes. rewrite !length_app, !length_le_bytes, H1, H2. done. }
  eapply wp_fallible_faultless; [reflexivity|done|]. cbn [add_fd]. pose proof (next_fd_nonneg (k_fds k)).
  rewrite (proj2 (Z.ltb_ge _ _)) by done. change (SUN_PATH_SIZE <=? strlen LOGGER_SOCKET_PATH) with false. cbv iota.
  apply wp_call. unfold sem. cbn [w_env w_kern]. rewrite pop_faultless by done. cbn [fst snd].
  apply wp_call. unfold sem. cbn [w_env w_kern]. rewrite pop_faultless by done. cbn [fst snd]. rewrite close_add_fd by done.
  unfold zlen. rewrite Hlen. cbn [Z.eqb negb Z.of_nat SIZEOF_PACKET Pos.of_succ_nat Pos.succ Pos.eqb]. apply wp_ret. split_and!; [done|done|].
  exists (packet_bytes p). split; [done|]. rewrite take_ge by (rewrite Hlen; done). rewrite packet_roundtrip_aux by done.
  split.
  - split; [unfold zlen; by rewrite Hlen|]. rewrite packet_roundtrip_aux by done. by apply client_packet_valid.
  - intros timestamp. unfold entry_text, p, client_packet. cbn [sender_pid level source message].
    unfold u16. rewrite Z.mod_small by lia. rewrite c_str_char_array by (try done; unfold LOGGER_SOURCE_MAX; lia).
    change (snd (snprintf LOGGER_MESSAGE_MAX text)) with (take 1023 text). by rewrite c_str_take_array.
Qed.

Lemma log_message_arrives_witness :
  runs (logger_client_log LOG_WARN (Some (B "AUTH")) (Some (B "Rejected invalid username socket=5"))) (W (mk_env [] 0 [] [] []) (idle tt))
    (fun r '(W en' k') => r = 0 /\ k' = idle tt /\
    exists d, e_dgrams en' = [] ++ [d] /\ accepted (take (Z.to_nat SIZEOF_PACKET) d) /\
      forall timestamp, entry_text timestamp (packet_of_bytes (take (Z.to_nat SIZEOF_PACKET) d)) =
        B "[" ++ timestamp ++ B "] [PID:" ++ sdec 1 ++ B "] [" ++ log_level_name LOG_WARN ++ B "] [" ++ B "AUTH" ++ B "] " ++
        take 1023 (B "Rejected invalid username socket=5") ++ [NEWLINE]).
Proof.
  apply (log_message_arrives LOG_WARN (B "AUTH") (B "Rejected invalid username socket=5") (mk_env [] 0 [] [] []) (idle tt));
    [done|by apply strchr_None|done|by apply strchr_None|done|done|done].
Defined.

(** The daemon, given any sequence of datagrams and then a signal to
    stop, ends with the log file extended by exactly one line for each
    datagram of the right size and content, in order: nothing it is sent makes
    it stop, skip a valid message or cut a line. *)
Lemma daemon_logs_queue `{Libc} F fuel en (k : kern daemon) old :
  (forall t, exists tm, localtime_r t = Some tm /\ zlen (timestamp_text tm) < TIMESTAMP_SIZE) ->
  faultless en -> (1 < F)%nat -> (length (e_dgrams en) + 1 < fuel)%nat -> running (k_static k) = true ->
  appendable k (log_file (k_static k)) -> fd_data k (log_file (k_static k)) = Some old ->
  runs (daemon_loop F fuel) (W en k) (fun r '(W en' k') =>
    r = true /\ running (k_static k') = false /\ e_dgrams en' = [] /\
    fd_data k' (log_file (k_static k)) = Some (old ++ log_lines (e_clock en) (e_dgrams en))).
Proof.
  intros Ht Hf HF Hfuel Hr Ha Hd. apply wp_runs. eapply wp_mono; [by apply wp_daemon_loop|]. by intros r [en' k'].
Qed.

(** Two datagrams, the first malformed. *)
Definition log_room : kern daemon :=
  with_inodes {[ 1%positive := mk_inode (B "old line") 0 ]}
    (with_fds {[ 3 := FdDgram; 4 := FdFile 1 0 (O_WRONLY ||| O_APPEND) ]}
      (idle {| running := true; logger_socket := 3; log_file := 4 |})).

Definition log_env : env :=
  mk_env [] 0 [B "garbage"; packet_bytes (client_packet LOG_INFO 42 (B "SERVER") (B "started"))] [(0, 0)] [].

Lemma daemon_logs_queue_witness :
  runs (daemon_loop (H := plain_libc) 2 4) (W log_env log_room) (fun r '(W en' k') =>
    r = true /\ running (k_static k') = false /\ e_dgrams en' = [] /\
    fd_data k' 4 = Some (B "old line" ++ log_lines (H := plain_libc) (e_clock log_env) (e_dgrams log_env))).
Proof.
  apply (daemon_logs_queue (H := plain_libc) 2 4 log_env log_room); [|done|lia|vm_compute; lia|done| |done].
  - intros t. eexists. split; [reflexivity|]. by vm_compute.
  - exists 1%positive, 0%nat, (O_WRONLY ||| O_APPEND), (mk_inode (B "old line") 0). split_and!; [done|done|done|by left].
Defined.
