(* ===== verification/Daemon.v ===== *)
(** * The logging daemon's life

    The rest of [src/logger/main.c]: the signal handlers, the socket, the log
    file, and [main] from its start to its exit. *)

From S2P Require Import Prelude CLib Posix Wp NetworkIO Logger.

Definition with_logger_socket (fd : Z) (d : daemon) : daemon :=
  {| running := running d; logger_socket := fd; log_file := log_file d |}.
Definition with_log_file (fd : Z) (d : daemon) : daemon :=
  {| running := running d; logger_socket := logger_socket d; log_file := fd |}.

(** The static variables at the start. *)
Definition daemon_start : daemon := {| running := true; logger_socket := -1; log_file := -1 |}.

Section main.
Context `{Libc}.
Variable F : nat.

(** [close(logger_socket); logger_socket = -1;] *)
Definition drop_logger_socket : prog daemon unit :=
  d ← call Get_static;
  _ ← call (Close (logger_socket d));
  d ← call Get_static;
  call (Put_static (with_logger_socket (-1) d)).

Definition create_logger_socket : prog daemon Z :=
  fd ← call Socket_dgram;
  d ← call Get_static;
  _ ← call (Put_static (with_logger_socket fd d));
  if fd <? 0 then
    _ ← perror (B "socket");
    mret (-1)
  else
  let '(length, sun_path) := snprintf SUN_PATH_SIZE LOGGER_SOCKET_PATH in
  if SUN_PATH_SIZE <=? length then
    _ ← call (Eputs (B "Logger socket path is too long." ++ [NEWLINE]));
    _ ← drop_logger_socket;
    mret (-1)
  else
  r ← call (Unlink LOGGER_SOCKET_PATH);
  errno ← call Errno;
  if (r != 0) && (errno != ENOENT) then
    _ ← perror (B "unlink stale socket");
    _ ← drop_logger_socket;
    mret (-1)
  else
  r ← call (Bind_path fd sun_path);
  if r <? 0 then
    _ ← perror (B "bind");
    _ ← drop_logger_socket;
    mret (-1)
  else mret 0.

Definition open_log_file : prog daemon Z :=
  fd ← call (Open LOGGER_LOG_FILE (O_WRONLY ||| O_CREAT ||| O_APPEND) MODE_0644);
  d ← call Get_static;
  _ ← call (Put_static (with_log_file fd d));
  if fd <? 0 then
    _ ← perror (B "open log file");
    mret (-1)
  else mret 0.

Definition cleanup : prog daemon unit :=
  d ← call Get_static;
  _ ← (if 0 <=? logger_socket d then
        r ← call (Close (logger_socket d));
        _ ← (if r != 0 then perror (B "close logger socket") else mret tt);
        d ← call Get_static;
        call (Put_static (with_logger_socket (-1) d))
      else mret tt);
  d ← call Get_static;
  _ ← (if 0 <=? log_file d then
        r ← call (Close (log_file d));
        _ ← (if r != 0 then perror (B "close log file") else mret tt);
        d ← call Get_static;
        call (Put_static (with_log_file (-1) d))
      else mret tt);
  r ← call (Unlink LOGGER_SOCKET_PATH);
  errno ← call Errno;
  if (r != 0) && (errno != ENOENT) then perror (B "unlink logger socket") else mret tt.

(** The end of [main], after the loop. *)
Definition daemon_finish : prog daemon Z :=
  _ ← cleanup;
  _ ← call (Puts (B "Custom logger daemon stopped." ++ [NEWLINE]));
  mret EXIT_SUCCESS.

Definition daemon_main : prog daemon Z :=
  r ← call Sigemptyset;
  if r != 0 then _ ← perror (B "sigemptyset"); mret EXIT_FAILURE else
  r ← call (Sigaction SIGINT);
  if r != 0 then _ ← perror (B "sigaction SIGINT"); mret EXIT_FAILURE else
  r ← call (Sigaction SIGTERM);
  if r != 0 then _ ← perror (B "sigaction SIGTERM"); mret EXIT_FAILURE else
  r ← create_logger_socket;
  if r != 0 then mret EXIT_FAILURE else
  r ← open_log_file;
  if r != 0 then
    _ ← cleanup;
    mret EXIT_FAILURE
  else
  _ ← call (Puts (B "Custom logger daemon started." ++ [NEWLINE]));
  _ ← call (Puts (B "Socket: " ++ LOGGER_SOCKET_PATH ++ [NEWLINE]));
  _ ← call (Puts (B "Log file: " ++ LOGGER_LOG_FILE ++ [NEWLINE]));
  _ ← daemon_loop F F;
  daemon_finish.
End main.

(** ** The loop, whatever fails *)

(** While it logs the daemon changes its console, its flag, the contents of
    files and the offset of the log file. *)
Record logging (k k' : kern daemon) : Prop := {
  lg_socket : logger_socket (k_static k') = logger_socket (k_static k);
  lg_file : log_file (k_static k') = log_file (k_static k);
  lg_fds : forall fd, fd ≠ log_file (k_static k) -> k_fds k' !! fd = k_fds k !! fd;
  lg_ino : fd_ino k' (log_file (k_static k)) = fd_ino k (log_file (k_static k));
  lg_tree : k_tree k' = k_tree k
}.

#[export] Instance logging_preorder : PreOrder logging.
Proof.
  split; [by intros k|]. intros k1 k2 k3 [S1 F1 D1 I1 T1] [S2 F2 D2 I2 T2]. split; try congruence.
  intros fd Hne. rewrite D2 by congruence. by apply D1.
Qed.

Lemma wrote_logging (k k' : kern daemon) : wrote (log_file (k_static k)) k k' -> logging k k'.
Proof. intros (E & Hf & Hi). rewrite E in *. by split. Qed.

Section facts.
Context `{Libc} (F : nat).

Lemma write_entry_no_datagram p : calls no_datagram (write_log_entry F p).
Proof.
  unfold write_log_entry, create_timestamp. apply calls_bind.
  - apply calls_bind; [by apply calls_call|]. intros [[s n]|]; [|done]. destruct (localtime_r s); [|done].
    destruct (snprintf _ _). by case_if.
  - intros [ts|]; [|done]. destruct (snprintf _ _) as [n entry]. case_if; [done|].
    apply calls_bind; [by apply calls_call|]. intros d. apply calls_bind; [|intros; by case_if].
    unfold write_all. generalize 0 as z. generalize F as fuel. induction fuel as [|fuel IH]; intros z; [done|].
    cbn [write_all_loop]. case_if; [|done]. apply calls_bind; [by apply calls_call|]. intros r. case_if.
    + apply calls_bind; [by apply calls_call|]. intros e. case_if; [apply IH|done].
    + case_if; [done|apply IH].
Qed.

Lemma wp_write_entry_any p Q en (k : kern daemon) :
  fuel_ok F en ->
  (forall en' k' r, env_le en' en -> logging k k' -> running (k_static k') = running (k_static k) -> Q r (W en' k')) ->
  wp (write_log_entry F p) Q (W en k).
Proof.
  intros HF HQ. unfold write_log_entry, create_timestamp. apply wp_bind, wp_clock.
  { intros en' Hlt. apply wp_ret, wp_ret, HQ; [by apply env_lt_le|done|done]. }
  intros en1 [s n] Hle1.
  assert (Hbad : wp (mret (-1)) Q (W en1 k)) by by apply wp_ret, HQ.
  destruct (localtime_r s) as [tm|]; [|by apply wp_ret]. destruct (snprintf TIMESTAMP_SIZE _) as [l text].
  case_if; [by apply wp_ret|]. apply wp_ret. destruct (snprintf _ _) as [l2 entry]. case_if; [done|].
  apply wp_get, wp_bind. unfold write_all. apply (wp_write_all_any _ _ _ _ 0); [lia|left; env_lia|].
  intros en2 k2 r Hle2 Hw. pose proof (wrote_logging _ _ Hw) as Hl.
  assert (Hr : running (k_static k2) = running (k_static k)) by (destruct Hw as [-> _]; done).
  case_if; [apply wp_ret, HQ; [env_lia|done|done]|].
  apply wp_puts, wp_ret, HQ; [env_lia| |exact Hr]. etransitivity; [exact Hl|]. by split.
Qed.

Lemma wp_daemon_loop_any fuel en (k : kern daemon) :
  fuel_ok F en -> (script_len en + length (e_dgrams en) + 2 <= fuel)%nat \/ running (k_static k) = false /\ (0 < fuel)%nat ->
  wp (daemon_loop F fuel) (fun _ w => logging k (w_kern w) /\ env_le (w_env w) en) (W en k).
Proof.
  revert en k. induction fuel as [|fuel IH]; intros en k HF Hfuel; [lia|]. cbn [daemon_loop]. apply wp_get.
  destruct (running (k_static k)) eqn:Hrun; cbn [negb]; [|by apply wp_ret].
  destruct Hfuel as [Hfuel|[? _]]; [|done].
  assert (Hnext : forall en' k', logging k k' -> env_le en' en ->
    (script_len en' + length (e_dgrams en') + 2 <= fuel)%nat \/ running (k_static k') = false /\ (0 < fuel)%nat ->
    wp (daemon_loop F fuel) (fun _ w => logging k (w_kern w) /\ env_le (w_env w) en) (W en' k')).
  { intros en' k' Hl Hle Hf. eapply wp_mono; [apply IH; [by eapply fuel_ok_le|done]|].
    intros _ w [? ?]. split; [by etransitivity|by etransitivity]. }
  set (k1 := with_static (handle_signal (k_static k)) k). assert (Hk1 : logging k k1) by by split.
  assert (Hstop : forall en' z, env_le en' en -> wp (errno ← call Errno;
            if errno == EINTR then daemon_loop F fuel else _ ← perror (B "recvfrom"); mret false)
            (fun _ w => logging k (w_kern w) /\ env_le (w_env w) en) (W (with_errno z en') (if z == EINTR then k1 else k))).
  { intros en' z Hle. apply wp_errno. cbn [e_errno with_errno]. case_if; [apply Hnext; [done|done|right; split; [done|lia]]|].
    apply wp_perror. intros err. apply wp_ret. split; [by split|done]. }
  apply wp_call. unfold sem, interruptible. cbn [w_env w_kern].
  destruct (pop_cases en) as [(z & en' & -> & Hlt)|(o & en' & lim & Hpop & Hle & _ & Ho & _ & Hq & _)].
  { case_if; cbn [fst snd].
    - pose proof (Hstop en' EINTR (env_lt_le _ _ Hlt)) as Hs. exact Hs.
    - pose proof (Hstop en' (Zpos z) (env_lt_le _ _ Hlt)) as Hs. rewrite (proj2 (Z.eqb_neq _ _)) in Hs by done. exact Hs. }
  rewrite Hpop. destruct (e_dgrams en) as [|d queue] eqn:Eq.
  { destruct o; try done; rewrite Hq; cbn [fst snd]; exact (Hstop en' EINTR Hle). }
  set (en1 := with_dgrams queue en').
  assert (Hgo : forall k', logging k k' -> forall en2, env_le en2 en1 -> e_dgrams en2 = queue ->
    wp (daemon_loop F fuel) (fun _ w => logging k (w_kern w) /\ env_le (w_env w) en) (W en2 k')).
  { intros k' Hl en2 Hle2 Hq2. assert (Hle3 : env_le en2 en) by (etransitivity; [exact Hle2|exact Hle]).
    apply Hnext; [done|done|left; rewrite Hq2; simpl in *; env_lia]. }
  assert (Hbody : wp (let data := take (Z.to_nat SIZEOF_PACKET) d in
     if zlen data != SIZEOF_PACKET then
       _ ← call (Eputs (B "Rejected malformed log packet: " ++ sdec (zlen data) ++ B " bytes" ++ [NEWLINE])); daemon_loop F fuel
     else let packet := packet_of_bytes data in
     if validate_packet packet != 0 then _ ← call (Eputs (B "Rejected invalid log packet." ++ [NEWLINE])); daemon_loop F fuel
     else r ← write_log_entry F packet; if r != 0 then _ ← perror (B "write log entry"); mret false else daemon_loop F fuel)
    (fun _ w => logging k (w_kern w) /\ env_le (w_env w) en) (W en1 k)).
  { cbv zeta. case_if; [apply wp_eputs, Hgo; [by split|done|done]|]. case_if; [apply wp_eputs, Hgo; [by split|done|done]|].
    apply wp_bind. eapply wp_mono.
    - apply (wp_queue _ (fun _ w => logging k (w_kern w) /\ env_le (w_env w) en1)); [apply write_entry_no_datagram|].
      apply wp_write_entry_any; [by eapply fuel_ok_le|]. intros en2 k2 r Hle2 Hl _. by split.
    - intros r [en2 k2] [[Hl Hle2] Hq2]. cbn [w_env w_kern] in *. case_if; [|by apply Hgo].
      apply wp_perror. intros err. apply wp_ret. split; [etransitivity; [exact Hl|by split]|]. cbn [w_env]. etransitivity; [exact Hle2|exact Hle]. }
  destruct o; try done; rewrite Hq; exact Hbody.
Qed.
End facts.

(** ** The whole life, whatever fails *)

(** Compared with [k0] the daemon has open [s] and [l], where they are not -1. *)
Record opened (k0 : kern daemon) (s l : Z) (k : kern daemon) : Prop := {
  op_socket : logger_socket (k_static k) = s;
  op_file : log_file (k_static k) = l;
  op_fds : forall fd, ~ (0 <= s /\ fd = s) -> ~ (0 <= l /\ fd = l) -> k_fds k !! fd = k_fds k0 !! fd;
  op_new : (0 <= s -> k_fds k0 !! s = None) /\ (0 <= l -> k_fds k0 !! l = None)
}.

Lemma opened_logging k0 s l k k' : 0 <= l -> opened k0 s l k -> logging k k' -> opened k0 s l k'.
Proof.
  intros H0 [S L D N] [S' L' D' _ _]. split; [congruence|congruence| |done].
  intros fd H1 H2. rewrite D'; [by apply D|]. intros ->. apply H2. by rewrite L.
Qed.

Lemma opened_close_socket k0 s l k :
  0 <= s -> opened k0 s l k ->
  opened k0 (-1) l (with_static (with_logger_socket (-1) (k_static k)) (close_fd k s)).
Proof.
  intros H0 [S L D [N1 N2]]. split; [done|done| |by split; [|]].
  intros fd _ H2. simpl. destruct (decide (fd = s)) as [->|Hne]; [by rewrite lookup_delete_eq, N1|].
  rewrite lookup_delete_ne by done. apply D; [by intros [_ ?]|done].
Qed.

Lemma opened_close_file k0 s l k :
  0 <= l -> opened k0 s l k -> opened k0 s (-1) (with_static (with_log_file (-1) (k_static k)) (close_fd k l)).
Proof.
  intros H0 [S L D [N1 N2]]. split; [done|done| |by split; [|]].
  intros fd H1 _. simpl. destruct (decide (fd = l)) as [->|Hne]; [by rewrite lookup_delete_eq, N2|].
  rewrite lookup_delete_ne by done. apply D; [done|by intros [_ ?]].
Qed.

Lemma opened_fds k0 k : opened k0 (-1) (-1) k -> k_fds k = k_fds k0.
Proof. intros [S L D _]. apply map_eq. intros fd. apply D; by intros [? _]. Qed.

(** Changes that do not concern the descriptors. *)
Lemma opened_same k0 s l k k' : k_static k' = k_static k -> k_fds k' = k_fds k -> opened k0 s l k -> opened k0 s l k'.
Proof. intros E1 E2 [S L D N]. split; rewrite ?E1, ?E2; done. Qed.

Section life.
Context `{Libc} (F : nat).

Lemma wp_drop_logger_socket {A} (g : unit -> prog daemon A) k0 s l Q en (k : kern daemon) :
  0 <= s -> opened k0 s l k ->
  (forall en', env_le en' en ->
     wp (g tt) Q (W en' (with_static (with_logger_socket (-1) (k_static k)) (close_fd k s)))) ->
  wp (drop_logger_socket ≫= g) Q (W en k).
Proof.
  intros H0 Ho HQ. unfold drop_logger_socket. apply wp_bind, wp_get. rewrite (op_socket _ _ _ _ Ho).
  apply wp_close. intros en' z Hle _. apply wp_get, wp_bind_iff. apply wp_put. by apply HQ.
Qed.

Definition socket_path : path := resolve [] LOGGER_SOCKET_PATH.
Definition log_path : path := resolve [] LOGGER_LOG_FILE.

(** The socket can be made. *)
Definition socket_usable (k : kern daemon) : Prop :=
  k_tree k !! socket_path ≠ Some NDir /\ is_dir k (removelast socket_path) = true.

Lemma wp_create_logger_socket {A} (g : Z -> prog daemon A) Q en (k : kern daemon) :
  opened k (-1) (-1) k ->
  (forall en' s, env_le en' en -> 0 <= s -> k_fds k !! s = None ->
     wp (g 0) Q (W en' (with_tree (<[socket_path := NOther]> (k_tree k))
       (with_static (with_logger_socket s (k_static k)) (with_fds (<[s := FdDgram]> (k_fds k)) k))))) ->
  (forall en' k', env_le en' en -> env_lt en' en \/ ~ socket_usable k -> opened k (-1) (-1) k' -> wp (g (-1)) Q (W en' k')) ->
  wp (create_logger_socket ≫= g) Q (W en k).
Proof.
  intros Ho Hok Hko. unfold create_logger_socket. apply wp_bind.
  eapply wp_fallible; [reflexivity| |].
  { intros en' Hlt _. apply wp_get, wp_put. cbn [Z.ltb Z.compare]. apply wp_perror. intros err. apply wp_ret, Hko; [by apply env_lt_le|by left|].
    destruct Ho as [S L D N]. by split. }
  intros en1 lim Hle1 _ _. cbn [add_fd]. pose proof (next_fd_nonneg (k_fds k)) as H0. pose proof (next_fd_fresh (k_fds k)) as Hfresh.
  set (s := next_fd (k_fds k)) in *. apply wp_get, wp_put. rewrite (proj2 (Z.ltb_ge _ _)) by done.
  cbn [k_static with_fds snprintf]. change (SUN_PATH_SIZE <=? zlen LOGGER_SOCKET_PATH) with false. cbv iota.
  set (k1 := with_static _ _).
  assert (Ho1 : opened k s (-1) k1).
  { destruct Ho as [S L D N]. split; [done|done| |by split; [|]]. intros fd Hne _. simpl.
    rewrite lookup_insert_ne; [done|]. intros <-. by apply Hne. }
  assert (Hfail : forall en' k2 text, env_le en' en -> env_lt en' en \/ ~ socket_usable k -> opened k s (-1) k2 ->
    wp (_ ← perror text; _ ← drop_logger_socket; mret (-1)) (fun a => wp (g a) Q) (W en' k2)).
  { intros en' k2 text Hle Hwhy Ho2. apply wp_perror. intros err.
    eapply (wp_drop_logger_socket _ k s (-1)); [done|by eapply opened_same; [| |exact Ho2]|].
    intros en'' Hle2. apply wp_ret, Hko; [env_lia|destruct Hwhy; [left; env_lia|by right]|].
    apply opened_close_socket; [done|]. by eapply opened_same; [| |exact Ho2]. }
  assert (Hbind : forall en' k2, env_le en' en -> k_fds k2 = k_fds k1 -> k_static k2 = k_static k1 ->
    k_tree k2 = delete socket_path (k_tree k) \/ k_tree k2 = k_tree k /\ (env_lt en' en \/ ~ socket_usable k) ->
    with_tree (<[socket_path := NOther]> (k_tree k)) k2 = with_tree (<[socket_path := NOther]> (k_tree k)) k1 ->
    wp (r ← call (Bind_path s (take (Z.to_nat (SUN_PATH_SIZE - 1)) LOGGER_SOCKET_PATH));
        if r <? 0 then _ ← perror (B "bind"); _ ← drop_logger_socket; mret (-1) else mret 0) (fun a => wp (g a) Q) (W en' k2)).
  { intros en' k2 Hle Hf Hs Ht Heq. apply wp_bind_path; change (resolve [] _) with socket_path.
    - rewrite Hf. simpl. apply lookup_insert_eq.
    - intros en2 Hle2 Hnone. cbn [Z.ltb Z.compare]. apply wp_ret.
      assert (Hi : <[socket_path := NOther]> (k_tree k2) = <[socket_path := NOther]> (k_tree k)).
      { destruct Ht as [->|[-> _]]; [apply insert_delete_eq|done]. }
      rewrite Hi, Heq. apply Hok; [env_lia|done|done].
    - intros en2 Hle2 Hwhy. cbn [Z.ltb Z.compare].
      apply Hfail; [env_lia| |apply (opened_same k s (-1) k1); [exact Hs|exact Hf|exact Ho1]].
      destruct Ht as [Ht|[_ [?|?]]]; [|left; env_lia|by right].
      destruct Hwhy as [?|[[x Hx]|Hd]]; [left; env_lia|by rewrite Ht, lookup_delete_eq in Hx|].
      right. intros [_ Hu]. unfold is_dir in Hd, Hu. rewrite Ht, lookup_delete_ne in Hd by done. congruence. }
  apply wp_unlink; change (resolve [] LOGGER_SOCKET_PATH) with socket_path.
  - intros en2 nd Hle2 Hnd Hne. apply wp_errno. cbn [Z.eqb negb andb]. apply Hbind; [env_lia|done|done|by left|done].
  - intros en2 Hle2 Hwhy. apply wp_errno. cbn [Z.eqb negb andb].
    assert (Hw : k_tree k !! socket_path = None \/ env_lt en2 en \/ ~ socket_usable k).
    { destruct Hwhy as [?|[[? _]|Hd]]; [right; left; env_lia|by left|]. right. right. by intros [? _]. }
    case_if.
    + apply Hfail; [env_lia| |done]. destruct Hwhy as [?|[[_ ?]|Hd]]; [left; env_lia|done|]. right. by intros [? _].
    + apply Hbind; [env_lia|done|done| |done]. destruct Hw as [Hn|?]; [left|by right]. simpl. by rewrite delete_id.
Qed.

(** The log file can be opened, and has these contents. *)
Definition log_usable (k : kern daemon) (old : bytes) : Prop :=
  match k_tree k !! log_path with
  | Some (NReg ino) => i_data <$> k_inodes k !! ino = Some old
  | Some _ => False
  | None => is_dir k (removelast log_path) = true /\ old = []
  end.

(** It is open on the descriptor [l]. *)
Definition log_at (k : kern daemon) (l : Z) (old : bytes) : Prop :=
  exists ino, k_tree k !! log_path = Some (NReg ino) /\ fd_ino k l = Some ino /\ appendable k l /\ fd_data k l = Some old.

Definition log_contents (k : kern daemon) : option bytes :=
  match k_tree k !! log_path with
  | Some (NReg ino) => i_data <$> k_inodes k !! ino
  | _ => None
  end.

Lemma open_log_path (k : kern daemon) old :
  log_usable k old ->
  exists l k', open_path k log_path (O_WRONLY ||| O_CREAT ||| O_APPEND) MODE_0644 = inr (l, k') /\ log_at k' l old /\
    forall p, p ≠ log_path -> k_tree k' !! p = k_tree k !! p.
Proof.
  unfold log_usable, open_path, follow. intros Hu. destruct (k_tree k !! log_path) as [[ino| | |]|] eqn:Et; try done.
  - destruct (k_inodes k !! ino) as [i|] eqn:Ei; [|done]. injection Hu as <-.
    change (has _ O_CREAT && has _ O_EXCL) with false. change (has _ O_NOFOLLOW) with false. cbv iota. unfold open_node.
    change (has _ O_DIRECTORY) with false. cbv iota. eexists _, _. split; [reflexivity|]. split; [|done].
    exists ino. unfold fd_ino, fd_data, appendable. cbn [add_fd k_fds k_inodes k_tree with_fds]. rewrite lookup_insert_eq.
    split; [done|]. split; [done|]. split; [|by rewrite Ei]. eexists _, _, _, i. split; [done|]. split; [done|]. by split; [|left].
  - destruct Hu as [Hd ->]. change (has _ O_CREAT) with true. rewrite Hd. cbv iota.
    eexists _, _. split; [reflexivity|]. split; [|intros p Hne; cbn; by rewrite lookup_insert_ne].
    exists (fresh (dom (k_inodes k))). unfold fd_ino, fd_data, appendable. cbn [add_fd k_fds k_inodes k_tree with_fds with_tree with_inodes].
    rewrite !lookup_insert_eq. split; [done|]. split; [done|]. split; [|done]. eexists _, _, _, _. split; [done|].
    rewrite lookup_insert_eq. split; [done|]. by split; [|left].
Qed.

Lemma wp_open_log_file {A} (g : Z -> prog daemon A) k0 s Q en (k : kern daemon) :
  opened k0 s (-1) k ->
  (forall en' l k', env_le en' en -> 0 <= l -> opened k0 s l k' -> running (k_static k') = running (k_static k) ->
     (forall old, log_usable k old -> log_at k' l old /\ forall p, p ≠ log_path -> k_tree k' !! p = k_tree k !! p) ->
     wp (g 0) Q (W en' k')) ->
  (forall en' k', env_le en' en -> env_lt en' en \/ (forall old, ~ log_usable k old) -> opened k0 s (-1) k' ->
     wp (g (-1)) Q (W en' k')) ->
  wp (open_log_file ≫= g) Q (W en k).
Proof.
  intros Ho Hok Hko. unfold open_log_file. apply wp_bind. change (resolve [] LOGGER_LOG_FILE) with log_path.
  assert (Hbad : forall en', env_le en' en -> env_lt en' en \/ (forall old, ~ log_usable k old) ->
    wp (d ← call Get_static; _ ← call (Put_static (with_log_file (-1) d));
        if -1 <? 0 then _ ← perror (B "open log file"); mret (-1) else mret 0) (fun a => wp (g a) Q) (W en' k)).
  { intros en' Hle Hwhy. apply wp_get, wp_put. cbn [Z.ltb Z.compare]. apply wp_perror. intros err. apply wp_ret, Hko; [done|done|].
    destruct Ho as [S L D N]. by split. }
  eapply wp_fallible; [reflexivity|intros; apply Hbad; [by apply env_lt_le|by left]|].
  intros en1 lim Hle _ _. cbv beta. change (resolve [] LOGGER_LOG_FILE) with log_path.
  pose proof (open_log_path k) as Hop. destruct (open_path k log_path _ _) as [e|[l k1]] eqn:E.
  - apply Hbad; [done|]. right. intros old Hu. by destruct (Hop old Hu) as (? & ? & [=] & _).
  - apply open_path_any in E as (El & Es & d & Ef). pose proof (next_fd_nonneg (k_fds k)) as H0.
    pose proof (next_fd_fresh (k_fds k)) as Hfresh. rewrite <- El in H0, Hfresh.
    apply wp_get, wp_put. rewrite (proj2 (Z.ltb_ge _ _)) by done. apply wp_ret, (Hok _ l); [done|done| |simpl; by rewrite Es|].
    + destruct Ho as [S L D [N1 N2]]. split; [simpl; by rewrite Es, S|done| |].
      * intros fd H1 H2. simpl. rewrite Ef, lookup_insert_ne; [apply D; [done|by intros [? _]]|]. intros <-. by apply H2.
      * split; [exact N1|intros _]. destruct (decide (0 <= s /\ l = s)) as [[? ->]|Hne]; [by apply N1|].
        rewrite <- D; [done|done|by intros [? _]].
    + intros old Hu. destruct (Hop old Hu) as (l' & k' & [= <- <-] & Hat & Ht). by split.
Qed.

(** The start and the end of the daemon only make quiet calls. *)
Lemma quiet_create : calls quiet create_logger_socket.
Proof. unfold create_logger_socket, drop_logger_socket, perror. solve_calls. Qed.

Lemma quiet_open : calls quiet open_log_file.
Proof. unfold open_log_file, perror. solve_calls. Qed.

(** Both descriptors are closed, and the name of the socket removed. *)
Definition cleaned (k k' : kern daemon) : Prop :=
  k_inodes k' = k_inodes k /\ forall p, p ≠ socket_path -> k_tree k' !! p = k_tree k !! p.

Lemma wp_close_reset (reset : daemon -> daemon) fd msg (Q : unit -> world daemon -> Prop) en (k : kern daemon) :
  (forall en' err, env_le en' en -> Q tt (W en' (with_stderr err (with_static (reset (k_static k)) (close_fd k fd))))) ->
  wp (r ← call (Close fd);
      _ ← (if r != 0 then perror msg else mret tt);
      d ← call Get_static;
      call (Put_static (reset d))) Q (W en k).
Proof.
  intros HQ. apply wp_close. intros en' z Hle _.
  assert (Hfin : forall err, wp (d ← call Get_static; call (Put_static (reset d))) Q (W en' (with_stderr err (close_fd k fd)))).
  { intros err. apply wp_get. refine (wp_put _ mret _ _ _ _). apply wp_ret. exact (HQ en' err Hle). }
  apply wp_bind. case_if; [|exact (Hfin (k_stderr k))]. apply (wp_perror _ mret). intros err. apply wp_ret, Hfin.
Qed.

Lemma wp_cleanup {A} (g : unit -> prog daemon A) k0 s l Q en (k : kern daemon) :
  opened k0 s l k -> s = -1 \/ 0 <= s -> l = -1 \/ 0 <= l ->
  (forall en' k', env_le en' en -> opened k0 (-1) (-1) k' -> cleaned k k' ->
     (env_lt en' en \/ k_tree k !! socket_path = Some NDir \/ k_tree k' !! socket_path = None) ->
     wp (g tt) Q (W en' k')) ->
  wp (cleanup ≫= g) Q (W en k).
Proof.
  intros Ho Hs Hl HQ. unfold cleanup. apply wp_bind, wp_get. rewrite (op_socket _ _ _ _ Ho).
  set (kept := fun (l : Z) (_ : unit) (w : world daemon) => env_le (w_env w) en /\ opened k0 (-1) l (w_kern w) /\
    k_inodes (w_kern w) = k_inodes k /\ k_tree (w_kern w) = k_tree k).
  apply wp_bind. eapply (wp_mono _ (kept l)).
  { destruct Hs as [->|Hs]; [by apply wp_ret|]. rewrite (proj2 (Z.leb_le _ _)) by done.
    apply (wp_close_reset (with_logger_socket (-1))). intros en1 err Hle. split; [done|]. split; [|done].
    apply (opened_same k0 (-1) l (with_static (with_logger_socket (-1) (k_static k)) (close_fd k s))); [done|done|].
    by apply opened_close_socket. }
  intros _ [en1 k1] (Hle1 & Ho1 & Hi1 & Ht1). cbn [w_env w_kern] in *. apply wp_get. rewrite (op_file _ _ _ _ Ho1).
  apply wp_bind. eapply (wp_mono _ (kept (-1))).
  { destruct Hl as [->|Hl]; [by apply wp_ret|]. rewrite (proj2 (Z.leb_le _ _)) by done.
    apply (wp_close_reset (with_log_file (-1))). intros en2 err Hle. split; [env_lia|]. split; [|done].
    apply (opened_same k0 (-1) (-1) (with_static (with_log_file (-1) (k_static k1)) (close_fd k1 l))); [done|done|].
    by apply opened_close_file. }
  intros _ [en2 k2] (Hle2 & Ho2 & Hi2 & Ht2). cbn [w_env w_kern] in *.
  apply wp_unlink; change (resolve [] LOGGER_SOCKET_PATH) with socket_path; rewrite Ht2.
  - intros en3 nd Hle3 Hnd Hne. apply wp_errno. cbn [Z.eqb negb andb]. apply wp_ret, HQ; [env_lia|by apply (opened_same k0 (-1) (-1) k2)| |].
    + split; [done|]. intros p Hp. simpl. by rewrite lookup_delete_ne.
    + right. right. simpl. apply lookup_delete_eq.
  - intros en3 Hle3 Hwhy. apply wp_errno. cbn [Z.eqb negb andb].
    assert (Hend : forall err, wp (g tt) Q (W en3 (with_stderr err k2))).
    { intros err. apply HQ; [env_lia|by apply (opened_same k0 (-1) (-1) k2)| |].
      - split; [done|]. intros p _. simpl. by rewrite Ht2.
      - simpl. rewrite Ht2. destruct Hwhy as [?|[[? _]|?]]; [left; env_lia|by right; right|by right; left]. }
    case_if; [|apply wp_ret; rewrite <- (with_stderr_id k2); apply Hend]. apply (wp_perror _ mret). intros err. apply wp_ret, Hend.
Qed.

(** Documented behaviour of [localtime_r], as in Logger. *)
Definition localtime_ok : Prop :=
  forall t, exists tm, localtime_r t = Some tm /\ zlen (timestamp_text tm) < TIMESTAMP_SIZE.

(** How a life that starts in [k] ends. *)
Definition lived (en : env) (k : kern daemon) (r : Z) (w : world daemon) : Prop :=
  (r = EXIT_SUCCESS \/ r = EXIT_FAILURE) /\ opened k (-1) (-1) (w_kern w) /\
  (faultless en -> localtime_ok -> socket_usable k -> forall old, log_usable k old ->
     r = EXIT_SUCCESS /\ e_dgrams (w_env w) = [] /\
     log_contents (w_kern w) = Some (old ++ log_lines (e_clock en) (e_dgrams en)) /\ k_tree (w_kern w) !! socket_path = None).

Lemma lived_failure en k w :
  opened k (-1) (-1) (w_kern w) -> ~ faultless en \/ ~ socket_usable k \/ (forall old, ~ log_usable k old) ->
  lived en k EXIT_FAILURE w.
Proof.
  intros Ho Hwhy. split; [by right|]. split; [done|]. intros Hf _ Hs old Hl. exfalso.
  destruct Hwhy as [?|[?|Hn]]; [done|done|by eapply Hn].
Qed.

(** The loop and the end of the daemon. *)
Lemma wp_daemon_rest en0 k0 s l en (k : kern daemon) :
  0 <= s -> 0 <= l -> opened k0 s l k -> running (k_static k) = true -> env_le en en0 -> same_feeds en0 en ->
  (script_len en + length (e_dgrams en) + 2 <= F)%nat ->
  (faultless en0 -> forall old, socket_usable k0 -> log_usable k0 old -> log_at k l old /\ k_tree k !! socket_path = Some NOther) ->
  wp (_ ← daemon_loop F F; daemon_finish) (lived en0 k0) (W en k).
Proof.
  intros H0s H0l Ho Hrun Hle (Hd & Hc & _) Hfuel Hat.
  set (Spec := fun (_ : bool) (w : world daemon) => forall old, log_usable k0 old ->
    e_dgrams (w_env w) = [] /\ fd_data (w_kern w) l = Some (old ++ log_lines (e_clock en0) (e_dgrams en0))).
  apply wp_bind. eapply wp_mono.
  { apply (wp_given (faultless en0 /\ localtime_ok /\ socket_usable k0 /\ exists old, log_usable k0 old) _
      (fun _ w => logging k (w_kern w) /\ env_le (w_env w) en) Spec).
    - apply (wp_daemon_loop_any F F); [env_lia|by left].
    - intros (Hf & Hlt & Hsu & old & Hlu). destruct (Hat Hf old Hsu Hlu) as [(ino & Ht & Hi & Happ & Hfd) _].
      eapply wp_mono; [apply (wp_daemon_loop Hlt F F en k old)|]; rewrite ?(op_file _ _ _ _ Ho); try done; try env_lia.
      { by eapply faultless_le. }
      intros b w (_ & _ & Hq & Hdata) old' Hlu'. split; [done|]. rewrite <- Hd, <- Hc, Hdata. do 2 f_equal.
      destruct (Hat Hf old' Hsu Hlu') as [(? & ? & ? & ? & Hfd') _]. congruence. }
  intros b [en1 k1] [[Hl Hle1] Hspec]. cbn [w_env w_kern] in *. unfold daemon_finish.
  eapply (wp_quiet _ _ (fun _ w => env_le (w_env w) en1 /\ opened k0 (-1) (-1) (w_kern w) /\ cleaned k1 (w_kern w) /\
    (env_lt (w_env w) en1 \/ k_tree k1 !! socket_path = Some NDir \/ k_tree (w_kern w) !! socket_path = None))).
  { unfold cleanup, perror. solve_calls. }
  { apply wp_of_bind, (wp_cleanup mret k0 s l); [by eapply opened_logging|by right|by right|]. intros en2 k2 ? ? ? ?. by apply wp_ret. }
  intros _ en2 k2 (Hle2 & Ho2 & [Hin Htree] & Hgone) [Hq2 _]. cbn [w_env w_kern] in *.
  apply wp_puts, wp_ret. split; [by left|]. split; [by apply (opened_same k0 (-1) (-1) k2)|].
  intros Hf Hlt Hsu old Hlu. split; [done|].
  destruct (Hspec (conj Hf (conj Hlt (conj Hsu (ex_intro _ old Hlu)))) old Hlu) as [Hq Hdata].
  destruct (Hat Hf old Hsu Hlu) as [(ino & Ht & Hi & _) Hsock]. cbn [w_env w_kern] in *. destruct Hl as [_ _ _ Hino Htr].
  rewrite (op_file _ _ _ _ Ho) in Hino.
  split; [congruence|]. split.
  - unfold log_contents. cbn [k_tree k_inodes with_stdout]. rewrite Htree, Htr, Ht by done. rewrite Hin.
    unfold fd_data in Hdata. unfold fd_ino in Hino, Hi. rewrite Hi in Hino.
    destruct (k_fds k1 !! l) as [[]|]; try done. by injection Hino as ->.
  - cbn [w_kern k_tree with_stdout]. destruct Hgone as [?|[Hd2|?]]; [|by rewrite Htr, Hsock in Hd2|done].
    exfalso. apply (faultless_not_lt en1 en2); [|done]. apply (faultless_le en0 en1); [|done]. env_lia.
Qed.

Lemma wp_daemon_main en (k : kern daemon) :
  k_static k = daemon_start -> (script_len en + length (e_dgrams en) + 2 <= F)%nat ->
  wp (daemon_main F) (lived en k) (W en k).
Proof.
  intros Hst HF. assert (Ho : opened k (-1) (-1) k) by (by split; [rewrite Hst|rewrite Hst| |]).
  assert (Hfail : forall en' text k', env_lt en' en -> opened k (-1) (-1) k' ->
    wp (_ ← perror text; mret EXIT_FAILURE) (lived en k) (W en' k')).
  { intros en' text k' Hlt Ho'. apply wp_perror. intros err. apply wp_ret, lived_failure; [by apply (opened_same k (-1) (-1) k')|].
    left. intros Hf. by apply (faultless_not_lt en en'). }
  unfold daemon_main.
  apply wp_signal; [by left|intros; by apply Hfail|]. intros en1 Hle1 Hs1. cbn [Z.eqb negb].
  apply wp_signal; [by right; eexists|intros; apply Hfail; [env_lia|done]|]. intros en2 Hle2 Hs2. cbn [Z.eqb negb].
  apply wp_signal; [by right; eexists|intros; apply Hfail; [env_lia|done]|]. intros en3 Hle3 Hs3. cbn [Z.eqb negb].
  assert (Hs : same_feeds en en3) by (etransitivity; [exact Hs1|etransitivity; [exact Hs2|exact Hs3]]).
  eapply (wp_quiet _ _ (fun r w => env_le (w_env w) en3 /\
    (r = -1 /\ (env_lt (w_env w) en3 \/ ~ socket_usable k) /\ opened k (-1) (-1) (w_kern w) \/
     r = 0 /\ exists s, 0 <= s /\ opened k s (-1) (w_kern w) /\ running (k_static (w_kern w)) = true /\
       k_tree (w_kern w) = <[socket_path := NOther]> (k_tree k) /\ k_inodes (w_kern w) = k_inodes k))).
  { apply quiet_create. }
  { apply wp_of_bind, wp_create_logger_socket; [done| |].
    - intros en4 s Hle4 H0 Hfresh. apply wp_ret. split; [done|]. right. split; [done|]. exists s. split; [done|].
      split; [|by rewrite Hst]. split; [done|by rewrite Hst| |by split].
      intros fd Hne _. simpl. rewrite lookup_insert_ne; [done|]. intros <-. by apply Hne.
    - intros en4 k4 Hle4 Hwhy Ho4. apply wp_ret. split; [done|]. left. by split. }
  intros r en4 k4 [Hle4 [(-> & Hwhy & Ho4)|(-> & s & H0 & Ho4 & Hrun & Ht & Hi)]] Hs4; cbn [w_env w_kern Z.eqb negb] in *.
  { apply wp_ret, lived_failure; [done|]. destruct Hwhy as [Hlt|?]; [left|by right; left]. intros Hf.
    apply (faultless_not_lt en en4); [done|env_lia]. }
  assert (Hup : forall old, log_usable k old -> log_usable k4 old).
  { unfold log_usable, is_dir. rewrite Ht, Hi. intros old. by rewrite !lookup_insert_ne. }
  eapply (wp_quiet _ _ (fun r w => env_le (w_env w) en4 /\
    (r = -1 /\ (env_lt (w_env w) en4 \/ (forall old, ~ log_usable k old)) /\ opened k s (-1) (w_kern w) \/
     r = 0 /\ exists l, 0 <= l /\ opened k s l (w_kern w) /\ running (k_static (w_kern w)) = true /\
       forall old, log_usable k old -> log_at (w_kern w) l old /\ k_tree (w_kern w) !! socket_path = Some NOther))).
  { apply quiet_open. }
  { apply wp_of_bind, (wp_open_log_file _ k s); [done| |].
    - intros en5 l k5 Hle5 H0l Ho5 Hr Hat. apply wp_ret. split; [done|]. right. split; [done|]. exists l. split; [done|].
      split; [done|]. split; [by etransitivity; [exact Hr|]|]. intros old Hu. destruct (Hat old (Hup old Hu)) as [? Htr]. split; [done|].
      rewrite Htr, Ht by done. apply lookup_insert_eq.
    - intros en5 k5 Hle5 Hwhy Ho5. apply wp_ret. split; [done|]. left. split; [done|]. split; [|done].
      destruct Hwhy as [?|Hn]; [by left|right]. intros old Hu. by apply (Hn old), Hup. }
  intros r en5 k5 [Hle5 [(-> & Hwhy & Ho5)|(-> & l & H0l & Ho5 & Hrun5 & Hat)]] Hs5; cbn [w_env w_kern Z.eqb negb] in *.
  { apply (wp_cleanup _ k s (-1)); [done|by right|by left|]. intros en6 k6 Hle6 Ho6 _ _. apply wp_ret, lived_failure; [done|].
    destruct Hwhy as [Hlt|?]; [left|by right; right]. intros Hf. apply (faultless_not_lt en en5); [done|env_lia]. }
  apply wp_puts, wp_puts, wp_puts. assert (Hs' : same_feeds en en5) by (etransitivity; [exact Hs|etransitivity; [exact Hs4|exact Hs5]]).
  apply (wp_daemon_rest _ _ s l); [done|done|by apply (opened_same k s l k5)|done|env_lia|done| |by intros _ old _ ?; apply Hat].
  destruct Hs' as (-> & _ & _). env_lia.
Qed.
End life.

(** ** Properties *)

(** C29. The daemon's [main] always ends, whatever fails and however often a
    signal or a fault interrupts it: after at most as many iterations as there
    are datagrams and faults.  It returns one of its two results, and when it
    does both descriptors are closed, the static variables say so, and the
    process has the descriptors it started with. *)
Theorem daemon_always_ends `{Libc} F en (k : kern daemon) :
  k_static k = daemon_start -> (script_len en + length (e_dgrams en) + 2 <= F)%nat ->
  runs (daemon_main F) (W en k) (fun r '(W en' k') =>
    (r = EXIT_SUCCESS \/ r = EXIT_FAILURE) /\ k_fds k' = k_fds k /\
    logger_socket (k_static k') = -1 /\ log_file (k_static k') = -1).
Proof.
  intros Hst HF. apply wp_runs. eapply wp_mono; [by apply wp_daemon_main|].
  intros r [en' k'] (Hr & Ho & _). split; [done|]. split; [by apply opened_fds|]. by destruct Ho.
Qed.

(** C22. The life of a daemon that no call fails: started where its directory
    exists, with an old log file or none, it logs every acceptable datagram
    that arrives until the signal, in order and after the old contents, and
    leaves no socket behind: the file [logs/server.log] then has exactly the old
    contents and the new lines. *)
Theorem daemon_life `{Libc} F en (k : kern daemon) old :
  (forall t, exists tm, localtime_r t = Some tm /\ zlen (timestamp_text tm) < TIMESTAMP_SIZE) ->
  k_static k = daemon_start -> faultless en -> (length (e_dgrams en) + 2 <= F)%nat ->
  socket_usable k -> log_usable k old ->
  runs (daemon_main F) (W en k) (fun r '(W en' k') =>
    r = EXIT_SUCCESS /\ e_dgrams en' = [] /\ k_tree k' !! socket_path = None /\
    log_contents k' = Some (old ++ log_lines (e_clock en) (e_dgrams en))).
Proof.
  intros Hlt Hst Hf HF Hsu Hlu. apply wp_runs. eapply wp_mono.
  - apply wp_daemon_main; [done|]. unfold faultless in Hf. unfold script_len. rewrite Hf. simpl. lia.
  - intros r [en' k'] (_ & _ & Hlife). destruct (Hlife Hf Hlt Hsu old Hlu) as (? & ? & ? & ?). by split_and!.
Qed.

(** The directories of the installation, and a socket that an earlier daemon left. *)
Definition daemon_room : kern daemon :=
  with_tree {[ [[SLASH]] := NDir; [[SLASH]; B "tmp"] := NDir; socket_path := NOther; [B "logs"] := NDir ]} (idle daemon_start).

Lemma daemon_always_ends_witness :
  runs (daemon_main (H := plain_libc) 9) (W (mk_env [Full; Fail 4; Full; Full; Full; Fail 13] 0 [B "garbage"] [] []) daemon_room) (fun r '(W en' k') =>
    (r = EXIT_SUCCESS \/ r = EXIT_FAILURE) /\ k_fds k' = ∅ /\
    logger_socket (k_static k') = -1 /\ log_file (k_static k') = -1).
Proof. apply (daemon_always_ends (H := plain_libc) 9 _ daemon_room); [reflexivity|]. simpl. lia. Defined.

Lemma daemon_life_witness :
  runs (daemon_main (H := plain_libc) 4) (W (with_clock [] log_env) daemon_room) (fun r '(W en' k') =>
    r = EXIT_SUCCESS /\ e_dgrams en' = [] /\ k_tree k' !! socket_path = None /\
    log_contents k' = Some ([] ++ log_lines (H := plain_libc) [] (e_dgrams log_env))).
Proof.
  apply (daemon_life (H := plain_libc) 4 (with_clock [] log_env) daemon_room []).
  - intros t. eexists. split; [reflexivity|]. by vm_compute.
  - reflexivity.
  - reflexivity.
  - simpl. lia.
  - split; [by vm_compute|by vm_compute].
  - by vm_compute.
Defined.
