(* ===== verification/LoggerTest.v ===== *)
(** * The manual test of the logging daemon

    [src/logger/test_client.c]: one packet, sent without the logging client,
    which the daemon accepts. *)

From S2P Require Import Prelude CLib Posix Wp NetworkIO Logger.

Definition test_packet (pid : Z) : log_packet_t := {|
  magic := LOGGER_MAGIC;
  version := LOGGER_VERSION;
  level := LOG_INFO;
  sender_pid := pid;
  source := char_array LOGGER_SOURCE_MAX (strncpy_terminated (B "TEST_CLIENT") LOGGER_SOURCE_MAX);
  message := char_array LOGGER_MESSAGE_MAX
    (strncpy_terminated (B "Logger IPC test message received successfully.") LOGGER_MESSAGE_MAX)
|}.

Definition test_main `{Libc} {S} : prog S Z :=
  socket_fd ← call Socket_dgram;
  if socket_fd <? 0 then
    _ ← perror (B "socket");
    mret EXIT_FAILURE
  else
  pid ← call Getpid;
  let packet := test_packet pid in
  sent ← call (Sendto socket_fd (packet_bytes packet));
  if sent <? 0 then
    _ ← perror (B "sendto");
    _ ← call (Close socket_fd);
    mret EXIT_FAILURE
  else if sent != SIZEOF_PACKET then
    _ ← call (Eputs (B "Incomplete log packet transmission." ++ [NEWLINE]));
    _ ← call (Close socket_fd);
    mret EXIT_FAILURE
  else
  _ ← call (Puts (B "Log message sent successfully." ++ [NEWLINE]));
  _ ← call (Close socket_fd);
  mret EXIT_SUCCESS.

(** It is the packet that the logging client would have sent. *)
Lemma test_packet_client pid :
  test_packet pid = client_packet LOG_INFO pid (B "TEST_CLIENT") (B "Logger IPC test message received successfully.").
Proof. done. Qed.

(** The daemon accepts it, whoever sends it. *)
Lemma test_packet_accepted pid : - 2 ^ 31 <= pid < 2 ^ 31 -> accepted (packet_bytes (test_packet pid)).
Proof.
  intros Hpid. rewrite test_packet_client. unfold accepted.
  assert (Hw : wf_packet (client_packet LOG_INFO pid (B "TEST_CLIENT") (B "Logger IPC test message received successfully."))).
  { by apply client_packet_wf. }
  split.
  - unfold zlen, packet_bytes. destruct Hw as (_ & _ & _ & _ & H1 & H2). by rewrite !length_app, !length_le_bytes, H1, H2.
  - rewrite packet_roundtrip_aux by done. apply client_packet_valid; try done; by apply (bool_decide_unpack (cstring _)).
Qed.

(** The result and the datagram, computed. *)
Example test_main_sends :
  (fun '(r, w) => (r, e_dgrams (w_env w), k_fds (w_kern w))) <$> run (test_main (H := plain_libc)) (W calm (idle tt)) =
  Some (EXIT_SUCCESS, [packet_bytes (test_packet 1)], ∅).
Proof. by vm_compute. Qed.
