(* ===== verification/ClientManager.v ===== *)
(** * The client registry

    [src/server/client_manager.c]: the table of connected clients, the
    operations on it, and every server-side write to a client's stream. *)

From S2P Require Import Prelude CLib Posix Wp Protocol NetworkIO.

(** ** State *)

Definition MAX_CLIENTS : Z := 64.

(** [client_entry_t]; the [send_mutex] member of slot [i] is [Send_mutex i]. *)
Record client_entry_t := {
  active : bool;
  socket_fd : Z;
  thread_id : Z;
  client_id : Z;
  username : bytes
}.

#[export] Instance client_entry_inhabited : Inhabited client_entry_t :=
  populate {| active := false; socket_fd := 0; thread_id := 0; client_id := 0; username := [] |}.

(** An entry after [memset(clients, 0, sizeof(clients))]. *)
Definition zero_entry : client_entry_t := inhabitant.

(** The static variables of the server process: [clients], [next_client_id]
    and [manager_initialized] of client_manager.c, [running] and
    [server_socket] of server/main.c. *)
Record server := {
  clients : list client_entry_t;
  next_client_id : Z;
  manager_initialized : bool;
  running : bool;
  server_socket : Z
}.

Definition with_clients (c : list client_entry_t) (s : server) : server :=
  {| clients := c; next_client_id := next_client_id s; manager_initialized := manager_initialized s;
     running := running s; server_socket := server_socket s |}.

Definition with_next_id (n : Z) (s : server) : server :=
  {| clients := clients s; next_client_id := n; manager_initialized := manager_initialized s;
     running := running s; server_socket := server_socket s |}.

Definition with_initialized (b : bool) (s : server) : server :=
  {| clients := clients s; next_client_id := next_client_id s; manager_initialized := b;
     running := running s; server_socket := server_socket s |}.

(** The static table before [client_manager_init]. *)
Definition server_start : server :=
  {| clients := replicate (Z.to_nat MAX_CLIENTS) zero_entry; next_client_id := 1;
     manager_initialized := false; running := true; server_socket := -1 |}.

(** [clients[slot]] *)
Definition entry (s : server) (slot : Z) : client_entry_t := clients s !!! Z.to_nat slot.
Definition set_entry (slot : Z) (e : client_entry_t) (s : server) : server :=
  with_clients (<[Z.to_nat slot := e]> (clients s)) s.

(** ** Lookups (the caller holds [clients_mutex]) *)

Fixpoint find_slot (p : client_entry_t -> bool) (i : Z) (l : list client_entry_t) : Z :=
  match l with [] => -1 | e :: l' => if p e then i else find_slot p (i + 1) l' end.

Definition find_free_slot (s : server) : Z :=
  find_slot (fun e => negb (active e) && (socket_fd e == -1)) 0 (clients s).

Definition find_socket_slot (s : server) (fd : Z) : Z :=
  find_slot (fun e => active e && (socket_fd e == fd)) 0 (clients s).

Definition find_username_slot (s : server) (name : bytes) : Z :=
  find_slot (fun e => active e && streq (username e) name) 0 (clients s).

(** ** Operations *)

Section operations.
(** Fuel of the transfer loops. *)
Variable F : nat.

Definition send_message_raw (socket_fd type : Z) (payload : option bytes) : prog server Z :=
  match payload with
  | None => mret (-1)
  | Some payload =>
      if negb (is_valid_message_type type) then mret (-1) else
      let payload_length := strlen payload in
      if MESSAGE_MAX_SIZE <? payload_length then mret (-1) else
      r ← send_all F socket_fd (message_header type payload_length);
      if r != 0 then mret (-1) else
      if payload_length == 0 then mret 0 else
      r ← send_all F socket_fd payload;
      if r != 0 then mret (-1) else mret 0
  end.

Definition send_to_target (slot expected_client_id message_type : Z) (payload : option bytes) : prog server Z :=
  if (slot <? 0) || (MAX_CLIENTS <=? slot) then mret (-1) else
  r ← call (Mutex_lock Clients_mutex);
  if r != 0 then mret (-1) else
  st ← call Get_static;
  if negb (active (entry st slot)) || (client_id (entry st slot) != expected_client_id) then
    _ ← call (Mutex_unlock Clients_mutex);
    mret 1
  else
  r ← call (Mutex_lock (Send_mutex slot));
  if r != 0 then
    _ ← call (Mutex_unlock Clients_mutex);
    mret (-1)
  else
  st ← call Get_static;
  let socket_fd := socket_fd (entry st slot) in
  r ← call (Mutex_unlock Clients_mutex);
  if r != 0 then
    _ ← call (Mutex_unlock (Send_mutex slot));
    mret (-1)
  else
  result ← send_message_raw socket_fd message_type payload;
  _ ← call (Mutex_unlock (Send_mutex slot));
  mret result.

(** The mutexes destroyed when a later slot could not be initialised. *)
Fixpoint destroy_loop (n : nat) (j : Z) : prog server unit :=
  match n with
  | O => mret tt
  | S n => _ ← call (Mutex_destroy (Send_mutex j)); destroy_loop n (j + 1)
  end.

(** The initialisation loop from slot [i], for [n] more slots. *)
Fixpoint init_loop (n : nat) (i : Z) : prog server Z :=
  match n with
  | O => mret 0
  | S n =>
      st ← call Get_static;
      let e := entry st i in
      _ ← call (Put_static (set_entry i {| active := active e; socket_fd := -1; thread_id := thread_id e;
                                           client_id := client_id e; username := username e |} st));
      r ← call (Mutex_init (Send_mutex i));
      if r != 0 then
        _ ← destroy_loop (Z.to_nat i) 0;
        _ ← call (Mutex_unlock Clients_mutex);
        mret (-1)
      else init_loop n (i + 1)
  end.

Definition client_manager_init : prog server Z :=
  r ← call (Mutex_lock Clients_mutex);
  if r != 0 then mret (-1) else
  st ← call Get_static;
  if manager_initialized st then
    _ ← call (Mutex_unlock Clients_mutex);
    mret 0
  else
  _ ← call (Put_static (with_clients (replicate (Z.to_nat MAX_CLIENTS) zero_entry) st));
  r ← init_loop (Z.to_nat MAX_CLIENTS) 0;
  if r != 0 then mret (-1) else
  st ← call Get_static;
  _ ← call (Put_static (with_initialized true (with_next_id 1 st)));
  r ← call (Mutex_unlock Clients_mutex);
  if r != 0 then mret (-1) else mret 0.

Definition client_manager_add (fd thread : Z) (name : option bytes) : prog server Z :=
  match name with
  | None => mret (-1)
  | Some name =>
      if negb (is_valid_username (Some name)) then mret (-1) else
      r ← call (Mutex_lock Clients_mutex);
      if r != 0 then mret (-1) else
      st ← call Get_static;
      if 0 <=? find_username_slot st name then
        _ ← call (Mutex_unlock Clients_mutex);
        mret (-2)
      else
      let slot := find_free_slot st in
      if slot <? 0 then
        _ ← call (Mutex_unlock Clients_mutex);
        mret (-1)
      else
      _ ← call (Put_static
        (with_next_id (u32 (next_client_id st + 1))
          (set_entry slot {| active := true; socket_fd := fd; thread_id := thread;
                             client_id := next_client_id st;
                             username := strncpy_terminated name USERNAME_MAX_SIZE |} st)));
      st ← call Get_static;
      let client_id := i32 (client_id (entry st slot)) in
      r ← call (Mutex_unlock Clients_mutex);
      if r != 0 then mret (-1) else mret client_id
  end.

Definition client_manager_remove (fd : Z) : prog server Z :=
  r ← call (Mutex_lock Clients_mutex);
  if r != 0 then mret (-1) else
  st ← call Get_static;
  let slot := find_socket_slot st fd in
  if slot <? 0 then
    _ ← call (Mutex_unlock Clients_mutex);
    mret 1
  else
  r ← call (Mutex_lock (Send_mutex slot));
  if r != 0 then
    _ ← call (Mutex_unlock Clients_mutex);
    mret (-1)
  else
  st ← call Get_static;
  _ ← call (Put_static (set_entry slot
        {| active := false; socket_fd := -1; thread_id := 0; client_id := 0; username := [] |} st));
  r ← call (Mutex_unlock Clients_mutex);
  if r != 0 then
    _ ← call (Mutex_unlock (Send_mutex slot));
    mret (-1)
  else
  _ ← call (Mutex_unlock (Send_mutex slot));
  mret 0.

Definition count_active (l : list client_entry_t) : Z := zlen (filter (fun e => active e = true) l).

Definition client_manager_count : prog server Z :=
  r ← call (Mutex_lock Clients_mutex);
  if r != 0 then mret 0 else
  st ← call Get_static;
  let count := count_active (clients st) in
  _ ← call (Mutex_unlock Clients_mutex);
  mret count.

Definition client_manager_contains (fd : Z) : prog server Z :=
  r ← call (Mutex_lock Clients_mutex);
  if r != 0 then mret 0 else
  st ← call Get_static;
  let found := if 0 <=? find_socket_slot st fd then 1 else 0 in
  _ ← call (Mutex_unlock Clients_mutex);
  mret found.

Definition client_manager_username_exists (name : option bytes) : prog server Z :=
  match name with
  | None => mret 0
  | Some name =>
      if negb (is_valid_username (Some name)) then mret 0 else
      r ← call (Mutex_lock Clients_mutex);
      if r != 0 then mret 0 else
      st ← call Get_static;
      let found := if 0 <=? find_username_slot st name then 1 else 0 in
      _ ← call (Mutex_unlock Clients_mutex);
      mret found
  end.

(** The result, and the name copied to the buffer when it is 0. *)
Definition client_manager_get_username (fd username_size : Z) : prog server (Z * bytes) :=
  if username_size == 0 then mret (-1, []) else
  r ← call (Mutex_lock Clients_mutex);
  if r != 0 then mret (-1, []) else
  st ← call Get_static;
  let slot := find_socket_slot st fd in
  if slot <? 0 then
    _ ← call (Mutex_unlock Clients_mutex);
    mret (1, [])
  else
  let name := strncpy_terminated (username (entry st slot)) username_size in
  _ ← call (Mutex_unlock Clients_mutex);
  mret (0, name).

(** The copying loop: [buffer] holds the [used] bytes written so far;
    [None] when the buffer is too small. *)
Fixpoint userlist_loop (buffer_size : Z) (l : list client_entry_t) (buffer : bytes) (user_count : Z)
    : option (bytes * Z) :=
  match l with
  | [] => Some (buffer, user_count)
  | e :: l =>
      if negb (active e) then userlist_loop buffer_size l buffer user_count
      else if buffer_size <? zlen buffer + strlen (username e) + 2 then None
      else userlist_loop buffer_size l (buffer ++ username e ++ [NEWLINE]) (user_count + 1)
  end.

Definition client_manager_build_userlist (buffer_size : Z) : prog server (Z * bytes) :=
  if buffer_size == 0 then mret (-1, []) else
  r ← call (Mutex_lock Clients_mutex);
  if r != 0 then mret (-1, []) else
  st ← call Get_static;
  match userlist_loop buffer_size (clients st) [] 0 with
  | None =>
      _ ← call (Mutex_unlock Clients_mutex);
      mret (-1, [])
  | Some (buffer, user_count) =>
      let buffer := removelast buffer in
      r ← call (Mutex_unlock Clients_mutex);
      if r != 0 then mret (-1, buffer) else mret (user_count, buffer)
  end.

Definition client_manager_send (fd message_type : Z) (payload : option bytes) : prog server Z :=
  match payload with
  | None => mret (-1)
  | Some payload =>
      if negb (is_valid_message_type message_type) then mret (-1) else
      if MESSAGE_MAX_SIZE <? strlen payload then mret (-1) else
      r ← call (Mutex_lock Clients_mutex);
      if r != 0 then mret (-1) else
      st ← call Get_static;
      let slot := find_socket_slot st fd in
      if slot <? 0 then
        _ ← call (Mutex_unlock Clients_mutex);
        mret 1
      else
      r ← call (Mutex_lock (Send_mutex slot));
      if r != 0 then
        _ ← call (Mutex_unlock Clients_mutex);
        mret (-1)
      else
      st ← call Get_static;
      let destination_socket := socket_fd (entry st slot) in
      r ← call (Mutex_unlock Clients_mutex);
      if r != 0 then
        _ ← call (Mutex_unlock (Send_mutex slot));
        mret (-1)
      else
      result ← send_message_raw destination_socket message_type (Some payload);
      _ ← call (Mutex_unlock (Send_mutex slot));
      mret result
  end.

Definition client_manager_send_to_username (name : option bytes) (message_type : Z) (payload : option bytes)
    : prog server Z :=
  match name, payload with
  | Some name, Some payload =>
      if negb (is_valid_username (Some name)) || negb (is_valid_message_type message_type) then mret (-1) else
      if MESSAGE_MAX_SIZE <? strlen payload then mret (-1) else
      r ← call (Mutex_lock Clients_mutex);
      if r != 0 then mret (-1) else
      st ← call Get_static;
      let slot := find_username_slot st name in
      if slot <? 0 then
        _ ← call (Mutex_unlock Clients_mutex);
        mret 1
      else
      let client_id := client_id (entry st slot) in
      r ← call (Mutex_unlock Clients_mutex);
      if r != 0 then mret (-1) else
      send_to_target slot client_id message_type (Some payload)
  | _, _ => mret (-1)
  end.

(** The loop of [client_manager_send_file_stream]: every byte of the file
    under the send mutex of the slot, released on the failure exits. *)
Fixpoint file_stream_loop (fuel : nat) (slot fd file_fd remaining : Z) : prog server Z :=
  match fuel with
  | O => Diverge
  | S fuel =>
      if 0 <? remaining then
        let requested := if FILE_CHUNK_SIZE <? remaining then FILE_CHUNK_SIZE else remaining in
        bytes_read ← call (Read file_fd requested);
        match bytes_read with
        | None =>
            errno ← call Errno;
            if errno == EINTR then file_stream_loop fuel slot fd file_fd remaining
            else
              _ ← call (Mutex_unlock (Send_mutex slot));
              mret (-1)
        | Some [] =>
            _ ← call (Mutex_unlock (Send_mutex slot));
            mret (-1)
        | Some buffer =>
            r ← send_all F fd buffer;
            if r != 0 then
              _ ← call (Mutex_unlock (Send_mutex slot));
              mret (-1)
            else file_stream_loop fuel slot fd file_fd (remaining - zlen buffer)
        end
      else
        r ← call (Mutex_unlock (Send_mutex slot));
        if r != 0 then mret (-1) else mret 0
  end.

Definition client_manager_send_file_stream (fd message_type : Z) (metadata : option bytes)
    (file_fd file_size : Z) : prog server Z :=
  match metadata with
  | None => mret (-1)
  | Some metadata =>
      if (fd <? 0) || (file_fd <? 0) || negb (is_valid_message_type message_type)
         || (MESSAGE_MAX_SIZE <? strlen metadata) || (FILE_MAX_SIZE <? file_size)
      then mret (-1) else
      r ← call (Mutex_lock Clients_mutex);
      if r != 0 then mret (-1) else
      st ← call Get_static;
      let slot := find_socket_slot st fd in
      if slot <? 0 then
        _ ← call (Mutex_unlock Clients_mutex);
        mret (-1)
      else
      let expected_client_id := client_id (entry st slot) in
      r ← call (Mutex_lock (Send_mutex slot));
      if r != 0 then
        _ ← call (Mutex_unlock Clients_mutex);
        mret (-1)
      else
      st ← call Get_static;
      if negb (active (entry st slot)) || (socket_fd (entry st slot) != fd)
         || (client_id (entry st slot) != expected_client_id)
      then
        _ ← call (Mutex_unlock (Send_mutex slot));
        _ ← call (Mutex_unlock Clients_mutex);
        mret (-1)
      else
      r ← call (Mutex_unlock Clients_mutex);
      if r != 0 then
        _ ← call (Mutex_unlock (Send_mutex slot));
        mret (-1)
      else
      result ← send_message_raw fd message_type (Some metadata);
      if result != 0 then
        _ ← call (Mutex_unlock (Send_mutex slot));
        mret (-1)
      else file_stream_loop F slot fd file_fd file_size
  end.

(** The snapshot of the broadcast: [broadcast_target_t] as (slot, client id). *)
Fixpoint broadcast_targets (sender_socket i : Z) (l : list client_entry_t) : list (Z * Z) :=
  match l with
  | [] => []
  | e :: l =>
      if negb (active e) then broadcast_targets sender_socket (i + 1) l
      else if socket_fd e == sender_socket then broadcast_targets sender_socket (i + 1) l
      else (i, client_id e) :: broadcast_targets sender_socket (i + 1) l
  end.

Fixpoint broadcast_loop (targets : list (Z * Z)) (message_type : Z) (payload : bytes) (successful : Z)
    : prog server Z :=
  match targets with
  | [] => mret successful
  | (slot, id) :: targets =>
      result ← send_to_target slot id message_type (Some payload);
      if result == 0 then broadcast_loop targets message_type payload (successful + 1)
      else if result <? 0 then
        _ ← call (Eputs (B "Broadcast send failed for client ID " ++ dec id ++ B "." ++ [NEWLINE]));
        broadcast_loop targets message_type payload successful
      else broadcast_loop targets message_type payload successful
  end.

Definition client_manager_broadcast (sender_socket message_type : Z) (payload : option bytes) : prog server Z :=
  match payload with
  | None => mret (-1)
  | Some payload =>
      if negb (is_valid_message_type message_type) then mret (-1) else
      if MESSAGE_MAX_SIZE <? strlen payload then mret (-1) else
      r ← call (Mutex_lock Clients_mutex);
      if r != 0 then mret (-1) else
      st ← call Get_static;
      let targets := broadcast_targets sender_socket 0 (clients st) in
      r ← call (Mutex_unlock Clients_mutex);
      if r != 0 then mret (-1) else
      successful ← broadcast_loop targets message_type payload 0;
      mret successful
  end.
End operations.
