(* ===== verification/Registry.v ===== *)
(** * The client registry: invariant, specification, refinement *)

From S2P Require Import Prelude CLib Posix Wp Protocol NetworkIO ClientManager.

(** ** The invariant *)

(** An inactive slot is as [client_manager_remove] leaves it. *)
Definition entry_ok (e : client_entry_t) : Prop :=
  if active e then username_ok (username e) /\ 0 <= socket_fd e
  else socket_fd e = -1 /\ client_id e = 0 /\ username e = [].

Record registry_ok (s : server) : Prop := {
  reg_length : length (clients s) = 64%nat;
  reg_entries : forall i e, clients s !! i = Some e -> entry_ok e;
  reg_names : forall i j e e', clients s !! i = Some e -> clients s !! j = Some e' ->
    active e = true -> active e' = true -> username e = username e' -> i = j;
  reg_sockets : forall i j e e', clients s !! i = Some e -> clients s !! j = Some e' ->
    active e = true -> active e' = true -> socket_fd e = socket_fd e' -> i = j;
  reg_ids : forall i e, clients s !! i = Some e -> active e = true -> 1 <= client_id e < next_client_id s;
  reg_ids_inj : forall i j e e', clients s !! i = Some e -> clients s !! j = Some e' ->
    active e = true -> active e' = true -> client_id e = client_id e' -> i = j;
  reg_next : 1 <= next_client_id s
}.

(** The descriptors in use. *)
Definition registered (s : server) (fd : Z) : Prop :=
  exists i e, clients s !! i = Some e /\ active e = true /\ socket_fd e = fd.

(** ** Lookups *)

Lemma find_slot_spec p i (l : list client_entry_t) :
  (find_slot p i l = -1 /\ Forall (fun e => p e = false) l) \/
  (exists j e, find_slot p i l = i + Z.of_nat j /\ l !! j = Some e /\ p e = true /\
     Forall (fun e => p e = false) (take j l)).
Proof.
  revert i. induction l as [|e l IH]; intros i; simpl; [left; auto|].
  destruct (p e) eqn:Hp.
  - right. exists 0%nat, e. split_and!; simpl; auto. lia.
  - destruct (IH (i + 1)) as [[-> H]|(j & e' & -> & Hl & Hp' & Ht)]; [left; auto|right].
    exists (S j), e'. simpl. split_and!; auto. lia.
Qed.

Lemma find_slot_cases p (l : list client_entry_t) :
  (find_slot p 0 l = -1 /\ forall j e, l !! j = Some e -> p e = false) \/
  (exists j e, find_slot p 0 l = Z.of_nat j /\ l !! j = Some e /\ p e = true).
Proof.
  destruct (find_slot_spec p 0 l) as [[-> H]|(j & e & -> & Hl & Hp & _)]; [left|right].
  - split; [done|]. intros j e Hj. rewrite Forall_lookup in H. eauto.
  - exists j, e. split; [lia|done].
Qed.

Lemma socket_slot_registered s fd :
  registered s fd ->
  exists i e, find_socket_slot s fd = Z.of_nat i /\ clients s !! i = Some e /\ active e = true /\ socket_fd e = fd.
Proof.
  intros (i & e & Hl & Ha & Hs). unfold find_socket_slot.
  destruct (find_slot_cases (fun e => active e && (socket_fd e == fd)) (clients s)) as [[_ H]|(j & e' & -> & Hl' & Hp)].
  - specialize (H _ _ Hl). simpl in H. rewrite Ha, Hs, Z.eqb_refl in H. done.
  - apply andb_true_iff in Hp as [? ?]. unbool. eauto 10.
Qed.

Lemma socket_slot_unregistered s fd : ~ registered s fd -> find_socket_slot s fd = -1.
Proof.
  intros Hn. unfold find_socket_slot.
  destruct (find_slot_cases (fun e => active e && (socket_fd e == fd)) (clients s)) as [[-> _]|(j & e' & -> & Hl' & Hp)]; [done|].
  apply andb_true_iff in Hp as [? ?]. unbool. destruct Hn. by exists j, e'.
Qed.

(** ** Locking *)

Lemma lock_unlock (m : mutex) (h : gset mutex) : m ∉ h -> ({[m]} ∪ h) ∖ {[m]} = h.
Proof. set_solver. Qed.

(** ** The abstract registry: logged-in names with their socket and client id *)

Definition abstract_entry (e : client_entry_t) : option (bytes * (Z * Z)) :=
  if active e then Some (username e, (socket_fd e, client_id e)) else None.

Definition users (s : server) : gmap bytes (Z * Z) := list_to_map (omap abstract_entry (clients s)).

Lemma elem_of_active x (l : list client_entry_t) :
  x ∈ omap abstract_entry l <->
  exists i e, l !! i = Some e /\ active e = true /\ x = (username e, (socket_fd e, client_id e)).
Proof.
  rewrite list_elem_of_omap. split.
  - intros (e & He & Hx). apply list_elem_of_lookup in He as [i Hi].
    unfold abstract_entry in Hx. destruct (active e) eqn:Ha; [|done]. injection Hx as <-. eauto.
  - intros (i & e & Hi & Ha & ->). exists e. split; [by eapply list_elem_of_lookup_2|].
    unfold abstract_entry. by rewrite Ha.
Qed.

Lemma names_NoDup (l : list client_entry_t) :
  (forall i j e e', l !! i = Some e -> l !! j = Some e' -> active e = true -> active e' = true ->
     username e = username e' -> i = j) ->
  NoDup (omap abstract_entry l).*1.
Proof.
  induction l as [|e l IH]; intros Hn; simpl; [constructor|].
  assert (Hl : NoDup (omap abstract_entry l).*1).
  { apply IH. intros i j e1 e2 H1 H2 ? ? ?. enough (S i = S j) by lia. by eapply Hn. }
  unfold abstract_entry at 1. destruct (active e) eqn:Ha; [|done]. simpl. constructor; [|done].
  intros Hin. apply list_elem_of_fmap in Hin as (x & Hx & Hin).
  apply elem_of_active in Hin as (i & e' & Hi & Ha' & ->). simpl in Hx.
  specialize (Hn 0%nat (S i) e e' eq_refl Hi Ha Ha' Hx). lia.
Qed.

Lemma users_lookup s name fd id :
  registry_ok s ->
  users s !! name = Some (fd, id) <->
  exists i e, clients s !! i = Some e /\ active e = true /\
    username e = name /\ socket_fd e = fd /\ client_id e = id.
Proof.
  intros Hok. unfold users. rewrite <- elem_of_list_to_map by (apply names_NoDup, Hok).
  rewrite elem_of_active. naive_solver.
Qed.

Lemma users_lookup_None s name :
  registry_ok s ->
  users s !! name = None <-> forall i e, clients s !! i = Some e -> active e = true -> username e ≠ name.
Proof.
  intros Hok. rewrite eq_None_not_Some. split.
  - intros Hn i e Hi Ha He. apply Hn. exists (socket_fd e, client_id e).
    apply users_lookup; [done|]. eauto 10.
  - intros Hn [[fd id] H]. apply users_lookup in H as (i & e & Hi & Ha & He & _); [|done]. by eapply Hn.
Qed.

Lemma users_eq s m :
  registry_ok s ->
  (forall name fd id, m !! name = Some (fd, id) <->
     exists i e, clients s !! i = Some e /\ active e = true /\
       username e = name /\ socket_fd e = fd /\ client_id e = id) ->
  users s = m.
Proof.
  intros Hok Hm. apply map_eq. intros name. apply option_eq. intros [fd id].
  by rewrite users_lookup, Hm.
Qed.

Lemma users_size s : registry_ok s -> Z.of_nat (size (users s)) = count_active (clients s).
Proof.
  intros Hok. unfold users, count_active, zlen. f_equal.
  rewrite map_size_list_to_map by (apply names_NoDup, Hok).
  generalize (clients s). induction l as [|e l IH]; simpl; [done|].
  unfold abstract_entry at 1. rewrite filter_cons. destruct (active e); simpl; [f_equal|]; exact IH.
Qed.

(** ** Registration and removal as functions of the state *)

(** The state written by [client_manager_add] into a free slot. *)
Definition add_state (slot fd thread : Z) (name : bytes) (s : server) : server :=
  with_next_id (u32 (next_client_id s + 1))
    (set_entry slot {| active := true; socket_fd := fd; thread_id := thread;
                       client_id := next_client_id s;
                       username := strncpy_terminated name USERNAME_MAX_SIZE |} s).

(** The state written by [client_manager_remove]. *)
Definition remove_state (slot : Z) (s : server) : server :=
  set_entry slot {| active := false; socket_fd := -1; thread_id := 0; client_id := 0; username := [] |} s.

Lemma strncpy_username name : username_ok name -> strncpy_terminated name USERNAME_MAX_SIZE = name.
Proof.
  intros [Hl _]. unfold strncpy_terminated, USERNAME_MAX_SIZE. apply take_ge. unfold zlen in Hl. lia.
Qed.

Lemma free_slot_spec s :
  registry_ok s ->
  (find_free_slot s = -1 /\ count_active (clients s) = MAX_CLIENTS) \/
  (exists i e, find_free_slot s = Z.of_nat i /\ clients s !! i = Some e /\ active e = false).
Proof.
  intros Hok. unfold find_free_slot.
  destruct (find_slot_cases (fun e => negb (active e) && (socket_fd e == -1)) (clients s))
    as [[-> H]|(j & e & -> & Hl & Hp)]; [left; split; [done|]|right].
  - unfold count_active, MAX_CLIENTS, zlen. rewrite filter_all; [by rewrite (reg_length _ Hok)|].
    apply Forall_forall. intros e [i Hi]%list_elem_of_lookup.
    specialize (H _ _ Hi). pose proof (reg_entries _ Hok _ _ Hi) as He. unfold entry_ok in He.
    destruct (active e); [done|]. destruct He as (He & _). by rewrite He in H.
  - apply andb_true_iff in Hp as [? _]. unbool. eauto.
Qed.

Lemma username_slot_spec s name :
  registry_ok s ->
  (find_username_slot s name = -1 /\ users s !! name = None) \/
  (exists i e, find_username_slot s name = Z.of_nat i /\ clients s !! i = Some e /\ active e = true /\
     username e = name /\ users s !! name = Some (socket_fd e, client_id e)).
Proof.
  intros Hok. unfold find_username_slot.
  destruct (find_slot_cases (fun e => active e && streq (username e) name) (clients s))
    as [[-> H]|(j & e & -> & Hl & Hp)]; [left; split; [done|]|right].
  - apply users_lookup_None; [done|]. intros i e Hi Ha He. specialize (H _ _ Hi).
    simpl in H. rewrite Ha, He in H. unfold streq in H. by rewrite bool_decide_eq_true_2 in H.
  - apply andb_true_iff in Hp as [Ha Hn]. apply streq_true in Hn. exists j, e. split_and!; try done.
    apply users_lookup; [done|]. eauto 10.
Qed.

Section add.
Context (s : server) (i : nat) (e0 : client_entry_t) (fd thread : Z) (name : bytes).
Hypothesis (Hok : registry_ok s) (Hi : clients s !! i = Some e0) (Hfree : active e0 = false)
  (Hname : username_ok name) (Hfd : 0 <= fd) (Hnew : users s !! name = None)
  (Hsock : ~ registered s fd) (Hid : next_client_id s < 2 ^ 32 - 1).

Let s' := add_state (Z.of_nat i) fd thread name s.
Let e1 := {| active := true; socket_fd := fd; thread_id := thread;
             client_id := next_client_id s; username := name |}.

Lemma add_state_lookup j : clients s' !! j = if decide (j = i) then Some e1 else clients s !! j.
Proof.
  unfold s', add_state, set_entry. simpl. rewrite Nat2Z.id, strncpy_username by done. case_decide as Hj.
  - subst j. apply list_lookup_insert_eq. by eapply lookup_lt_Some.
  - by apply list_lookup_insert_ne.
Qed.

Lemma add_state_next : next_client_id s' = next_client_id s + 1.
Proof. unfold s', add_state, u32. simpl. pose proof (reg_next _ Hok). apply Z.mod_small. lia. Qed.

Lemma add_state_ok : registry_ok s'.
Proof.
  pose proof (reg_next _ Hok) as Hn.
  assert (Hnm := proj1 (users_lookup_None _ _ Hok) Hnew).
  assert (Hs : forall j e, clients s !! j = Some e -> active e = true -> socket_fd e ≠ fd)
    by (intros j e ? ? ?; apply Hsock; by exists j, e).
  assert (Hlt : forall j e, clients s !! j = Some e -> active e = true -> client_id e < next_client_id s)
    by (intros j e ? ?; by apply (reg_ids _ Hok j e)).
  split; rewrite ?add_state_next; try lia.
  - unfold s', add_state. simpl. rewrite length_insert. apply Hok.
  - intros j e. rewrite add_state_lookup. case_decide; [intros [= <-]; by split|apply (reg_entries _ Hok)].
  - intros j j' e e'. rewrite !add_state_lookup. repeat case_decide; [by subst|..].
    + intros [= <-] H2 _ Ha He. destruct (Hnm _ _ H2 Ha). done.
    + intros H2 [= <-] Ha _ He. destruct (Hnm _ _ H2 Ha). done.
    + apply (reg_names _ Hok).
  - intros j j' e e'. rewrite !add_state_lookup. repeat case_decide; [by subst|..].
    + intros [= <-] H2 _ Ha He. destruct (Hs _ _ H2 Ha). done.
    + intros H2 [= <-] Ha _ He. destruct (Hs _ _ H2 Ha). done.
    + apply (reg_sockets _ Hok).
  - intros j e. rewrite add_state_lookup. case_decide; [intros [= <-]; simpl; lia|].
    intros H1 H2. pose proof (reg_ids _ Hok _ _ H1 H2). lia.
  - intros j j' e e'. rewrite !add_state_lookup. repeat case_decide; [by subst|..].
    + intros [= <-] H2 _ Ha He. specialize (Hlt _ _ H2 Ha). simpl in *. lia.
    + intros H2 [= <-] Ha _ He. specialize (Hlt _ _ H2 Ha). simpl in *. lia.
    + apply (reg_ids_inj _ Hok).
Qed.

Lemma add_state_users : users s' = <[name := (fd, next_client_id s)]> (users s).
Proof.
  apply users_eq; [apply add_state_ok|]. intros n f id. split.
  - intros H. destruct (decide (n = name)) as [->|Hne].
    + rewrite lookup_insert_eq in H. injection H as <- <-.
      exists i, e1. rewrite add_state_lookup, decide_True by done. done.
    + rewrite lookup_insert_ne in H by done. apply users_lookup in H as (j & e & Hj & Ha & Hr); [|done].
      exists j, e. rewrite add_state_lookup, decide_False; [done|]. intros ->. congruence.
  - intros (j & e & Hj & Ha & Hn & Hf & Hd). rewrite add_state_lookup in Hj. case_decide.
    + injection Hj as <-. simpl in *. subst. by rewrite lookup_insert_eq.
    + rewrite lookup_insert_ne.
      * apply users_lookup; [done|]. eauto 10.
      * intros ->. subst. by apply (proj1 (users_lookup_None _ _ Hok) Hnew _ _ Hj).
Qed.

Lemma add_state_registered f : registered s' f <-> f = fd \/ registered s f.
Proof.
  split.
  - intros (j & e & Hj & Ha & Hf). rewrite add_state_lookup in Hj. case_decide.
    + injection Hj as <-. auto.
    + right. by exists j, e.
  - intros [->|(j & e & Hj & Ha & Hf)].
    + exists i, e1. rewrite add_state_lookup, decide_True by done. done.
    + exists j, e. rewrite add_state_lookup, decide_False; [done|]. intros ->. congruence.
Qed.
End add.

Section remove.
Context (s : server) (i : nat) (e0 : client_entry_t).
Hypothesis (Hok : registry_ok s) (Hi : clients s !! i = Some e0) (Hact : active e0 = true).

Let s' := remove_state (Z.of_nat i) s.
Let e1 := {| active := false; socket_fd := -1; thread_id := 0; client_id := 0; username := [] |}.

Lemma remove_state_lookup j : clients s' !! j = if decide (j = i) then Some e1 else clients s !! j.
Proof.
  unfold s', remove_state, set_entry. simpl. rewrite Nat2Z.id. case_decide as Hj.
  - subst j. apply list_lookup_insert_eq. by eapply lookup_lt_Some.
  - by apply list_lookup_insert_ne.
Qed.

Lemma remove_state_active j e :
  clients s' !! j = Some e -> active e = true -> clients s !! j = Some e /\ j ≠ i.
Proof. rewrite remove_state_lookup. case_decide; [by intros [= <-]|done]. Qed.

Lemma remove_state_ok : registry_ok s'.
Proof.
  split.
  - unfold s', remove_state. simpl. rewrite length_insert. apply Hok.
  - intros j e. rewrite remove_state_lookup. case_decide; [intros [= <-]; done|apply (reg_entries _ Hok)].
  - intros j j' e e' H1 H2 A1 A2.
    destruct (remove_state_active _ _ H1 A1), (remove_state_active _ _ H2 A2). by eapply (reg_names _ Hok).
  - intros j j' e e' H1 H2 A1 A2.
    destruct (remove_state_active _ _ H1 A1), (remove_state_active _ _ H2 A2). by eapply (reg_sockets _ Hok).
  - intros j e H1 A1. destruct (remove_state_active _ _ H1 A1). by eapply (reg_ids _ Hok).
  - intros j j' e e' H1 H2 A1 A2.
    destruct (remove_state_active _ _ H1 A1), (remove_state_active _ _ H2 A2). by eapply (reg_ids_inj _ Hok).
  - apply Hok.
Qed.

Lemma remove_state_users : users s' = delete (username e0) (users s).
Proof.
  apply users_eq; [apply remove_state_ok|]. intros n f id. split.
  - intros [Hne H]%lookup_delete_Some. apply users_lookup in H as (j & e & Hj & Ha & Hn & Hr); [|done].
    exists j, e. rewrite remove_state_lookup, decide_False; [done|]. intros ->. congruence.
  - intros (j & e & Hj & Ha & Hn & Hf & Hd). apply remove_state_active in Hj as [Hj Hne]; [|done].
    apply lookup_delete_Some. split.
    + intros <-. apply Hne. by eapply (reg_names _ Hok).
    + apply users_lookup; [done|]. eauto 10.
Qed.

Lemma remove_state_registered f : registered s' f <-> registered s f /\ f ≠ socket_fd e0.
Proof.
  split.
  - intros (j & e & Hj & Ha & Hf). apply remove_state_active in Hj as [Hj Hne]; [|done].
    split; [by exists j, e|]. intros ->. apply Hne. by eapply (reg_sockets _ Hok).
  - intros [(j & e & Hj & Ha & Hf) Hne]. exists j, e.
    rewrite remove_state_lookup, decide_False; [done|]. intros ->. congruence.
Qed.
End remove.

(** ** The operations *)

(** Mutexes are back as they were, unless the environment made an unlock fail. *)
Definition held_ok (en' en : env) (h' h : gset mutex) : Prop := h' = h \/ env_lt en' en.

(** Leaves the critical section: both outcomes of the unlock are given to [H]. *)
Lemma wp_leave {A} (m : mutex) (g : Z -> prog server A) Q en (k0 k : kern server) :
  m ∉ k_held k0 -> k_held k = {[m]} ∪ k_held k0 ->
  (forall en' h' z, env_le en' en -> (z = 0 /\ h' = k_held k0 \/ 0 < z /\ env_lt en' en) ->
     wp (g z) Q (W en' (with_held h' k))) ->
  wp (call (Mutex_unlock m) ≫= g) Q (W en k).
Proof.
  intros Hm Hh H. apply wp_unlock.
  - intros en' z Hlt Hz. rewrite <- (with_held_id k). apply H; [env_lia|auto].
  - intros en' Hle _. apply H; [done|]. left. split; [done|]. rewrite Hh. by apply lock_unlock.
Qed.

Lemma wp_client_manager_add fd thread name Q en (k : kern server) :
  let s := k_static k in
  registry_ok s -> Clients_mutex ∉ k_held k ->
  (forall en' h' r, env_le en' en -> held_ok en' en h' (k_held k) ->
     (r = -2 /\ username_ok name /\ is_Some (users s !! name) \/
      r = -1 /\ (~ username_ok name \/
         username_ok name /\ users s !! name = None /\ count_active (clients s) = MAX_CLIENTS \/ env_lt en' en)) ->
     Q r (W en' (with_held h' k))) ->
  (forall en' h' r i e0, env_le en' en -> held_ok en' en h' (k_held k) ->
     username_ok name -> users s !! name = None -> clients s !! i = Some e0 -> active e0 = false ->
     (r = i32 (next_client_id s) \/ r = -1 /\ env_lt en' en) ->
     Q r (W en' (with_held h' (with_static (add_state (Z.of_nat i) fd thread name s) k)))) ->
  wp (client_manager_add fd thread (Some name)) Q (W en k).
Proof.
  intros s Hok Hm Hsame Hadd. unfold client_manager_add.
  assert (Hsame0 : forall en' r, env_le en' en ->
     (r = -2 /\ username_ok name /\ is_Some (users s !! name) \/
      r = -1 /\ (~ username_ok name \/
         username_ok name /\ users s !! name = None /\ count_active (clients s) = MAX_CLIENTS \/ env_lt en' en)) ->
     Q r (W en' k)) by (intros; rewrite <- (with_held_id k); apply Hsame; [done|by left|done]).
  case_if.
  { apply wp_ret, Hsame0; [env_lia|]. right. split; [done|left]. rewrite <- is_valid_username_iff. congruence. }
  apply is_valid_username_iff in E. apply wp_lock.
  { intros en1 z Hlt Hz. case_if; [|lia]. apply wp_ret, Hsame0; [env_lia|auto]. }
  intros en1 Hle1 _. simpl. apply wp_get. fold s. simpl. fold s.
  destruct (username_slot_spec s name Hok) as [[-> Hnone]|(j & e & -> & _ & _ & _ & Hsome)]; simpl.
  2:{ replace (0 <=? Z.of_nat j) with true by (symmetry; apply Z.leb_le; lia).
      apply (wp_leave _ _ _ _ k); [done..|]. intros en2 h z Hle2 Hz. apply wp_ret, Hsame; [env_lia| |].
      - destruct Hz as [[_ ->]|[_ ?]]; [by left|right; env_lia].
      - left. rewrite Hsome. eauto. }
  destruct (free_slot_spec s Hok) as [[-> Hfull]|(i & e0 & -> & Hi & Hfree)]; simpl.
  { apply (wp_leave _ _ _ _ k); [done..|]. intros en2 h z Hle2 Hz. apply wp_ret, Hsame; [env_lia| |auto 10].
    destruct Hz as [[_ ->]|[_ ?]]; [by left|right; env_lia]. }
  replace (Z.of_nat i <? 0) with false by (symmetry; apply Z.ltb_ge; lia).
  apply wp_put, wp_get. simpl.
  fold (add_state (Z.of_nat i) fd thread name s).
  assert (client_id (entry (add_state (Z.of_nat i) fd thread name s) (Z.of_nat i)) = next_client_id s) as ->.
  { unfold entry, add_state, set_entry. simpl. rewrite Nat2Z.id.
    erewrite list_lookup_total_correct by (apply list_lookup_insert_eq; by eapply lookup_lt_Some). done. }
  apply (wp_leave _ _ _ _ k); [done..|]. intros en2 h z Hle2 Hz.
  case_if; apply wp_ret; (eapply Hadd; [env_lia| |done..|]).
  - destruct Hz as [[_ ->]|[_ ?]]; [by left|right; env_lia].
  - right. destruct Hz as [[-> _]|[_ ?]]; [done|split; [done|env_lia]].
  - destruct Hz as [[_ ->]|[_ ?]]; [by left|right; env_lia].
  - by left.
Qed.

(** ** Locks of the registry *)

(** The calling thread is outside every critical section of the registry. *)
Definition unlocked (h : gset mutex) : Prop := (Clients_mutex ∉ h) /\ forall i, Send_mutex i ∉ h.

#[export] Instance unlocked_dec h : Decision (unlocked h).
Proof.
  destruct (decide (set_Forall (fun m => match m with Clients_mutex | Send_mutex _ => false | _ => true end = true) h)) as [Hs|Hn]; [left|right].
  - split; [intros Hc; by apply Hs in Hc|]. intros i Hi. by apply Hs in Hi.
  - intros [Hc Hs]. apply Hn. intros [| | |] Hin; try done. by destruct (Hs slot).
Defined.

Lemma held_ok_le en en' en'' h' h : env_le en'' en' -> held_ok en' en h' h -> held_ok en'' en h' h.
Proof. intros ? [?|?]; [by left|right; env_lia]. Qed.

(** The rule of an unlock whose failure leaves the mutex locked. *)
Lemma wp_unlock_any {A} (m : mutex) (g : Z -> prog server A) Q en (k : kern server) :
  (forall en' h' z, env_le en' en ->
     (z = 0 /\ h' = k_held k ∖ {[m]} \/ 0 < z /\ h' = k_held k /\ env_lt en' en) ->
     wp (g z) Q (W en' (with_held h' k))) ->
  wp (call (Mutex_unlock m) ≫= g) Q (W en k).
Proof.
  intros H. apply wp_unlock.
  - intros en' z Hlt Hz. rewrite <- (with_held_id k). apply H; [env_lia|auto].
  - intros en' Hle _. apply H; [done|auto].
Qed.

(** Reading the table under its mutex: the pattern of the query operations,
    whose result is computed from one consistent state of the table. *)
Lemma wp_query {A} (failed : A) (f : server -> A) Q en (k : kern server) :
  unlocked (k_held k) ->
  (forall en' h' r, env_le en' en -> held_ok en' en h' (k_held k) ->
     (r = f (k_static k) \/ r = failed /\ env_lt en' en) -> Q r (W en' (with_held h' k))) ->
  wp (r ← call (Mutex_lock Clients_mutex);
      if r != 0 then mret failed else
      st ← call Get_static;
      _ ← call (Mutex_unlock Clients_mutex);
      mret (f st)) Q (W en k).
Proof.
  intros [Hm _] HQ. apply wp_lock.
  - intros en1 z Hlt Hz. case_if; [|lia]. apply wp_ret. rewrite <- (with_held_id k).
    apply HQ; [env_lia|by left|auto].
  - intros en1 Hle _. simpl. apply wp_get. simpl. apply (wp_leave _ _ _ _ k); [done..|].
    intros en2 h z Hle2 Hz. apply wp_ret, HQ; [env_lia| |by left].
    destruct Hz as [[_ ->]|[_ ?]]; [by left|right; env_lia].
Qed.

(** ** The query operations *)

Lemma wp_client_manager_count Q en (k : kern server) :
  registry_ok (k_static k) -> unlocked (k_held k) ->
  (forall en' h' r, env_le en' en -> held_ok en' en h' (k_held k) ->
     (r = Z.of_nat (size (users (k_static k))) \/ r = 0 /\ env_lt en' en) -> Q r (W en' (with_held h' k))) ->
  wp client_manager_count Q (W en k).
Proof.
  intros Hok Hm HQ. apply (wp_query 0 (fun st => count_active (clients st))); [done|].
  intros. apply HQ; [done..|]. by rewrite users_size.
Qed.

Definition registeredb (s : server) (fd : Z) : bool := 0 <=? find_socket_slot s fd.

Lemma registeredb_true s fd : registeredb s fd = true <-> registered s fd.
Proof.
  unfold registeredb, find_socket_slot.
  destruct (find_slot_cases (fun e => active e && (socket_fd e == fd)) (clients s)) as [[-> H]|(i & e & -> & Hi & Hp)].
  - split; [done|]. intros (i & e & Hi & Ha & He). specialize (H _ _ Hi). simpl in H.
    by rewrite Ha, He, Z.eqb_refl in H.
  - split; [|intros _; apply Z.leb_le; lia]. intros _. apply andb_true_iff in Hp as [? ?]. unbool. by exists i, e.
Qed.

Lemma wp_client_manager_contains fd Q en (k : kern server) :
  unlocked (k_held k) ->
  (forall en' h' r, env_le en' en -> held_ok en' en h' (k_held k) ->
     (r = 1 /\ registered (k_static k) fd \/ r = 0 /\ ~ registered (k_static k) fd \/ r = 0 /\ env_lt en' en) ->
     Q r (W en' (with_held h' k))) ->
  wp (client_manager_contains fd) Q (W en k).
Proof.
  intros Hm HQ. apply (wp_query 0 (fun st => if 0 <=? find_socket_slot st fd then 1 else 0)); [done|].
  intros en' h' r Hle Hh Hr. apply HQ; [done..|]. destruct Hr as [->|?]; [|auto].
  pose proof (registeredb_true (k_static k) fd) as Hb. unfold registeredb in Hb.
  destruct (0 <=? find_socket_slot _ fd); [left|right; left]; (split; [done|]); rewrite <- Hb; done.
Qed.

Lemma wp_client_manager_username_exists name Q en (k : kern server) :
  registry_ok (k_static k) -> unlocked (k_held k) ->
  (forall en' h' r, env_le en' en -> held_ok en' en h' (k_held k) ->
     (r = 1 /\ is_Some (users (k_static k) !! name) \/
      r = 0 /\ users (k_static k) !! name = None \/ r = 0 /\ env_lt en' en) ->
     Q r (W en' (with_held h' k))) ->
  wp (client_manager_username_exists (Some name)) Q (W en k).
Proof.
  intros Hok Hm HQ. unfold client_manager_username_exists. case_if.
  - apply wp_ret. rewrite <- (with_held_id k). apply HQ; [env_lia|by left|right; left]. split; [done|].
    apply users_lookup_None; [done|]. intros i e Hi Ha Hu. subst name.
    pose proof (reg_entries _ Hok _ _ Hi) as He. unfold entry_ok in He. rewrite Ha in He.
    destruct He as [He _]. apply is_valid_username_iff in He. congruence.
  - apply (wp_query 0 (fun st => if 0 <=? find_username_slot st name then 1 else 0)); [done|].
    intros en' h' r Hle Hh Hr. apply HQ; [done..|]. destruct Hr as [->|?]; [|auto].
    destruct (username_slot_spec _ name Hok) as [[-> ?]|(i & e & -> & _ & _ & _ & ->)]; [by auto|].
    left. rewrite (proj2 (Z.leb_le 0 _)) by lia. eauto.
Qed.

(** The name copied by [client_manager_get_username], for a buffer of at least 32 bytes. *)
Lemma wp_client_manager_get_username fd size Q en (k : kern server) :
  registry_ok (k_static k) -> unlocked (k_held k) -> USERNAME_MAX_SIZE <= size ->
  (forall en' h' r name, env_le en' en -> held_ok en' en h' (k_held k) ->
     (r = 0 /\ (exists id, users (k_static k) !! name = Some (fd, id)) \/
      r = 1 /\ ~ registered (k_static k) fd \/ r = -1 /\ env_lt en' en) ->
     Q (r, name) (W en' (with_held h' k))) ->
  wp (client_manager_get_username fd size) Q (W en k).
Proof.
  intros Hok [Hm _] Hsize HQ. unfold USERNAME_MAX_SIZE in Hsize. unfold client_manager_get_username. case_if; [lia|].
  apply wp_lock.
  { intros en1 z Hlt Hz. case_if; [|lia]. apply wp_ret. rewrite <- (with_held_id k).
    apply HQ; [env_lia|by left|auto]. }
  intros en1 Hle _. simpl. apply wp_get. simpl.
  destruct (registeredb (k_static k) fd) eqn:Hr.
  - apply registeredb_true, socket_slot_registered in Hr as (i & e & -> & Hi & Ha & He).
    rewrite (proj2 (Z.ltb_ge _ 0)) by lia. apply (wp_leave _ _ _ _ k); [done..|].
    intros en2 h z Hle2 Hz. unfold entry. rewrite Nat2Z.id, (list_lookup_total_correct _ _ _ Hi).
    apply wp_ret, HQ; [env_lia|destruct Hz as [[_ ->]|[_ ?]]; [by left|right; env_lia]|left].
    split; [done|]. pose proof (reg_entries _ Hok _ _ Hi) as Hent. unfold entry_ok in Hent. rewrite Ha in Hent.
    destruct Hent as [[[_ Hl] _] _].
    assert (strncpy_terminated (username e) size = username e) as ->.
    { unfold strncpy_terminated. apply take_ge. unfold zlen in Hl. lia. }
    exists (client_id e). apply users_lookup; [done|]. exists i, e. done.
  - assert (Hn : ~ registered (k_static k) fd) by (rewrite <- registeredb_true; congruence).
    rewrite socket_slot_unregistered by done. simpl. apply (wp_leave _ _ _ _ k); [done..|].
    intros en2 h z Hle2 Hz. apply wp_ret, HQ; [env_lia| |auto].
    destruct Hz as [[_ ->]|[_ ?]]; [by left|right; env_lia].
Qed.

(** ** Removal *)

Lemma wp_client_manager_remove fd Q en (k : kern server) :
  let s := k_static k in
  unlocked (k_held k) ->
  (forall en' h' r, env_le en' en -> held_ok en' en h' (k_held k) ->
     (r = 1 /\ ~ registered s fd \/ r = -1 /\ env_lt en' en) -> Q r (W en' (with_held h' k))) ->
  (forall en' h' r i e, env_le en' en -> held_ok en' en h' (k_held k) ->
     clients s !! i = Some e -> active e = true -> socket_fd e = fd ->
     (r = 0 \/ r = -1 /\ env_lt en' en) ->
     Q r (W en' (with_held h' (with_static (remove_state (Z.of_nat i) s) k)))) ->
  wp (client_manager_remove fd) Q (W en k).
Proof.
  intros s [Hm Hs] Hsame Hrem. unfold client_manager_remove. apply wp_lock.
  { intros en1 z Hlt Hz. case_if; [|lia]. apply wp_ret. rewrite <- (with_held_id k).
    apply Hsame; [env_lia|by left|auto]. }
  intros en1 Hle1 _. simpl. apply wp_get. simpl. fold s.
  destruct (registeredb s fd) eqn:Hr.
  2:{ assert (Hn : ~ registered s fd) by (rewrite <- registeredb_true; congruence).
      rewrite socket_slot_unregistered by done. simpl. apply (wp_leave _ _ _ _ k); [done..|].
      intros en2 h z Hle2 Hz. apply wp_ret, Hsame; [env_lia| |auto].
      destruct Hz as [[_ ->]|[_ ?]]; [by left|right; env_lia]. }
  apply registeredb_true, socket_slot_registered in Hr as (i & e & -> & Hi & Ha & He).
  rewrite (proj2 (Z.ltb_ge _ 0)) by lia. apply wp_lock.
  { intros en2 z Hlt2 Hz. case_if; [|lia]. apply (wp_leave _ _ _ _ k); [done..|].
    intros en3 h z' Hle3 _. apply wp_ret, Hsame; [env_lia|right; env_lia|right; split; [done|env_lia]]. }
  intros en2 Hle2 _. simpl. apply wp_get, wp_put. simpl. fold s. fold (remove_state (Z.of_nat i) s).
  specialize (Hs (Z.of_nat i)). apply wp_unlock_any. intros en3 h3 z3 Hle3 Hz3. simpl in Hz3.
  case_if; apply wp_unlock_any; intros en4 h4 z4 Hle4 Hz4; simpl in Hz4; apply wp_ret;
    apply (Hrem en4 h4 _ i e); try done; try env_lia.
  - destruct Hz3 as [[? _]|(_ & _ & ?)]; [lia|right; env_lia].
  - destruct Hz3 as [[_ ->]|[? _]]; [|lia]. destruct Hz4 as [[_ ->]|(_ & _ & ?)]; [left|right; env_lia].
    set_solver.
Qed.

(** ** The user list *)

(** The logged-in names, in the order of the slots. *)
Definition usernames (s : server) : list bytes := username <$> filter (fun e => active e = true) (clients s).

Fixpoint join (sep : byte) (l : list bytes) : bytes :=
  match l with [] => [] | [x] => x | x :: l => x ++ sep :: join sep l end.

Definition name_lines (l : list bytes) : bytes := concat ((fun n => n ++ [NEWLINE]) <$> l).

Lemma name_lines_join l : removelast (name_lines l) = join NEWLINE l.
Proof.
  unfold name_lines. induction l as [|x [|y l] IH]; [done|simpl; by rewrite app_nil_r, removelast_last|].
  change (concat ((fun n => n ++ [NEWLINE]) <$> x :: y :: l))
    with ((x ++ [NEWLINE]) ++ concat ((fun n => n ++ [NEWLINE]) <$> y :: l)).
  change (join NEWLINE (x :: y :: l)) with (x ++ NEWLINE :: join NEWLINE (y :: l)). rewrite <- IH.
  rewrite removelast_app by (simpl; by destruct y). by rewrite <- app_assoc.
Qed.

Lemma userlist_loop_spec size l buffer n :
  (forall e, e ∈ l -> active e = true -> zlen (username e) <= 31) ->
  zlen buffer + 32 * zlen l + 1 <= size ->
  userlist_loop size l buffer n =
    Some (buffer ++ name_lines (username <$> filter (fun e => active e = true) l), n + count_active l).
Proof.
  revert buffer n. induction l as [|e l IH]; intros buffer n Hl Hsize; cbn [userlist_loop].
  { unfold name_lines, count_active. simpl. by rewrite app_nil_r, Z.add_0_r. }
  rewrite zlen_cons in Hsize. pose proof (zlen_nonneg l). unfold count_active. rewrite !filter_cons.
  destruct (active e) eqn:Ha; cbn [negb].
  - pose proof (Hl e ltac:(left) Ha) as He. unfold strlen.
    replace (size <? zlen buffer + zlen (username e) + 2) with false by (symmetry; apply Z.ltb_ge; lia).
    rewrite IH.
    + rewrite decide_True by done. unfold name_lines, count_active. cbn [fmap list_fmap concat].
      rewrite <- !app_assoc, zlen_cons. do 2 f_equal. lia.
    + intros. apply Hl; [by right|done].
    + rewrite !zlen_app, zlen_cons, zlen_nil. lia.
  - rewrite decide_False by done. apply IH; [intros; apply Hl; [by right|done]|lia].
Qed.

Lemma active_name_length s e : registry_ok s -> e ∈ clients s -> active e = true -> zlen (username e) <= 31.
Proof.
  intros Hok [i Hi]%list_elem_of_lookup Ha. pose proof (reg_entries _ Hok _ _ Hi) as He.
  unfold entry_ok in He. rewrite Ha in He. destruct He as [[Hl _] _]. lia.
Qed.

Lemma userlist_loop_ok bsize s :
  registry_ok s -> 2049 <= bsize ->
  userlist_loop bsize (clients s) [] 0 = Some (name_lines (usernames s), Z.of_nat (size (users s))).
Proof.
  intros Hok Hsize. rewrite userlist_loop_spec.
  - rewrite users_size by done. done.
  - intros e He Ha. by apply (active_name_length s).
  - unfold zlen at 2. rewrite (reg_length _ Hok). rewrite zlen_nil. lia.
Qed.

Lemma wp_client_manager_build_userlist bsize Q en (k : kern server) :
  registry_ok (k_static k) -> unlocked (k_held k) -> 2049 <= bsize ->
  (forall en' h' r list, env_le en' en -> held_ok en' en h' (k_held k) ->
     (r = Z.of_nat (size (users (k_static k))) /\ list = join NEWLINE (usernames (k_static k)) \/
      r = -1 /\ env_lt en' en) ->
     Q (r, list) (W en' (with_held h' k))) ->
  wp (client_manager_build_userlist bsize) Q (W en k).
Proof.
  intros Hok [Hm _] Hsize HQ. unfold client_manager_build_userlist. case_if; [lia|]. apply wp_lock.
  { intros en1 z Hlt Hz. case_if; [|lia]. apply wp_ret. rewrite <- (with_held_id k).
    apply HQ; [env_lia|by left|auto]. }
  intros en1 Hle1 _. simpl. apply wp_get. simpl. rewrite userlist_loop_ok by done.
  rewrite name_lines_join. apply (wp_leave _ _ _ _ k); [done..|].
  intros en2 h z Hle2 Hz. assert (held_ok en2 en h (k_held k)) by (destruct Hz as [[_ ->]|[_ ?]]; [by left|right; env_lia]).
  case_if; apply wp_ret, HQ; auto; env_lia.
Qed.

(** The names of the list are those of the abstract registry. *)
Lemma elem_of_usernames s n : registry_ok s -> n ∈ usernames s <-> is_Some (users s !! n).
Proof.
  intros Hok. unfold usernames. rewrite list_elem_of_fmap. split.
  - intros (e & -> & [Ha [i Hi]%list_elem_of_lookup]%list_elem_of_filter).
    exists (socket_fd e, client_id e). apply users_lookup; [done|]. eauto 10.
  - intros [[fd id] H]. apply users_lookup in H as (i & e & Hi & Ha & <- & _); [|done].
    exists e. split; [done|]. apply list_elem_of_filter. split; [done|]. by eapply list_elem_of_lookup_2.
Qed.

(** ** Initialisation *)

Definition free_entry : client_entry_t :=
  {| active := false; socket_fd := -1; thread_id := 0; client_id := 0; username := [] |}.

Lemma set_entry_replicate i n s :
  clients s = replicate i free_entry ++ replicate (S n) zero_entry ->
  clients (set_entry (Z.of_nat i) free_entry s) = replicate (S i) free_entry ++ replicate n zero_entry.
Proof.
  intros Hc. unfold set_entry. simpl. rewrite Nat2Z.id, Hc.
  rewrite insert_app_r_alt by (rewrite length_replicate; lia). rewrite length_replicate, Nat.sub_diag. simpl.
  change (replicate i free_entry ++ free_entry :: replicate n zero_entry =
    replicate (S i) free_entry ++ replicate n zero_entry).
  rewrite (replicate_S_end i), <- app_assoc. done.
Qed.

Lemma wp_destroy_loop n j Q en (k : kern server) :
  (forall en', env_le en' en -> Q tt (W en' k)) -> wp (destroy_loop n j) Q (W en k).
Proof.
  revert j en. induction n as [|n IH]; intros j en HQ; cbn [destroy_loop]; [by apply wp_ret, HQ|].
  apply wp_call. unfold sem, pthread_call. simpl.
  destruct (pop_cases en) as [(er & en' & -> & Hlt)|(o & en' & lim & -> & Hle & _ & Ho & _)];
    [|destruct o; try done]; apply IH; intros; apply HQ; env_lia.
Qed.

Lemma wp_init_loop n i s Q en (k : kern server) :
  clients (k_static k) = replicate i free_entry ++ replicate n zero_entry ->
  with_clients [] (k_static k) = with_clients [] s ->
  (forall en', env_le en' en ->
     Q 0 (W en' (with_static (with_clients (replicate (i + n) free_entry) s) k))) ->
  (forall en' h' s', env_lt en' en -> with_clients [] s' = with_clients [] s ->
     Q (-1) (W en' (with_held h' (with_static s' k)))) ->
  wp (init_loop n (Z.of_nat i)) Q (W en k).
Proof.
  revert i en k. induction n as [|n IH]; intros i en k Hc Hs Hok Hko; cbn [init_loop].
  - apply wp_ret. simpl in Hc. rewrite app_nil_r in Hc. rewrite Nat.add_0_r in Hok.
    replace k with (with_static (with_clients (replicate i free_entry) s) k); [apply Hok; env_lia|].
    rewrite <- Hc. destruct k as [st]; simpl in *. unfold with_static. simpl. f_equal.
    destruct st, s; simpl in *. unfold with_clients in *. simpl in *. congruence.
  - apply wp_get, wp_put. set (k1 := with_static _ k).
    assert (Hk1 : k_static k1 = set_entry (Z.of_nat i) free_entry (k_static k)).
    { unfold k1. simpl. f_equal. unfold entry.
      rewrite Nat2Z.id, Hc, lookup_total_app_r by (rewrite length_replicate; lia).
      by rewrite length_replicate, Nat.sub_diag. }
    assert (Hw : forall st, with_static st k1 = with_static st k) by done.
    apply wp_call. unfold sem, pthread_call. simpl.
    destruct (pop_cases en) as [(er & en' & -> & Hlt)|(o & en' & lim & -> & Hle & _ & Ho & _)].
    + simpl. apply wp_bind, wp_destroy_loop. intros en2 Hle2.
      apply wp_unlock_any. intros en3 h3 z Hle3 _. apply wp_ret.
      replace (with_held h3 k1) with (with_held h3 (with_static (k_static k1) k)) by done.
      apply Hko; [env_lia|]. rewrite Hk1. exact Hs.
    + assert (Hn : wp (init_loop n (Z.of_nat (S i))) Q (W en' k1)).
      { apply IH.
        - rewrite Hk1. by apply set_entry_replicate.
        - rewrite Hk1. exact Hs.
        - intros en2 Hle2. rewrite Hw. replace (S i + n)%nat with (i + S n)%nat by lia. apply Hok. env_lia.
        - intros en2 h2 s2 Hlt2 Hs2. rewrite Hw. apply Hko; [env_lia|done]. }
      rewrite Nat2Z.inj_succ, <- Z.add_1_r in Hn. destruct o; try done; exact Hn.
Qed.

#[local] Arguments init_loop : simpl never.

(** The registry after its initialisation. *)
Definition init_state (s : server) : server :=
  {| clients := replicate 64 free_entry; next_client_id := 1; manager_initialized := true;
     running := running s; server_socket := server_socket s |}.

Lemma wp_client_manager_init Q en (k : kern server) :
  unlocked (k_held k) ->
  (forall en' h' r, env_le en' en -> held_ok en' en h' (k_held k) ->
     (r = 0 /\ manager_initialized (k_static k) = true \/ r = -1 /\ env_lt en' en) ->
     Q r (W en' (with_held h' k))) ->
  (forall en' h' r, env_le en' en -> held_ok en' en h' (k_held k) ->
     manager_initialized (k_static k) = false -> (r = 0 \/ r = -1 /\ env_lt en' en) ->
     Q r (W en' (with_held h' (with_static (init_state (k_static k)) k)))) ->
  (forall en' h' s', env_lt en' en ->
     manager_initialized (k_static k) = false -> with_clients [] s' = with_clients [] (k_static k) ->
     Q (-1) (W en' (with_held h' (with_static s' k)))) ->
  wp client_manager_init Q (W en k).
Proof.
  intros [Hm _] Hsame Hinit Hfail. unfold client_manager_init. apply wp_lock.
  { intros en1 z Hlt Hz. case_if; [|lia]. apply wp_ret. rewrite <- (with_held_id k).
    apply Hsame; [env_lia|by left|auto]. }
  intros en1 Hle1 _. simpl. apply wp_get. simpl.
  destruct (manager_initialized (k_static k)) eqn:Hi.
  { apply (wp_leave _ _ _ _ k); [done..|]. intros en2 h z Hle2 Hz. apply wp_ret, Hsame; [env_lia| |auto].
    destruct Hz as [[_ ->]|[_ ?]]; [by left|right; env_lia]. }
  apply wp_put. set (s := k_static k). set (k1 := with_static _ _).
  apply wp_bind, (wp_init_loop 64 0 s _ en1 k1); [done|done| |].
  - intros en2 Hle2. cbn [negb Z.eqb]. apply wp_get, wp_put.
    apply (wp_leave _ _ _ _ k); [done..|]. intros en3 h z Hle3 Hz.
    assert (held_ok en3 en h (k_held k)) by (destruct Hz as [[_ ->]|[_ ?]]; [by left|right; env_lia]).
    case_if; apply wp_ret, (Hinit en3 h); auto; env_lia.
  - intros en2 h2 s2 Hlt2 Hs2. cbn [negb Z.eqb]. apply wp_ret.
    apply (Hfail en2 h2 s2); [env_lia|done|done].
Qed.

Lemma init_state_ok s : registry_ok (init_state s).
Proof.
  assert (Hinact : forall i e, replicate 64 free_entry !! i = Some e -> e = free_entry)
    by (intros i e H; by apply lookup_replicate in H as [-> _]).
  split; simpl; try done.
  - intros i e Hi. by rewrite (Hinact _ _ Hi).
  - intros i j e e' Hi _ Ha. by rewrite (Hinact _ _ Hi) in Ha.
  - intros i j e e' Hi _ Ha. by rewrite (Hinact _ _ Hi) in Ha.
  - intros i e Hi Ha. by rewrite (Hinact _ _ Hi) in Ha.
  - intros i j e e' Hi _ Ha. by rewrite (Hinact _ _ Hi) in Ha.
Qed.

Lemma init_state_users s : users (init_state s) = ∅.
Proof. done. Qed.
