(* ===== verification/RegistrySpec.v ===== *)
(** * The registry's contract and its refinement

    An abstract registry is a finite map from names to (socket, client id).
    [exec] runs one operation of client_manager.c on the concrete table;
    [spec] says what it may answer, and how the abstract registry changes. *)

From S2P Require Import Prelude CLib Posix Wp Protocol NetworkIO ClientManager Registry.

Record abstract := { a_users : gmap bytes (Z * Z); a_next : Z }.

Definition abs (s : server) : abstract := {| a_users := users s; a_next := next_client_id s |}.

Inductive request :=
  | Add (fd thread : Z) (name : bytes)
  | Remove (fd : Z)
  | Count
  | Contains (fd : Z)
  | Username_exists (name : bytes)
  | Get_username (fd : Z)
  | Userlist.

Inductive reply := RInt (r : Z) | RText (r : Z) (text : bytes).

(** The operations as the client handler calls them: the buffers are those of
    [handle_private_message] (32 bytes) and [send_user_list] (4097 bytes). *)
Definition exec (rq : request) : prog server reply :=
  match rq with
  | Add fd thread name => r ← client_manager_add fd thread (Some name); mret (RInt r)
  | Remove fd => r ← client_manager_remove fd; mret (RInt r)
  | Count => r ← client_manager_count; mret (RInt r)
  | Contains fd => r ← client_manager_contains fd; mret (RInt r)
  | Username_exists name => r ← client_manager_username_exists (Some name); mret (RInt r)
  | Get_username fd => '(r, name) ← client_manager_get_username fd USERNAME_MAX_SIZE; mret (RText r name)
  | Userlist => '(r, list) ← client_manager_build_userlist (MESSAGE_MAX_SIZE + 1); mret (RText r list)
  end.

Fixpoint exec_all (rqs : list request) : prog server (list reply) :=
  match rqs with
  | [] => mret []
  | rq :: rqs => rp ← exec rq; rps ← exec_all rqs; mret (rp :: rps)
  end.

Definition uses (a : abstract) (fd : Z) : Prop := exists name id, a_users a !! name = Some (fd, id).

Definition spec (a : abstract) (rq : request) (rp : reply) (a' : abstract) : Prop :=
  match rq with
  | Add fd _ name =>
      (~ username_ok name /\ rp = RInt (-1) /\ a' = a) \/
      (username_ok name /\ is_Some (a_users a !! name) /\ rp = RInt (-2) /\ a' = a) \/
      (username_ok name /\ a_users a !! name = None /\ size (a_users a) = 64%nat /\ rp = RInt (-1) /\ a' = a) \/
      (username_ok name /\ a_users a !! name = None /\ (size (a_users a) < 64)%nat /\ rp = RInt (a_next a) /\
       a' = {| a_users := <[name := (fd, a_next a)]> (a_users a); a_next := a_next a + 1 |})
  | Remove fd =>
      (~ uses a fd /\ rp = RInt 1 /\ a' = a) \/
      (exists name id, a_users a !! name = Some (fd, id) /\ rp = RInt 0 /\
         a' = {| a_users := delete name (a_users a); a_next := a_next a |})
  | Count => rp = RInt (Z.of_nat (size (a_users a))) /\ a' = a
  | Contains fd => a' = a /\ (uses a fd /\ rp = RInt 1 \/ ~ uses a fd /\ rp = RInt 0)
  | Username_exists name =>
      a' = a /\ (is_Some (a_users a !! name) /\ rp = RInt 1 \/ a_users a !! name = None /\ rp = RInt 0)
  | Get_username fd =>
      a' = a /\ ((exists name id, a_users a !! name = Some (fd, id) /\ rp = RText 0 name) \/
                 ~ uses a fd /\ exists text, rp = RText 1 text)
  | Userlist =>
      a' = a /\ exists names, names ≡ₚ (map_to_list (a_users a)).*1 /\
        rp = RText (Z.of_nat (size (a_users a))) (join NEWLINE names)
  end.

(** What the caller of [client_manager_add] provides: a descriptor that no
    registered client uses, and an id counter below [INT_MAX]. *)
Definition admissible (a : abstract) (rq : request) : Prop :=
  match rq with Add fd _ _ => 0 <= fd /\ ~ uses a fd /\ a_next a < 2 ^ 31 - 1 | _ => True end.

(** The answer of an operation that a failing lock or unlock cut short. *)
Definition failed (rq : request) (rp : reply) : Prop :=
  match rq, rp with
  | (Add _ _ _ | Remove _), RInt r => r = -1
  | (Count | Contains _ | Username_exists _), RInt r => r = 0
  | (Get_username _ | Userlist), RText r _ => r = -1
  | _, _ => False
  end.

Definition spec_faulty (a : abstract) (rq : request) (rp : reply) (a' : abstract) : Prop :=
  spec a rq rp a' \/ failed rq rp /\ (a' = a \/ exists rp', spec a rq rp' a').

(** ** One operation *)

Lemma uses_registered s fd : registry_ok s -> uses (abs s) fd <-> registered s fd.
Proof.
  intros Hok. split.
  - intros (name & id & H). apply users_lookup in H as (i & e & Hi & Ha & _ & Hf & _); [|done]. by exists i, e.
  - intros (i & e & Hi & Ha & Hf). exists (username e), (client_id e). apply users_lookup; [done|]. eauto 10.
Qed.

Lemma usernames_perm s : registry_ok s -> usernames s ≡ₚ (map_to_list (users s)).*1.
Proof.
  intros Hok. unfold users. rewrite map_to_list_to_map by (apply names_NoDup, Hok).
  enough (usernames s = (omap abstract_entry (clients s)).*1) as -> by done.
  unfold usernames. generalize (clients s). induction l as [|e l IH]; [done|].
  rewrite filter_cons. cbn [omap list_omap]. unfold abstract_entry at 1. destruct (active e) eqn:Ha.
  - rewrite decide_True by done. cbn [fmap list_fmap fst]. by f_equal.
  - rewrite decide_False by done. exact IH.
Qed.

Lemma size_full s : registry_ok s -> count_active (clients s) = MAX_CLIENTS <-> size (users s) = 64%nat.
Proof. intros Hok. rewrite <- users_size by done. unfold MAX_CLIENTS. lia. Qed.

(** A table with an inactive slot is not full. *)
Lemma size_not_full s i e :
  registry_ok s -> clients s !! i = Some e -> active e = false -> (size (users s) < 64)%nat.
Proof.
  intros Hok Hi Ha. rewrite <- (reg_length _ Hok). apply Nat2Z.inj_lt. rewrite users_size by done.
  unfold count_active, zlen. apply inj_lt. eapply (length_filter_lt _ _ e); [by eapply list_elem_of_lookup_2|congruence].
Qed.

Section one_operation.
Context (en : env) (k : kern server).
Let s := k_static k.
Hypothesis (Hok : registry_ok s) (Hm : unlocked (k_held k)).

(** What an operation leaves: the invariant, an answer the contract allows,
    and everything but the table as it was. *)
Definition served (rq : request) (rp : reply) (w : world server) : Prop :=
  registry_ok (k_static (w_kern w)) /\
  env_le (w_env w) en /\
  (w_kern w = with_held (k_held (w_kern w)) (with_static (k_static (w_kern w)) k)) /\
  (k_held (w_kern w) = k_held k /\ spec (abs s) rq rp (abs (k_static (w_kern w))) \/
   env_lt (w_env w) en /\ spec_faulty (abs s) rq rp (abs (k_static (w_kern w)))).

Lemma served_same rq rp en' h' :
  env_le en' en -> held_ok en' en h' (k_held k) ->
  (spec (abs s) rq rp (abs s) \/ env_lt en' en /\ failed rq rp) ->
  served rq rp (W en' (with_held h' k)).
Proof.
  intros Hle Hh Hr. split_and!; simpl; [done|done|by destruct k|].
  destruct Hr as [Hr|[Hlt Hr]].
  - destruct Hh as [->|Hlt]; [by left|right]. split; [done|by left].
  - right. split; [done|]. right. auto.
Qed.

Lemma served_put rq rp rp' en' h' s' :
  registry_ok s' -> env_le en' en -> held_ok en' en h' (k_held k) ->
  spec (abs s) rq rp' (abs s') ->
  (rp = rp' \/ env_lt en' en /\ failed rq rp) ->
  served rq rp (W en' (with_held h' (with_static s' k))).
Proof.
  intros Hs' Hle Hh Hspec Hr. split_and!; simpl; [done|done|done|].
  destruct Hr as [->|[Hlt Hr]].
  - destruct Hh as [->|Hlt]; [by left|right]. split; [done|by left].
  - right. split; [done|]. right. eauto.
Qed.

Lemma wp_exec_add fd thread name :
  admissible (abs s) (Add fd thread name) ->
  wp (exec (Add fd thread name)) (served (Add fd thread name)) (W en k).
Proof.
  intros (Hfd & Hu & Hid). rewrite uses_registered in Hu by done. simpl in Hid. cbn [exec].
  apply wp_bind, wp_client_manager_add; [done|apply Hm| |]; fold s.
  - intros en' h' r Hle Hh Hr. apply wp_ret, served_same; [done..|].
    destruct Hr as [(-> & Hn & Hs)|[-> [Hn|[(Hn & Hs & Hf)|Hlt]]]]; [..|by right]; left; simpl; [tauto|tauto|].
    rewrite size_full in Hf by done. tauto.
  - intros en' h' r i e0 Hle Hh Hn Hs Hi Ha Hr.
    apply wp_ret, (served_put _ _ (RInt (next_client_id s))); [|done|done| |].
    + eapply add_state_ok; eauto. lia.
    + simpl. right. right. right. split_and!; [done|done|by eapply size_not_full|done|].
      unfold abs. erewrite add_state_users by (eauto; lia). erewrite add_state_next by (eauto; lia). done.
    + pose proof (reg_next _ Hok). destruct Hr as [->|[-> ?]]; [left|by right].
      f_equal. unfold i32. rewrite Z.mod_small by lia. lia.
Qed.

Lemma wp_exec_remove fd : wp (exec (Remove fd)) (served (Remove fd)) (W en k).
Proof.
  cbn [exec]. apply wp_bind, wp_client_manager_remove; [done|..]; fold s.
  - intros en' h' r Hle Hh Hr. apply wp_ret, served_same; [done..|].
    destruct Hr as [[-> Hr]|[-> Hlt]]; [left|by right]. left. by rewrite uses_registered.
  - intros en' h' r i e Hle Hh Hi Ha He Hr.
    apply wp_ret, (served_put _ _ (RInt 0)); [|done|done| |].
    + by eapply remove_state_ok.
    + simpl. right. exists (username e), (client_id e). split_and!; [|done|].
      * apply users_lookup; [done|]. exists i, e. auto.
      * unfold abs. by erewrite remove_state_users.
    + destruct Hr as [->|[-> ?]]; [by left|by right].
Qed.

Lemma wp_exec rq : admissible (abs s) rq -> wp (exec rq) (served rq) (W en k).
Proof.
  pose proof Hok as Hok0. destruct rq as [fd thread name|fd| |fd|name|fd|]; intros Ha.
  - by apply wp_exec_add.
  - by apply wp_exec_remove.
  - cbn [exec]. apply wp_bind, wp_client_manager_count; [done..|]. intros en' h' r Hle Hh Hr.
    apply wp_ret, served_same; [done..|]. destruct Hr as [->|[-> ?]]; [by left|by right].
  - cbn [exec]. apply wp_bind, wp_client_manager_contains; [done|]. intros en' h' r Hle Hh Hr.
    apply wp_ret, served_same; [done..|]. simpl. rewrite uses_registered by done.
    destruct Hr as [[-> ?]|[[-> ?]|[-> ?]]]; auto.
  - cbn [exec]. apply wp_bind, wp_client_manager_username_exists; [done..|]. intros en' h' r Hle Hh Hr.
    apply wp_ret, served_same; [done..|]. simpl. destruct Hr as [[-> ?]|[[-> ?]|[-> ?]]]; auto.
  - cbn [exec]. apply wp_bind, wp_client_manager_get_username; [done..|]. intros en' h' r name Hle Hh Hr.
    apply wp_ret, served_same; [done..|]. simpl. rewrite uses_registered by done.
    destruct Hr as [[-> [id ?]]|[[-> ?]|[-> ?]]]; eauto 10.
  - cbn [exec]. apply wp_bind, wp_client_manager_build_userlist; [done..|]. intros en' h' r list Hle Hh Hr.
    apply wp_ret, served_same; [done..|]. simpl.
    destruct Hr as [[-> ->]|[-> ?]]; [left|by right]. split; [done|]. eexists. split; [|done].
    by apply usernames_perm.
Qed.
End one_operation.

(** ** Sequences of operations *)

(** Every request is admissible, whatever the contract answered before it. *)
Fixpoint admissible_all (a : abstract) (rqs : list request) : Prop :=
  match rqs with
  | [] => True
  | rq :: rqs => admissible a rq /\ forall rp a', spec a rq rp a' -> admissible_all a' rqs
  end.

Inductive spec_all : abstract -> list request -> list reply -> abstract -> Prop :=
  | spec_nil a : spec_all a [] [] a
  | spec_cons a rq rp a1 rqs rps a2 :
      spec a rq rp a1 -> spec_all a1 rqs rps a2 -> spec_all a (rq :: rqs) (rp :: rps) a2.

Lemma wp_exec_all rqs en (k : kern server) :
  registry_ok (k_static k) -> unlocked (k_held k) -> faultless en ->
  admissible_all (abs (k_static k)) rqs ->
  wp (exec_all rqs) (fun rps w' =>
    registry_ok (k_static (w_kern w')) /\ k_held (w_kern w') = k_held k /\
    spec_all (abs (k_static k)) rqs rps (abs (k_static (w_kern w')))) (W en k).
Proof.
  revert en k. induction rqs as [|rq rqs IH]; intros en k Hok Hm Hf Hadm; cbn [exec_all].
  { apply wp_ret. split_and!; [done..|constructor]. }
  destruct Hadm as [Ha Hadm]. eapply wp_bind, wp_mono; [by apply wp_exec|].
  intros rp [en1 k1] (Hok1 & Hle & _ & [[Hh Hs]|[Hlt _]]); simpl in *; [|by apply faultless_not_lt in Hlt].
  eapply wp_bind, wp_mono; [apply IH; [done|by rewrite Hh|by eapply faultless_le|by eapply Hadm]|].
  intros rps w' (Hok2 & Hh2 & Hs2). apply wp_ret. split_and!; [done|congruence|by econstructor].
Qed.

(** C1. The registry of client_manager.c implements its contract: on a
    well-formed table whose mutexes are free, when no call fails, any sequence
    of add (of a socket that is not in use, while the ids are below INT_MAX),
    remove, count, contains, username-exists, get-username and user-list
    operations runs to the end,
    answers what the abstract map of logged-in names allows, leaves the table
    well formed and representing the new map, and releases its mutexes. *)
Theorem registry_refinement rqs en (k : kern server) :
  registry_ok (k_static k) -> unlocked (k_held k) -> faultless en ->
  admissible_all (abs (k_static k)) rqs ->
  runs (exec_all rqs) (W en k) (fun rps w' =>
    spec_all (abs (k_static k)) rqs rps (abs (k_static (w_kern w'))) /\
    registry_ok (k_static (w_kern w')) /\ k_held (w_kern w') = k_held k).
Proof.
  intros Hok Hm Hf Ha. eapply wp_runs, wp_mono; [by apply wp_exec_all|]. intros ? ? (? & ? & ?); auto.
Qed.

(** Alice logs in on socket 5, her name is refused to a second client, the
    list is asked for, she leaves. *)
Definition alice_session : list request :=
  [Add 5 1 (B "alice"); Add 6 2 (B "alice"); Userlist; Remove 5; Count].

Definition ready : kern server := idle (init_state server_start).

Lemma ready_ok : registry_ok (k_static ready) /\ unlocked (k_held ready).
Proof. split; [apply init_state_ok|]. split; [done|]. intros i. done. Qed.

Lemma username_ok_alice : username_ok (B "alice").
Proof. by apply is_valid_username_iff. Qed.

Lemma alice_admissible : admissible_all (abs (k_static ready)) alice_session.
Proof.
  assert (Hu : forall m n, uses {| a_users := m; a_next := n |} 5 -> m ≠ ∅) by (intros m n (? & ? & ?) ->; done).
  split.
  { split_and!; [done| |done]. by intros (? & ? & ?). }
  intros rp a' [(Hn & _)|[(_ & [? Hs] & _)|[(_ & _ & Hf & _)|(_ & _ & _ & _ & ->)]]];
    [by destruct Hn; apply username_ok_alice|done|done|]. simpl. split.
  { split_and!; [done| |done]. intros (n & id & H). simpl in H. apply lookup_insert_Some in H as [[_ ?]|[_ ?]]; done. }
  intros. split; [done|]. intros. split; [done|]. intros. split; [done|]. done.
Qed.

Lemma registry_refinement_witness :
  runs (exec_all alice_session) (W calm ready) (fun rps w' =>
    spec_all (abs (k_static ready)) alice_session rps (abs (k_static (w_kern w'))) /\
    registry_ok (k_static (w_kern w')) /\ k_held (w_kern w') = k_held ready).
Proof.
  apply registry_refinement; [apply ready_ok|apply ready_ok|reflexivity|apply alice_admissible].
Defined.

(** The replies of that session, computed. *)
Example alice_session_replies :
  fst <$> run (exec_all alice_session) (W calm ready)
  = Some [RInt 1; RInt (-2); RText 1 (B "alice"); RInt 0; RInt 0].
Proof. vm_compute. reflexivity. Qed.

(** C33. Whatever calls the environment makes fail, every registry operation
    ends, keeps the table well formed (names, sockets and ids stay unique),
    touches nothing but the table and the mutexes, and either answers as the
    contract says or reports failure, its effect having taken place or not. *)
Theorem registry_under_faults rq en (k : kern server) :
  registry_ok (k_static k) -> unlocked (k_held k) -> admissible (abs (k_static k)) rq ->
  runs (exec rq) (W en k) (fun rp '(W _ k') =>
    registry_ok (k_static k') /\
    spec_faulty (abs (k_static k)) rq rp (abs (k_static k')) /\
    k' = with_held (k_held k') (with_static (k_static k') k)).
Proof.
  intros Hok Hm Ha. eapply wp_runs, wp_mono; [by apply wp_exec|].
  intros rp [en' k'] (Hok' & _ & Hk & Hs). split_and!; try done. destruct Hs as [[_ ?]|[_ ?]]; [by left|done].
Qed.

(** The unlock that ends the registration fails. *)
Lemma registry_under_faults_witness :
  runs (exec (Add 5 1 (B "alice"))) (W (mk_env [Full; Fail 1] 0 [] [] []) ready) (fun rp '(W _ k') =>
    registry_ok (k_static k') /\
    spec_faulty (abs (k_static ready)) (Add 5 1 (B "alice")) rp (abs (k_static k')) /\
    k' = with_held (k_held k') (with_static (k_static k') ready)).
Proof.
  apply registry_under_faults; [apply ready_ok|apply ready_ok|apply alice_admissible].
Defined.

(** [client_manager_init] on a fresh process establishes the invariant
    with no user logged in; when it fails it does not mark the registry as
    initialised; a second call changes nothing. *)
Theorem init_establishes_registry en (k : kern server) :
  unlocked (k_held k) ->
  runs client_manager_init (W en k) (fun r '(W _ k') =>
    (r = 0 \/ r = -1) /\ (faultless en -> r = 0 /\ k_held k' = k_held k) /\
    (manager_initialized (k_static k) = true -> k_static k' = k_static k) /\
    (manager_initialized (k_static k) = false ->
       r = 0 \/ manager_initialized (k_static k') = true ->
       registry_ok (k_static k') /\ users (k_static k') = ∅ /\ manager_initialized (k_static k') = true)).
Proof.
  intros Hm. pose proof (fun en' Hf => faultless_not_lt en en' Hf) as Hnl.
  apply wp_runs, wp_client_manager_init; [done|..].
  - intros en' h' r Hle Hh Hr. simpl. destruct (manager_initialized (k_static k)) eqn:Hi.
    + split_and!; try done; [destruct Hr as [[-> _]|[-> _]]; auto|]. intros Hf. specialize (Hnl en' Hf).
      destruct Hr as [[-> _]|[_ ?]], Hh; done.
    + destruct Hr as [[_ ?]|[-> Hlt]]; [done|]. split_and!; auto; [|by intros _ [?|?]].
      intros Hf. by destruct (Hnl en' Hf).
  - intros en' h' r Hle Hh Hi Hr. simpl. rewrite Hi. split_and!; try done.
    + destruct Hr as [->|[-> _]]; auto.
    + intros Hf. specialize (Hnl en' Hf). destruct Hr as [->|[_ ?]], Hh; done.
    + intros _ _. split; [apply init_state_ok|done].
  - intros en' h' s' Hlt Hi Hs'. apply (f_equal manager_initialized) in Hs'. cbn in Hs'. rewrite Hi in Hs'. simpl. rewrite Hi, Hs'. split_and!; auto; [|done|by intros _ [?|?]].
    intros Hf. by destruct (Hnl en' Hf).
Qed.

Lemma init_establishes_registry_witness :
  runs client_manager_init (W calm (idle server_start)) (fun r '(W _ k') =>
    (r = 0 \/ r = -1) /\ (faultless calm -> r = 0 /\ k_held k' = ∅) /\
    (manager_initialized server_start = true -> k_static k' = server_start) /\
    (manager_initialized server_start = false ->
       r = 0 \/ manager_initialized (k_static k') = true ->
       registry_ok (k_static k') /\ users (k_static k') = ∅ /\ manager_initialized (k_static k') = true)).
Proof. apply (init_establishes_registry calm (idle server_start)). by split. Defined.
