(* ===== verification/Sending.v ===== *)
(** * What the server writes to its clients

    Every write goes through client_manager.c: [send_message_raw] under the
    send mutex of a slot.  The lemmas below say exactly which bytes each
    sending operation appends to which stream. *)

From S2P Require Import Prelude CLib Posix Wp Protocol NetworkIO ClientManager Registry.

(** ** One frame *)

(** The outcome of one attempt to send a frame: all of it, or after a fault
    a strict prefix. *)
Definition delivered (type : Z) (payload : bytes) (en' en : env) (r : Z) (out : bytes) : Prop :=
  r = 0 /\ out = frame type payload \/
  r = -1 /\ env_lt en' en /\ exists n, (n < length (frame type payload))%nat /\ out = take n (frame type payload).

Definition sendable (type : Z) (payload : bytes) : Prop :=
  is_valid_message_type type = true /\ strlen payload <= MESSAGE_MAX_SIZE.

#[export] Instance sendable_dec type payload : Decision (sendable type payload).
Proof. unfold sendable. apply _. Defined.

Lemma length_frame type payload : length (frame type payload) = (8 + length payload)%nat.
Proof. unfold frame, message_header. by rewrite !length_app, !length_be32. Qed.

Lemma delivered_le type payload en3 en2 en1 en r out :
  env_le en3 en2 -> env_le en1 en -> delivered type payload en2 en1 r out -> delivered type payload en3 en r out.
Proof. intros ? ? [?|(? & ? & ?)]; [by left|right]. split_and!; [done|env_lia|done]. Qed.

Lemma wp_send_message_raw F fd type payload Q en (k : kern server) :
  k_fds k !! fd = Some FdSocket -> fuel_ok F en ->
  (~ sendable type payload -> Q (-1) (W en k)) ->
  (forall en' r out, env_le en' en -> sendable type payload -> delivered type payload en' en r out ->
     Q r (W en' (sent_out fd out k))) ->
  wp (send_message_raw F fd type (Some payload)) Q (W en k).
Proof.
  intros Hfd HF Hbad Hok. unfold send_message_raw. unfold sendable in *.
  case_if; [apply wp_ret, Hbad; rewrite E; by intros [? _]|].
  case_if; [apply wp_ret, Hbad; intros [_ ?]; lia|].
  set (h := message_header type (strlen payload)).
  assert (Hfr : frame type payload = h ++ payload) by done.
  assert (Hh : length h = 8%nat) by done.
  apply wp_bind, wp_send_all; [done|done|..].
  - intros en1 Hle1. cbn [negb Z.eqb]. case_if.
    { apply wp_ret, Hok; [done|done|left]. by rewrite Hfr, (zlen_zero payload), app_nil_r. }
    apply wp_bind, wp_send_all; [done|by eapply fuel_ok_le|..].
    + intros en2 Hle2. cbn [negb Z.eqb]. apply wp_ret. rewrite sent_out_app. apply Hok; [env_lia|done|by left].
    + intros en2 m Hlt2 Hm. cbn [negb Z.eqb]. apply wp_ret. rewrite sent_out_app.
      apply Hok; [env_lia|done|right]. split_and!; [done|env_lia|]. exists (8 + m)%nat.
      split; [rewrite length_frame; lia|]. rewrite Hfr, take_app_ge by lia. do 2 f_equal. lia.
  - intros en1 m Hlt Hm. cbn [negb Z.eqb]. apply wp_ret, Hok; [env_lia|done|right].
    split_and!; [done|done|]. exists m.
    split; [rewrite length_frame; lia|]. by rewrite Hfr, take_app_le by lia.
Qed.

Lemma wp_send_message_raw_calm F fd type payload Q en (k : kern server) :
  k_fds k !! fd = Some FdSocket -> faultless en -> (1 < F)%nat -> sendable type payload ->
  Q 0 (W en (sent_out fd (frame type payload) k)) -> wp (send_message_raw F fd type (Some payload)) Q (W en k).
Proof.
  intros Hfd Hf HF [Ht Hl] HQ. unfold send_message_raw. rewrite Ht. cbn [negb]. rewrite (proj2 (Z.ltb_ge _ _)) by done.
  apply wp_bind, wp_send_all_calm; [done|done|done|]. cbn [Z.eqb negb]. case_if.
  - apply wp_ret. assert (payload = []) as -> by by apply zlen_zero. exact HQ.
  - apply wp_bind, wp_send_all_calm; [done|done|done|]. cbn [Z.eqb negb]. apply wp_ret. rewrite sent_out_app. exact HQ.
Qed.

(** ** Sending to a slot *)

(** Every registered descriptor is an open socket. *)
Definition sockets_open (k : kern server) : Prop :=
  forall i e, clients (k_static k) !! i = Some e -> active e = true -> k_fds k !! socket_fd e = Some FdSocket.

(** The client that the pair (slot, id) designates is still there. *)
Definition current (s : server) (slot id : Z) (e : client_entry_t) : Prop :=
  0 <= slot /\ clients s !! Z.to_nat slot = Some e /\ active e = true /\ client_id e = id.

Lemma entry_lookup s slot e : clients s !! Z.to_nat slot = Some e -> entry s slot = e.
Proof. unfold entry. apply list_lookup_total_correct. Qed.

(** Takes the send mutex while holding [clients_mutex], releases the latter,
    and sends: the common part of the sending operations. *)
Lemma wp_send_locked F slot fd type payload h Q en (k : kern server) :
  socket_fd (entry (k_static k) slot) = fd ->
  k_fds k !! fd = Some FdSocket -> fuel_ok F en -> sendable type payload ->
  (forall en' h' r, env_lt en' en -> r = -1 -> Q r (W en' (with_held h' k))) ->
  (forall en' h' r out, env_le en' en -> (unlocked h -> held_ok en' en h' h) -> delivered type payload en' en r out ->
     Q r (W en' (with_held h' (sent_out fd out k)))) ->
  wp (r ← call (Mutex_lock (Send_mutex slot));
      if r != 0 then _ ← call (Mutex_unlock Clients_mutex); mret (-1) else
      st ← call Get_static;
      r ← call (Mutex_unlock Clients_mutex);
      if r != 0 then _ ← call (Mutex_unlock (Send_mutex slot)); mret (-1) else
      result ← send_message_raw F (socket_fd (entry st slot)) type (Some payload);
      _ ← call (Mutex_unlock (Send_mutex slot));
      mret result) Q (W en (with_held ({[Clients_mutex]} ∪ h) k)).
Proof.
  intros Hent Hfd HF Hs Hko Hok. apply wp_lock.
  { intros en1 z Hlt Hz. case_if; [|lia]. apply wp_unlock_any. intros en2 h2 z2 Hle2 _. apply wp_ret.
    rewrite with_held_held. apply Hko; [env_lia|done]. }
  intros en1 Hle1 _. cbn [negb Z.eqb]. apply wp_get. cbn [k_static with_held]. rewrite Hent.
  apply wp_unlock_any. intros en2 h2 z2 Hle2 Hz2.
  rewrite !with_held_held. simpl in Hz2. case_if.
  { apply wp_unlock_any. intros en3 h3 z3 Hle3 _. apply wp_ret. rewrite with_held_held. apply Hko; [env_lia|done]. }
  apply wp_bind, wp_send_message_raw; [done|by eapply fuel_ok_le; [|done]; env_lia|done|].
  intros en3 r out Hle3 _ Hd. apply wp_unlock_any. intros en4 h4 z4 Hle4 Hz4. apply wp_ret.
  change (sent_out fd out (with_held h2 k)) with (with_held h2 (sent_out fd out k)) in *. simpl in Hz4.
  rewrite with_held_held. apply Hok; [env_lia| |by eapply delivered_le; [| |done]; env_lia].
  intros [Hc Hsm]. specialize (Hsm slot). destruct Hz2 as [[_ ->]|[? _]]; [|lia].
  destruct Hz4 as [[_ ->]|(_ & _ & ?)]; [left; set_solver|right; env_lia].
Qed.

Lemma wp_send_to_target F slot id type payload Q en (k : kern server) :
  sockets_open k -> fuel_ok F en -> sendable type payload -> 0 <= slot < MAX_CLIENTS ->
  (exists e, clients (k_static k) !! Z.to_nat slot = Some e) ->
  (forall en' h' r, env_le en' en -> (unlocked (k_held k) -> held_ok en' en h' (k_held k)) ->
     (r = 1 /\ (forall e, ~ current (k_static k) slot id e) \/ r = -1 /\ env_lt en' en) ->
     Q r (W en' (with_held h' k))) ->
  (forall en' h' r e out, env_le en' en -> (unlocked (k_held k) -> held_ok en' en h' (k_held k)) ->
     current (k_static k) slot id e -> delivered type payload en' en r out ->
     Q r (W en' (with_held h' (sent_out (socket_fd e) out k)))) ->
  wp (send_to_target F slot id type (Some payload)) Q (W en k).
Proof.
  intros Hso HF Hs Hslot [e He] Hno Hyes. unfold send_to_target.
  replace ((slot <? 0) || (MAX_CLIENTS <=? slot)) with false
    by (symmetry; apply orb_false_iff; split; [apply Z.ltb_ge|apply Z.leb_gt]; lia).
  apply wp_lock.
  { intros en1 z Hlt Hz. case_if; [|lia]. apply wp_ret. rewrite <- (with_held_id k).
    apply Hno; [env_lia|by left|by right]. }
  intros en1 Hle1 _. cbn [negb Z.eqb]. apply wp_get. cbn [k_static with_held].
  rewrite (entry_lookup _ _ _ He). case_if.
  - apply wp_unlock_any. intros en2 h2 z2 Hle2 Hz2. apply wp_ret. rewrite with_held_held. simpl in Hz2.
    apply Hno; [env_lia| |left; split; [done|]].
    + intros [Hc _]. destruct Hz2 as [[_ ->]|(_ & _ & ?)]; [left; set_solver|right; env_lia].
    + intros e' (_ & He' & Ha & Hid). rewrite He in He'. injection He' as <-.
      rewrite Ha, Hid, Z.eqb_refl in E. done.
  - unbool.
    eapply wp_mono; [apply (wp_send_locked F slot (socket_fd e) type payload (k_held k)
      (fun r w => Q r w) en1 k); [by rewrite (entry_lookup _ _ _ He)|by eapply Hso|by eapply fuel_ok_le|done| |]|done].
    + intros en' h' r Hlt ->. apply Hno; [env_lia| |right; split; [done|env_lia]]. intros _. right. env_lia.
    + intros en' h' r out Hle Hh Hd.
      apply (Hyes en' h' r e out); [env_lia| |by split; [lia|]|by eapply delivered_le; [| |done]; [reflexivity|env_lia]].
      intros Hu. destruct (Hh Hu); [by left|right; env_lia].
Qed.

(** ** Sending to a socket, to a name *)

Lemma wp_client_manager_send F fd type payload Q en (k : kern server) :
  sockets_open k -> fuel_ok F en ->
  (forall en' h' r, env_le en' en -> (unlocked (k_held k) -> held_ok en' en h' (k_held k)) ->
     (r = 1 /\ sendable type payload /\ ~ registered (k_static k) fd \/
      r = -1 /\ (~ sendable type payload \/ env_lt en' en)) ->
     Q r (W en' (with_held h' k))) ->
  (forall en' h' r out, env_le en' en -> (unlocked (k_held k) -> held_ok en' en h' (k_held k)) ->
     registered (k_static k) fd -> sendable type payload -> delivered type payload en' en r out ->
     Q r (W en' (with_held h' (sent_out fd out k)))) ->
  wp (client_manager_send F fd type (Some payload)) Q (W en k).
Proof.
  intros Hso HF Hno Hyes. unfold client_manager_send.
  assert (Hbad : ~ sendable type payload -> Q (-1) (W en k)).
  { intros Hs. rewrite <- (with_held_id k). apply Hno; [env_lia|by left|auto]. }
  unfold sendable in Hbad. case_if; [apply wp_ret, Hbad; rewrite E; by intros [? _]|].
  case_if; [apply wp_ret, Hbad; intros [_ ?]; lia|].
  assert (Hs : sendable type payload) by done. clear Hbad. apply wp_lock.
  { intros en1 z Hlt Hz. case_if; [|lia]. apply wp_ret. rewrite <- (with_held_id k).
    apply Hno; [env_lia|by left|by right; auto]. }
  intros en1 Hle1 _. cbn [negb Z.eqb]. apply wp_get. cbn [k_static with_held].
  destruct (registeredb (k_static k) fd) eqn:Hr.
  2:{ assert (Hn : ~ registered (k_static k) fd) by (rewrite <- registeredb_true; congruence).
      rewrite socket_slot_unregistered by done. cbn [Z.ltb Z.compare].
      apply wp_unlock_any. intros en2 h2 z2 Hle2 Hz2. apply wp_ret. rewrite with_held_held. simpl in Hz2.
      apply Hno; [env_lia| |auto]. intros [Hc _].
      destruct Hz2 as [[_ ->]|(_ & _ & ?)]; [left; set_solver|right; env_lia]. }
  apply registeredb_true in Hr. pose proof Hr as (i & e & -> & Hi & Ha & He)%socket_slot_registered.
  rewrite (proj2 (Z.ltb_ge _ 0)) by lia.
  eapply (wp_send_locked F (Z.of_nat i) fd type payload (k_held k)); [|by subst; eapply Hso|by eapply fuel_ok_le|done|..].
  - rewrite (entry_lookup _ _ e); [done|]. by rewrite Nat2Z.id.
  - intros en' h' r Hlt ->. apply Hno; [env_lia|intros _; right; env_lia|]. right. split; [done|right; env_lia].
  - intros en' h' r out Hle Hh Hd.
    apply Hyes; [env_lia| |done|done|by eapply delivered_le; [| |done]; [reflexivity|env_lia]].
    intros Hu. destruct (Hh Hu); [by left|right; env_lia].
Qed.

Lemma wp_client_manager_send_to_username F name type payload Q en (k : kern server) :
  registry_ok (k_static k) -> sockets_open k -> fuel_ok F en ->
  (forall en' h' r, env_le en' en -> (unlocked (k_held k) -> held_ok en' en h' (k_held k)) ->
     (r = 1 /\ sendable type payload /\ username_ok name /\ users (k_static k) !! name = None \/
      r = -1 /\ (~ sendable type payload \/ ~ username_ok name \/ env_lt en' en)) ->
     Q r (W en' (with_held h' k))) ->
  (forall en' h' r fd id out, env_le en' en -> (unlocked (k_held k) -> held_ok en' en h' (k_held k)) ->
     users (k_static k) !! name = Some (fd, id) -> sendable type payload -> delivered type payload en' en r out ->
     Q r (W en' (with_held h' (sent_out fd out k)))) ->
  wp (client_manager_send_to_username F (Some name) type (Some payload)) Q (W en k).
Proof.
  intros Hok Hso HF Hno Hyes. unfold client_manager_send_to_username.
  assert (Hbad : ~ sendable type payload \/ ~ username_ok name -> Q (-1) (W en k)).
  { intros Hs. rewrite <- (with_held_id k). apply Hno; [env_lia|by left|right; split; [done|tauto]]. }
  rewrite <- is_valid_username_iff in Hbad. unfold sendable in Hbad.
  case_if; [apply wp_ret, Hbad; apply orb_true_iff in E as [E|E]; unbool; rewrite E; [by right|by left; intros [? _]]|].
  case_if; [apply wp_ret, Hbad; left; intros [_ ?]; lia|].
  assert (Hs : sendable type payload) by done.
  assert (Hn : username_ok name) by by apply is_valid_username_iff. clear Hbad. apply wp_lock.
  { intros en1 z Hlt Hz. case_if; [|lia]. apply wp_ret. rewrite <- (with_held_id k).
    apply Hno; [env_lia|by left|by right; auto]. }
  intros en1 Hle1 _. cbn [negb Z.eqb]. apply wp_get. cbn [k_static with_held].
  destruct (username_slot_spec (k_static k) name Hok) as [[-> Hnone]|(i & e & -> & Hi & Ha & He & Hu)].
  - cbn [Z.ltb Z.compare]. apply wp_unlock_any. intros en2 h2 z2 Hle2 Hz2. apply wp_ret. rewrite with_held_held. simpl in Hz2.
    apply Hno; [env_lia| |auto]. intros [Hc _].
    destruct Hz2 as [[_ ->]|(_ & _ & ?)]; [left; set_solver|right; env_lia].
  - rewrite (proj2 (Z.ltb_ge _ 0)) by lia.
    rewrite (entry_lookup _ _ e) by by rewrite Nat2Z.id.
    apply wp_unlock_any. intros en2 h2 z2 Hle2 Hz2. rewrite with_held_held. simpl in Hz2.
    assert (Hh : unlocked (k_held k) -> held_ok en2 en h2 (k_held k)).
    { intros [Hc _]. destruct Hz2 as [[_ ->]|(_ & _ & ?)]; [left; set_solver|right; env_lia]. }
    assert (Hchain : forall en3 h3, env_le en3 en2 -> (unlocked h2 -> held_ok en3 en2 h3 h2) ->
              unlocked (k_held k) -> held_ok en3 en h3 (k_held k)).
    { intros en3 h3 Hle3 H3 Hu0. destruct (Hh Hu0) as [->|?]; [|right; env_lia].
      destruct (H3 Hu0); [by left|right; env_lia]. }
    case_if.
    { apply wp_ret, Hno; [env_lia|done|]. right. split; [done|]. right. right. destruct Hz2 as [[? _]|(_ & _ & ?)]; [lia|env_lia]. }
    assert (Hlt64 := lookup_lt_Some _ _ _ Hi). rewrite (reg_length _ Hok) in Hlt64.
    apply wp_send_to_target; [done|by eapply fuel_ok_le; [|done]; env_lia|done|unfold MAX_CLIENTS; lia| | |].
    + exists e. simpl. by rewrite Nat2Z.id.
    + intros en3 h3 r Hle3 Hh3 [[_ Hc]|[-> Hlt]]; rewrite with_held_held.
      * destruct (Hc e). split_and!; [lia|simpl; by rewrite Nat2Z.id|done|done].
      * apply Hno; [env_lia|by apply Hchain|]. right. split; [done|]. right. right. env_lia.
    + intros en3 h3 r e' out Hle3 Hh3 (_ & He' & _) Hd. simpl in He'. rewrite Nat2Z.id, Hi in He'. injection He' as <-.
      change (sent_out (socket_fd e) out (with_held h2 k)) with (with_held h2 (sent_out (socket_fd e) out k)).
      rewrite with_held_held.
      apply (Hyes en3 h3 r _ (client_id e)); [env_lia|by apply Hchain|done|done|].
      eapply delivered_le; [reflexivity| |done]. env_lia.
Qed.

(** ** Broadcasting *)

(** The descriptors a broadcast addresses, in the order of the slots. *)
Definition addressee (sender : Z) (e : client_entry_t) : Prop := active e = true /\ socket_fd e ≠ sender.

#[export] Instance addressee_dec sender e : Decision (addressee sender e).
Proof. unfold addressee. apply _. Defined.

Definition others (s : server) (sender : Z) : list Z := socket_fd <$> filter (addressee sender) (clients s).

Lemma elem_of_others s sender fd : fd ∈ others s sender <-> registered s fd /\ fd ≠ sender.
Proof.
  unfold others, registered. rewrite list_elem_of_fmap. split.
  - intros (e & -> & [[Ha Hs] [i Hi]%list_elem_of_lookup]%list_elem_of_filter). split; [by exists i, e|done].
  - intros [(i & e & Hi & Ha & <-) Hs]. exists e. split; [done|].
    apply list_elem_of_filter. split; [done|]. by eapply list_elem_of_lookup_2.
Qed.

Lemma others_NoDup s sender : registry_ok s -> NoDup (others s sender).
Proof.
  intros Hok. unfold others.
  assert (Hs : forall i j e e', clients s !! i = Some e -> clients s !! j = Some e' ->
    active e = true -> active e' = true -> socket_fd e = socket_fd e' -> i = j) by apply (reg_sockets _ Hok).
  revert Hs. generalize (clients s). induction l as [|e l IH]; intros Hs; [constructor|].
  assert (Hl : NoDup (socket_fd <$> filter (addressee sender) l)).
  { apply IH. intros i j e1 e2 H1 H2 ? ? ?. enough (S i = S j) by lia. by eapply (Hs (S i) (S j)). }
  rewrite filter_cons. case_decide as Ha; [|done]. cbn [fmap list_fmap]. constructor; [|done].
  intros (e' & He' & [[Ha' _] [j Hj]%list_elem_of_lookup]%list_elem_of_filter)%list_elem_of_fmap.
  specialize (Hs 0%nat (S j) e e' eq_refl Hj (proj1 Ha) Ha' He'). lia.
Qed.

Definition target_is (s : server) (t : Z * Z) (fd : Z) : Prop :=
  exists e, current s t.1 t.2 e /\ t.1 < MAX_CLIENTS /\ socket_fd e = fd.

Lemma broadcast_targets_others s sender :
  registry_ok s -> Forall2 (target_is s) (broadcast_targets sender 0 (clients s)) (others s sender).
Proof.
  intros Hok. unfold others.
  assert (H : forall l i, (forall j e, l !! j = Some e -> clients s !! (i + j)%nat = Some e) ->
    Forall2 (target_is s) (broadcast_targets sender (Z.of_nat i) l) (socket_fd <$> filter (addressee sender) l)).
  { induction l as [|e l IH]; intros i Hl; cbn [broadcast_targets]; [constructor|].
    assert (Hrest := IH (S i) (fun j e' Hj => ltac:(rewrite Nat.add_succ_comm; exact (Hl (S j) e' Hj)))).
    rewrite Nat2Z.inj_succ, <- Z.add_1_r in Hrest.
    rewrite filter_cons. destruct (decide (addressee sender e)) as [[Ha Hse]|Hn].
    2:{ case_if; [exact Hrest|]. case_if; [exact Hrest|]. by destruct Hn. }
    rewrite Ha. cbn [negb]. rewrite (proj2 (Z.eqb_neq _ _) Hse). cbn [fmap list_fmap]. constructor; [|exact Hrest].
    specialize (Hl 0%nat e eq_refl). rewrite Nat.add_0_r in Hl. exists e. unfold current. cbn [fst snd].
    pose proof (lookup_lt_Some _ _ _ Hl) as Hlt. rewrite (reg_length _ Hok) in Hlt.
    rewrite Nat2Z.id. unfold MAX_CLIENTS. split_and!; [lia|done|done|done|lia|done]. }
  by apply (H _ 0%nat).
Qed.

(** What one addressee receives. *)
Definition shipped (type : Z) (payload : bytes) (en' en : env) (out : bytes) : Prop :=
  out = frame type payload \/
  env_lt en' en /\ exists n, (n < length (frame type payload))%nat /\ out = take n (frame type payload).

Definition sent_each (l : list (Z * bytes)) (k : kern server) : kern server :=
  fold_left (fun k p => sent_out p.1 p.2 k) l k.

Lemma sent_each_frame l k :
  with_out (k_out k) (sent_each l k) = k /\
  forall h err, sent_each l (with_held h (with_stderr err k)) = with_held h (with_stderr err (sent_each l k)).
Proof.
  revert k. induction l as [|p l IH]; intros k; [by destruct k|]. cbn [sent_each fold_left].
  destruct (IH (sent_out p.1 p.2 k)) as [H1 H2]. split; [|intros h err; exact (H2 h err)].
  unfold sent_each in H1. assert (E := f_equal (with_out (k_out k)) H1). simpl in E.
  transitivity (with_out (k_out k) (sent_out p.1 p.2 k)); [exact E|by destruct k].
Qed.

Definition complete (type : Z) (payload : bytes) (outs : list bytes) : Z :=
  zlen (filter (fun o => o = frame type payload) outs).

Lemma delivered_shipped type payload en' en r out : delivered type payload en' en r out -> shipped type payload en' en out.
Proof. intros [[_ ?]|(_ & ? & ?)]; [by left|by right]. Qed.

Lemma shipped_le type payload en3 en2 en1 en out :
  env_le en3 en2 -> env_le en1 en -> shipped type payload en2 en1 out -> shipped type payload en3 en out.
Proof. intros ? ? [?|[? ?]]; [by left|right]. split; [env_lia|done]. Qed.

Lemma complete_cons type payload r o outs en' en :
  delivered type payload en' en r o ->
  complete type payload (o :: outs) = (if r == 0 then 1 else 0) + complete type payload outs.
Proof.
  unfold complete. rewrite filter_cons. intros [[-> ->]|(-> & _ & n & Hn & ->)].
  - rewrite decide_True by done. by rewrite zlen_cons.
  - rewrite decide_False; [done|]. intros E%(f_equal length). rewrite length_take in E. lia.
Qed.

Lemma frame_nonempty type payload : frame type payload ≠ [].
Proof. done. Qed.

Lemma wp_broadcast_loop F s ts fds type payload n Q en (k : kern server) :
  registry_ok s -> Forall2 (target_is s) ts fds -> k_static k = s ->
  sockets_open k -> fuel_ok F en -> sendable type payload ->
  (forall en' h' err outs, env_le en' en -> (unlocked (k_held k) -> held_ok en' en h' (k_held k)) ->
     length outs = length fds -> Forall (shipped type payload en' en) outs ->
     Q (n + complete type payload outs) (W en' (with_held h' (with_stderr err (sent_each (zip fds outs) k))))) ->
  wp (broadcast_loop F ts type payload n) Q (W en k).
Proof.
  intros Hok Hts. revert n en k. induction Hts as [|[slot id] fd ts fds Ht Hts IH]; intros n en k Hk Hso HF Hs HQ.
  { apply wp_ret. specialize (HQ en (k_held k) (k_stderr k) [] ltac:(env_lia) ltac:(by left) eq_refl ltac:(constructor)).
    unfold complete in HQ. rewrite Z.add_0_r in HQ. simpl in HQ. by destruct k. }
  destruct Ht as (e & He & Hlt & Hfd). cbn [fst snd] in He, Hlt.
  assert (Hnext : forall en1 h1 out err r, env_le en1 en -> (unlocked (k_held k) -> held_ok en1 en h1 (k_held k)) ->
    delivered type payload en1 en r out ->
    wp (broadcast_loop F ts type payload (n + if r == 0 then 1 else 0)) Q
       (W en1 (with_held h1 (with_stderr err (sent_out fd out k))))).
  { intros en1 h1 out err r Hle1 Hh1 Hd. apply IH; [done|done|by eapply fuel_ok_le|done|].
    intros en2 h2 err2 outs Hle2 Hh2 Hl Hsh.
    specialize (HQ en2 h2 err2 (out :: outs)). rewrite (complete_cons _ _ _ _ _ _ _ Hd), Z.add_assoc in HQ.
    cbn [zip zip_with sent_each fold_left fst snd] in HQ.
    rewrite (proj2 (sent_each_frame _ _)).
    apply HQ; [env_lia| |simpl; lia|].
    - intros Hu. destruct (Hh1 Hu) as [->|?]; [|right; env_lia].
      destruct (Hh2 Hu); [by left|right; env_lia].
    - constructor; [eapply shipped_le; [| |by eapply delivered_shipped]; [done|reflexivity]|].
      eapply Forall_impl; [exact Hsh|]. intros o. by apply shipped_le. }
  pose proof He as (H0 & Hlk & _). cbn [broadcast_loop].
  apply wp_bind, wp_send_to_target; [done|done|done|lia|exists e; by rewrite Hk| |].
  - intros en1 h1 r Hle1 Hh1 [[_ Hc]|[-> Hl]]; [destruct (Hc e); by rewrite Hk|].
    cbn [Z.eqb Z.ltb Z.compare]. apply wp_eputs.
    specialize (Hnext en1 h1 [] (k_stderr k ++ B "Broadcast send failed for client ID " ++ dec id ++ B "." ++ [NEWLINE]) (-1)).
    rewrite sent_out_nil, Z.add_0_r in Hnext. apply Hnext; [done|done|]. right. split_and!; [done|done|].
    exists 0%nat. split; [rewrite length_frame; lia|done].
  - intros en1 h1 r e' out Hle1 Hh1 (_ & He' & _) Hd. rewrite Hk, Hlk in He'. injection He' as <-. rewrite Hfd.
    destruct Hd as [[-> ->]|(-> & Hlt1 & Hp)] eqn:Ed; cbn [Z.eqb Z.ltb Z.compare].
    + specialize (Hnext en1 h1 (frame type payload) (k_stderr k) 0 Hle1 Hh1 ltac:(by left)).
      by destruct k.
    + apply wp_eputs. specialize (Hnext en1 h1 out (k_stderr k ++ B "Broadcast send failed for client ID " ++ dec id ++ B "." ++ [NEWLINE]) (-1)).
      rewrite Z.add_0_r in Hnext. apply Hnext; [done|done|by right].
Qed.

(** ** Streaming a file *)

(** Reading the descriptor [fd] and sending what was read do not interfere. *)
Lemma sent_read {S} fd out file n (k : kern S) :
  sent_out fd out (read_ahead file n k) = read_ahead file n (sent_out fd out k).
Proof. unfold read_ahead, sent_out. destruct n; [done|]. simpl. by destruct (k_fds k !! file) as [[]|]. Qed.

Lemma read_ahead_socket {S} file n fd rest (k : kern S) :
  reading k file rest -> k_fds k !! fd = Some FdSocket -> k_fds (read_ahead file n k) !! fd = Some FdSocket.
Proof.
  intros (ino & off & fl & i & Hf & _) Hfd. unfold read_ahead. destruct n; [done|]. rewrite Hf. simpl.
  rewrite lookup_insert_ne; [done|]. intros ->. congruence.
Qed.

Lemma reading_sent {S} fd out file rest (k : kern S) : reading (sent_out fd out k) file rest <-> reading k file rest.
Proof. done. Qed.

(** The loop sends the rest of the file, in order, each byte once. [steps] is
    the number of chunks, which bounds the iterations without faults. *)
Lemma wp_file_stream_loop F fuel slot fd file remaining steps rest Q en (k : kern server) :
  k_fds k !! fd = Some FdSocket -> reading k file rest ->
  remaining <= FILE_CHUNK_SIZE * Z.of_nat steps ->
  (script_len en + steps < fuel \/ rest = [] /\ script_len en < fuel)%nat -> fuel_ok F en ->
  (forall en' h', env_le en' en -> (h' = k_held k ∖ {[Send_mutex slot]} \/ env_lt en' en) ->
     remaining <= zlen rest \/ remaining <= 0 ->
     forall r, r = 0 \/ r = -1 /\ env_lt en' en ->
     Q r (W en' (with_held h' (read_ahead file (Z.to_nat remaining) (sent_out fd (take (Z.to_nat remaining) rest) k))))) ->
  (forall en' h' n m, env_le en' en -> (h' = k_held k ∖ {[Send_mutex slot]} \/ env_lt en' en) ->
     (m <= n)%nat -> (n <= Z.to_nat remaining)%nat -> (n <= length rest)%nat ->
     (zlen rest < remaining \/ env_lt en' en) ->
     Q (-1) (W en' (with_held h' (read_ahead file n (sent_out fd (take m rest) k))))) ->
  wp (file_stream_loop F fuel slot fd file remaining) Q (W en k).
Proof.
  revert remaining steps rest en k. induction fuel as [|fuel IH]; intros remaining steps rest en k Hfd Hrd Hst Hfuel HF Hok Hko;
    [lia|]. cbn [file_stream_loop].
  assert (Hfail : forall en1 n m, env_le en1 en -> (m <= n)%nat -> (n <= Z.to_nat remaining)%nat -> (n <= length rest)%nat ->
     (zlen rest < remaining \/ env_lt en1 en) ->
     wp (_ ← call (Mutex_unlock (Send_mutex slot)); mret (-1)) Q (W en1 (read_ahead file n (sent_out fd (take m rest) k)))).
  { intros en1 n m Hle1 Hm Hn Hn' Hwhy. apply wp_unlock_any. intros en2 h2 z2 Hle2 Hz2. apply wp_ret.
    assert (Hheld : k_held (read_ahead file n (sent_out fd (take m rest) k)) = k_held k).
    { unfold read_ahead. destruct n; [done|]. by destruct (k_fds _ !! file) as [[]|]. }
    rewrite Hheld in Hz2.
    apply Hko; [env_lia| |done|done|done|destruct Hwhy; [by left|right; env_lia]].
    destruct Hz2 as [[_ ->]|(_ & _ & ?)]; [by left|right; env_lia]. }
  case_if.
  2:{ replace (Z.to_nat remaining) with 0%nat in Hok by lia.
      apply wp_unlock_any. intros en1 h1 z1 Hle1 Hz1.
      specialize (Hok en1 h1 Hle1 ltac:(destruct Hz1 as [[_ ->]|(_ & _ & ?)]; [by left|by right]) ltac:(by right)).
      rewrite take_0, sent_out_nil in Hok.
      case_if; apply wp_ret, Hok; [right|by left]. split; [done|]. destruct Hz1 as [[? _]|(_ & _ & ?)]; [done|env_lia]. }
  set (requested := if FILE_CHUNK_SIZE <? remaining then FILE_CHUNK_SIZE else remaining).
  assert (Hreq : 0 < requested <= remaining /\ requested <= FILE_CHUNK_SIZE /\ (requested = FILE_CHUNK_SIZE \/ requested = remaining)).
  { unfold requested, FILE_CHUNK_SIZE in *. case_if; lia. }
  assert (H00 : read_ahead file 0 (sent_out fd (take 0 rest) k) = k) by (rewrite take_0; apply sent_out_nil).
  eapply wp_read; [exact Hrd|..].
  - intros en1 Hlt1 _. apply wp_errno. case_if.
    + eapply (IH remaining steps rest); [done|done|done| |eapply fuel_ok_le; [|done]; env_lia|..].
      * destruct Hfuel as [?|[? ?]]; [left|right; split; [done|]]; env_lia.
      * intros en2 h2 Hle2 Hh Hl r Hr. apply Hok; [env_lia|destruct Hh; [by left|right; env_lia]|done|].
        destruct Hr as [->|[-> ?]]; [by left|right; split; [done|env_lia]].
      * intros en2 h2 n m Hle2 Hh ? ? ? Hw. apply Hko; [env_lia|destruct Hh; [by left|right; env_lia]|done|done|done|right; env_lia].
    + rewrite <- H00. apply Hfail; [env_lia|lia|lia|lia|right; env_lia].
  - intros en1 m Hle1 Hm Hm' Hfull. destruct (take m rest) as [|b chunk] eqn:Ech.
    { assert (m = 0)%nat as -> by (apply (f_equal length) in Ech; rewrite length_take in Ech; simpl in Ech; lia).
      assert (H01 : read_ahead file 0 k = k) by done. rewrite H01, <- H00.
      apply Hfail; [env_lia|lia|lia|lia|]. destruct Hfull as [Hf|?]; [left; unfold zlen; lia|by right]. }
    rewrite <- Ech. assert (0 < m)%nat by (destruct m; [done|lia]). clear Ech b chunk.
    apply wp_bind, wp_send_all; [by eapply read_ahead_socket|by eapply fuel_ok_le|..].
    + intros en2 Hle2. cbn [negb Z.eqb]. rewrite sent_read.
      assert (zlen (take m rest) = Z.of_nat m) as -> by (unfold zlen; rewrite length_take; lia).
      set (k1 := read_ahead file m (sent_out fd (take m rest) k)).
      assert (Hheld : k_held k1 = k_held k).
      { unfold k1, read_ahead. destruct m; [done|]. by destruct (k_fds _ !! file) as [[]|]. }
      assert (Hk1 : forall n p, read_ahead file n (sent_out fd (take p (drop m rest)) k1)
                                = read_ahead file (m + n) (sent_out fd (take (m + p) rest) k)).
      { intros n p. unfold k1. rewrite sent_read, sent_out_app, take_add_drop, read_ahead_add. done. }
      eapply (IH (remaining - Z.of_nat m) (if decide (m = Z.to_nat requested) then pred steps else steps) (drop m rest));
        [by eapply read_ahead_socket; [apply reading_sent|]|by apply reading_ahead, reading_sent| | |by eapply fuel_ok_le; [|done]; env_lia|..];
        rewrite ?Hheld.
      * unfold FILE_CHUNK_SIZE in *. case_decide; lia.
      * assert (rest ≠ []) by (intros ->; simpl in *; lia). destruct Hfuel as [Hfuel|[? _]]; [|done].
        unfold FILE_CHUNK_SIZE in *. destruct steps as [|steps]; [lia|]. case_decide; [left; env_lia|].
        destruct Hfull as [Hf|?]; [right|left; env_lia]. split; [apply drop_ge; lia|env_lia].
      * intros en3 h3 Hle3 Hh Hl r Hr. replace (Z.to_nat (remaining - Z.of_nat m)) with (Z.to_nat remaining - m)%nat by lia.
        rewrite Hk1. replace (m + (Z.to_nat remaining - m))%nat with (Z.to_nat remaining) by lia.
        apply Hok; [env_lia|destruct Hh; [by left|right; env_lia]| |].
        -- unfold zlen in *. rewrite length_drop in Hl. lia.
        -- destruct Hr as [->|[-> ?]]; [by left|right; split; [done|env_lia]].
      * intros en3 h3 n p Hle3 Hh Hp Hn Hn' Hw. rewrite Hk1. rewrite length_drop in Hn'.
        apply Hko; [env_lia|destruct Hh; [by left|right; env_lia]|lia|lia|lia|].
        unfold zlen in *. rewrite length_drop in Hw. destruct Hw; [left; lia|right; env_lia].
    + intros en2 p Hlt2 Hp. cbn [negb Z.eqb]. rewrite length_take in Hp. rewrite take_take.
      rewrite sent_read. apply Hfail; [env_lia|lia|lia|lia|right; env_lia].
Qed.

(** Fuel for a file of the largest allowed size: 6400 chunks. *)
Definition stream_fuel (F : nat) (en : env) : Prop := Z.of_nat (script_len en) + 6402 < Z.of_nat F.

Lemma stream_fuel_ok F en : stream_fuel F en -> fuel_ok F en.
Proof. unfold stream_fuel, fuel_ok. lia. Qed.

(** What a file stream writes: the frame, then the bytes of the file. *)
Definition file_stream (type : Z) (metadata : bytes) (size : Z) (rest : bytes) : bytes :=
  frame type metadata ++ take (Z.to_nat size) rest.

(** [-1] is returned after some prefix of the stream, and only for a reason. *)
Definition stream_failure (s : server) (fd type : Z) (metadata : bytes) (size : Z) (rest : bytes) (en' en : env) : Prop :=
  ~ sendable type metadata \/ FILE_MAX_SIZE < size \/ fd < 0 \/ ~ registered s fd \/ zlen rest < size \/ env_lt en' en.

Lemma take_prefix_of {A} n (l : list A) : take n l `prefix_of` l.
Proof. exists (drop n l). by rewrite take_drop. Qed.

Lemma wp_send_file_stream F fd type metadata file size rest Q en (k : kern server) :
  sockets_open k -> reading k file rest -> 0 <= file -> 0 <= size -> stream_fuel F en ->
  (forall en' h', env_le en' en -> (unlocked (k_held k) -> held_ok en' en h' (k_held k)) ->
     sendable type metadata -> registered (k_static k) fd -> size <= FILE_MAX_SIZE -> size <= zlen rest ->
     Q 0 (W en' (with_held h' (read_ahead file (Z.to_nat size) (sent_out fd (file_stream type metadata size rest) k))))) ->
  (forall en' h' n out, env_le en' en -> (unlocked (k_held k) -> held_ok en' en h' (k_held k)) ->
     stream_failure (k_static k) fd type metadata size rest en' en ->
     out `prefix_of` file_stream type metadata size rest ->
     Q (-1) (W en' (with_held h' (read_ahead file n (sent_out fd out k))))) ->
  wp (client_manager_send_file_stream F fd type (Some metadata) file size) Q (W en k).
Proof.
  intros Hso Hrd Hfile Hsize HF Hok Hko. unfold client_manager_send_file_stream.
  assert (Hko0 : forall en' h', env_le en' en -> (unlocked (k_held k) -> held_ok en' en h' (k_held k)) ->
     stream_failure (k_static k) fd type metadata size rest en' en -> Q (-1) (W en' (with_held h' k))).
  { intros en' h' Hle Hh Hf. specialize (Hko en' h' 0%nat [] Hle Hh Hf ltac:(by eexists)).
    rewrite sent_out_nil in Hko. exact Hko. }
  assert (Hko1 : forall en', env_le en' en -> stream_failure (k_static k) fd type metadata size rest en' en -> Q (-1) (W en' k)).
  { intros. rewrite <- (with_held_id k). apply Hko0; [done|by left|done]. }
  unfold stream_failure, sendable in *. case_if.
  { apply wp_ret, Hko1; [env_lia|]. rewrite !orb_true_iff in E. destruct E as [[[[E|E]|E]|E]|E]; unbool;
      [tauto|lia|left; rewrite E; by intros [? _]|left; intros [_ ?]; lia|tauto]. }
  unbool. assert (Hs : sendable type metadata) by by split. apply wp_lock.
  { intros en1 z Hlt Hz. case_if; [|lia]. apply wp_ret, Hko1; [env_lia|tauto]. }
  intros en1 Hle1 _. cbn [negb Z.eqb]. apply wp_get. cbn [k_static with_held].
  destruct (registeredb (k_static k) fd) eqn:Hr.
  2:{ assert (Hn : ~ registered (k_static k) fd) by (rewrite <- registeredb_true; congruence).
      rewrite socket_slot_unregistered by done. cbn [Z.ltb Z.compare].
      apply wp_unlock_any. intros en2 h2 z2 Hle2 Hz2. apply wp_ret. rewrite with_held_held. simpl in Hz2.
      apply Hko0; [env_lia| |tauto]. intros [Hc _].
      destruct Hz2 as [[_ ->]|(_ & _ & ?)]; [left; set_solver|right; env_lia]. }
  apply registeredb_true in Hr. pose proof Hr as (i & e & -> & Hi & Ha & He)%socket_slot_registered.
  assert (Hfd : k_fds k !! fd = Some FdSocket) by (subst; by eapply Hso).
  rewrite (proj2 (Z.ltb_ge _ 0)) by lia. apply wp_lock.
  { intros en2 z Hlt Hz. case_if; [|lia]. apply wp_unlock_any. intros en3 h3 z3 Hle3 _. apply wp_ret. rewrite with_held_held.
    apply Hko0; [env_lia|intros _; right; env_lia|do 5 right; env_lia]. }
  intros en2 Hle2 _. cbn [negb Z.eqb]. apply wp_get. cbn [k_static with_held].
  rewrite (entry_lookup _ _ e) by by rewrite Nat2Z.id. rewrite Ha, He, !Z.eqb_refl. cbn [negb orb].
  apply wp_unlock_any. intros en3 h3 z3 Hle3 Hz3. simpl in Hz3. rewrite !with_held_held. case_if.
  { apply wp_unlock_any. intros en4 h4 z4 Hle4 _. apply wp_ret. rewrite with_held_held.
    destruct Hz3 as [[? _]|(_ & _ & ?)]; [done|].
    apply Hko0; [env_lia|intros _; right; env_lia|do 5 right; env_lia]. }
  assert (Hheld : unlocked (k_held k) -> h3 ∖ {[Send_mutex (Z.of_nat i)]} = k_held k).
  { intros [Hc Hsm]. specialize (Hsm (Z.of_nat i)). destruct Hz3 as [[_ ->]|[? _]]; [set_solver|lia]. }
  assert (Hrel : forall en' (h' : gset mutex), env_le en' en3 -> (h' = h3 ∖ {[Send_mutex (Z.of_nat i)]} \/ env_lt en' en3) ->
     unlocked (k_held k) -> held_ok en' en h' (k_held k)).
  { intros en' h' Hle' [->|?] Hu; [left; auto|right; env_lia]. }
  apply wp_bind, wp_send_message_raw; [done|eapply fuel_ok_le; [|by apply stream_fuel_ok]; env_lia|done|].
  intros en4 r out Hle4 _ Hd. destruct Hd as [[-> ->]|(-> & Hlt4 & n & Hn & ->)]; cbn [negb Z.eqb].
  2:{ apply wp_unlock_any. intros en5 h5 z5 Hle5 Hz5. apply wp_ret. simpl in Hz5.
      change (with_held h5 (sent_out fd ?o (with_held h3 k))) with (with_held h5 (read_ahead file 0 (sent_out fd o k))).
      apply Hko; [env_lia|apply Hrel; [env_lia|]|do 5 right; env_lia|].
      - destruct Hz5 as [[_ ->]|(_ & _ & ?)]; [by left|right; env_lia].
      - unfold file_stream. by apply prefix_app_r, take_prefix_of. }
  assert (Hcomm : forall h n o o', read_ahead file n (sent_out fd o (sent_out fd o' (with_held h k)))
            = with_held h (read_ahead file n (sent_out fd (o' ++ o) k))).
  { intros. rewrite sent_out_app. unfold read_ahead, sent_out. destruct n; [done|]. simpl.
    by destruct (k_fds k !! file) as [[]|]. }
  eapply (wp_file_stream_loop F F (Z.of_nat i) fd file size (Z.to_nat 6400) rest); [done|done| | |eapply fuel_ok_le; [|by apply stream_fuel_ok]; env_lia|..].
  - unfold FILE_MAX_SIZE, FILE_CHUNK_SIZE in *. lia.
  - left. unfold stream_fuel in HF. env_lia.
  - intros en5 h5 Hle5 Hh Hl r Hr'. rewrite Hcomm, with_held_held.
    destruct Hr' as [->|[-> Hlt5]].
    + apply Hok; [env_lia|apply Hrel; [env_lia|]|done|done|lia|pose proof (zlen_nonneg rest); lia].
      destruct Hh as [Hh|?]; [by left|right; env_lia].
    + apply Hko; [env_lia|apply Hrel; [env_lia|right; env_lia]|do 5 right; env_lia|done].
  - intros en5 h5 n m Hle5 Hh Hm Hn Hn' Hw. rewrite Hcomm, with_held_held.
    apply Hko; [env_lia|apply Hrel; [env_lia|]| |].
    + destruct Hh as [Hh|?]; [by left|right; env_lia].
    + destruct Hw; [tauto|do 5 right; env_lia].
    + unfold file_stream. apply prefix_app.
      replace m with (Nat.min m (Z.to_nat size)) by lia. rewrite <- take_take. apply take_prefix_of.
Qed.

(** Without faults the whole frame is sent, and errno is left alone. *)
Lemma wp_client_manager_send_calm F fd type payload Q en (k : kern server) :
  sockets_open k -> unlocked (k_held k) -> faultless en -> (1 < F)%nat -> registered (k_static k) fd -> sendable type payload ->
  Q 0 (W en (sent_out fd (frame type payload) k)) -> wp (client_manager_send F fd type (Some payload)) Q (W en k).
Proof.
  intros Hso [Hc Hs] Hf HF Hr Hok HQ. pose proof Hok as [Ht Hl]. unfold client_manager_send. rewrite Ht. cbn [negb].
  rewrite (proj2 (Z.ltb_ge _ _)) by done. apply wp_pthread_faultless; [done|]. cbn [Z.eqb negb]. apply wp_get. cbn [k_static with_held].
  pose proof Hr as (i & e & -> & Hi & Ha & <-)%socket_slot_registered. rewrite (proj2 (Z.ltb_ge _ _)) by lia.
  apply wp_pthread_faultless; [done|]. cbn [Z.eqb negb]. apply wp_get. cbn [k_static with_held].
  rewrite (entry_lookup _ _ e) by by rewrite Nat2Z.id.
  apply wp_pthread_faultless; [done|]. cbn [Z.eqb negb]. rewrite !with_held_held.
  apply wp_bind, wp_send_message_raw_calm; [by eapply Hso|done|done|done|].
  apply wp_pthread_faultless; [done|]. apply wp_ret. cbn [k_held sent_out with_out with_held].
  match goal with |- Q 0 (W en (with_held ?h _)) => replace h with (k_held k) end.
  - by replace (with_held (k_held k) _) with (sent_out (socket_fd e) (frame type payload) k) by by destruct k.
  - specialize (Hs (Z.of_nat i)). set_solver.
Qed.

(** ** The broadcast as a whole *)

Lemma stream_sent_each_other l k fd : fd ∉ l.*1 -> stream (k_out (sent_each l k)) fd = stream (k_out k) fd.
Proof.
  revert k. induction l as [|[f o] l IH]; intros k Hfd; [done|]. cbn [sent_each fold_left].
  change (fold_left _ l ?k1) with (sent_each l k1). simpl in Hfd.
  rewrite IH by set_solver. simpl. apply stream_app_ne. set_solver.
Qed.

Lemma stream_sent_each fds outs k :
  NoDup fds -> length outs = length fds ->
  Forall2 (fun fd out => stream (k_out (sent_each (zip fds outs) k)) fd = stream (k_out k) fd ++ out) fds outs.
Proof.
  intros Hnd. revert outs k. induction Hnd as [|f fds Hf Hnd IH]; intros [|o outs] k Hl; try done.
  simpl in Hl. cbn [zip zip_with sent_each fold_left fst snd]. change (fold_left _ ?l ?k1) with (sent_each l k1).
  change (zip_with pair fds outs) with (zip fds outs). constructor.
  - rewrite stream_sent_each_other; [apply stream_app_eq|]. rewrite fst_zip by lia. done.
  - eapply (Forall2_impl_l (fun fd => fd ≠ f)); [|apply (IH outs (sent_out f o k)); lia|].
    + apply Forall_forall. by intros fd Hfd ->.
    + intros fd out Hfd ->. simpl. by rewrite stream_app_ne.
Qed.

Lemma wp_client_manager_broadcast F sender type payload Q en (k : kern server) :
  registry_ok (k_static k) -> sockets_open k -> fuel_ok F en ->
  (forall en' h' err outs r, env_le en' en -> (unlocked (k_held k) -> held_ok en' en h' (k_held k)) ->
     length outs = length (others (k_static k) sender) -> Forall (shipped type payload en' en) outs -> sendable type payload ->
     (r = complete type payload outs \/ r = -1 /\ env_lt en' en) ->
     Q r (W en' (with_held h' (with_stderr err (sent_each (zip (others (k_static k) sender) outs) k))))) ->
  (~ sendable type payload -> Q (-1) (W en k)) ->
  wp (client_manager_broadcast F sender type (Some payload)) Q (W en k).
Proof.
  intros Hok Hso HF HQ Hbad. unfold client_manager_broadcast. unfold sendable in *.
  case_if; [apply wp_ret, Hbad; rewrite E; by intros [? _]|].
  case_if; [apply wp_ret, Hbad; intros [_ ?]; lia|]. clear Hbad.
  assert (Hs : sendable type payload) by done. set (fds := others (k_static k) sender) in *.
  assert (Hfail : forall en1 h1, env_lt en1 en -> (unlocked (k_held k) -> held_ok en1 en h1 (k_held k)) -> Q (-1) (W en1 (with_held h1 k))).
  { intros en1 h1 Hlt Hh. specialize (HQ en1 h1 (k_stderr k) (replicate (length fds) []) (-1)).
    assert (sent_each (zip fds (replicate (length fds) [])) k = k) as Hnil.
    { clear HQ. induction fds as [|f fds IH]; [done|]. simpl. cbn [sent_each fold_left fst snd]. rewrite sent_out_nil. exact IH. }
    rewrite Hnil in HQ. assert (with_stderr (k_stderr k) k = k) as Hst by by destruct k. rewrite Hst in HQ.
    apply HQ; [env_lia|done|apply length_replicate| |done|auto].
    apply Forall_replicate. right. split; [done|]. exists 0%nat. rewrite length_frame. split; [lia|done]. }
  apply wp_lock.
  { intros en1 z Hlt Hz. case_if; [|lia]. apply wp_ret. rewrite <- (with_held_id k). apply Hfail; [done|by left]. }
  intros en1 Hle1 _. cbn [negb Z.eqb]. apply wp_get. cbn [k_static with_held].
  apply wp_unlock_any. intros en2 h2 z2 Hle2 Hz2. simpl in Hz2. rewrite with_held_held.
  assert (Hh : unlocked (k_held k) -> held_ok en2 en h2 (k_held k)).
  { intros [Hc _]. destruct Hz2 as [[_ ->]|(_ & _ & ?)]; [left; set_solver|right; env_lia]. }
  case_if.
  { apply wp_ret. destruct Hz2 as [[? _]|(_ & _ & ?)]; [done|]. apply Hfail; [env_lia|done]. }
  apply wp_bind, (wp_broadcast_loop F (k_static k) _ fds type payload 0); try done.
  - by apply broadcast_targets_others.
  - eapply fuel_ok_le; [|done]. env_lia.
  - intros en3 h3 err outs Hle3 Hh3 Hl Hsh. apply wp_ret. cbn [with_stderr with_held].
    assert (E' : with_held h3 (with_stderr err (sent_each (zip fds outs) (with_held h2 k)))
       = with_held h3 (with_stderr err (sent_each (zip fds outs) k))).
    { destruct (sent_each_frame (zip fds outs) k) as [_ Hf]. specialize (Hf h2 (k_stderr k)).
      assert (with_stderr (k_stderr k) k = k) as Hst by by destruct k. rewrite Hst in Hf. by rewrite Hf. }
    rewrite E'. apply HQ; [env_lia| |done| |done|left; lia].
    + intros Hu. destruct (Hh Hu) as [->|?]; [|right; env_lia]. destruct (Hh3 Hu); [by left|right; env_lia].
    + eapply Forall_impl; [exact Hsh|]. intros o. apply shipped_le; [reflexivity|env_lia].
Qed.

(** ** A room with two users, for the examples *)

Definition room_state : server :=
  add_state 1 6 2 (B "bob") (add_state 0 5 1 (B "alice") (init_state server_start)).

Definition room : kern server :=
  with_inodes {[ 1%positive := mk_inode (B "hello world") 0 ]}
    (with_fds {[ 5 := FdSocket; 6 := FdSocket; 7 := FdFile 1 0 O_RDONLY ]} (idle room_state)).

Lemma room_alice_ok : registry_ok (add_state 0 5 1 (B "alice") (init_state server_start)).
Proof.
  apply (add_state_ok _ 0 free_entry); try done; [apply init_state_ok|by apply is_valid_username_iff|].
  intros (i & e & Hi & Ha & _). by apply lookup_replicate in Hi as [-> _].
Qed.

Lemma room_ok : registry_ok (k_static room).
Proof.
  apply (add_state_ok _ 1 free_entry); try done; [apply room_alice_ok|by apply is_valid_username_iff|].
  rewrite <- registeredb_true. by vm_compute.
Qed.

Lemma room_unlocked : unlocked (k_held room).
Proof. split; [done|]. intros i. done. Qed.

Lemma room_sockets : sockets_open room.
Proof.
  intros [|[|i]] e Hi Ha; [by injection Hi as <-..|].
  change (replicate 62 free_entry !! i = Some e) in Hi. by apply lookup_replicate in Hi as [-> _].
Qed.

Lemma room_reading : reading room 7 (B "hello world").
Proof. exists 1%positive, 0%nat, O_RDONLY, (mk_inode (B "hello world") 0). done. Qed.

(** ** Properties *)

(** [client_manager_send] to a registered socket ends having appended to
    that client's stream, and to nothing else, one complete frame (result 0)
    or, after a fault, a strict prefix of it (result -1); the send and
    registry mutexes are released again. *)
Lemma send_delivers_one_frame F fd type payload en (k : kern server) :
  sockets_open k -> unlocked (k_held k) -> fuel_ok F en ->
  registered (k_static k) fd -> sendable type payload ->
  runs (client_manager_send F fd type (Some payload)) (W en k) (fun r '(W en' k') =>
    exists out, delivered type payload en' en r out /\
      k' = with_held (k_held k') (sent_out fd out k) /\ (faultless en -> k' = sent_out fd (frame type payload) k)).
Proof.
  intros Hso Hu HF Hr Hs. apply wp_runs, wp_client_manager_send; [done|done|..].
  - intros en' h' r Hle Hh [(_ & _ & ?)|(-> & [?|Hlt])]; [done|done|]. exists []. rewrite sent_out_nil.
    split_and!; [|done|intros Hf; by destruct (faultless_not_lt _ _ Hf Hlt)].
    right. split_and!; [done|done|]. exists 0%nat. rewrite length_frame. split; [lia|done].
  - intros en' h' r out Hle Hh _ _ Hd. exists out. split_and!; [done|done|].
    intros Hf. destruct Hd as [[-> ->]|(_ & Hlt & _)], (Hh Hu) as [->|Hlt']; try by destruct (faultless_not_lt en en').
    by destruct k.
Qed.

Lemma send_delivers_one_frame_witness :
  runs (client_manager_send 3 5 MSG_RESPONSE (Some (B "hi"))) (W (mk_env [Short 3] 0 [] [] []) room) (fun r '(W en' k') =>
    exists out, delivered MSG_RESPONSE (B "hi") en' (mk_env [Short 3] 0 [] [] []) r out /\
      k' = with_held (k_held k') (sent_out 5 out room) /\
      (faultless (mk_env [Short 3] 0 [] [] []) -> k' = sent_out 5 (frame MSG_RESPONSE (B "hi")) room)).
Proof.
  apply send_delivers_one_frame;
    [apply room_sockets|apply room_unlocked|by vm_compute; lia|by apply registeredb_true|by split].
Defined.

(** A delivery to a (slot, client id) pair that no longer designates a
    connected client, because it left or its slot was reused, returns 1 and
    sends nothing to whoever occupies the slot now. *)
Theorem stale_target_receives_nothing F slot id type payload en (k : kern server) :
  registry_ok (k_static k) -> sockets_open k -> fuel_ok F en -> sendable type payload -> 0 <= slot < MAX_CLIENTS ->
  (forall e, ~ current (k_static k) slot id e) ->
  runs (send_to_target F slot id type (Some payload)) (W en k) (fun r '(W en' k') =>
    k' = with_held (k_held k') k /\ (r = 1 \/ r = -1 /\ env_lt en' en)).
Proof.
  intros Hok Hso HF Hs Hslot Hst. apply wp_runs, wp_send_to_target; try done.
  - apply lookup_lt_is_Some_2. rewrite (reg_length _ Hok). unfold MAX_CLIENTS in Hslot. lia.
  - intros en' h' r Hle Hh Hr. split; [done|]. destruct Hr as [[? _]|?]; auto.
  - intros en' h' r e out _ _ Hc. by destruct (Hst e).
Qed.

(** Bob's slot, with the id of a client that left before he came. *)
Lemma stale_target_receives_nothing_witness :
  runs (send_to_target 3 1 77 MSG_BROADCAST (Some (B "hi"))) (W calm room) (fun r '(W en' k') =>
    k' = with_held (k_held k') room /\ (r = 1 \/ r = -1 /\ env_lt en' calm)).
Proof.
  apply stale_target_receives_nothing;
    [apply room_ok|apply room_sockets|by vm_compute; lia|by split|done|].
  intros e (_ & He & _ & Hid). vm_compute in He. injection He as <-. done.
Defined.

(** C21. [client_manager_send_to_username] delivers the frame to the socket of
    the client with that name; to nobody, with result 1, if no such client is
    logged in; and rejects invalid names, types and texts with -1. *)
Theorem private_reaches_the_named_user F name type payload en (k : kern server) :
  registry_ok (k_static k) -> sockets_open k -> fuel_ok F en ->
  runs (client_manager_send_to_username F (Some name) type (Some payload)) (W en k) (fun r '(W en' k') =>
    match users (k_static k) !! name with
    | Some (fd, _) =>
        k' = with_held (k_held k') k /\ r = -1 /\ (~ sendable type payload \/ env_lt en' en) \/
        exists out, delivered type payload en' en r out /\ k' = with_held (k_held k') (sent_out fd out k)
    | None =>
        k' = with_held (k_held k') k /\
        (r = 1 /\ username_ok name /\ sendable type payload \/
         r = -1 /\ (~ username_ok name \/ ~ sendable type payload \/ env_lt en' en))
    end).
Proof.
  intros Hok Hso HF. apply wp_runs, wp_client_manager_send_to_username; [done..| |].
  - intros en' h' r Hle Hh [(-> & Hs & Hn & Hnone)|(-> & Hr)].
    + rewrite Hnone. split; [done|by left].
    + destruct (users (k_static k) !! name) as [[fd id]|] eqn:E.
      * left. split_and!; [done|done|]. destruct Hr as [?|[Hn|?]]; auto. destruct Hn.
        apply users_lookup in E as (i & e & Hi & Ha & <- & _); [|done].
        pose proof (reg_entries _ Hok _ _ Hi) as He. unfold entry_ok in He. rewrite Ha in He. apply He.
      * split; [done|right]. tauto.
  - intros en' h' r fd id out Hle Hh -> Hs Hd. right. eauto.
Qed.

Lemma private_reaches_the_named_user_witness :
  runs (client_manager_send_to_username 3 (Some (B "bob")) MSG_PRIVATE (Some (B "alice hi"))) (W calm room) (fun r '(W en' k') =>
    match users (k_static room) !! B "bob" with
    | Some (fd, _) =>
        k' = with_held (k_held k') room /\ r = -1 /\ (~ sendable MSG_PRIVATE (B "alice hi") \/ env_lt en' calm) \/
        exists out, delivered MSG_PRIVATE (B "alice hi") en' calm r out /\ k' = with_held (k_held k') (sent_out fd out room)
    | None =>
        k' = with_held (k_held k') room /\
        (r = 1 /\ username_ok (B "bob") /\ sendable MSG_PRIVATE (B "alice hi") \/
         r = -1 /\ (~ username_ok (B "bob") \/ ~ sendable MSG_PRIVATE (B "alice hi") \/ env_lt en' calm))
    end).
Proof. apply private_reaches_the_named_user; [apply room_ok|apply room_sockets|by vm_compute; lia]. Defined.

(** C20. A broadcast gives each connected client other than the sender one
    complete frame or, after a fault, a strict prefix of it; every other
    stream is untouched; and the result is the number of clients that got the
    complete frame. *)
Theorem broadcast_reaches_the_others F sender type payload en (k : kern server) :
  registry_ok (k_static k) -> sockets_open k -> fuel_ok F en -> sendable type payload ->
  runs (client_manager_broadcast F sender type (Some payload)) (W en k) (fun r '(W en' k') =>
    exists outs,
      Forall2 (fun fd out => shipped type payload en' en out /\
                 stream (k_out k') fd = stream (k_out k) fd ++ out) (others (k_static k) sender) outs /\
      (forall fd, fd ∉ others (k_static k) sender -> stream (k_out k') fd = stream (k_out k) fd) /\
      (r = zlen (filter (fun out => out = frame type payload) outs) \/ r = -1 /\ env_lt en' en)).
Proof.
  intros Hok Hso HF Hs. apply wp_runs, wp_client_manager_broadcast; [done..| |done].
  intros en' h' err outs r Hle Hh Hl Hsh _ Hr. exists outs. cbn [k_out with_held with_stderr]. split_and!; [| |done].
  - eapply Forall2_impl_r; [exact Hsh|apply (stream_sent_each _ _ k); [by apply others_NoDup|done]|]. intros fd out ? ?. by split.
  - intros fd Hfd. rewrite stream_sent_each_other; [done|]. rewrite fst_zip by lia. done.
Qed.

Lemma broadcast_reaches_the_others_witness :
  runs (client_manager_broadcast 3 5 MSG_BROADCAST (Some (B "alice: hi"))) (W calm room) (fun r '(W en' k') =>
    exists outs,
      Forall2 (fun fd out => shipped MSG_BROADCAST (B "alice: hi") en' calm out /\
                 stream (k_out k') fd = stream (k_out room) fd ++ out) (others (k_static room) 5) outs /\
      (forall fd, fd ∉ others (k_static room) 5 -> stream (k_out k') fd = stream (k_out room) fd) /\
      (r = zlen (filter (fun out => out = frame MSG_BROADCAST (B "alice: hi")) outs) \/ r = -1 /\ env_lt en' calm)).
Proof. apply broadcast_reaches_the_others; [apply room_ok|apply room_sockets|by vm_compute; lia|by split]. Defined.

(** C32. A file transfer writes to the client's stream the announcing frame
    followed by exactly [size] bytes of the file, in order, with no other
    traffic of the server in between; a transfer that cannot be completed
    returns -1 after a prefix of that stream, and ends. *)
Theorem file_stream_is_exact F fd type metadata file size rest en (k : kern server) :
  sockets_open k -> reading k file rest -> unlocked (k_held k) -> 0 <= file -> 0 <= size -> stream_fuel F en ->
  runs (client_manager_send_file_stream F fd type (Some metadata) file size) (W en k) (fun r '(W en' k') =>
    exists out, stream (k_out k') fd = stream (k_out k) fd ++ out /\
      (forall fd', fd' ≠ fd -> stream (k_out k') fd' = stream (k_out k) fd') /\
      (r = 0 /\ out = frame type metadata ++ take (Z.to_nat size) rest /\ size <= zlen rest \/
       r = -1 /\ out `prefix_of` frame type metadata ++ take (Z.to_nat size) rest /\
       stream_failure (k_static k) fd type metadata size rest en' en) /\
      (env_lt en' en \/ k_held k' = k_held k)).
Proof.
  intros Hso Hrd Hu Hfile Hsize HF.
  assert (Hout : forall h n out, k_out (with_held h (read_ahead file n (sent_out fd out k))) = app_stream fd out (k_out k)).
  { intros h n out. unfold read_ahead, sent_out. destruct n; [done|]. simpl. by destruct (k_fds k !! file) as [[]|]. }
  assert (Hheld : forall en' h, held_ok en' en h (k_held k) -> env_lt en' en \/ h = k_held k) by (intros ? ? [?|?]; auto).
  apply wp_runs, (wp_send_file_stream _ _ _ _ _ _ rest); [done..| |].
  - intros en' h' Hle Hh Hs Hr Hmax Hlen. exists (file_stream type metadata size rest). rewrite !Hout.
    split_and!; [apply stream_app_eq|intros; by apply stream_app_ne|by left|by apply Hheld, Hh].
  - intros en' h' n out Hle Hh Hf Hp. exists out. rewrite !Hout.
    split_and!; [apply stream_app_eq|intros; by apply stream_app_ne|by right|by apply Hheld, Hh].
Qed.

Lemma file_stream_is_exact_witness :
  runs (client_manager_send_file_stream (Z.to_nat 7000) 6 MSG_RESPONSE (Some (B "DOWNLOAD_READY|a.txt|11")) 7 11)
    (W (mk_env [Full; Full; Full; Fail 4] 0 [] [] []) room) (fun r '(W en' k') =>
    exists out, stream (k_out k') 6 = stream (k_out room) 6 ++ out /\
      (forall fd', fd' ≠ 6 -> stream (k_out k') fd' = stream (k_out room) fd') /\
      (r = 0 /\ out = frame MSG_RESPONSE (B "DOWNLOAD_READY|a.txt|11") ++ take (Z.to_nat 11) (B "hello world")
         /\ 11 <= zlen (B "hello world") \/
       r = -1 /\ out `prefix_of` frame MSG_RESPONSE (B "DOWNLOAD_READY|a.txt|11") ++ take (Z.to_nat 11) (B "hello world") /\
       stream_failure (k_static room) 6 MSG_RESPONSE (B "DOWNLOAD_READY|a.txt|11") 11 (B "hello world")
         en' (mk_env [Full; Full; Full; Fail 4] 0 [] [] [])) /\
      (env_lt en' (mk_env [Full; Full; Full; Fail 4] 0 [] [] []) \/ k_held k' = k_held room)).
Proof.
  apply file_stream_is_exact;
    [apply room_sockets|apply room_reading|apply room_unlocked|lia|lia|by vm_compute].
Defined.
