(* ===== verification/PerfTimer.v ===== *)
(** * The performance timer

    [src/common/performance_timer.c].  A [double] is the IEEE 754 binary64
    number of the Standard Library's [SpecFloat] (precision 53, exponents up
    to 1024); [fixed] is the [%.nf] conversion of [printf], which rounds the
    exact value half to even. *)

From Stdlib Require Import SpecFloat.
From S2P Require Import Prelude CLib Posix Wp.

Definition double : Set := spec_float.

(** The conversion of an integer to [double]. *)
Definition to_double (z : Z) : double := binary_normalize 53 1024 z 0 false.

Definition dadd : double -> double -> double := SFadd 53 1024.
Definition dmul : double -> double -> double := SFmul 53 1024.
Definition ddiv : double -> double -> double := SFdiv 53 1024.

(** The nearest integer to [n / d], half to even. *)
Definition div_half_even (n d : Z) : Z :=
  let q := n / d in
  let r := n mod d in
  if 2 * r <? d then q
  else if d <? 2 * r then q + 1
  else if Z.even q then q else q + 1.

(** A decimal number given by its value times [10 ^ digits]. *)
Definition decimal (digits : nat) (scaled : Z) : bytes :=
  dec (scaled / 10 ^ Z.of_nat digits) ++ B "." ++ dec_pad digits (scaled mod 10 ^ Z.of_nat digits).

(** [%.<digits>f] *)
Definition fixed (digits : nat) (x : double) : bytes :=
  match x with
  | S754_zero s => (if s : bool then [DASH] else []) ++ decimal digits 0
  | S754_infinity s => (if s : bool then [DASH] else []) ++ B "inf"
  | S754_nan => B "nan"
  | S754_finite s m e =>
      let scaled := Zpos m * 10 ^ Z.of_nat digits in
      (if s : bool then [DASH] else []) ++
      decimal digits (if 0 <=? e then scaled * 2 ^ e else div_half_even scaled (2 ^ (- e)))
  end.

(** [performance_timer_t]; [start_time] is (tv_sec, tv_nsec). *)
Record performance_timer_t := { start_time : Z * Z; timer_running : bool }.

(** A timer on the stack, before [performance_timer_start]. *)
Definition new_timer : performance_timer_t := {| start_time := (0, 0); timer_running := false |}.

(** The results are the return value and the timer afterwards. *)
Definition performance_timer_start {S} (timer : option performance_timer_t) : prog S (Z * option performance_timer_t) :=
  match timer with
  | None => _ ← call (Set_errno EINVAL); mret (-1, None)
  | Some timer =>
      now ← call Clock_gettime;
      match now with
      | None => mret (-1, Some {| start_time := start_time timer; timer_running := false |})
      | Some now => mret (0, Some {| start_time := now; timer_running := true |})
      end
  end.

(** The elapsed time between two readings of the clock. *)
Definition elapsed (start_time end_time : Z * Z) : double :=
  let seconds := fst end_time - fst start_time in
  let nanoseconds := snd end_time - snd start_time in
  let '(seconds, nanoseconds) :=
    if nanoseconds <? 0 then (seconds - 1, nanoseconds + 1000000000) else (seconds, nanoseconds) in
  dadd (to_double seconds) (ddiv (to_double nanoseconds) (to_double 1000000000)).

(** [None] for the failures, otherwise the elapsed seconds; and the timer. *)
Definition performance_timer_stop {S} (timer : option performance_timer_t)
    : prog S (option double * option performance_timer_t) :=
  match timer with
  | None => _ ← call (Set_errno EINVAL); mret (None, None)
  | Some timer =>
      if negb (timer_running timer) then _ ← call (Set_errno EINVAL); mret (None, Some timer)
      else
        end_time ← call Clock_gettime;
        match end_time with
        | None => mret (None, Some timer)
        | Some end_time =>
            mret (Some (elapsed (start_time timer) end_time),
                  Some {| start_time := start_time timer; timer_running := false |})
        end
  end.

Definition performance_timer_mib_per_second (bytes : Z) (elapsed_seconds : double) : double :=
  match SFcompare elapsed_seconds (S754_zero false) with
  | Some Gt =>
      let bytes_per_mib := dmul (to_double 1024) (to_double 1024) in
      ddiv (ddiv (to_double bytes) bytes_per_mib) elapsed_seconds
  | None =>
      let bytes_per_mib := dmul (to_double 1024) (to_double 1024) in
      ddiv (ddiv (to_double bytes) bytes_per_mib) elapsed_seconds
  | _ => S754_zero false
  end.

Example rate_of_one_mib_in_a_second :
  fixed 3 (performance_timer_mib_per_second 1048576 (elapsed (3, 900000000) (5, 400000000))) = B "0.667".
Proof. vm_compute. reflexivity. Qed.
Example time_1_5 : fixed 6 (elapsed (3, 900000000) (5, 400000000)) = B "1.500000".
Proof. vm_compute. reflexivity. Qed.

(** ** The timer never disturbs the transfer it measures *)

Lemma wp_performance_timer_start {S} timer Q en (k : kern S) :
  (forall en' r, env_le en' en -> Q r (W en' k)) -> wp (performance_timer_start timer) Q (W en k).
Proof.
  intros HQ. unfold performance_timer_start. destruct timer as [timer|]; [|apply wp_set_errno, wp_ret, HQ; env_lia].
  apply wp_clock; intros en1; [intros Hlt|intros t Hle]; apply wp_ret, HQ; env_lia.
Qed.

Lemma wp_performance_timer_stop {S} timer Q en (k : kern S) :
  (forall en' r, env_le en' en -> Q r (W en' k)) -> wp (performance_timer_stop timer) Q (W en k).
Proof.
  intros HQ. unfold performance_timer_stop. destruct timer as [timer|]; [|apply wp_set_errno, wp_ret, HQ; env_lia].
  case_if; [apply wp_set_errno, wp_ret, HQ; env_lia|].
  apply wp_clock; intros en1; [intros Hlt|intros t Hle]; apply wp_ret, HQ; env_lia.
Qed.
