(* ===== verification/FileLock.v ===== *)
(** * Per-file advisory locks

    [src/server/file_lock.c]: an open-file-description lock on the file
    ["storage/.locks/<name>.lock"]. *)

From S2P Require Import Prelude CLib Posix Wp Protocol NetworkIO.

Definition FILE_STORAGE_DIRECTORY : bytes := B "storage".
Definition FILE_LOCK_DIRECTORY : bytes := FILE_STORAGE_DIRECTORY ++ B "/.locks".

(** File modes, written in octal in the source. *)
Definition MODE_0700 : Z := 448.

(** [file_lock_mode_t] *)
Definition FILE_LOCK_SHARED : Z := 0.
Definition FILE_LOCK_EXCLUSIVE : Z := 1.

(** [sizeof(lock_name)] *)
Definition LOCK_NAME_SIZE : Z := FILE_NAME_MAX_SIZE + 8.

Definition ensure_lock_directory {S} : prog S Z :=
  r ← call (Mkdir FILE_LOCK_DIRECTORY MODE_0700);
  if r == 0 then mret 0 else
  errno ← call Errno;
  if errno != EEXIST then mret (-1) else
  information ← call (Lstat FILE_LOCK_DIRECTORY);
  match information with
  | None => mret (-1)
  | Some information =>
      if negb (S_ISDIR information) then
        _ ← call (Set_errno ENOTDIR);
        mret (-1)
      else mret 0
  end.

Definition open_lock_directory {S} : prog S Z :=
  call (Open FILE_LOCK_DIRECTORY (O_RDONLY ||| O_DIRECTORY ||| O_CLOEXEC ||| O_NOFOLLOW) 0).

(** The waiting loop on the opened lock file. *)
Fixpoint lock_loop {S} (fuel : nat) (lock_fd mode : Z) : prog S Z :=
  match fuel with
  | O => Diverge
  | Datatypes.S fuel =>
      r ← call (Fcntl_setlk lock_fd (if mode == FILE_LOCK_SHARED then F_RDLCK else F_WRLCK));
      if r != 0 then
        errno ← call Errno;
        if errno == EINTR then lock_loop fuel lock_fd mode
        else
          _ ← call (Close lock_fd);
          _ ← call (Set_errno errno);
          mret (-1)
      else mret lock_fd
  end.

(** The rest of [file_lock_acquire], from the opened lock file on. *)
Definition lock_opened_file {S} (F : nat) (lock_fd mode : Z) : prog S Z :=
  information ← call (Fstat lock_fd);
  if (match information with Some information => negb (S_ISREG information) | None => true end) then
    errno ← call Errno;
    let saved_errno := if errno == 0 then EINVAL else errno in
    _ ← call (Close lock_fd);
    _ ← call (Set_errno saved_errno);
    mret (-1)
  else lock_loop F lock_fd mode.

(** The rest of [file_lock_acquire], from the opened lock directory on. *)
Definition lock_in_directory {S} (F : nat) (directory_fd : Z) (filename : bytes) (mode : Z) : prog S Z :=
  let '(name_written, lock_name) := snprintf LOCK_NAME_SIZE (filename ++ B ".lock") in
  if LOCK_NAME_SIZE <=? name_written then
    _ ← call (Close directory_fd);
    _ ← call (Set_errno ENAMETOOLONG);
    mret (-1)
  else
  lock_fd ← call (Openat directory_fd lock_name (O_RDWR ||| O_CREAT ||| O_CLOEXEC ||| O_NOFOLLOW) MODE_0600);
  saved_errno ← call Errno;
  close_result ← call (Close directory_fd);
  if (close_result != 0) && (0 <=? lock_fd) then
    _ ← call (Close lock_fd);
    mret (-1)
  else if lock_fd <? 0 then
    _ ← call (Set_errno saved_errno);
    mret (-1)
  else lock_opened_file F lock_fd mode.

Definition file_lock_acquire {S} (F : nat) (filename : option bytes) (mode : Z) : prog S Z :=
  match filename with
  | None => _ ← call (Set_errno EINVAL); mret (-1)
  | Some filename =>
      if negb (is_valid_shared_filename (Some filename)) then _ ← call (Set_errno EINVAL); mret (-1) else
      if (mode != FILE_LOCK_SHARED) && (mode != FILE_LOCK_EXCLUSIVE) then
        _ ← call (Set_errno EINVAL); mret (-1) else
      r ← ensure_lock_directory;
      if r != 0 then mret (-1) else
      directory_fd ← open_lock_directory;
      if directory_fd <? 0 then mret (-1) else
      lock_in_directory F directory_fd filename mode
  end.

(** The unlocking loop: the result of the last [fcntl]. *)
Fixpoint unlock_loop {S} (fuel : nat) (lock_fd : Z) : prog S Z :=
  match fuel with
  | O => Diverge
  | Datatypes.S fuel =>
      unlock_result ← call (Fcntl_setlk lock_fd F_UNLCK);
      if unlock_result != 0 then
        errno ← call Errno;
        if errno == EINTR then unlock_loop fuel lock_fd else mret unlock_result
      else mret unlock_result
  end.

Definition file_lock_release {S} (F : nat) (lock_fd : Z) : prog S Z :=
  if lock_fd <? 0 then _ ← call (Set_errno EINVAL); mret (-1) else
  unlock_result ← unlock_loop F lock_fd;
  saved_errno ← call Errno;
  close_result ← call (Close lock_fd);
  if unlock_result != 0 then
    _ ← call (Set_errno saved_errno);
    mret (-1)
  else if close_result != 0 then mret (-1)
  else mret 0.

(** ** Frames *)

(** [k'] differs from [k] in the file system, the descriptors and the locks only. *)
Definition files_only {S} (k k' : kern S) : Prop :=
  k' = with_locks (k_locks k') (with_fds (k_fds k') (with_inodes (k_inodes k') (with_tree (k_tree k') k))).

Lemma files_only_refl {S} (k : kern S) : files_only k k.
Proof. by destruct k. Qed.

Lemma files_only_trans {S} (k1 k2 k3 : kern S) : files_only k1 k2 -> files_only k2 k3 -> files_only k1 k3.
Proof. unfold files_only. intros H1 H2. rewrite H2 at 1. rewrite H1. by destruct k1. Qed.

(** The directories of the store. *)
Definition storage_path : path := [FILE_STORAGE_DIRECTORY].
Definition locks_path : path := [FILE_STORAGE_DIRECTORY; B ".locks"].
Definition lock_path (filename : bytes) : path := locks_path ++ [filename ++ B ".lock"].

Lemma resolve_storage : resolve [] FILE_STORAGE_DIRECTORY = storage_path.
Proof. reflexivity. Qed.
Lemma resolve_locks : resolve [] FILE_LOCK_DIRECTORY = locks_path.
Proof. reflexivity. Qed.

Lemma filename_ok_resolve_suffix d s t :
  filename_ok s -> SLASH ∉ t -> (1 <= length t)%nat -> resolve d (s ++ t) = d ++ [s ++ t].
Proof.
  intros Hok Ht Hl. pose proof (filename_ok_no_slash _ Hok) as [Hs _].
  destruct Hok as (_ & _ & (c & u & -> & Hc) & _).
  apply resolve_name; [set_solver|done| |]; intros [= -> E]; destruct Hc as [Hc|Hc]; by vm_compute in Hc.
Qed.

(** The part of the store the locks use. *)
Definition lock_tree (filename : bytes) (t : gmap path node) : Prop :=
  (t !! locks_path = None \/ t !! locks_path = Some NDir) /\
  (t !! lock_path filename = None \/ exists ino, t !! lock_path filename = Some (NReg ino)).

(** Files created for the locks. *)
Definition lock_file (name : bytes) (p : path) : Prop := p = locks_path \/ p = lock_path name.

(** [t'] keeps the entries of [t] and has at most new lock files, [m'] keeps
    the inodes of [m]. *)
Record store_kept {S} (extra : path -> Prop) (k k' : kern S) : Prop := {
  kept_tree : forall p nd, k_tree k !! p = Some nd -> k_tree k' !! p = Some nd;
  kept_new : forall p, k_tree k !! p = None -> is_Some (k_tree k' !! p) -> extra p;
  kept_data : forall ino i, k_inodes k !! ino = Some i -> k_inodes k' !! ino = Some i
}.

Lemma store_kept_refl {S} extra (k : kern S) : store_kept extra k k.
Proof. split; [done| |done]. intros p ->. by intros [? ?]. Qed.

Lemma store_kept_trans {S} extra (k1 k2 k3 : kern S) :
  store_kept extra k1 k2 -> store_kept extra k2 k3 -> store_kept extra k1 k3.
Proof.
  intros [T1 N1 D1] [T2 N2 D2]. split; [auto| |auto]. intros p H1 H3.
  destruct (k_tree k2 !! p) eqn:E; [apply N1; [done|by eexists]|by apply N2].
Qed.

Lemma store_kept_mono {S} (extra extra' : path -> Prop) (k k' : kern S) :
  (forall p, extra p -> extra' p) -> store_kept extra k k' -> store_kept extra' k k'.
Proof. intros H [? ? ?]. split; auto. Qed.

Lemma store_kept_same {S} extra (k k' : kern S) :
  k_tree k' = k_tree k -> k_inodes k' = k_inodes k -> store_kept extra k k'.
Proof. intros Ht Hi. split; rewrite ?Ht, ?Hi; [done| |done]. intros p ->. by intros [? ?]. Qed.

(** ** The lock directory *)

Lemma wp_mkdir {S A} p mode (g : Z -> prog S A) Q en (k : kern S) :
  (forall en', env_le en' en -> k_tree k !! resolve [] p = None -> is_dir k (removelast (resolve [] p)) = true ->
     wp (g 0) Q (W en' (with_tree (<[resolve [] p := NDir]> (k_tree k)) k))) ->
  (forall en', env_le en' en -> env_lt en' en \/ e_errno en' = EEXIST /\ is_Some (k_tree k !! resolve [] p) \/
       is_dir k (removelast (resolve [] p)) = false ->
     0 < e_errno en' -> wp (g (-1)) Q (W en' k)) ->
  wp (call (Mkdir p mode) ≫= g) Q (W en k).
Proof.
  intros Hok Hko. eapply wp_fallible; [reflexivity|intros; apply Hko; [by apply env_lt_le|by left|done]|].
  intros en' lim Hle _ _. cbv beta. unfold mkdir_path. destruct (k_tree k !! resolve [] p) eqn:E.
  - apply Hko; [done| |done]. right. left. split; [done|by eexists].
  - destruct (is_dir k (removelast (resolve [] p))) eqn:Ed; [by apply Hok|].
    apply Hko; [done|by right; right|done].
Qed.

Lemma is_dir_storage {S} (k : kern S) : k_tree k !! storage_path = Some NDir -> is_dir k (removelast locks_path) = true.
Proof.
  intros H. change (match k_tree k !! storage_path with Some NDir => true | _ => false end = true). by rewrite H.
Qed.

Lemma is_dir_locks {S} (k : kern S) : k_tree k !! locks_path = Some NDir -> is_dir k locks_path = true.
Proof.
  intros H. change (match k_tree k !! locks_path with Some NDir => true | _ => false end = true). by rewrite H.
Qed.

Lemma wp_ensure_lock_directory {S} Q en (k : kern S) :
  k_tree k !! storage_path = Some NDir ->
  (forall en' k1, env_le en' en -> (k1 = k \/ k1 = with_tree (<[locks_path := NDir]> (k_tree k)) k /\ k_tree k !! locks_path = None) ->
     k_tree k1 !! locks_path = Some NDir -> Q 0 (W en' k1)) ->
  (forall en', env_le en' en -> env_lt en' en \/ (exists nd, k_tree k !! locks_path = Some nd /\ nd ≠ NDir) -> Q (-1) (W en' k)) ->
  wp ensure_lock_directory Q (W en k).
Proof.
  intros Hst Hok Hko. unfold ensure_lock_directory. apply wp_mkdir; rewrite resolve_locks.
  - intros en1 Hle1 Hn _. cbn [Z.eqb]. apply wp_ret, Hok; [done|by right|]. simpl. by rewrite lookup_insert_eq.
  - intros en1 Hle1 Hwhy _. cbn [Z.eqb]. apply wp_errno. case_if.
    { apply wp_ret, Hko; [done|]. left. destruct Hwhy as [?|[[? _]|Hd]]; [done|done|]. by rewrite is_dir_storage in Hd. }
    eapply wp_fallible; [reflexivity|intros en2 Hlt _; apply wp_ret, Hko; [env_lia|left; env_lia]|].
    intros en2 lim Hle2 _ _. cbv beta. unfold lstat_path. rewrite resolve_locks.
    destruct (k_tree k !! locks_path) as [nd|] eqn:El.
    2:{ apply wp_ret, Hko; [env_lia|]. left. destruct Hwhy as [?|[[_ [? ?]]|Hd]]; [env_lia|done|].
        by rewrite is_dir_storage in Hd. }
    destruct nd as [ino| |t|]; cbn [stat_node].
    + destruct (k_inodes k !! ino) as [i|]; simpl; [apply wp_set_errno|]; apply wp_ret, Hko; try env_lia;
        right; by eexists.
    + simpl. apply wp_ret, Hok; [env_lia|by left|done].
    + simpl. apply wp_set_errno, wp_ret, Hko; [env_lia|right; by eexists].
    + simpl. apply wp_set_errno, wp_ret, Hko; [env_lia|right; by eexists].
Qed.

(** ** Opening the lock file *)

Definition lock_flags : Z := O_RDWR ||| O_CREAT ||| O_CLOEXEC ||| O_NOFOLLOW.

Lemma open_path_dir {S} (k : kern S) p :
  k_tree k !! p = Some NDir ->
  open_path k p (O_RDONLY ||| O_DIRECTORY ||| O_CLOEXEC ||| O_NOFOLLOW) 0 = inr (add_fd (FdDir p) k).
Proof. intros H. unfold open_path. by rewrite H. Qed.

Lemma lock_name_resolve d name : filename_ok name -> resolve d (name ++ B ".lock") = d ++ [name ++ B ".lock"].
Proof. intros Hok. apply filename_ok_resolve_suffix; [done| |simpl; lia]. by apply strchr_None. Qed.

(** The entry of the lock file does not prevent its use. *)
Definition lock_usable {S} (name : bytes) (k : kern S) : Prop :=
  (k_tree k !! locks_path = None \/ k_tree k !! locks_path = Some NDir) /\
  (k_tree k !! lock_path name = None \/
   exists ino, k_tree k !! lock_path name = Some (NReg ino) /\ is_Some (k_inodes k !! ino)).

(** What opening the lock file gives. *)
Record lock_opened {S} (name : bytes) (d : fdesc) (k k' : kern S) : Prop := {
  lo_fds : k_fds k' = <[next_fd (k_fds k) := d]> (k_fds k);
  lo_files : files_only k k';
  lo_kept : store_kept (lock_file name) k k';
  lo_locks : k_locks k' = k_locks k;
  lo_desc : (exists ino, d = FdFile ino 0 lock_flags /\ k_tree k' !! lock_path name = Some (NReg ino) /\
               (lock_usable name k -> is_Some (k_inodes k' !! ino))) \/
            d = FdOther /\ ~ lock_usable name k
}.

Lemma open_lock_file {S} (k : kern S) name :
  filename_ok name -> k_tree k !! locks_path = Some NDir ->
  (exists e, open_path k (lock_path name) lock_flags MODE_0600 = inl e /\ ~ lock_usable name k) \/
  (exists d k', open_path k (lock_path name) lock_flags MODE_0600 = inr (next_fd (k_fds k), k') /\ lock_opened name d k k').
Proof.
  intros Hok Hd. unfold open_path. destruct (k_tree k !! lock_path name) as [nd|] eqn:E.
  - change (has lock_flags O_CREAT && has lock_flags O_EXCL) with false.
    change (has lock_flags O_NOFOLLOW) with true. cbv iota.
    assert (Hopen : forall d, (exists ino, d = FdFile ino 0 lock_flags /\ k_tree k !! lock_path name = Some (NReg ino)) \/
              d = FdOther /\ ~ lock_usable name k ->
              lock_opened name d k (with_fds (<[next_fd (k_fds k) := d]> (k_fds k)) k)).
    { intros d Hdesc. split; [done|by destruct k|by apply store_kept_same|done|].
      destruct Hdesc as [(ino & -> & H)|?]; [left|by right]. exists ino. split_and!; [done|done|].
      intros [_ [?|(ino' & H' & ?)]]; [congruence|]. rewrite H in H'. by injection H' as <-. }
    destruct nd as [ino| |t|].
    + right. do 2 eexists. split; [reflexivity|]. apply Hopen. left. by exists ino.
    + left. exists EISDIR. split; [done|]. intros [_ [?|(ino & ? & _)]]; congruence.
    + left. exists ELOOP. split; [done|]. intros [_ [?|(ino & ? & _)]]; congruence.
    + right. do 2 eexists. split; [reflexivity|]. apply Hopen. right. split; [done|].
      intros [_ [?|(ino & ? & _)]]; congruence.
  - change (has lock_flags O_CREAT) with true. cbv iota.
    assert (is_dir k (removelast (lock_path name)) = true) as -> by by apply is_dir_locks.
    right. exists (FdFile (fresh (dom (k_inodes k))) 0 lock_flags). eexists. split; [reflexivity|].
    assert (Hfresh : k_inodes k !! fresh (dom (k_inodes k)) = None) by apply not_elem_of_dom, is_fresh.
    split; simpl.
    + done.
    + by destruct k.
    + split; simpl.
      * intros p nd Hp. rewrite lookup_insert_ne; [done|]. intros <-. congruence.
      * intros p Hp [nd Hnd]. apply lookup_insert_Some in Hnd as [[<- _]|[_ ?]]; [by right|congruence].
      * intros ino i Hi. rewrite lookup_insert_ne; [done|]. intros <-. congruence.
    + done.
    + left. eexists. split_and!; [done|by rewrite lookup_insert_eq|]. intros _. rewrite lookup_insert_eq. by eexists.
Qed.

(** ** Taking the lock *)

Definition lock_type_of (mode : Z) : lock_type := if mode == FILE_LOCK_SHARED then F_RDLCK else F_WRLCK.

(** The lock of descriptor [fd] on inode [ino] is held, with no conflict. *)
Definition lock_held {S} (k : kern S) (ino : positive) (fd : Z) (l : lock_type) : Prop :=
  (ino, fd, l) ∈ k_locks k /\
  forall fd' l', (ino, fd', l') ∈ k_locks k -> fd' ≠ fd -> compatible l l' = true.

Lemma close_file_fd {S} (k : kern S) fd :
  k_tree (close_fd k fd) = k_tree k /\ k_inodes (close_fd k fd) = k_inodes k /\
  k_fds (close_fd k fd) = delete fd (k_fds k) /\ k_locks (close_fd k fd) ⊆ k_locks k /\ files_only k (close_fd k fd).
Proof.
  unfold close_fd. split_and!; [done|done|done| |by destruct k]. simpl.
  destruct (k_fds k !! fd) as [[]|]; try done. intros l Hl. by apply list_elem_of_filter in Hl as [_ ?].
Qed.

Lemma wp_lock_loop {S} fuel fd mode ino off fl Q en (k : kern S) :
  k_fds k !! fd = Some (FdFile ino off fl) -> (script_len en < fuel)%nat ->
  (forall en' k', env_le en' en -> files_only k k' -> k_tree k' = k_tree k -> k_inodes k' = k_inodes k ->
     k_fds k' = k_fds k -> lock_held k' ino fd (lock_type_of mode) ->
     k_locks k' ⊆ (ino, fd, lock_type_of mode) :: k_locks k -> Q fd (W en' k')) ->
  (forall en', env_lt en' en -> Q (-1) (W en' (close_fd k fd))) ->
  wp (lock_loop fuel fd mode) Q (W en k).
Proof.
  revert en. induction fuel as [|fuel IH]; intros en Hfd Hfuel Hok Hko; [lia|]. cbn [lock_loop].
  change (if mode == FILE_LOCK_SHARED then F_RDLCK else F_WRLCK) with (lock_type_of mode).
  eapply wp_fallible; [reflexivity| |].
  - intros en1 Hlt _. cbn [Z.eqb negb]. apply wp_errno. case_if.
    + apply IH; [done|env_lia| |]; intros; [apply Hok; try done; env_lia|apply Hko; env_lia].
    + apply wp_close. intros en2 z Hle2 _. apply wp_set_errno, wp_ret, Hko. env_lia.
  - intros en1 lim Hle1 _ _. cbv beta. unfold setlk_fd. rewrite Hfd.
    assert (Hl : lock_type_of mode ≠ F_UNLCK) by (unfold lock_type_of; by case_if).
    destruct (lock_type_of mode) as [| |] eqn:El; [| |done]; cbn [Z.eqb negb]; apply wp_ret, Hok;
      try done; try (by destruct k).
    1,3: split; [by left|]; intros fd' l' [[=]|(Hc & H)%list_elem_of_filter]%elem_of_cons Hne; [done|];
      by destruct Hc.
    all: intros l [->|(_ & [_ ?]%list_elem_of_filter)%list_elem_of_filter]%elem_of_cons; set_solver.
Qed.

(** What a successful [file_lock_acquire] leaves. *)
Record lock_acquired {S} (name : bytes) (mode fd : Z) (k k' : kern S) : Prop := {
  la_fresh : 0 <= fd /\ k_fds k !! fd = None;
  la_files : files_only k k';
  la_kept : store_kept (lock_file name) k k';
  la_held : exists ino, k_tree k' !! lock_path name = Some (NReg ino) /\
    k_fds k' = <[fd := FdFile ino 0 lock_flags]> (k_fds k) /\ lock_held k' ino fd (lock_type_of mode) /\
    k_locks k' ⊆ (ino, fd, lock_type_of mode) :: k_locks k
}.

(** What a failed one leaves: at most the lock files, and no descriptor. *)
Record lock_failed {S} (name : bytes) (k k' : kern S) : Prop := {
  lf_fds : k_fds k' = k_fds k;
  lf_files : files_only k k';
  lf_kept : store_kept (lock_file name) k k';
  lf_locks : k_locks k' ⊆ k_locks k
}.

(** From the opened lock file, in [k1], of a process that had opened [fds]. *)
Lemma wp_lock_opened {S} F name mode fd d Q en (k k1 : kern S) :
  fuel_ok F en -> 0 <= fd -> k_fds k !! fd = None -> k_fds k1 = <[fd := d]> (k_fds k) ->
  files_only k k1 -> store_kept (lock_file name) k k1 -> k_locks k1 ⊆ k_locks k ->
  (exists ino, d = FdFile ino 0 lock_flags /\ k_tree k1 !! lock_path name = Some (NReg ino) /\
      (lock_usable name k -> is_Some (k_inodes k1 !! ino))) \/ d = FdOther /\ ~ lock_usable name k ->
  (forall en' k', env_le en' en -> lock_acquired name mode fd k k' -> Q fd (W en' k')) ->
  (forall en' k', env_le en' en -> lock_failed name k k' -> env_lt en' en \/ ~ lock_usable name k -> Q (-1) (W en' k')) ->
  wp (lock_opened_file F fd mode) Q (W en k1).
Proof.
  intros HF H0 Hfresh Hfds Hfiles Hkept Hlocks Hd Hok Hko. unfold lock_opened_file.
  assert (Hclosed : lock_failed name k (close_fd k1 fd)).
  { destruct (close_file_fd k1 fd) as (Ht & Hi & Hf & Hl & Hfo). split.
    - rewrite Hf, Hfds. by rewrite delete_insert_id.
    - by eapply files_only_trans.
    - eapply store_kept_trans; [done|by apply store_kept_same].
    - set_solver. }
  assert (Hfail : forall en1, env_le en1 en -> env_lt en1 en \/ ~ lock_usable name k ->
    wp (errno ← call Errno;
        let saved_errno := if errno == 0 then EINVAL else errno in
        _ ← call (Close fd);
        _ ← call (Set_errno saved_errno);
        mret (-1)) Q (W en1 k1)).
  { intros en1 Hle1 Hwhy. apply wp_errno, wp_close. intros en2 z Hle2 _. apply wp_set_errno, wp_ret, Hko; [env_lia|done|].
    destruct Hwhy; [left; env_lia|by right]. }
  eapply wp_fallible; [reflexivity|intros en1 Hlt _; apply Hfail; [env_lia|by left]|].
  intros en1 lim Hle1 _ _. cbv beta. unfold fstat_fd. rewrite Hfds, lookup_insert_eq.
  destruct Hd as [(ino & -> & Ht & Hi)|[-> Hu]]; [|apply Hfail; [env_lia|by right]].
  cbn [stat_node]. destruct (k_inodes k1 !! ino) as [i|] eqn:Ei; simpl.
  2:{ apply Hfail; [env_lia|right]. intros [? ?]%Hi. congruence. }
  eapply (wp_lock_loop F fd mode ino 0 lock_flags); [by rewrite Hfds, lookup_insert_eq|env_lia| |].
  - intros en2 k2 Hle2 Hfo2 Ht2 Hi2 Hf2 Hheld Hl2. apply Hok; [env_lia|]. split; [done|by eapply files_only_trans| |].
    + eapply store_kept_trans; [done|by apply store_kept_same].
    + exists ino. split_and!; [by rewrite Ht2|by rewrite Hf2|done|set_solver].
  - intros en2 Hlt2. apply Hko; [env_lia|done|left; env_lia].
Qed.

Lemma lock_name_fits name : filename_ok name -> snprintf LOCK_NAME_SIZE (name ++ B ".lock") = (zlen name + 5, name ++ B ".lock").
Proof.
  intros [Hl _]. unfold snprintf. rewrite zlen_app. change (zlen (B ".lock")) with 5. f_equal.
  apply take_ge. unfold LOCK_NAME_SIZE, FILE_NAME_MAX_SIZE, zlen in *. rewrite length_app. simpl. lia.
Qed.

(** The lemma on [lock_in_directory]: [k] is the state before the lock
    directory was opened as [dfd]. *)
Lemma wp_lock_in_directory {S} F name mode Q en (k : kern S) :
  let dfd := next_fd (k_fds k) in
  fuel_ok F en -> filename_ok name -> k_tree k !! locks_path = Some NDir ->
  (forall en' k' fd, env_le en' en -> lock_acquired name mode fd k k' -> Q fd (W en' k')) ->
  (forall en' k', env_le en' en -> lock_failed name k k' -> env_lt en' en \/ ~ lock_usable name k -> Q (-1) (W en' k')) ->
  wp (lock_in_directory F dfd name mode) Q (W en (with_fds (<[dfd := FdDir locks_path]> (k_fds k)) k)).
Proof.
  intros dfd HF Hname Hd Hok Hko. unfold lock_in_directory. rewrite lock_name_fits by done.
  pose proof (next_fd_fresh (k_fds k)) as Hdfd. fold dfd in Hdfd.
  replace (LOCK_NAME_SIZE <=? zlen name + 5) with false
    by (symmetry; apply Z.leb_gt; destruct Hname as [? _]; unfold LOCK_NAME_SIZE, FILE_NAME_MAX_SIZE; lia).
  set (k2 := with_fds (<[dfd := FdDir locks_path]> (k_fds k)) k).
  assert (Hclose2 : close_fd k2 dfd = k) by by apply close_add_fd.
  assert (Hfailed : forall en', env_le en' en -> env_lt en' en \/ ~ lock_usable name k -> Q (-1) (W en' k)).
  { intros. apply Hko; [done|split; [done|apply files_only_refl|apply store_kept_refl|done]|done]. }
  eapply wp_fallible; [reflexivity| |].
  { intros en3 Hlt3 _. apply wp_errno, wp_close. intros en4 z Hle4 _. rewrite Hclose2, andb_false_r.
    apply wp_set_errno, wp_ret, Hfailed; [env_lia|left; env_lia]. }
  intros en3 lim3 Hle3 _ _. cbv beta. unfold at_dir, fd_dir.
  assert (k_fds k2 !! dfd = Some (FdDir locks_path)) as -> by (simpl; by rewrite lookup_insert_eq).
  rewrite lock_name_resolve by done. change (locks_path ++ [name ++ B ".lock"]) with (lock_path name).
  change (O_RDWR ||| O_CREAT ||| O_CLOEXEC ||| O_NOFOLLOW) with lock_flags.
  destruct (open_lock_file k2 name Hname) as [(e & -> & Hu)|(d & k3 & -> & [Hf3 Hfo3 Hsk3 Hl3 Hd3])]; [done| |].
  { apply wp_errno, wp_close. intros en4 z Hle4 _. rewrite Hclose2, andb_false_r.
    apply wp_set_errno, wp_ret, Hfailed; [env_lia|by right]. }
  set (fd := next_fd (k_fds k2)) in *. pose proof (next_fd_nonneg (k_fds k2)). pose proof (next_fd_fresh (k_fds k2)) as Hfd. fold fd in Hfd.
  simpl in Hfd. apply lookup_insert_None in Hfd as [Hfd Hne].
  assert (Hf4 : k_fds (close_fd k3 dfd) = <[fd := d]> (k_fds k)).
  { simpl. rewrite Hf3. simpl. rewrite delete_insert_ne by done. by rewrite delete_insert_id. }
  destruct (close_file_fd k3 dfd) as (Ht4 & Hi4 & _ & Hl4 & Hfo4).
  assert (Hfo : files_only k (close_fd k3 dfd)).
  { eapply files_only_trans; [|exact Hfo4]. eapply files_only_trans; [|exact Hfo3]. by destruct k. }
  assert (Hsk : store_kept (lock_file name) k (close_fd k3 dfd)).
  { eapply store_kept_trans; [|by apply store_kept_same]. eapply store_kept_trans; [|exact Hsk3]. by apply store_kept_same. }
  apply wp_errno, wp_close. intros en4 z Hle4 Hz.
  rewrite (proj2 (Z.leb_le 0 fd)), andb_true_r, (proj2 (Z.ltb_ge fd 0)) by done. case_if.
  - apply wp_close. intros en5 z5 Hle5 _. apply wp_ret. destruct (close_file_fd (close_fd k3 dfd) fd) as (Ht5 & Hi5 & Hf5 & Hl5 & Hfo5).
    apply Hko; [env_lia| |left; destruct Hz as [?|[_ ?]]; [done|env_lia]]. split.
    + by rewrite Hf5, Hf4, delete_insert_id.
    + by eapply files_only_trans.
    + eapply store_kept_trans; [exact Hsk|by apply store_kept_same].
    + rewrite Hl3 in Hl4. set_solver.
  - eapply (wp_lock_opened F name mode fd d _ _ k); [by eapply fuel_ok_le; [|done]; env_lia|done|done|done|done|done| | | |].
    + rewrite Hl3 in Hl4. set_solver.
    + rewrite Ht4, Hi4. exact Hd3.
    + intros en5 k5 Hle5. apply Hok. env_lia.
    + intros en5 k5 Hle5 Hlf Hwhy. apply Hko; [env_lia|done|]. destruct Hwhy; [left; env_lia|by right].
Qed.

Lemma wp_file_lock_acquire {S} F name mode Q en (k : kern S) :
  fuel_ok F en -> filename_ok name -> mode = FILE_LOCK_SHARED \/ mode = FILE_LOCK_EXCLUSIVE ->
  k_tree k !! storage_path = Some NDir ->
  (forall en' k' fd, env_le en' en -> lock_acquired name mode fd k k' -> Q fd (W en' k')) ->
  (forall en' k', env_le en' en -> lock_failed name k k' -> env_lt en' en \/ ~ lock_usable name k -> Q (-1) (W en' k')) ->
  wp (file_lock_acquire F (Some name) mode) Q (W en k).
Proof.
  intros HF Hname Hmode Hst Hok Hko. unfold file_lock_acquire.
  rewrite (proj2 (is_valid_shared_filename_iff name) Hname). cbn [negb].
  assert (Hm : (mode != FILE_LOCK_SHARED) && (mode != FILE_LOCK_EXCLUSIVE) = false) by (by destruct Hmode as [-> | ->]).
  rewrite Hm. apply wp_bind, wp_ensure_lock_directory; [done| |].
  2:{ intros en1 Hle1 Hwhy. apply wp_ret, Hko; [done|split; [done|apply files_only_refl|apply store_kept_refl|done]|].
      destruct Hwhy as [?|(nd & Hnd & Hne)]; [by left|right]. intros [[?|?] _]; congruence. }
  intros en1 k1 Hle1 Hk1 Hd1. cbn [Z.eqb negb].
  assert (Hrel : k_fds k1 = k_fds k /\ k_locks k1 = k_locks k /\ files_only k k1 /\ store_kept (lock_file name) k k1 /\
                 (lock_usable name k -> lock_usable name k1)).
  { destruct Hk1 as [->|[-> Hn]]; [split_and!; try done; [apply files_only_refl|apply store_kept_refl]|].
    split_and!; [done|done|by destruct k| |].
    - split; simpl; [| |done].
      + intros p nd Hp. rewrite lookup_insert_ne; [done|]. intros <-. congruence.
      + intros p Hp [nd Hnd]. apply lookup_insert_Some in Hnd as [[<- _]|[_ ?]]; [by left|congruence].
    - intros [_ Hu]. split; [by right|]. simpl. by rewrite lookup_insert_ne by done. }
  destruct Hrel as (Hf1 & Hl1 & Hfo1 & Hsk1 & Hu1).
  assert (Hfailed : forall en' k', env_le en' en -> lock_failed name k1 k' -> env_lt en' en \/ ~ lock_usable name k1 -> Q (-1) (W en' k')).
  { intros en' k' Hle [A1 A2 A3 A4] Hwhy. apply Hko; [done| |].
    - split; [by rewrite A1|by eapply files_only_trans|by eapply store_kept_trans|by rewrite <- Hl1].
    - destruct Hwhy; [by left|right]. by intros ?%Hu1. }
  unfold open_lock_directory. eapply wp_fallible; [reflexivity| |].
  - intros en2 Hlt2 _. cbn [Z.ltb Z.compare]. apply wp_ret, Hfailed; [env_lia| |left; env_lia].
    split; [done|apply files_only_refl|apply store_kept_refl|done].
  - intros en2 lim Hle2 _ _. cbv beta. rewrite resolve_locks, open_path_dir by done. cbn [add_fd].
    rewrite (proj2 (Z.ltb_ge _ 0)) by apply next_fd_nonneg.
    apply wp_lock_in_directory; [by eapply fuel_ok_le; [|done]; env_lia|done|done| |].
    + intros en3 k3 fd Hle3 [[B0 B1] B2 B3 (ino & B4 & B5 & B6 & B7)]. apply Hok; [env_lia|]. split.
      * split; [done|by rewrite <- Hf1].
      * by eapply files_only_trans.
      * by eapply store_kept_trans.
      * exists ino. rewrite <- Hf1, <- Hl1. done.
    + intros en3 k3 Hle3 Hlf Hwhy. apply Hfailed; [env_lia|done|]. destruct Hwhy; [left; env_lia|by right].
Qed.

(** ** Releasing it *)

Lemma wp_unlock_loop {S} fuel fd ino off fl Q en (k : kern S) :
  k_fds k !! fd = Some (FdFile ino off fl) -> (script_len en < fuel)%nat ->
  (forall en' k' r, env_le en' en -> files_only k k' -> k_tree k' = k_tree k -> k_inodes k' = k_inodes k ->
     k_fds k' = k_fds k -> k_locks k' ⊆ k_locks k -> (r = 0 \/ r = -1 /\ env_lt en' en) -> Q r (W en' k')) ->
  wp (unlock_loop fuel fd) Q (W en k).
Proof.
  revert en. induction fuel as [|fuel IH]; intros en Hfd Hfuel HQ; [lia|]. cbn [unlock_loop].
  eapply wp_fallible; [reflexivity| |].
  - intros en1 Hlt _. cbn [Z.eqb negb]. apply wp_errno. case_if.
    + apply IH; [done|env_lia|]. intros en2 k2 r Hle2 ? ? ? ? ? Hr. apply HQ; try done; [env_lia|].
      destruct Hr as [->|[-> ?]]; [by left|right; split; [done|env_lia]].
    + apply wp_ret, HQ; try done; [env_lia|apply files_only_refl|by right].
  - intros en1 lim Hle1 _ _. cbv beta. unfold setlk_fd. rewrite Hfd. cbn [Z.eqb negb].
    apply wp_ret, HQ; [env_lia|by destruct k|done|done|done| |by left].
    intros l [_ ?]%list_elem_of_filter. done.
Qed.

(** [file_lock_release] always closes the descriptor. *)
Lemma wp_file_lock_release {S} F fd ino off fl Q en (k : kern S) :
  fuel_ok F en -> 0 <= fd -> k_fds k !! fd = Some (FdFile ino off fl) ->
  (forall en' k' r, env_le en' en -> files_only k k' -> k_tree k' = k_tree k -> k_inodes k' = k_inodes k ->
     k_fds k' = delete fd (k_fds k) -> k_locks k' ⊆ filter (fun l => l.1.2 ≠ fd) (k_locks k) ->
     (r = 0 \/ r = -1 /\ env_lt en' en) -> Q r (W en' k')) ->
  wp (file_lock_release F fd) Q (W en k).
Proof.
  intros HF H0 Hfd HQ. unfold file_lock_release. rewrite (proj2 (Z.ltb_ge fd 0)) by done.
  apply wp_bind. eapply wp_unlock_loop; [done|env_lia|]. intros en1 k1 r Hle1 Hfo Ht Hi Hf Hl Hr.
  assert (Hdone : forall en' z, env_le en' en1 -> (z = 0 \/ z = -1 /\ env_lt en' en) -> Q z (W en' (close_fd k1 fd))).
  { intros en' z Hle Hz. destruct (close_file_fd k1 fd) as (Ht2 & Hi2 & Hf2 & _ & Hfo2).
    apply HQ; [env_lia|by eapply files_only_trans|congruence|congruence|congruence| |done].
    unfold close_fd. simpl. rewrite Hf, Hfd. intros l [? ?]%list_elem_of_filter. apply list_elem_of_filter. auto. }
  apply wp_errno, wp_close. intros en2 z Hle2 Hz. case_if; [|case_if].
  - apply wp_set_errno, wp_ret. destruct Hr as [?|[_ ?]]; [done|]. apply Hdone; [env_lia|right; split; [done|env_lia]].
  - apply wp_ret. destruct Hz as [?|[_ ?]]; [done|]. apply Hdone; [env_lia|right; split; [done|env_lia]].
  - apply wp_ret, Hdone; [env_lia|by left].
Qed.

(** ** Properties *)

(** C37. [file_lock_acquire] ends either holding the lock, on the lock file of
    that name, compatible with every other lock on it (so alone, in exclusive
    mode), with one new descriptor; or returning -1, because a call failed or
    the entries in its way are not a directory and a file, with no descriptor
    and no lock left behind. In both cases no existing file is touched and
    only lock files are made. *)
Theorem lock_acquire_exclusive {S} F name mode en (k : kern S) :
  fuel_ok F en -> filename_ok name -> mode = FILE_LOCK_SHARED \/ mode = FILE_LOCK_EXCLUSIVE ->
  k_tree k !! storage_path = Some NDir ->
  runs (file_lock_acquire F (Some name) mode) (W en k) (fun r '(W en' k') =>
    lock_acquired name mode r k k' \/
    r = -1 /\ lock_failed name k k' /\ (env_lt en' en \/ ~ lock_usable name k)).
Proof. intros HF Hn Hm Hs. apply wp_runs, wp_file_lock_acquire; auto. Qed.

(** A store in which someone else holds a shared lock on the lock file. *)
Definition lock_room : kern unit :=
  with_locks [(7%positive, 9, F_RDLCK)]
    (with_inodes {[ 7%positive := mk_inode [] 0 ]}
      (with_tree (<[lock_path (B "a.txt") := NReg 7]> (<[locks_path := NDir]> {[ storage_path := NDir ]}))
        (with_fds {[ 9 := FdFile 7 0 lock_flags ]} (idle tt)))).

Lemma lock_acquire_exclusive_witness :
  runs (file_lock_acquire 9 (Some (B "a.txt")) FILE_LOCK_SHARED) (W (mk_env [Full; Full; Fail 4] 0 [] [] []) lock_room) (fun r '(W en' k') =>
    lock_acquired (B "a.txt") FILE_LOCK_SHARED r lock_room k' \/
    r = -1 /\ lock_failed (B "a.txt") lock_room k' /\ (env_lt en' (mk_env [Full; Full; Fail 4] 0 [] [] []) \/ ~ lock_usable (B "a.txt") lock_room)).
Proof.
  apply lock_acquire_exclusive; [by vm_compute; lia|by apply is_valid_shared_filename_iff|by left|done].
Defined.

(** [file_lock_release] always closes the descriptor and removes its lock,
    and nothing else, even when unlocking or closing reports a failure. *)
Lemma lock_release_frees {S} F fd ino off fl en (k : kern S) :
  fuel_ok F en -> 0 <= fd -> k_fds k !! fd = Some (FdFile ino off fl) ->
  runs (file_lock_release F fd) (W en k) (fun r '(W en' k') =>
    k_fds k' = delete fd (k_fds k) /\ k_tree k' = k_tree k /\ k_inodes k' = k_inodes k /\
    (forall l, l ∈ k_locks k' -> l ∈ k_locks k /\ l.1.2 ≠ fd) /\ (r = 0 \/ r = -1 /\ env_lt en' en)).
Proof.
  intros HF H0 Hfd. eapply wp_runs, wp_file_lock_release; [done|done|done|].
  intros en' k' r _ _ Ht Hi Hf Hl Hr. split_and!; try done. intros l Hin. by apply Hl, list_elem_of_filter in Hin as [? ?].
Qed.

Lemma lock_release_frees_witness :
  runs (file_lock_release 9 9) (W (mk_env [Fail 4; Fail 5; Fail 5] 0 [] [] []) lock_room) (fun r '(W en' k') =>
    k_fds k' = delete 9 (k_fds lock_room) /\ k_tree k' = k_tree lock_room /\ k_inodes k' = k_inodes lock_room /\
    (forall l, l ∈ k_locks k' -> l ∈ k_locks lock_room /\ l.1.2 ≠ 9) /\ (r = 0 \/ r = -1 /\ env_lt en' (mk_env [Fail 4; Fail 5; Fail 5] 0 [] [] []))).
Proof. apply (lock_release_frees 9 9 7 0 lock_flags); [by vm_compute; lia|done|done]. Defined.
