(* ===== verification/FileManager.v ===== *)
(** * The shared file store

    [src/server/file_manager.c]: uploads, downloads and the file list. *)

From S2P Require Import Prelude CLib Posix Wp Protocol NetworkIO ClientManager PerfTimer FileLock Logger.

(** A formatted text that must fit in a [char] array of the given size. *)
Definition sprintf_fit (size : Z) (text : bytes) : option bytes :=
  let '(written, s) := snprintf size text in if size <=? written then None else Some s.

Definition FILE_MANAGER : bytes := B "FILE_MANAGER".
Definition SECURITY : bytes := B "SECURITY".
Definition PERFORMANCE : bytes := B "PERFORMANCE".

(** ** Parsing *)

(** [None] for the result -1, otherwise the name and the size. *)
Definition parse_upload_metadata (metadata : option bytes) (filename_size : Z) : option (bytes * Z) :=
  match metadata with
  | None => None
  | Some metadata =>
      if filename_size == 0 then None else
      match strchr metadata BAR with
      | None => None
      | Some separator =>
          let size_text := drop (S separator) metadata in
          match strchr size_text BAR with
          | Some _ => None
          | None =>
              let name_length := Z.of_nat separator in
              if (name_length == 0) || (filename_size <=? name_length) then None else
              let filename := take separator metadata in
              if negb (is_valid_shared_filename (Some filename)) then None else
              if bool_decide (size_text = []) then None else
              let r := strtoull size_text in
              if (match st_errno r with Some e => e != 0 | None => false end)
                 || (Z.of_nat (st_end r) == 0)
                 || negb (bool_decide (drop (st_end r) size_text = []))
                 || (FILE_MAX_SIZE <? st_value r)
              then None
              else Some (filename, st_value r)
          end
      end
  end.

Section handlers.
Context `{Libc}.
(** Fuel of the loops. *)
Variable F : nat.

(** [logger_client_log] with [strerror(errno)] as its last argument. *)
Definition log_errno (lvl : Z) (src text : bytes) : prog server unit :=
  errno ← call Errno;
  log lvl src (text ++ strerror errno).

Definition send_error (socket_fd : Z) (message : bytes) : prog server Z :=
  r ← client_manager_send F socket_fd MSG_ERROR (Some message);
  if r != 0 then mret (-1) else mret 0.

(** ** The storage directory *)

Definition ensure_storage_directory : prog server Z :=
  information ← call (Lstat FILE_STORAGE_DIRECTORY);
  match information with
  | Some information =>
      if negb (S_ISDIR information) then
        _ ← call (Set_errno ENOTDIR);
        mret (-1)
      else mret 0
  | None =>
      errno ← call Errno;
      if errno != ENOENT then mret (-1) else
      r ← call (Mkdir FILE_STORAGE_DIRECTORY MODE_0755);
      errno ← call Errno;
      if (r != 0) && (errno != EEXIST) then mret (-1) else
      information ← call (Lstat FILE_STORAGE_DIRECTORY);
      match information with
      | None => mret (-1)
      | Some information =>
          if negb (S_ISDIR information) then
            _ ← call (Set_errno ENOTDIR);
            mret (-1)
          else mret 0
      end
  end.

Definition open_storage_directory : prog server Z :=
  directory_fd ← call (Open FILE_STORAGE_DIRECTORY (O_RDONLY ||| O_DIRECTORY ||| O_CLOEXEC ||| O_NOFOLLOW) 0);
  if directory_fd <? 0 then mret (-1) else
  information ← call (Fstat directory_fd);
  if (match information with Some information => negb (S_ISDIR information) | None => true end) then
    errno ← call Errno;
    let saved_errno := if errno == 0 then ENOTDIR else errno in
    _ ← call (Close directory_fd);
    _ ← call (Set_errno saved_errno);
    mret (-1)
  else mret directory_fd.

(** ** Uploads *)

(** [None] for the result -1, otherwise the name. *)
Definition build_upload_temp_name (socket_fd buffer_size : Z) : prog server (option bytes) :=
  pid ← call Getpid;
  self ← call Pthread_self;
  match sprintf_fit buffer_size (B ".upload-" ++ sdec pid ++ B "-" ++ sdec socket_fd ++ B "-" ++ dec self ++ B ".tmp") with
  | None =>
      _ ← call (Set_errno ENAMETOOLONG);
      mret None
  | Some name => mret (Some name)
  end.

(** The parameters and locals of [file_manager_handle_upload] once the
    lock is held. *)
Record upload := {
  u_socket : Z;
  u_username : bytes;
  u_filename : bytes;
  u_size : Z;
  u_lock : Z
}.

(** The first step of the cleanup: the report on a transfer that did not end. *)
Definition upload_abort_report (u : upload) (timer : option performance_timer_t) : prog server unit :=
  match timer with
  | None => mret tt
  | Some _ =>
      '(transfer_seconds, _) ← performance_timer_stop timer;
      match transfer_seconds with
      | Some transfer_seconds =>
          log LOG_WARN PERFORMANCE (B "UPLOAD_ABORTED username=" ++ u_username u ++ B " filename=" ++ u_filename u
            ++ B " expected_bytes=" ++ dec (u_size u) ++ B " seconds=" ++ fixed 6 transfer_seconds)
      | None => mret tt
      end
  end.

(** The third step: the temporary name, if it was created. *)
Definition upload_remove_temporary (u : upload) (storage_fd : Z) (temporary : option bytes) : prog server unit :=
  match temporary with
  | Some temporary_name =>
      if 0 <=? storage_fd then
        r ← call (Unlinkat storage_fd temporary_name);
        errno ← call Errno;
        if (r != 0) && (errno != ENOENT) then
          log_errno LOG_WARN FILE_MANAGER (B "Upload temp cleanup failed filename=" ++ u_filename u ++ B " error=")
        else mret tt
      else mret tt
  | None => mret tt
  end.

(** From the label [upload_cleanup]: [storage_fd], [file_fd] (-1 when not
    open), [temporary_name] if the temporary file exists, the timer if it
    runs, and the result. *)
Definition upload_cleanup (u : upload) (storage_fd file_fd : Z) (temporary : option bytes)
    (timer : option performance_timer_t) (result : Z) : prog server Z :=
  _ ← upload_abort_report u timer;
  _ ← (if 0 <=? file_fd then
        r ← call (Close file_fd);
        if r != 0 then log LOG_WARN FILE_MANAGER (B "Upload temp close failed filename=" ++ u_filename u)
        else mret tt
      else mret tt);
  _ ← upload_remove_temporary u storage_fd temporary;
  _ ← (if 0 <=? storage_fd then
        r ← call (Close storage_fd);
        if r != 0 then log LOG_WARN FILE_MANAGER (B "Storage directory close failed after upload")
        else mret tt
      else mret tt);
  r ← file_lock_release F (u_lock u);
  _ ← (if r != 0 then log LOG_WARN FILE_MANAGER (B "Unable to release upload lock username=" ++ u_username u
                            ++ B " filename=" ++ u_filename u)
      else mret tt);
  mret result.

(** From the closed temporary file to the end: publishes it. *)
Definition upload_publish (u : upload) (storage_fd : Z) (temporary_name : bytes) : prog server Z :=
  let cleanup temporary result := upload_cleanup u storage_fd (-1) temporary None result in
  r ← call (Linkat storage_fd temporary_name storage_fd (u_filename u));
  if r != 0 then
    saved_errno ← call Errno;
    if saved_errno == EEXIST then
      result ← send_error (u_socket u) (B "FILE_ALREADY_EXISTS");
      cleanup (Some temporary_name) result
    else
      _ ← log LOG_ERROR FILE_MANAGER (B "Upload finalize failed filename=" ++ u_filename u ++ B " error=" ++ strerror saved_errno);
      result ← send_error (u_socket u) (B "UPLOAD_FINALIZE_FAILED");
      cleanup (Some temporary_name) result
  else
  r ← call (Unlinkat storage_fd temporary_name);
  temporary ← (if r == 0 then mret None
              else
                _ ← log_errno LOG_WARN FILE_MANAGER (B "Unable to remove upload temp link filename=" ++ u_filename u ++ B " error=");
                mret (Some temporary_name));
  match sprintf_fit (FILE_NAME_MAX_SIZE + 64) (B "UPLOAD_SUCCESS " ++ u_filename u ++ B " " ++ dec (u_size u)) with
  | None => cleanup temporary (-1)
  | Some response =>
      r ← client_manager_send F (u_socket u) MSG_RESPONSE (Some response);
      if r != 0 then
        _ ← log LOG_WARN FILE_MANAGER (B "Upload stored but success response failed username=" ++ u_username u
              ++ B " filename=" ++ u_filename u);
        cleanup temporary (-1)
      else
        _ ← log LOG_INFO FILE_MANAGER (B "Upload success username=" ++ u_username u ++ B " filename=" ++ u_filename u
              ++ B " size=" ++ dec (u_size u));
        cleanup temporary 0
  end.

(** The transfer loop: [None] when the peer did not send all it promised,
    otherwise whether a write failed. *)
Fixpoint upload_receive_loop (fuel : nat) (u : upload) (file_fd remaining : Z) (write_failed : bool)
    : prog server (option bool) :=
  match fuel with
  | O => Diverge
  | S fuel =>
      if 0 <? remaining then
        let chunk_size := if FILE_CHUNK_SIZE <? remaining then FILE_CHUNK_SIZE else remaining in
        '(receive_result, buffer) ← recv_all F (u_socket u) chunk_size;
        if receive_result != 0 then
          _ ← log LOG_WARN FILE_MANAGER (B "Upload interrupted username=" ++ u_username u ++ B " filename=" ++ u_filename u
                ++ B " remaining=" ++ dec remaining);
          mret None
        else
        write_failed ← (if negb write_failed then
                          r ← write_all_file F file_fd buffer;
                          if r != 0 then
                            _ ← log_errno LOG_ERROR FILE_MANAGER (B "Upload write failed username=" ++ u_username u
                                  ++ B " filename=" ++ u_filename u ++ B " error=");
                            mret true
                          else mret false
                        else mret true);
        upload_receive_loop fuel u file_fd (remaining - chunk_size) write_failed
      else mret (Some write_failed)
  end.

(** The report on the transfer, after its last byte. *)
Definition upload_report (u : upload) (timer : option performance_timer_t) : prog server unit :=
  match timer with
  | None => mret tt
  | Some _ =>
      '(transfer_seconds, _) ← performance_timer_stop timer;
      match transfer_seconds with
      | Some transfer_seconds =>
          let throughput_mib_s := performance_timer_mib_per_second (u_size u) transfer_seconds in
          log LOG_INFO PERFORMANCE (B "UPLOAD username=" ++ u_username u ++ B " filename=" ++ u_filename u
            ++ B " bytes=" ++ dec (u_size u) ++ B " seconds=" ++ fixed 6 transfer_seconds
            ++ B " throughput_mib_s=" ++ fixed 3 throughput_mib_s)
      | None =>
          log LOG_WARN PERFORMANCE (B "Unable to stop upload timer username=" ++ u_username u ++ B " filename=" ++ u_filename u)
      end
  end.

(** The started timer, if [clock_gettime] works. *)
Definition start_transfer_timer (what username filename : bytes) : prog server (option performance_timer_t) :=
  '(r, timer) ← performance_timer_start (Some new_timer);
  if r == 0 then mret timer
  else
    _ ← log LOG_WARN PERFORMANCE (B "Unable to start " ++ what ++ B " timer username=" ++ username ++ B " filename=" ++ filename);
    mret None.

(** From [UPLOAD_READY] to the closed temporary file. *)
Definition upload_transfer (u : upload) (storage_fd : Z) (temporary_name : bytes) (file_fd : Z) : prog server Z :=
  r ← client_manager_send F (u_socket u) MSG_RESPONSE (Some (B "UPLOAD_READY"));
  if r != 0 then upload_cleanup u storage_fd file_fd (Some temporary_name) None (-1) else
  timer ← start_transfer_timer (B "upload") (u_username u) (u_filename u);
  received ← upload_receive_loop F u file_fd (u_size u) false;
  match received with
  | None => upload_cleanup u storage_fd file_fd (Some temporary_name) timer (-1)
  | Some write_failed =>
      _ ← upload_report u timer;
      write_failed ← (if write_failed : bool then mret true else r ← call (Fsync file_fd); mret (r != 0));
      write_failed ← (if write_failed : bool then mret true else r ← call (Fchmod file_fd MODE_0644); mret (r != 0));
      r ← call (Close file_fd);
      if (write_failed || (r != 0)) then
        result ← send_error (u_socket u) (B "UPLOAD_WRITE_FAILED");
        upload_cleanup u storage_fd (-1) (Some temporary_name) None result
      else upload_publish u storage_fd temporary_name
  end.

(** From the held lock to the created temporary file. *)
Definition upload_prepare (u : upload) : prog server Z :=
  storage_fd ← open_storage_directory;
  if storage_fd <? 0 then
    _ ← log_errno LOG_ERROR SECURITY (B "Secure storage open failed during upload error=");
    result ← send_error (u_socket u) (B "STORAGE_UNAVAILABLE");
    upload_cleanup u storage_fd (-1) None None result
  else
  destination_information ← call (Fstatat_nofollow storage_fd (u_filename u));
  match destination_information with
  | Some _ =>
      result ← send_error (u_socket u) (B "FILE_ALREADY_EXISTS");
      upload_cleanup u storage_fd (-1) None None result
  | None =>
      errno ← call Errno;
      if errno != ENOENT then
        _ ← log_errno LOG_ERROR FILE_MANAGER (B "Upload destination check failed filename=" ++ u_filename u ++ B " error=");
        result ← send_error (u_socket u) (B "UPLOAD_DESTINATION_CHECK_FAILED");
        upload_cleanup u storage_fd (-1) None None result
      else
      temporary_name ← build_upload_temp_name (u_socket u) FILE_NAME_MAX_SIZE;
      match temporary_name with
      | None =>
          result ← send_error (u_socket u) (B "UPLOAD_TEMP_PATH_FAILED");
          upload_cleanup u storage_fd (-1) None None result
      | Some temporary_name =>
          r ← call (Unlinkat storage_fd temporary_name);
          errno ← call Errno;
          if (r != 0) && (errno != ENOENT) then
            _ ← log_errno LOG_ERROR FILE_MANAGER (B "Unable to clear stale upload temp filename=" ++ u_filename u ++ B " error=");
            result ← send_error (u_socket u) (B "UPLOAD_TEMP_CLEANUP_FAILED");
            upload_cleanup u storage_fd (-1) None None result
          else
          file_fd ← call (Openat storage_fd temporary_name
                      (O_WRONLY ||| O_CREAT ||| O_EXCL ||| O_CLOEXEC ||| O_NOFOLLOW) MODE_0600);
          if file_fd <? 0 then
            _ ← log_errno LOG_ERROR FILE_MANAGER (B "Failed to create upload temp filename=" ++ u_filename u ++ B " error=");
            result ← send_error (u_socket u) (B "UPLOAD_CREATE_FAILED");
            upload_cleanup u storage_fd (-1) None None result
          else upload_transfer u storage_fd temporary_name file_fd
      end
  end.

Definition file_manager_handle_upload (socket_fd : Z) (username metadata : option bytes) : prog server Z :=
  match username with
  | None => mret (-1)
  | Some username =>
      match parse_upload_metadata metadata FILE_NAME_MAX_SIZE with
      | None =>
          _ ← log LOG_WARN SECURITY (B "Rejected upload metadata username=" ++ username);
          send_error socket_fd (B "INVALID_UPLOAD_METADATA")
      | Some (filename, file_size) =>
          r ← ensure_storage_directory;
          if r != 0 then
            _ ← log_errno LOG_ERROR FILE_MANAGER (B "Storage directory unavailable during upload error=");
            send_error socket_fd (B "STORAGE_UNAVAILABLE")
          else
          lock_fd ← file_lock_acquire F (Some filename) FILE_LOCK_EXCLUSIVE;
          if lock_fd <? 0 then
            _ ← log_errno LOG_ERROR FILE_MANAGER (B "Unable to acquire upload lock username=" ++ username ++ B " filename="
                  ++ filename ++ B " error=");
            send_error socket_fd (B "FILE_LOCK_FAILED")
          else upload_prepare {| u_socket := socket_fd; u_username := username; u_filename := filename;
                                 u_size := file_size; u_lock := lock_fd |}
      end
  end.

(** ** Downloads *)

(** The parameters and locals of [file_manager_handle_download] once the
    lock is held. *)
Record download := {
  d_socket : Z;
  d_username : bytes;
  d_filename : bytes;
  d_lock : Z
}.

(** From the label [download_cleanup]. *)
Definition download_cleanup (d : download) (storage_fd file_fd result : Z) : prog server Z :=
  _ ← (if 0 <=? file_fd then
        r ← call (Close file_fd);
        if r != 0 then log LOG_WARN FILE_MANAGER (B "Failed closing download source filename=" ++ d_filename d)
        else mret tt
      else mret tt);
  _ ← (if 0 <=? storage_fd then
        r ← call (Close storage_fd);
        if r != 0 then log LOG_WARN FILE_MANAGER (B "Storage directory close failed after download")
        else mret tt
      else mret tt);
  r ← file_lock_release F (d_lock d);
  _ ← (if r != 0 then log LOG_WARN FILE_MANAGER (B "Unable to release download lock username=" ++ d_username d
                            ++ B " filename=" ++ d_filename d)
      else mret tt);
  mret result.

(** The report on the transfer. *)
Definition download_report (d : download) (timer : option performance_timer_t) (file_size stream_result : Z) : prog server unit :=
  match timer with
  | None => mret tt
  | Some _ =>
      '(transfer_seconds, _) ← performance_timer_stop timer;
      match transfer_seconds with
      | Some transfer_seconds =>
          if stream_result == 0 then
            let throughput_mib_s := performance_timer_mib_per_second file_size transfer_seconds in
            log LOG_INFO PERFORMANCE (B "DOWNLOAD username=" ++ d_username d ++ B " filename=" ++ d_filename d
              ++ B " bytes=" ++ dec file_size ++ B " seconds=" ++ fixed 6 transfer_seconds
              ++ B " throughput_mib_s=" ++ fixed 3 throughput_mib_s)
          else
            log LOG_WARN PERFORMANCE (B "DOWNLOAD_ABORTED username=" ++ d_username d ++ B " filename=" ++ d_filename d
              ++ B " expected_bytes=" ++ dec file_size ++ B " seconds=" ++ fixed 6 transfer_seconds)
      | None =>
          log LOG_WARN PERFORMANCE (B "Unable to stop download timer username=" ++ d_username d
            ++ B " filename=" ++ d_filename d)
      end
  end.

(** From the checked size to the end. *)
Definition download_stream (d : download) (storage_fd file_fd file_size : Z) : prog server Z :=
  match sprintf_fit (MESSAGE_MAX_SIZE + 1) (B "DOWNLOAD_READY " ++ d_filename d ++ B "|" ++ dec file_size) with
  | None =>
      result ← send_error (d_socket d) (B "DOWNLOAD_METADATA_FAILED");
      download_cleanup d storage_fd file_fd result
  | Some response =>
      timer ← start_transfer_timer (B "download") (d_username d) (d_filename d);
      stream_result ← client_manager_send_file_stream F (d_socket d) MSG_RESPONSE (Some response) file_fd file_size;
      _ ← download_report d timer file_size stream_result;
      if stream_result != 0 then
        _ ← log LOG_WARN FILE_MANAGER (B "Download stream failed username=" ++ d_username d ++ B " filename=" ++ d_filename d);
        download_cleanup d storage_fd file_fd (-1)
      else
        _ ← log LOG_INFO FILE_MANAGER (B "Download success username=" ++ d_username d ++ B " filename=" ++ d_filename d
              ++ B " size=" ++ dec file_size);
        download_cleanup d storage_fd file_fd 0
  end.

(** The checks on the opened file. *)
Definition download_check (d : download) (storage_fd file_fd : Z) : prog server Z :=
  let reject (message : bytes) :=
    result ← send_error (d_socket d) message;
    download_cleanup d storage_fd file_fd result in
  information ← call (Fstat file_fd);
  match information with
  | None => reject (B "DOWNLOAD_STAT_FAILED")
  | Some information =>
      if negb (S_ISREG information) then
        _ ← log LOG_WARN SECURITY (B "Rejected non-regular download username=" ++ d_username d ++ B " filename=" ++ d_filename d);
        reject (B "NOT_A_REGULAR_FILE")
      else if st_size information <? 0 then reject (B "INVALID_FILE_SIZE")
      else
      let file_size := st_size information in
      if FILE_MAX_SIZE <? file_size then reject (B "FILE_TOO_LARGE")
      else download_stream d storage_fd file_fd file_size
  end.

(** From the held lock to the opened file. *)
Definition download_open (d : download) : prog server Z :=
  storage_fd ← open_storage_directory;
  if storage_fd <? 0 then
    _ ← log_errno LOG_ERROR SECURITY (B "Secure storage open failed during download error=");
    result ← send_error (d_socket d) (B "STORAGE_UNAVAILABLE");
    download_cleanup d storage_fd (-1) result
  else
  file_fd ← call (Openat storage_fd (d_filename d) (O_RDONLY ||| O_CLOEXEC ||| O_NOFOLLOW) 0);
  if file_fd <? 0 then
    saved_errno ← call Errno;
    result ← (if saved_errno == ENOENT then send_error (d_socket d) (B "FILE_NOT_FOUND")
              else if saved_errno == ELOOP then
                _ ← log LOG_WARN SECURITY (B "Rejected symbolic-link download username=" ++ d_username d
                      ++ B " filename=" ++ d_filename d);
                send_error (d_socket d) (B "UNSAFE_FILE_ENTRY")
              else
                _ ← log LOG_WARN FILE_MANAGER (B "Download open failed username=" ++ d_username d
                      ++ B " filename=" ++ d_filename d ++ B " error=" ++ strerror saved_errno);
                send_error (d_socket d) (B "DOWNLOAD_OPEN_FAILED"));
    download_cleanup d storage_fd file_fd result
  else download_check d storage_fd file_fd.

Definition file_manager_handle_download (socket_fd : Z) (username filename : option bytes) : prog server Z :=
  match username with
  | None => mret (-1)
  | Some username =>
      match filename with
      | Some filename =>
          if negb (is_valid_shared_filename (Some filename)) then
            _ ← log LOG_WARN SECURITY (B "Rejected download filename username=" ++ username);
            send_error socket_fd (B "INVALID_DOWNLOAD_FILENAME")
          else
          r ← ensure_storage_directory;
          if r != 0 then
            _ ← log_errno LOG_ERROR FILE_MANAGER (B "Storage directory unavailable during download error=");
            send_error socket_fd (B "STORAGE_UNAVAILABLE")
          else
          lock_fd ← file_lock_acquire F (Some filename) FILE_LOCK_SHARED;
          if lock_fd <? 0 then
            _ ← log_errno LOG_ERROR FILE_MANAGER (B "Unable to acquire download lock username=" ++ username ++ B " filename="
                  ++ filename ++ B " error=");
            send_error socket_fd (B "FILE_LOCK_FAILED")
          else download_open {| d_socket := socket_fd; d_username := username; d_filename := filename; d_lock := lock_fd |}
      | None =>
          _ ← log LOG_WARN SECURITY (B "Rejected download filename username=" ++ username);
          send_error socket_fd (B "INVALID_DOWNLOAD_FILENAME")
      end
  end.

(** ** The file list *)

(** The line for one directory entry, if it is advertised. *)
Definition list_line (d_name : bytes) (information : stat_t) : option bytes :=
  if negb (S_ISREG information) || (st_size information <? 0) then None
  else
  let file_size := st_size information in
  if FILE_MAX_SIZE <? file_size then None
  else sprintf_fit (FILE_NAME_MAX_SIZE + 64) (d_name ++ B "|" ++ dec file_size).

(** The loop over the directory: [None] when a send failed (the directory is
    closed then), otherwise [file_count] and [list_failed]. *)
Fixpoint list_loop (fuel : nat) (socket_fd directory file_count : Z) : prog server (option (Z * bool)) :=
  match fuel with
  | O => Diverge
  | S fuel =>
      entry ← call (Readdir directory);
      match entry with
      | None =>
          errno ← call Errno;
          mret (Some (file_count, errno != 0))
      | Some d_name =>
          if negb (is_valid_shared_filename (Some d_name)) then list_loop fuel socket_fd directory file_count
          else
          information ← call (Fstatat_nofollow directory d_name);
          match information with
          | None => list_loop fuel socket_fd directory file_count
          | Some information =>
              match list_line d_name information with
              | None => list_loop fuel socket_fd directory file_count
              | Some file_entry =>
                  r ← client_manager_send F socket_fd MSG_FILELIST (Some file_entry);
                  if r != 0 then
                    _ ← call (Closedir directory);
                    mret None
                  else list_loop fuel socket_fd directory (file_count + 1)
              end
          end
      end
  end.

(** From the opened directory to the end. *)
Definition list_entries (socket_fd : Z) (username : bytes) (directory : Z) : prog server Z :=
  r ← client_manager_send F socket_fd MSG_RESPONSE (Some (B "FILE_LIST_BEGIN"));
  if r != 0 then
    _ ← call (Closedir directory);
    mret (-1)
  else
  _ ← call (Set_errno 0);
  listed ← list_loop F socket_fd directory 0;
  match listed with
  | None => mret (-1)
  | Some (file_count, list_failed) =>
      r ← call (Closedir directory);
      let list_failed := list_failed || (r != 0) in
      if list_failed then
        _ ← log LOG_ERROR FILE_MANAGER (B "Shared file listing failed requester=" ++ username);
        send_error socket_fd (B "FILE_LIST_READ_FAILED")
      else
      match sprintf_fit 64 (B "FILE_LIST_END " ++ sdec file_count) with
      | None => mret (-1)
      | Some end_message =>
          r ← client_manager_send F socket_fd MSG_RESPONSE (Some end_message);
          if r != 0 then mret (-1)
          else
            _ ← log LOG_DEBUG FILE_MANAGER (B "Shared file list requested username=" ++ username
                  ++ B " count=" ++ sdec file_count);
            mret 0
      end
  end.

Definition file_manager_handle_list (socket_fd : Z) (username : option bytes) : prog server Z :=
  match username with
  | None => mret (-1)
  | Some username =>
      r ← ensure_storage_directory;
      if r != 0 then send_error socket_fd (B "STORAGE_UNAVAILABLE") else
      directory_fd ← open_storage_directory;
      if directory_fd <? 0 then
        _ ← log_errno LOG_ERROR SECURITY (B "Secure storage open failed during listing error=");
        send_error socket_fd (B "FILE_LIST_OPEN_FAILED")
      else
      directory ← call (Fdopendir directory_fd);
      if directory <? 0 then
        saved_errno ← call Errno;
        _ ← call (Close directory_fd);
        _ ← call (Set_errno saved_errno);
        send_error socket_fd (B "FILE_LIST_OPEN_FAILED")
      else list_entries socket_fd username directory
  end.
End handlers.
