(* ===== verification/Store.v ===== *)
(** * Reasoning about the file handlers

    A handler serves one client on one socket.  While it runs, the state of
    the process is the one it found ([k]) seen through a [view]: the file
    system, the descriptors it has opened ([v_extra]), the file locks, the
    mutexes, the bytes it has sent and the number of bytes it has received. *)

From S2P Require Import Prelude CLib Posix Wp Protocol NetworkIO ClientManager Registry Sending PerfTimer FileLock Logger FileManager.

Record view := View {
  v_tree : gmap path node;
  v_inodes : gmap positive inode;
  v_extra : gmap Z fdesc;
  v_locks : list (positive * Z * lock_type);
  v_held : gset mutex;
  v_out : bytes;
  v_in : nat
}.

Definition set_tree t v := View t (v_inodes v) (v_extra v) (v_locks v) (v_held v) (v_out v) (v_in v).
Definition set_inodes m v := View (v_tree v) m (v_extra v) (v_locks v) (v_held v) (v_out v) (v_in v).
Definition set_extra x v := View (v_tree v) (v_inodes v) x (v_locks v) (v_held v) (v_out v) (v_in v).
Definition set_locks l v := View (v_tree v) (v_inodes v) (v_extra v) l (v_held v) (v_out v) (v_in v).
Definition set_held h v := View (v_tree v) (v_inodes v) (v_extra v) (v_locks v) h (v_out v) (v_in v).
Definition add_out o v := View (v_tree v) (v_inodes v) (v_extra v) (v_locks v) (v_held v) (v_out v ++ o) (v_in v).
Definition add_in n v := View (v_tree v) (v_inodes v) (v_extra v) (v_locks v) (v_held v) (v_out v) (v_in v + n).

Section see.
Context (sock : Z) (k : kern server) (en0 : env).

Definition see (v : view) : kern server :=
  mk_kern (k_static k) (v_held v) (v_tree v) (v_inodes v) (v_extra v ∪ k_fds k) (v_locks v)
    (drop_stream sock (v_in v) (k_in k)) (app_stream sock (v_out v) (k_out k)) (k_shut k) (k_stdin k)
    (k_stdout k) (k_stderr k) (k_pid k) (k_self k) (k_threads k).

Definition view0 : view := View (k_tree k) (k_inodes k) ∅ (k_locks k) (k_held k) [] 0.

Lemma see_view0 : see view0 = k.
Proof. unfold see, view0. simpl. rewrite (left_id_L ∅ (∪)). by destruct k. Qed.

(** The view is coherent: the descriptors are new, and the mutexes are back
    as they were unless the environment has made a call fail since [en0]. *)
Definition good (en : env) (v : view) : Prop :=
  v_extra v ##ₘ k_fds k /\ env_le en en0 /\ (unlocked (k_held k) -> held_ok en en0 (v_held v) (k_held k)).

Lemma good_le en en' v : env_le en' en -> good en v -> good en' v.
Proof. intros Hle (Hx & Hle0 & Hh). split_and!; [done|env_lia|]. intros Hu. by eapply held_ok_le, Hh. Qed.

Lemma good_view0 : good en0 view0.
Proof. split_and!; [apply map_disjoint_empty_l|done|by left]. Qed.

(** ** Descriptors *)

Lemma see_fd v fd d : good en0 v \/ v_extra v ##ₘ k_fds k -> k_fds k !! fd = Some d -> k_fds (see v) !! fd = Some d.
Proof. intros Hg Hfd. simpl. apply lookup_union_Some_r; [destruct Hg as [[? _]|?]; done|done]. Qed.

Lemma see_extra v fd d : v_extra v !! fd = Some d -> k_fds (see v) !! fd = Some d.
Proof. intros. simpl. by apply lookup_union_Some_l. Qed.

Lemma see_add_fd v d :
  with_fds (<[next_fd (k_fds (see v)) := d]> (k_fds (see v))) (see v)
  = see (set_extra (<[next_fd (k_fds (see v)) := d]> (v_extra v)) v).
Proof. unfold see, with_fds. simpl. by rewrite insert_union_l. Qed.

Lemma see_with_tree t v : with_tree t (see v) = see (set_tree t v).
Proof. done. Qed.

Lemma see_fresh v : v_extra v !! next_fd (k_fds (see v)) = None /\ k_fds k !! next_fd (k_fds (see v)) = None.
Proof. pose proof (next_fd_fresh (k_fds (see v))) as H. simpl in H. by apply lookup_union_None in H. Qed.

Lemma good_add_fd en v d : good en v -> good en (set_extra (<[next_fd (k_fds (see v)) := d]> (v_extra v)) v).
Proof.
  intros (Hx & Hle & Hh). split_and!; [|done|done]. simpl.
  apply map_disjoint_insert_l. split; [apply see_fresh|done].
Qed.

(** The effect of closing one of the handler's descriptors. *)
Definition close_extra (fd : Z) (v : view) : view :=
  set_locks (match v_extra v !! fd with
             | Some (FdFile _ _ _) => filter (fun l => l.1.2 ≠ fd) (v_locks v)
             | _ => v_locks v
             end) (set_extra (delete fd (v_extra v)) v).

Lemma see_close en v fd d : good en v -> v_extra v !! fd = Some d -> close_fd (see v) fd = see (close_extra fd v).
Proof.
  intros (Hx & _) Hfd. unfold close_fd. rewrite (see_extra _ _ _ Hfd). unfold close_extra. rewrite Hfd.
  unfold see, with_locks, with_fds, set_locks, set_extra. simpl. rewrite delete_union.
  rewrite (delete_id (k_fds k) fd); [by destruct d|]. by eapply map_disjoint_Some_r.
Qed.

Lemma good_close en v fd : good en v -> good en (close_extra fd v).
Proof. intros (Hx & Hle & Hh). split_and!; [|done|done]. simpl. by apply map_disjoint_delete_l. Qed.

(** ** Sending *)

Hypothesis (Hso : sockets_open k).

Lemma see_sockets_open en v : good en v -> sockets_open (see v).
Proof. intros (Hx & _) i e Hi Ha. simpl. apply lookup_union_Some_r; [done|]. by eapply Hso. Qed.

(** A message to the client: all of it, or a prefix when a call failed. *)
Lemma wp_reply {A} F type payload (g : Z -> prog server A) Q en v :
  good en v -> fuel_ok F en0 -> registered (k_static k) sock -> sendable type payload ->
  (forall en' h r out, env_le en' en -> good en' (set_held h (add_out out v)) -> delivered type payload en' en0 r out ->
     wp (g r) Q (W en' (see (set_held h (add_out out v))))) ->
  wp (client_manager_send F sock type (Some payload) ≫= g) Q (W en (see v)).
Proof.
  intros Hg HF Hr Hs HQ. pose proof Hg as (Hx & Hle0 & Hh0).
  assert (Hheld : forall en' h, env_le en' en -> (unlocked (v_held v) -> held_ok en' en h (v_held v)) ->
            forall out, good en' (set_held h (add_out out v))).
  { intros en' h Hle Hh out. split_and!; [done|env_lia|]. intros Hu. simpl.
    destruct (Hh0 Hu) as [E|?]; [|right; env_lia]. rewrite E in Hh. destruct (Hh Hu); [by left|right; env_lia]. }
  apply wp_bind, wp_client_manager_send; [by eapply see_sockets_open|by eapply fuel_ok_le|..].
  - intros en' h r Hle Hh [(_ & _ & Hn)|(-> & [Hn|Hlt])]; [done|done|].
    assert (Hv : with_held h (see v) = see (set_held h (add_out [] v))).
    { unfold see, with_held. simpl. by rewrite app_nil_r. }
    rewrite Hv. apply HQ; [done|by apply Hheld|]. right. split_and!; [done|env_lia|].
    exists 0%nat. rewrite length_frame. split; [lia|done].
  - intros en' h r out Hle Hh _ _ Hd.
    assert (Hv : with_held h (sent_out sock out (see v)) = see (set_held h (add_out out v))).
    { unfold see, with_held, sent_out, with_out. simpl. by rewrite app_stream_app. }
    rewrite Hv. apply HQ; [done|by apply Hheld|]. by eapply delivered_le; [reflexivity| |].
Qed.

(** [send_error] also reduces the result to 0 and -1. *)
Lemma wp_send_error {A} F message (g : Z -> prog server A) Q en v :
  good en v -> fuel_ok F en0 -> registered (k_static k) sock -> strlen message <= MESSAGE_MAX_SIZE ->
  (forall en' h r out, env_le en' en -> good en' (set_held h (add_out out v)) -> delivered MSG_ERROR message en' en0 r out ->
     wp (g r) Q (W en' (see (set_held h (add_out out v))))) ->
  wp (send_error F sock message ≫= g) Q (W en (see v)).
Proof.
  intros Hg HF Hr Hm HQ. apply wp_bind. unfold send_error. apply wp_reply; [done|done|done|by split|].
  intros en' h r out Hle Hg' Hd. destruct Hd as [[-> ->]|(-> & Hlt & Ho)]; cbn [Z.eqb negb]; apply wp_ret, HQ; try done;
    [by left|by right].
Qed.

Lemma wp_log_errno {A} `{Libc} lvl src text (g : unit -> prog server A) Q en k1 :
  (forall en', env_le en' en -> wp (g tt) Q (W en' k1)) ->
  wp (log_errno lvl src text ≫= g) Q (W en k1).
Proof. intros HQ. apply wp_bind. unfold log_errno. apply wp_errno. unfold log. apply wp_bind, wp_logger_client_log. intros. by apply wp_ret, HQ. Qed.
End see.

(** Reports change nothing. *)
Lemma wp_log_last `{Libc} lvl src text Q en (k : kern server) :
  (forall en', env_le en' en -> Q tt (W en' k)) -> wp (log lvl src text) Q (W en k).
Proof. intros HQ. unfold log. apply wp_bind, wp_logger_client_log. intros. by apply wp_ret, HQ. Qed.

Lemma wp_log_errno_last `{Libc} lvl src text Q en (k : kern server) :
  (forall en', env_le en' en -> Q tt (W en' k)) -> wp (log_errno lvl src text) Q (W en k).
Proof. intros HQ. unfold log_errno. apply wp_errno, wp_log_last. exact HQ. Qed.

Ltac report :=
  match goal with
  | |- wp (match ?timer with Some _ => _ | None => _ end) _ _ => destruct timer as [?|]
  | _ => idtac
  end;
  [apply wp_bind, wp_performance_timer_stop; intros ? [[?|] ?] ?|..];
  try (apply wp_log_last; intros); try (apply wp_ret).

Lemma wp_upload_abort_report `{Libc} u timer Q en (k : kern server) :
  (forall en', env_le en' en -> Q tt (W en' k)) -> wp (upload_abort_report u timer) Q (W en k).
Proof. intros HQ. unfold upload_abort_report. report; apply HQ; env_lia. Qed.

Lemma wp_upload_report `{Libc} u timer Q en (k : kern server) :
  (forall en', env_le en' en -> Q tt (W en' k)) -> wp (upload_report u timer) Q (W en k).
Proof. intros HQ. unfold upload_report. report; apply HQ; env_lia. Qed.

Lemma wp_download_report `{Libc} d timer n r Q en (k : kern server) :
  (forall en', env_le en' en -> Q tt (W en' k)) -> wp (download_report d timer n r) Q (W en k).
Proof. intros HQ. unfold download_report. report; try case_if; try (apply wp_log_last; intros); apply HQ; env_lia. Qed.

Lemma wp_start_transfer_timer `{Libc} what user file Q en (k : kern server) :
  (forall en' timer, env_le en' en -> Q timer (W en' k)) -> wp (start_transfer_timer what user file) Q (W en k).
Proof.
  intros HQ. unfold start_transfer_timer. apply wp_bind, wp_performance_timer_start. intros en1 [r timer] Hle1.
  case_if; [by apply wp_ret, HQ|]. apply wp_log. intros en2 Hle2. apply wp_ret, HQ. env_lia.
Qed.

(** ** The storage directory *)

Definition storage_flags : Z := O_RDONLY ||| O_DIRECTORY ||| O_CLOEXEC ||| O_NOFOLLOW.

(** The store can be used: its directory exists or can be made. *)
Definition storage_usable (t : gmap path node) : Prop := t !! storage_path = None \/ t !! storage_path = Some NDir.

(** Looking at the directory, without following a link. *)
Lemma wp_lstat_storage {A} (g : option stat_t -> prog server A) Q en (k : kern server) :
  (forall en' i, env_le en' en -> k_tree k !! storage_path = Some NDir -> S_ISDIR i = true -> wp (g (Some i)) Q (W en' k)) ->
  (forall en' i, env_le en' en -> ~ storage_usable (k_tree k) -> S_ISDIR i = false -> wp (g (Some i)) Q (W en' k)) ->
  (forall en', env_le en' en ->
     env_lt en' en \/ ~ storage_usable (k_tree k) \/ e_errno en' = ENOENT /\ k_tree k !! storage_path = None ->
     wp (g None) Q (W en' k)) ->
  wp (call (Lstat FILE_STORAGE_DIRECTORY) ≫= g) Q (W en k).
Proof.
  intros Hdir Hother Hnone. eapply wp_fallible; [reflexivity|intros en1 Hlt _; apply Hnone; [env_lia|by left]|].
  intros en1 lim Hle _ _. cbv beta. unfold lstat_path. rewrite resolve_storage.
  assert (Hu : forall nd, k_tree k !! storage_path = Some nd -> nd ≠ NDir -> ~ storage_usable (k_tree k))
    by (intros nd H1 H2 [?|?]; congruence).
  destruct (k_tree k !! storage_path) as [[ino| |t|]|] eqn:E; cbn [stat_node].
  - destruct (k_inodes k !! ino); simpl; [by apply Hother; [|eapply Hu|]|].
    apply Hnone; [done|]. right. left. by eapply Hu.
  - by apply Hdir.
  - by apply Hother; [|eapply Hu|].
  - by apply Hother; [|eapply Hu|].
  - apply Hnone; [done|auto].
Qed.

Lemma wp_ensure_storage_directory {A} `{Libc} (g : Z -> prog server A) Q en (k : kern server) :
  (forall en' k1, env_le en' en ->
     (k1 = k \/ k1 = with_tree (<[storage_path := NDir]> (k_tree k)) k /\ k_tree k !! storage_path = None) ->
     k_tree k1 !! storage_path = Some NDir -> wp (g 0) Q (W en' k1)) ->
  (forall en' k1, env_le en' en -> env_lt en' en \/ ~ storage_usable (k_tree k) ->
     (k1 = k \/ k1 = with_tree (<[storage_path := NDir]> (k_tree k)) k /\ k_tree k !! storage_path = None) ->
     wp (g (-1)) Q (W en' k1)) ->
  wp (ensure_storage_directory ≫= g) Q (W en k).
Proof.
  intros Hok Hko. apply wp_bind. unfold ensure_storage_directory. apply wp_lstat_storage.
  { intros en1 i Hle Hd Hi. rewrite Hi. apply wp_ret, Hok; [done|by left|done]. }
  { intros en1 i Hle Hu Hi. rewrite Hi. apply wp_set_errno, wp_ret, Hko; [env_lia|by right|by left]. }
  intros en1 Hle1 Hwhy. apply wp_errno. case_if.
  { apply wp_ret, Hko; [done| |by left]. destruct Hwhy as [?|[?|[? _]]]; [by left|by right|done]. }
  assert (Hcheck : forall en2 k1, env_le en2 en1 ->
    (k1 = k \/ k1 = with_tree (<[storage_path := NDir]> (k_tree k)) k /\ k_tree k !! storage_path = None) ->
    (env_lt en2 en \/ ~ storage_usable (k_tree k) \/ k_tree k1 !! storage_path = Some NDir) ->
    wp (information ← call (Lstat FILE_STORAGE_DIRECTORY);
        match information with
        | None => mret (-1)
        | Some information => if negb (S_ISDIR information) then _ ← call (Set_errno ENOTDIR); mret (-1) else mret 0
        end) (fun r w => wp (g r) Q w) (W en2 k1)).
  { intros en2 k1 Hle2 Hk1 Hd. apply wp_lstat_storage.
    - intros en3 i Hle3 Hd3 Hi. rewrite Hi. apply wp_ret, Hok; [env_lia|done|done].
    - intros en3 i Hle3 Hu3 Hi. rewrite Hi. apply wp_set_errno, wp_ret, Hko; [env_lia| |done].
      destruct Hd as [?|[?|Hd]]; [left; env_lia|by right|]. destruct Hu3. by right.
    - intros en3 Hle3 Hw. apply wp_ret, Hko; [env_lia| |done].
      destruct Hd as [?|[?|Hd]]; [left; env_lia|by right|left].
      destruct Hw as [?|[Hu|[_ ?]]]; [env_lia| |congruence]. destruct Hu. by right. }
  apply wp_mkdir; rewrite resolve_storage.
  - intros en2 Hle2 Hn _. apply wp_errno. cbn [Z.eqb negb andb]. apply Hcheck; [done|by right|].
    right. right. simpl. by rewrite lookup_insert_eq.
  - intros en2 Hle2 Hwhy2 _. apply wp_errno. cbn [Z.eqb negb andb]. case_if.
    + apply wp_ret, Hko; [env_lia| |by left]. destruct Hwhy2 as [?|[[? _]|Hd]]; [left; env_lia|done|done].
    + apply Hcheck; [done|by left|]. destruct Hwhy2 as [?|[[_ [nd Hnd]]|Hd]]; [left; env_lia| |done].
      destruct Hwhy as [?|[?|[_ ?]]]; [left; env_lia|by right; left|congruence].
Qed.

(** Opening it, without following a link. *)
Lemma wp_open_storage_directory {A} `{Libc} (g : Z -> prog server A) Q en (k : kern server) :
  k_tree k !! storage_path = Some NDir ->
  (forall en', env_le en' en ->
     wp (g (next_fd (k_fds k))) Q (W en' (with_fds (<[next_fd (k_fds k) := FdDir storage_path]> (k_fds k)) k))) ->
  (forall en', env_lt en' en -> wp (g (-1)) Q (W en' k)) ->
  wp (open_storage_directory ≫= g) Q (W en k).
Proof.
  intros Hd Hok Hko. apply wp_bind. unfold open_storage_directory.
  eapply wp_fallible; [reflexivity|intros en1 Hlt _; cbn [Z.ltb Z.compare]; by apply wp_ret, Hko|].
  intros en1 lim Hle1 _ _. cbv beta. rewrite resolve_storage, open_path_dir by done. cbn [add_fd].
  set (fd := next_fd (k_fds k)). rewrite (proj2 (Z.ltb_ge fd 0)) by apply next_fd_nonneg.
  set (k1 := with_fds (<[fd := FdDir storage_path]> (k_fds k)) k).
  assert (Hclose : close_fd k1 fd = k) by by apply close_add_fd.
  eapply wp_fallible; [reflexivity| |].
  - intros en2 Hlt _. apply wp_errno, wp_close. intros en3 z Hle3 _. rewrite Hclose.
    apply wp_set_errno, wp_ret, Hko. env_lia.
  - intros en2 lim2 Hle2 _ _. cbv beta. unfold fstat_fd.
    assert (k_fds k1 !! fd = Some (FdDir storage_path)) as -> by apply lookup_insert_eq.
    simpl. apply wp_ret, Hok. env_lia.
Qed.

(** ** Entries of the storage directory *)

Definition entry_path (name : bytes) : path := storage_path ++ [name].

Section entries.
Context {A : Type} (k : kern server) (dfd : Z) (name : bytes).
Hypothesis (Hdir : k_fds k !! dfd = Some (FdDir storage_path)) (Hname : resolve storage_path name = entry_path name).

Lemma wp_unlinkat (g : Z -> prog server A) Q en :
  (forall en' nd, env_le en' en -> k_tree k !! entry_path name = Some nd -> nd ≠ NDir ->
     wp (g 0) Q (W en' (with_tree (delete (entry_path name) (k_tree k)) k))) ->
  (forall en', env_le en' en ->
     env_lt en' en \/ k_tree k !! entry_path name = None /\ e_errno en' = ENOENT \/ k_tree k !! entry_path name = Some NDir ->
     wp (g (-1)) Q (W en' k)) ->
  wp (call (Unlinkat dfd name) ≫= g) Q (W en k).
Proof.
  intros Hok Hko. eapply wp_fallible; [reflexivity|intros en1 Hlt _; apply Hko; [env_lia|by left]|].
  intros en1 lim Hle _ _. cbv beta. unfold at_dir, fd_dir. rewrite Hdir, Hname. unfold unlink_path.
  destruct (k_tree k !! entry_path name) as [nd|] eqn:E; [|apply Hko; [done|right; left; done]].
  destruct nd; [by eapply Hok|apply Hko; [done|by right; right]|by eapply Hok|by eapply Hok].
Qed.

Lemma wp_fstatat (g : option stat_t -> prog server A) Q en :
  (forall en' nd i, env_le en' en -> k_tree k !! entry_path name = Some nd -> stat_node k nd = Some i ->
     wp (g (Some i)) Q (W en' k)) ->
  (forall en', env_le en' en ->
     env_lt en' en \/ k_tree k !! entry_path name = None /\ e_errno en' = ENOENT \/
     (exists nd, k_tree k !! entry_path name = Some nd /\ e_errno en' = EIO) ->
     wp (g None) Q (W en' k)) ->
  wp (call (Fstatat_nofollow dfd name) ≫= g) Q (W en k).
Proof.
  intros Hok Hko. eapply wp_fallible; [reflexivity|intros en1 Hlt _; apply Hko; [env_lia|by left]|].
  intros en1 lim Hle _ _. cbv beta. unfold at_dir, fd_dir. rewrite Hdir, Hname. unfold lstat_path.
  destruct (k_tree k !! entry_path name) as [nd|] eqn:E; [|apply Hko; [done|right; left; done]].
  destruct (stat_node k nd) as [i|] eqn:Ei; [by eapply Hok|]. apply Hko; [done|right; right; by exists nd].
Qed.

(** The exclusive creation of a file. *)
Definition create_flags : Z := O_WRONLY ||| O_CREAT ||| O_EXCL ||| O_CLOEXEC ||| O_NOFOLLOW.

Lemma wp_create (g : Z -> prog server A) Q en mode :
  k_tree k !! storage_path = Some NDir ->
  (forall en' ino, env_le en' en -> k_tree k !! entry_path name = None -> k_inodes k !! ino = None ->
     let fd := next_fd (k_fds k) in
     wp (g fd) Q (W en' (with_fds (<[fd := FdFile ino 0 create_flags]> (k_fds k))
                           (with_tree (<[entry_path name := NReg ino]> (k_tree k))
                             (with_inodes (<[ino := mk_inode [] mode]> (k_inodes k)) k))))) ->
  (forall en', env_le en' en -> env_lt en' en \/ is_Some (k_tree k !! entry_path name) -> wp (g (-1)) Q (W en' k)) ->
  wp (call (Openat dfd name create_flags mode) ≫= g) Q (W en k).
Proof.
  intros Hst Hok Hko. eapply wp_fallible; [reflexivity|intros en1 Hlt _; apply Hko; [env_lia|by left]|].
  intros en1 lim Hle _ _. cbv beta. unfold at_dir, fd_dir. rewrite Hdir, Hname. unfold open_path.
  destruct (k_tree k !! entry_path name) as [nd|] eqn:E.
  - change (has create_flags O_CREAT && has create_flags O_EXCL) with true. cbv iota. apply Hko; [done|right; by eexists].
  - change (has create_flags O_CREAT) with true. cbv iota.
    assert (is_dir k (removelast (entry_path name)) = true) as ->.
    { change (match k_tree k !! storage_path with Some NDir => true | _ => false end = true). by rewrite Hst. }
    unfold create_file, add_fd. apply (Hok _ (fresh (dom (k_inodes k)))); [done|done|apply not_elem_of_dom, is_fresh].
Qed.

(** The publication of an entry under a second name. *)
Lemma wp_linkat new ino (g : Z -> prog server A) Q en :
  resolve storage_path new = entry_path new -> k_tree k !! storage_path = Some NDir ->
  k_tree k !! entry_path name = Some (NReg ino) ->
  (forall en', env_le en' en -> k_tree k !! entry_path new = None ->
     wp (g 0) Q (W en' (with_tree (<[entry_path new := NReg ino]> (k_tree k)) k))) ->
  (forall en', env_le en' en -> env_lt en' en \/ is_Some (k_tree k !! entry_path new) /\ e_errno en' = EEXIST ->
     wp (g (-1)) Q (W en' k)) ->
  wp (call (Linkat dfd name dfd new) ≫= g) Q (W en k).
Proof.
  intros Hnew Hst Hold Hok Hko. eapply wp_fallible; [reflexivity|intros en1 Hlt _; apply Hko; [env_lia|by left]|].
  intros en1 lim Hle _ _. cbv beta. unfold at_dir, fd_dir. rewrite Hdir, Hname, Hnew. unfold link_path. rewrite Hold.
  destruct (k_tree k !! entry_path new) as [nd|] eqn:E; [apply Hko; [done|right; split; [by eexists|done]]|].
  assert (is_dir k (removelast (entry_path new)) = true) as ->; [|by apply Hok].
  change (match k_tree k !! storage_path with Some NDir => true | _ => false end = true). by rewrite Hst.
Qed.
End entries.

(** ** Names *)

Lemma dec_isdigit z : Forall (fun b => isdigit b = true) (dec z).
Proof.
  destruct (Z.le_gt_cases 0 z); [by apply dec_digits_all|]. unfold dec.
  rewrite Z.log2_nonpos by lia. constructor; [|done]. apply isdigit_digit, Z.mod_pos_bound. lia.
Qed.

Lemma sdec_no_slash z : SLASH ∉ sdec z.
Proof.
  assert (Hd : forall y, SLASH ∉ dec y).
  { intros y Hin. pose proof (dec_isdigit y) as H. rewrite Forall_forall in H. apply H in Hin. by vm_compute in Hin. }
  unfold sdec. case_if; [|apply Hd]. intros [?|?]%elem_of_cons; [done|by eapply Hd].
Qed.

Lemma dec_no_slash z : SLASH ∉ dec z.
Proof. intros Hin. pose proof (dec_isdigit z) as H. rewrite Forall_forall in H. apply H in Hin. by vm_compute in Hin. Qed.

Lemma filename_entry name : filename_ok name -> resolve storage_path name = entry_path name.
Proof. apply filename_ok_resolve. Qed.

Lemma sprintf_fit_Some size text s : sprintf_fit size text = Some s -> s = text /\ zlen text < size.
Proof.
  unfold sprintf_fit. destruct (snprintf size text) as [n s'] eqn:E. pose proof (snprintf_fits _ _ _ _ E) as Hs.
  unfold snprintf in E. injection E as <- _. case_if; [done|]. intros [= <-]. split; [by apply Hs|done].
Qed.

Lemma sprintf_fit_ok size text : zlen text < size -> sprintf_fit size text = Some text.
Proof.
  intros H. unfold sprintf_fit. destruct (snprintf size text) as [n s'] eqn:E. pose proof (snprintf_fits _ _ _ _ E) as Hs.
  unfold snprintf in E. injection E as <- _. rewrite (proj2 (Z.leb_gt _ _)) by done. f_equal. by apply Hs.
Qed.

(** ** The ends of the handlers *)

(** [if (fd >= 0) close(fd)] *)
Definition close_opt (fd : Z) (v : view) : view := if 0 <=? fd then close_extra fd v else v.

Section holding.
Context (k : kern server) (lock : Z).

(** The descriptors the handler still has, besides the lock. *)
Definition holds (storage_fd file_fd : Z) (v : view) : Prop :=
  (exists ino, v_extra v !! lock = Some (FdFile ino 0 lock_flags)) /\
  (storage_fd = -1 \/ 0 <= storage_fd /\ v_extra v !! storage_fd = Some (FdDir storage_path)) /\
  (file_fd = -1 \/ 0 <= file_fd /\ file_fd ≠ lock /\ file_fd ≠ storage_fd /\ is_Some (v_extra v !! file_fd)) /\
  (forall fd, is_Some (v_extra v !! fd) -> fd = lock \/ 0 <= storage_fd /\ fd = storage_fd \/ 0 <= file_fd /\ fd = file_fd) /\
  (forall l, l ∈ v_locks v -> l.1.2 ≠ lock -> l ∈ k_locks k).

Lemma holds_close_file storage_fd file_fd v : holds storage_fd file_fd v -> holds storage_fd (-1) (close_opt file_fd v).
Proof.
  intros ((ino & Hl) & Hs & Hf & Hx & Hlk). unfold close_opt. case_if.
  2:{ split_and!; [by exists ino|done|by left| |done]. intros fd Hfd. destruct (Hx fd Hfd) as [?|[?|[? _]]]; [auto..|lia]. }
  destruct Hf as [->|(_ & Hne & Hns & d0 & Hf)]; [done|].
  unfold close_extra, holds. simpl. split_and!.
  - exists ino. by rewrite lookup_delete_ne.
  - destruct Hs as [?|[? ?]]; [by left|right]. by rewrite lookup_delete_ne.
  - by left.
  - intros fd [d Hd]. apply lookup_delete_Some in Hd as [Hne' Hd].
    destruct (Hx fd ltac:(by eexists)) as [?|[?|[_ ?]]]; [auto..|congruence].
  - rewrite Hf. destruct d0; try done. intros l [_ Hin]%list_elem_of_filter. by apply Hlk.
Qed.

Lemma holds_close_storage storage_fd v : holds storage_fd (-1) v -> holds (-1) (-1) (close_opt storage_fd v).
Proof.
  intros ((ino & Hl) & Hs & _ & Hx & Hlk). unfold close_opt. case_if.
  2:{ split_and!; [by exists ino|by left|by left| |done]. intros fd Hfd. destruct (Hx fd Hfd) as [?|[[? _]|?]]; [auto|lia|auto]. }
  destruct Hs as [->|(_ & Hs)]; [done|]. assert (Hne : storage_fd ≠ lock) by (intros ->; congruence).
  unfold close_extra, holds. rewrite Hs. simpl. split_and!; [exists ino; by rewrite lookup_delete_ne|by left|by left| |done].
  intros fd [d Hd]. apply lookup_delete_Some in Hd as [Hne' Hd].
  destruct (Hx fd ltac:(by eexists)) as [?|[[_ ?]|?]]; [auto|congruence|auto].
Qed.

Lemma holds_add_storage fd v :
  v_extra v !! fd = None -> 0 <= fd -> holds (-1) (-1) v -> holds fd (-1) (set_extra (<[fd := FdDir storage_path]> (v_extra v)) v).
Proof.
  intros Hn H0 ((ino & Hl) & _ & _ & Hx & Hlk). split_and!; [| |by left| |done]; simpl.
  - exists ino. rewrite lookup_insert_ne; [done|]. congruence.
  - right. by rewrite lookup_insert_eq.
  - intros f [x Hf]. apply lookup_insert_Some in Hf as [[<- _]|[_ Hf]]; [auto|].
    destruct (Hx f ltac:(by eexists)) as [?|[[? _]|[? _]]]; [auto|lia..].
Qed.

Lemma holds_add_file storage_fd fd d v :
  v_extra v !! fd = None -> 0 <= fd -> holds storage_fd (-1) v -> holds storage_fd fd (set_extra (<[fd := d]> (v_extra v)) v).
Proof.
  intros Hn H0 ((ino & Hl) & Hs & _ & Hx & Hlk). split_and!; [| | | |done]; simpl.
  - exists ino. rewrite lookup_insert_ne; [done|]. congruence.
  - destruct Hs as [?|[? ?]]; [by left|right]. split; [done|]. rewrite lookup_insert_ne; [done|]. congruence.
  - right. rewrite lookup_insert_eq. split_and!; [done|congruence| |done]. intros ->. destruct Hs as [?|[_ ?]]; [lia|congruence].
  - intros f [x Hf]. apply lookup_insert_Some in Hf as [[<- _]|[_ Hf]]; [auto|].
    destruct (Hx f ltac:(by eexists)) as [?|[?|[? _]]]; [auto|auto|lia].
Qed.

(** Only the offset of the open file moves. *)
Lemma holds_move_file storage_fd fd ino off off' fl v :
  v_extra v !! fd = Some (FdFile ino off fl) -> fd ≠ lock -> holds storage_fd fd v ->
  holds storage_fd fd (set_extra (<[fd := FdFile ino off' fl]> (v_extra v)) v).
Proof.
  intros Hfd Hne ((i & Hl) & Hs & Hf & Hx & Hlk). split_and!; [| | | |done]; simpl.
  - exists i. by rewrite lookup_insert_ne.
  - destruct Hs as [?|[? ?]]; [by left|right]. split; [done|]. rewrite lookup_insert_ne; [done|]. congruence.
  - destruct Hf as [?|(? & ? & ? & _)]; [by left|right]. by rewrite lookup_insert_eq.
  - intros f [x Hfx]. apply lookup_insert_Some in Hfx as [[<- _]|[_ Hfx]]; [|apply Hx; by eexists].
    apply Hx. rewrite Hfd. by eexists.
Qed.
End holding.

Section cleanup.
Context `{Libc} (sock : Z) (k : kern server) (en0 : env).
Abbreviation see := (see sock k).
Abbreviation good := (good k en0).

(** [if (fd >= 0) { if (close(fd) != 0) { log } }] *)
Lemma wp_close_opt {A} fd text (g : unit -> prog server A) Q en v :
  good en v -> fd = -1 \/ 0 <= fd /\ is_Some (v_extra v !! fd) ->
  (forall en', env_le en' en -> good en' (close_opt fd v) -> wp (g tt) Q (W en' (see (close_opt fd v)))) ->
  wp ((if 0 <=? fd then
         r ← call (Close fd);
         if r != 0 then log LOG_WARN FILE_MANAGER text else mret tt
       else mret tt) ≫= g) Q (W en (see v)).
Proof.
  intros Hg Hfd HQ. apply wp_bind. unfold close_opt in *. case_if.
  - destruct Hfd as [->|[_ [d Hd]]]; [done|]. apply wp_close. intros en1 z Hle1 _.
    rewrite (see_close _ _ en0 en _ _ d) by done.
    assert (Hg1 : forall e, env_le e en -> good e (close_extra fd v)) by (intros; apply good_close; by eapply good_le).
    case_if.
    + unfold log. apply wp_bind, wp_logger_client_log. intros en2 r Hle2.
      apply wp_ret, HQ; [env_lia|apply Hg1; env_lia].
    + apply wp_ret, HQ; [env_lia|apply Hg1; env_lia].
  - apply wp_ret, HQ; [env_lia|done].
Qed.

(** The last steps: the lock is released, and only the lock was left. *)
Lemma wp_release_lock {A} F lock text (result : A) Q en v ino off fl :
  good en v -> fuel_ok F en0 -> 0 <= lock -> v_extra v !! lock = Some (FdFile ino off fl) ->
  (forall fd, is_Some (v_extra v !! fd) -> fd = lock) ->
  (forall l, l ∈ v_locks v -> l.1.2 ≠ lock -> l ∈ k_locks k) ->
  (forall en' locks, env_le en' en -> locks ⊆ k_locks k -> good en' (set_locks locks (set_extra ∅ v)) ->
     Q result (W en' (see (set_locks locks (set_extra ∅ v))))) ->
  wp (r ← file_lock_release F lock;
      _ ← (if r != 0 then log LOG_WARN FILE_MANAGER text else mret tt);
      mret result) Q (W en (see v)).
Proof.
  intros Hg HF H0 Hx Honly Hlocks HQ. pose proof Hg as (Hd & Hle0 & Hh).
  assert (Hempty : delete lock (v_extra v) = ∅).
  { apply map_eq. intros fd. rewrite lookup_empty. destruct (decide (fd = lock)) as [->|Hne]; [apply lookup_delete_eq|].
    rewrite lookup_delete_ne by done. destruct (v_extra v !! fd) eqn:E; [|done]. destruct Hne. apply Honly. by eexists. }
  apply wp_bind. eapply wp_file_lock_release; [by eapply fuel_ok_le|done|by apply see_extra|].
  intros en1 k1 r Hle1 Hfo Ht Hi Hf Hl Hr.
  assert (Hk1 : k1 = see (set_locks (k_locks k1) (set_extra ∅ v))).
  { rewrite Hfo, Ht, Hi, Hf. unfold Store.see. simpl. rewrite delete_union, Hempty.
    rewrite (delete_id (k_fds k) lock); [done|]. by eapply map_disjoint_Some_r. }
  assert (Hk : k_locks k1 ⊆ k_locks k).
  { intros l Hin. apply Hl in Hin. apply list_elem_of_filter in Hin as [? ?]. by apply Hlocks. }
  assert (Hgood : forall e, env_le e en -> good e (set_locks (k_locks k1) (set_extra ∅ v))).
  { intros e He. split_and!; [apply map_disjoint_empty_l|env_lia|]. intros Hu. eapply held_ok_le; [|by apply Hh]. done. }
  rewrite Hk1. case_if.
  - apply wp_log. intros en2 Hle2. apply wp_ret, HQ; [env_lia|done|apply Hgood; env_lia].
  - apply wp_bind, wp_ret, wp_ret, HQ; [env_lia|done|apply Hgood; env_lia].
Qed.
End cleanup.

(** ** Requests that leave the store as it is *)

(** The paths that a request for the file [name] may create before it looks
    at the file. *)
Definition early (name : bytes) (p : path) : Prop := p = storage_path \/ lock_file name p.

(** The client is answered; nothing else happens, except that the storage and
    lock directories and the lock file may be made. *)
Record quiet (name : bytes) (sock : Z) (en : env) (k : kern server) (en' : env) (k' : kern server) : Prop := {
  qu_env : env_le en' en;
  qu_held : unlocked (k_held k) -> held_ok en' en (k_held k') (k_held k);
  qu_static : k_static k' = k_static k;
  qu_process : k_pid k' = k_pid k /\ k_self k' = k_self k;
  qu_fds : k_fds k' = k_fds k;
  qu_locks : k_locks k' ⊆ k_locks k;
  qu_in : k_in k' = k_in k;
  qu_others : forall fd, fd ≠ sock -> stream (k_out k') fd = stream (k_out k) fd;
  qu_out : exists sent, stream (k_out k') sock = stream (k_out k) sock ++ sent;
  qu_files : store_kept (early name) k k'
}.

Lemma quiet_see name sock k en en' v :
  good k en en' v -> v_extra v = ∅ -> v_locks v ⊆ k_locks k -> v_in v = 0%nat ->
  store_kept (early name) k (see sock k v) ->
  quiet name sock en k en' (see sock k v).
Proof.
  intros (_ & Hle & Hh) X L I S. split; simpl; try done.
  - by rewrite X, (left_id_L ∅ (∪)).
  - by rewrite I.
  - intros fd Hne. by apply stream_app_ne.
  - exists (v_out v). apply stream_app_eq.
Qed.

(** [k1] is [k] with file-system changes only. *)
Lemma files_only_see sock (k k1 : kern server) x :
  files_only k k1 -> k_fds k1 = x ∪ k_fds k ->
  k1 = see sock k (View (k_tree k1) (k_inodes k1) x (k_locks k1) (k_held k) [] 0).
Proof. unfold files_only. intros Hf Hx. rewrite Hf at 1. unfold see. simpl. rewrite Hx. by destruct k. Qed.

(** The answer of a handler that has opened nothing. *)
Lemma wp_refuse_early F name sock m Q en en1 (k k1 : kern server) :
  sockets_open k -> registered (k_static k) sock -> fuel_ok F en ->
  env_le en1 en -> files_only k k1 -> k_fds k1 = k_fds k -> k_locks k1 ⊆ k_locks k ->
  store_kept (early name) k k1 -> strlen m <= MESSAGE_MAX_SIZE ->
  (forall en' v r, env_le en' en1 -> good k en en' v -> v_extra v = ∅ -> v_locks v ⊆ k_locks k ->
     v_tree v = k_tree k1 -> v_inodes v = k_inodes k1 -> v_in v = 0%nat -> delivered MSG_ERROR m en' en r (v_out v) ->
     Q r (W en' (see sock k v))) ->
  wp (send_error F sock m) Q (W en1 k1).
Proof.
  intros Hso Hreg HF Hle1 Hfo Hf Hl Hsk Hm HQ.
  rewrite (files_only_see sock k k1 ∅ Hfo) by by rewrite Hf, (left_id_L ∅ (∪)).
  set (v := View _ _ _ _ _ _ _). assert (G : good k en en1 v) by (split_and!; [apply map_disjoint_empty_l|done|by left]).
  assert (Hw : wp (r ← send_error F sock m; mret r) Q (W en1 (see sock k v))).
  { eapply wp_send_error; [exact Hso|done|done|done|done|].
    intros en2 h r out Hle2 G2 Hd. by apply wp_ret, HQ. }
  apply wp_bind_iff in Hw. eapply wp_mono; [exact Hw|]. by intros r w.
Qed.

(** The result of [ensure_storage_directory] keeps the lock usable. *)
Lemma storage_step_kept name (k k1 : kern server) :
  k1 = k \/ k1 = with_tree (<[storage_path := NDir]> (k_tree k)) k /\ k_tree k !! storage_path = None ->
  files_only k k1 /\ k_fds k1 = k_fds k /\ k_locks k1 = k_locks k /\ (lock_usable name k -> lock_usable name k1) /\
  store_kept (early name) k k1.
Proof.
  intros [->|[-> Hn]]; [split_and!; try done; [apply files_only_refl|apply store_kept_refl]|].
  split_and!; [by destruct k|done|done| |].
  - unfold lock_usable. simpl. by rewrite !lookup_insert_ne.
  - split; simpl; [| |done].
    + intros p nd Hp. rewrite lookup_insert_ne; [done|]. intros <-. congruence.
    + intros p Hp [nd Hnd]. apply lookup_insert_Some in Hnd as [[<- _]|[_ ?]]; [by left|congruence].
Qed.

Lemma entry_not_lock name n : filename_ok name -> ~ lock_file n (entry_path name).
Proof.
  intros (_ & _ & (c & t & -> & Hc) & _) [[= -> _]|[=]]. destruct Hc as [Hc|Hc]; by vm_compute in Hc.
Qed.
