(* ===== verification/Upload.v ===== *)
(** * Uploads

    [file_manager_handle_upload]: what is received, stored, published and
    answered, whatever calls fail. *)

From S2P Require Import Prelude CLib Posix Wp Protocol NetworkIO ClientManager Registry Sending PerfTimer FileLock Logger.
From S2P Require Import FileManager Store.

Section upload.
Context `{Libc} (F : nat) (k : kern server) (en0 : env) (u : upload).

Let sock := u_socket u.
Let name := u_filename u.
Let size := u_size u.
Let lock := u_lock u.
Abbreviation see := (see sock k).
Abbreviation good := (good k en0).
Abbreviation holds := (holds k (u_lock u)).

(** What the client sends after its request. *)
Definition input : bytes := stream (k_in k) sock.

(** The temporary file and the destination. *)
Definition temporary_text : bytes :=
  B ".upload-" ++ sdec (k_pid k) ++ B "-" ++ sdec sock ++ B "-" ++ dec (k_self k) ++ B ".tmp".
Definition tmp_path : path := entry_path temporary_text.
Definition dest_path : path := entry_path name.

Hypothesis (Hso : sockets_open k) (Hreg : registered (k_static k) sock) (HF : stream_fuel F en0).
Hypothesis (Hname : filename_ok name) (Hsize : 0 <= size <= FILE_MAX_SIZE) (Hlock0 : 0 <= lock).

Lemma temporary_resolve : resolve storage_path temporary_text = tmp_path.
Proof.
  apply resolve_name; try done. unfold temporary_text. rewrite !elem_of_app.
  intros [Hin|[Hin|[Hin|[Hin|[Hin|[Hin|Hin]]]]]];
    try (by apply (sdec_no_slash _ Hin)); try (by apply (dec_no_slash _ Hin));
    revert Hin; by apply strchr_None.
Qed.

Lemma dest_not_tmp : dest_path ≠ tmp_path.
Proof.
  intros [= E]. destruct Hname as (_ & _ & (c & t & Et & Hc) & _). fold name in Et. rewrite Et in E.
  injection E as -> _. destruct Hc as [Hc|Hc]; by vm_compute in Hc.
Qed.

Lemma fuel0 en : env_le en en0 -> fuel_ok F en.
Proof. intros. eapply fuel_ok_le; [done|]. by apply stream_fuel_ok. Qed.

Lemma sock_open : k_fds k !! sock = Some FdSocket.
Proof. destruct Hreg as (i & e & Hi & Ha & <-). by eapply Hso. Qed.

(** ** Leaving *)

(** After the cleanup: nothing is left open or locked, and the temporary
    name is gone unless a call failed. *)
Record left_clean (temporary : option bytes) (en en' : env) (v v' : view) : Prop := {
  lc_good : good en' v';
  lc_extra : v_extra v' = ∅;
  lc_locks : v_locks v' ⊆ k_locks k;
  lc_inodes : v_inodes v' = v_inodes v;
  lc_out : v_out v' = v_out v;
  lc_in : v_in v' = v_in v;
  lc_tree : v_tree v' = v_tree v /\ (temporary = None \/ env_lt en' en0) \/
            temporary = Some temporary_text /\ v_tree v' = delete tmp_path (v_tree v)
}.

Lemma wp_remove_temporary {A} storage_fd temporary (g : unit -> prog server A) Q en v :
  good en v -> storage_fd = -1 \/ 0 <= storage_fd /\ v_extra v !! storage_fd = Some (FdDir storage_path) ->
  temporary = None \/ 0 <= storage_fd /\ temporary = Some temporary_text /\ v_tree v !! tmp_path ≠ Some NDir ->
  (forall en' v', env_le en' en -> good en' v' ->
     v' = v /\ (temporary = None \/ env_lt en' en0) \/
     temporary = Some temporary_text /\ v' = set_tree (delete tmp_path (v_tree v)) v ->
     wp (g tt) Q (W en' (see v'))) ->
  wp (upload_remove_temporary u storage_fd temporary ≫= g) Q (W en (see v)).
Proof.
  intros Hg Hs Htmp HQ. apply wp_bind. unfold upload_remove_temporary. pose proof Hg as (_ & Hle0 & _).
  destruct Htmp as [->|(H0 & -> & Hnd)]; [apply wp_ret, HQ; [env_lia|done|left; auto]|].
  rewrite (proj2 (Z.leb_le 0 _)) by done. destruct Hs as [->|[_ Hs]]; [lia|].
  eapply wp_unlinkat; [by apply see_extra|apply temporary_resolve|..].
  - intros en1 nd Hle1 _ _. apply wp_errno. cbn [Z.eqb negb andb]. apply wp_ret.
    rewrite see_with_tree. apply (HQ en1 (set_tree (delete tmp_path (v_tree v)) v)); [done|by eapply (good_le _ _ en)|by right].
  - intros en1 Hle1 [Hlt|[[Hn He]|?]]; [| |done]; apply wp_errno; cbn [Z.eqb negb andb].
    + case_if; [apply wp_log_errno_last; intros en2 Hle2; apply HQ; [env_lia|eapply good_le; [|done]; env_lia|]|
                apply wp_ret, HQ; [env_lia|by eapply good_le|]]; left; (split; [done|right; env_lia]).
    + rewrite He. cbn [Z.eqb negb]. apply wp_ret, HQ; [done|by eapply good_le|]. right. split; [done|].
      simpl in Hn. fold tmp_path in Hn. rewrite delete_id by done. by destruct v.
Qed.

Lemma wp_upload_cleanup storage_fd file_fd temporary timer result Q en v :
  good en v -> holds storage_fd file_fd v ->
  temporary = None \/ 0 <= storage_fd /\ temporary = Some temporary_text /\ v_tree v !! tmp_path ≠ Some NDir ->
  (forall en' v', env_le en' en -> left_clean temporary en en' v v' -> Q result (W en' (see v'))) ->
  wp (upload_cleanup F u storage_fd file_fd temporary timer result) Q (W en (see v)).
Proof.
  intros Hg Hh Htmp HQ. unfold upload_cleanup. apply wp_bind, wp_upload_abort_report. intros en1 Hle1.
  eapply wp_close_opt; [by eapply good_le| |].
  { destruct Hh as (_ & _ & [?|(? & _ & _ & ?)] & _); [by left|by right]. }
  intros en2 Hle2 Hg2. apply holds_close_file in Hh. set (v2 := close_opt file_fd v) in *.
  assert (Hv2 : v_tree v2 = v_tree v /\ v_inodes v2 = v_inodes v /\ v_out v2 = v_out v /\ v_in v2 = v_in v)
    by (unfold v2, close_opt; by case_if).
  destruct Hv2 as (T2 & I2 & O2 & N2).
  apply wp_remove_temporary; [done|apply Hh|by rewrite T2|].
  intros en3 v3 Hle3 Hg3 Hv3.
  assert (Hv3' : v_extra v3 = v_extra v2 /\ v_locks v3 = v_locks v2 /\ v_inodes v3 = v_inodes v /\ v_out v3 = v_out v /\ v_in v3 = v_in v)
    by (destruct Hv3 as [[-> _]|[_ ->]]; done).
  destruct Hv3' as (X3 & L3 & I3 & O3 & N3).
  assert (Hh3 : holds storage_fd (-1) v3) by (unfold holds; rewrite X3, L3; exact Hh).
  eapply wp_close_opt; [done| |].
  { destruct Hh3 as (_ & [?|[? Hs]] & _); [by left|right; rewrite Hs; eauto]. }
  intros en4 Hle4 Hg4. apply holds_close_storage in Hh3. set (v4 := close_opt storage_fd v3) in *.
  assert (Hv4 : v_tree v4 = v_tree v3 /\ v_inodes v4 = v_inodes v3 /\ v_out v4 = v_out v3 /\ v_in v4 = v_in v3)
    by (unfold v4, close_opt; by case_if).
  destruct Hv4 as (T4 & I4 & O4 & N4). destruct Hh3 as ((ino & Hl) & _ & _ & Hx & Hlk).
  eapply wp_release_lock; [done|apply fuel0; done|done|done| |done|].
  { intros fd [d Hd]. destruct (Hx fd ltac:(by eexists)) as [?|[[? _]|[? _]]]; [done|lia|lia]. }
  intros en5 locks Hle5 Hlocks Hg5. apply HQ; [env_lia|]. split; try done; simpl; try congruence.
  rewrite T4. destruct Hv3 as [[-> Hwhy]|[-> ->]].
  - left. split; [done|]. destruct Hwhy; [by left|right; env_lia].
  - right. split; [done|]. simpl. by rewrite T2.
Qed.

(** ** Receiving *)

(** The view [v] with [n] bytes received and [d] in the temporary file,
    inode [ino], open as [fd] (the file mode is [mode]). *)
Definition tmp_view (v : view) (fd : Z) (ino : positive) (mode : Z) (d : bytes) (n : nat) : view :=
  add_in n (set_extra (<[fd := FdFile ino (length d) create_flags]> (v_extra v))
    (set_inodes (<[ino := mk_inode d mode]> (v_inodes v)) v)).

Section receiving.
Context (v : view) (fd : Z) (ino : positive) (mode : Z).

Lemma tmp_view_fd d n : k_fds (see (tmp_view v fd ino mode d n)) !! fd = Some (FdFile ino (length d) create_flags).
Proof. apply see_extra. simpl. apply lookup_insert_eq. Qed.

Lemma tmp_view_appendable d n : appendable (see (tmp_view v fd ino mode d n)) fd.
Proof.
  exists ino, (length d), create_flags, (mk_inode d mode).
  split_and!; [apply tmp_view_fd|simpl; apply lookup_insert_eq|done|by right].
Qed.

Lemma tmp_view_write s d n : file_app fd s (see (tmp_view v fd ino mode d n)) = see (tmp_view v fd ino mode (d ++ s) n).
Proof.
  unfold file_app. rewrite tmp_view_fd. destruct s as [|b s]; [by rewrite app_nil_r|].
  simpl k_inodes at 1. rewrite lookup_insert_eq. unfold Store.see, with_fds, with_inodes. simpl.
  by rewrite insert_union_l, !insert_insert_eq.
Qed.

Lemma tmp_view_recv d n m : received_in sock m (see (tmp_view v fd ino mode d n)) = see (tmp_view v fd ino mode d (n + m)).
Proof. unfold received_in, Store.see, with_in. simpl. by rewrite drop_stream_drop, <- Nat.add_assoc. Qed.

Lemma good_tmp_view en d n mode' d' n' : good en (tmp_view v fd ino mode d n) -> good en (tmp_view v fd ino mode' d' n').
Proof.
  intros (Hx & Hle & Hh). split_and!; [|done|done]. simpl in *.
  apply map_disjoint_insert_l in Hx as [? ?]. by apply map_disjoint_insert_l.
Qed.

(** The loop takes exactly the promised bytes off the stream, also after a
    failed write, and stores them all unless a write failed. *)
Lemma wp_upload_receive_loop fuel steps d n remaining failed Q en :
  let rest := drop (v_in v + n) input in
  good en (tmp_view v fd ino mode d n) ->
  0 <= remaining -> remaining <= FILE_CHUNK_SIZE * Z.of_nat steps -> (steps < fuel)%nat ->
  (forall en' failed' d', env_le en' en -> remaining <= zlen rest ->
     (failed' = false /\ failed = false /\ d' = d ++ take (Z.to_nat remaining) rest \/
      failed' = true /\ (failed = true \/ env_lt en' en)) ->
     Q (Some failed') (W en' (see (tmp_view v fd ino mode d' (n + Z.to_nat remaining))))) ->
  (forall en' d' m, env_le en' en -> Z.of_nat m < remaining -> (m <= length rest)%nat ->
     (zlen rest < remaining \/ env_lt en' en) ->
     Q None (W en' (see (tmp_view v fd ino mode d' (n + m))))) ->
  wp (upload_receive_loop F fuel u fd remaining failed) Q (W en (see (tmp_view v fd ino mode d n))).
Proof.
  revert steps d n remaining failed en. induction fuel as [|fuel IH]; intros steps d n remaining failed en rest Hg H0 Hst Hfuel Hok Hko;
    [lia|]. cbn [upload_receive_loop]. case_if.
  2:{ apply wp_ret. assert (remaining = 0) as -> by lia. specialize (Hok en failed d ltac:(env_lia)).
      change (Z.to_nat 0) with 0%nat in Hok. rewrite Nat.add_0_r in Hok. apply Hok; [apply zlen_nonneg|].
      rewrite take_0, app_nil_r. destruct failed; auto. }
  set (chunk := if FILE_CHUNK_SIZE <? remaining then FILE_CHUNK_SIZE else remaining).
  assert (Hchunk : 0 < chunk <= remaining /\ (chunk = FILE_CHUNK_SIZE \/ chunk = remaining)).
  { unfold chunk, FILE_CHUNK_SIZE in *. case_if; lia. }
  assert (Hst1 : stream (k_in (see (tmp_view v fd ino mode d n))) sock = rest) by (simpl; by rewrite stream_drop_eq).
  pose proof Hg as (Hx & Hle0 & _).
  change (u_socket u) with sock.
  apply wp_bind, wp_recv_all; [apply (see_fd _ _ en0); [right; apply Hx|apply sock_open]|lia|by apply fuel0|..]; rewrite Hst1.
  2:{ intros en1 r m Hle1 Hm Hm' Hwhy. assert (Hr : (r != 0) = true) by (destruct Hwhy as [[-> _]|[[-> | ->] _]]; done).
      rewrite Hr. apply wp_log. intros en2 Hle2. apply wp_ret. rewrite tmp_view_recv.
      apply Hko; [env_lia|lia|done|]. destruct Hwhy as [[_ ->]|[_ ?]]; [left; unfold zlen; lia|right; env_lia]. }
  intros en1 Hle1 Hlen. cbn [negb Z.eqb]. rewrite tmp_view_recv.
  assert (Hnext : forall en2 failed2 d2, env_le en2 en1 ->
    (failed2 = false /\ failed = false /\ d2 = d ++ take (Z.to_nat chunk) rest \/
     failed2 = true /\ (failed = true \/ env_lt en2 en)) ->
    wp (upload_receive_loop F fuel u fd (remaining - chunk) failed2) Q (W en2 (see (tmp_view v fd ino mode d2 (n + Z.to_nat chunk))))).
  { intros en2 failed2 d2 Hle2 Hf2.
    assert (Hrest : drop (v_in v + (n + Z.to_nat chunk)) input = drop (Z.to_nat chunk) rest)
      by (unfold rest; rewrite drop_drop; f_equal; lia).
    eapply (IH (pred steps)); rewrite ?Hrest.
    - eapply good_tmp_view, good_le; [|done]. env_lia.
    - lia.
    - unfold FILE_CHUNK_SIZE in *. destruct steps; lia.
    - unfold FILE_CHUNK_SIZE in *. destruct steps; lia.
    - intros en3 failed3 d3 Hle3 Hl3 Hf3.
      replace (n + Z.to_nat chunk + Z.to_nat (remaining - chunk))%nat with (n + Z.to_nat remaining)%nat by lia.
      unfold zlen in *. rewrite length_drop in Hl3. apply Hok; [env_lia|lia|].
      destruct Hf3 as [(-> & -> & ->)|[-> Hf3]].
      + destruct Hf2 as [(_ & -> & ->)|[? _]]; [|done]. left. split_and!; [done|done|].
        rewrite <- app_assoc, take_add_drop. do 2 f_equal. lia.
      + right. split; [done|]. destruct Hf2 as [(-> & _)|[_ [?|?]]]; [|by left|right; env_lia].
        destruct Hf3 as [?|?]; [done|right; env_lia].
    - intros en3 d3 m Hle3 Hm Hm' Hwhy. rewrite <- Nat.add_assoc. unfold zlen in *. rewrite length_drop in Hm', Hwhy.
      apply Hko; [env_lia|lia|lia|]. destruct Hwhy; [left; lia|right; env_lia]. }
  destruct failed; cbn [negb].
  { apply wp_bind, wp_ret, Hnext; [done|right; auto]. }
  apply wp_bind, wp_bind, wp_write_all; [apply tmp_view_appendable|apply fuel0; env_lia|..].
  - intros en2 Hle2. cbn [negb Z.eqb]. apply wp_ret. rewrite tmp_view_write. apply Hnext; [done|left; auto].
  - intros en2 m Hlt2 _. cbn [negb Z.eqb]. apply wp_log_errno. intros en3 Hle3. apply wp_ret. rewrite tmp_view_write.
    apply Hnext; [env_lia|right]. split; [done|right; env_lia].
Qed.
End receiving.

(** ** The outcome *)

Definition ready_frame : bytes := frame MSG_RESPONSE (B "UPLOAD_READY").
Definition success_frame : bytes := frame MSG_RESPONSE (B "UPLOAD_SUCCESS " ++ name ++ B " " ++ dec size).

(** The store, besides the temporary name: nothing is lost or overwritten. *)
Record store_view (v : view) : Prop := {
  sv_kept : forall p nd, k_tree k !! p = Some nd -> p ≠ tmp_path -> v_tree v !! p = Some nd;
  sv_new : forall p, k_tree k !! p = None -> is_Some (v_tree v !! p) ->
    p = storage_path \/ lock_file name p \/ p = tmp_path \/ p = dest_path;
  sv_data : forall ino i, k_inodes k !! ino = Some i -> v_inodes v !! ino = Some i;
  sv_storage : v_tree v !! storage_path = Some NDir
}.

Definition unpublished (v : view) : Prop := v_tree v !! dest_path = k_tree k !! dest_path.

(** The name is new, and is a file with exactly the bytes of the client. *)
Definition published (v : view) : Prop :=
  k_tree k !! dest_path = None /\ size <= zlen input /\
  exists ino mode, k_inodes k !! ino = None /\ v_tree v !! dest_path = Some (NReg ino) /\
    v_inodes v !! ino = Some (mk_inode (take (Z.to_nat size) input) mode).

(** The upload can succeed. *)
Definition upload_possible : Prop :=
  storage_usable (k_tree k) /\ lock_usable name k /\ k_tree k !! dest_path = None /\ k_tree k !! tmp_path ≠ Some NDir /\
  zlen temporary_text < FILE_NAME_MAX_SIZE /\ size <= zlen input.

Definition no_success (en : env) : Prop := env_lt en en0 \/ ~ upload_possible.

(** The client's stream is between two messages. *)
Definition aligned (v : view) : Prop :=
  (exists m, v_out v = frame MSG_ERROR m /\ v_in v = 0%nat) \/
  (exists t m, v_out v = ready_frame ++ frame t m /\ v_in v = Z.to_nat size).

Definition success (r : Z) (v : view) : Prop :=
  r = 0 /\ published v /\ v_out v = ready_frame ++ success_frame /\ v_in v = Z.to_nat size.

Record upload_end (r : Z) (en : env) (v : view) : Prop := {
  ue_good : good en v;
  ue_extra : v_extra v = ∅;
  ue_locks : v_locks v ⊆ k_locks k;
  ue_store : store_view v;
  ue_dest : unpublished v \/ published v;
  ue_tmp : v_tree v !! tmp_path = None \/ env_lt en en0 \/ v_tree v !! tmp_path = k_tree k !! tmp_path;
  ue_result : r = 0 /\ aligned v \/ r = -1;
  ue_outcome : success r v \/ no_success en
}.

Definition ended (r : Z) (w : world server) : Prop := exists en v, w = W en (see v) /\ upload_end r en v.

(** The paths that concern an upload are different. *)
Lemma tmp_not_storage : tmp_path ≠ storage_path.
Proof. done. Qed.
Lemma dest_not_storage : dest_path ≠ storage_path.
Proof. done. Qed.

Lemma store_view_delete_tmp v : store_view v -> store_view (set_tree (delete tmp_path (v_tree v)) v).
Proof.
  intros [K N D St]. split; simpl; [| |done|].
  - intros p nd Hp Hne. rewrite lookup_delete_ne by done. by apply K.
  - intros p Hp [nd Hnd]. apply lookup_delete_Some in Hnd as [_ Hnd]. apply N; [done|by eexists].
  - by rewrite lookup_delete_ne by (intros E; by apply tmp_not_storage).
Qed.

Lemma dest_delete_tmp (t : gmap path node) : delete tmp_path t !! dest_path = t !! dest_path.
Proof. apply lookup_delete_ne. intros E. by apply dest_not_tmp. Qed.

Lemma published_delete_tmp v : published v -> published (set_tree (delete tmp_path (v_tree v)) v).
Proof.
  intros (P1 & P2 & i & m & P3 & P4 & P5). split_and!; [done|done|]. exists i, m. simpl. by rewrite dest_delete_tmp.
Qed.

Lemma store_view_same v v' :
  v_tree v' = v_tree v -> v_inodes v' = v_inodes v -> store_view v -> store_view v'.
Proof. intros Ht Hi [K N D St]. split; by rewrite ?Ht, ?Hi. Qed.

(** What the cleanup needs to know of the temporary name. *)
Definition tmp_known (storage_fd : Z) (temporary : option bytes) (en : env) (v : view) : Prop :=
  temporary = None /\ (v_tree v !! tmp_path = None \/ env_lt en en0 \/ v_tree v !! tmp_path = k_tree k !! tmp_path) \/
  0 <= storage_fd /\ temporary = Some temporary_text /\ v_tree v !! tmp_path ≠ Some NDir.

(** The state of the handler when it goes to the cleanup. *)
Record leaving (storage_fd file_fd : Z) (temporary : option bytes) (en : env) (v : view) : Prop := {
  lv_good : good en v;
  lv_holds : holds storage_fd file_fd v;
  lv_tmp : tmp_known storage_fd temporary en v;
  lv_store : store_view v;
  lv_dest : unpublished v \/ published v
}.

Lemma wp_end_cleanup storage_fd file_fd temporary timer r en v :
  leaving storage_fd file_fd temporary en v ->
  r = 0 /\ aligned v \/ r = -1 -> success r v \/ no_success en ->
  wp (upload_cleanup F u storage_fd file_fd temporary timer r) ended (W en (see v)).
Proof.
  intros [Hg Hh Ht Hs Hd] Hr Ho. apply wp_upload_cleanup; [done|done| |].
  { destruct Ht as [[-> _]|?]; [by left|by right]. }
  intros en' v' Hle [G X L I O N T]. exists en', v'. split; [done|].
  assert (Hcases : v_tree v' = v_tree v /\ (temporary = None \/ env_lt en' en0) \/ v_tree v' = delete tmp_path (v_tree v))
    by (destruct T as [?|[_ ?]]; auto).
  assert (Hdest : v_tree v' !! dest_path = v_tree v !! dest_path)
    by (destruct Hcases as [[-> _]| ->]; [done|apply dest_delete_tmp]).
  assert (Hpub : published v -> published v').
  { intros (P1 & P2 & ino & mode & P3 & P4 & P5). split_and!; [done|done|]. exists ino, mode.
    by rewrite Hdest, I. }
  split; try done.
  - destruct Hcases as [[E _]|E]; [by eapply store_view_same|].
    eapply (store_view_same (set_tree (delete tmp_path (v_tree v)) v)); [done|done|by apply store_view_delete_tmp].
  - unfold unpublished. rewrite Hdest. destruct Hd; [by left|right; auto].
  - destruct Hcases as [[E Hwhy]|E]; [|left; rewrite E; apply lookup_delete_eq].
    rewrite E. destruct Hwhy as [->|?]; [|auto]. destruct Ht as [[_ [?|[?|?]]]|(_ & ? & _)]; [auto|right; left; env_lia|auto|done].
  - unfold aligned in *. rewrite O, N. exact Hr.
  - unfold success, no_success in *. rewrite O, N. destruct Ho as [(-> & ? & ?)|[?|?]]; [left; auto|right; left; env_lia|by right; right].
Qed.

Lemma leaving_add storage_fd file_fd temporary en en' h out v :
  env_le en' en -> good en' (set_held h (add_out out v)) ->
  leaving storage_fd file_fd temporary en v -> leaving storage_fd file_fd temporary en' (set_held h (add_out out v)).
Proof.
  intros Hle Hg [_ Hh Ht Hs Hd]. split; [done|done| |by apply (store_view_same v)|done].
  destruct Ht as [[-> [?|[?|?]]]|?]; [left; auto|left; split; [done|right; left; env_lia]|left; auto|by right].
Qed.

(** The handler refuses the upload: an error message, then the cleanup. *)
Lemma wp_refuse storage_fd file_fd temporary timer m en v :
  leaving storage_fd file_fd temporary en v -> no_success en -> strlen m <= MESSAGE_MAX_SIZE ->
  v_out v = [] /\ v_in v = 0%nat \/ v_out v = ready_frame /\ v_in v = Z.to_nat size ->
  wp (result ← send_error F sock m; upload_cleanup F u storage_fd file_fd temporary timer result) ended (W en (see v)).
Proof.
  intros Hlv Hno Hm Hphase. pose proof (lv_good _ _ _ _ _ Hlv) as Hg. pose proof Hg as (_ & Hle0 & _).
  eapply wp_send_error; [exact Hso|done|by apply stream_fuel_ok|done|done|].
  intros en1 h r out Hle1 Hg1 Hd. apply wp_end_cleanup; [by eapply leaving_add| |].
  - destruct Hd as [[-> ->]|[-> _]]; [left|by right]. split; [done|]. simpl.
    destruct Hphase as [[E1 E2]|[E1 E2]]; [left; exists m|right; exists MSG_ERROR, m]; simpl; by rewrite E1, E2.
  - right. destruct Hno as [?|?]; [left; env_lia|by right].
Qed.

(** ** Publishing *)

(** The temporary file is complete and closed. *)
Record complete_file (storage_fd : Z) (ino : positive) (en : env) (v : view) : Prop := {
  cf_good : good en v;
  cf_storage : 0 <= storage_fd /\ holds storage_fd (-1) v;
  cf_store : store_view v;
  cf_dest : unpublished v;
  cf_tmp : v_tree v !! tmp_path = Some (NReg ino);
  cf_data : exists mode, v_inodes v !! ino = Some (mk_inode (take (Z.to_nat size) input) mode);
  cf_new : k_inodes k !! ino = None /\ size <= zlen input;
  cf_phase : v_out v = ready_frame /\ v_in v = Z.to_nat size
}.

Lemma complete_leaving storage_fd ino en v :
  complete_file storage_fd ino en v -> leaving storage_fd (-1) (Some temporary_text) en v.
Proof. intros [G [H0 Hh] St D T _ _ _]. split; [done|done| |done|by left]. right. split_and!; [done|done|congruence]. Qed.

Lemma complete_file_le storage_fd ino en en' v :
  env_le en' en -> complete_file storage_fd ino en v -> complete_file storage_fd ino en' v.
Proof. intros Hle [G ? ? ? ? ? ? ?]. split; try done. by eapply good_le. Qed.

(** The destination gets its name. *)
Definition linked (ino : positive) (v : view) : view := set_tree (<[dest_path := NReg ino]> (v_tree v)) v.

Lemma linked_published storage_fd ino en v :
  complete_file storage_fd ino en v -> v_tree v !! dest_path = None -> published (linked ino v).
Proof.
  intros [_ _ _ D _ [mode Hd] [Hn Hl] _] Hnone. split_and!; [by rewrite <- D|done|].
  exists ino, mode. split_and!; [done|simpl; apply lookup_insert_eq|done].
Qed.

Lemma linked_store storage_fd ino en v :
  complete_file storage_fd ino en v -> v_tree v !! dest_path = None -> store_view (linked ino v).
Proof.
  intros [_ _ [K N Da St] D _ _ _ _] Hnone. split; simpl; [| |done|].
  - intros p nd Hp Hne. rewrite lookup_insert_ne; [by apply K|]. intros <-. rewrite <- D in Hp. congruence.
  - intros p Hp [nd Hnd]. apply lookup_insert_Some in Hnd as [[<- _]|[_ Hnd]]; [auto|]. apply N; [done|by eexists].
  - by rewrite lookup_insert_ne by (intros E; by apply dest_not_storage).
Qed.

Lemma success_text_fits : zlen (B "UPLOAD_SUCCESS " ++ name ++ B " " ++ dec size) < FILE_NAME_MAX_SIZE + 64.
Proof.
  rewrite !zlen_app. change (zlen (B "UPLOAD_SUCCESS ")) with 15. change (zlen (B " ")) with 1.
  destruct Hname as [Hl _]. pose proof (dec_length size 7) as Hd. unfold FILE_MAX_SIZE, FILE_NAME_MAX_SIZE in *.
  assert (10 ^ Z.of_nat 8 = 100000000) as E by reflexivity. rewrite E in Hd. lia.
Qed.

(** From the published file on: the answer, and the cleanup. *)
Lemma wp_upload_success storage_fd temporary en v :
  leaving storage_fd (-1) temporary en v -> published v ->
  v_out v = ready_frame /\ v_in v = Z.to_nat size ->
  wp (match sprintf_fit (FILE_NAME_MAX_SIZE + 64) (B "UPLOAD_SUCCESS " ++ name ++ B " " ++ dec size) with
      | None => upload_cleanup F u storage_fd (-1) temporary None (-1)
      | Some response =>
          r ← client_manager_send F sock MSG_RESPONSE (Some response);
          if r != 0 then
            _ ← log LOG_WARN FILE_MANAGER (B "Upload stored but success response failed username=" ++ u_username u
                  ++ B " filename=" ++ name);
            upload_cleanup F u storage_fd (-1) temporary None (-1)
          else
            _ ← log LOG_INFO FILE_MANAGER (B "Upload success username=" ++ u_username u ++ B " filename=" ++ name
                  ++ B " size=" ++ dec size);
            upload_cleanup F u storage_fd (-1) temporary None 0
      end) ended (W en (see v)).
Proof.
  intros Hlv Hpub [Ho Hi]. pose proof (lv_good _ _ _ _ _ Hlv) as Hg. pose proof Hg as (_ & Hle0 & _).
  rewrite sprintf_fit_ok by apply success_text_fits.
  assert (Hs : sendable MSG_RESPONSE (B "UPLOAD_SUCCESS " ++ name ++ B " " ++ dec size)).
  { split; [done|]. pose proof success_text_fits. unfold FILE_NAME_MAX_SIZE, MESSAGE_MAX_SIZE, strlen in *. lia. }
  eapply wp_reply; [exact Hso|done|by apply stream_fuel_ok|done|done|].
  intros en1 h r out Hle1 Hg1 Hd. destruct Hd as [[-> ->]|(-> & Hlt & _)]; cbn [negb Z.eqb]; apply wp_log; intros en2 Hle2.
  - apply wp_end_cleanup; [eapply leaving_add; [| |done]; [env_lia|by eapply good_le]| |].
    + left. split; [done|]. right. exists MSG_RESPONSE. eexists. simpl. by rewrite Ho, Hi.
    + left. split_and!; [done|done|by simpl; rewrite Ho|done].
  - apply wp_end_cleanup; [eapply leaving_add; [| |done]; [env_lia|by eapply good_le]|by right|]. right. left. env_lia.
Qed.

Lemma wp_upload_publish storage_fd ino en v :
  complete_file storage_fd ino en v ->
  wp (upload_publish F u storage_fd temporary_text) ended (W en (see v)).
Proof.
  intros Hc. pose proof Hc as [G [H0 Hh] St D T Da [Hn Hl] Hphase]. pose proof G as (_ & Hle0 & _).
  unfold upload_publish. change (u_filename u) with name. change (u_size u) with size. change (u_socket u) with sock.
  assert (Hdir : v_extra v !! storage_fd = Some (FdDir storage_path)) by (destruct Hh as (_ & [?|[_ ?]] & _); [lia|done]).
  assert (Hfail : forall en1, env_le en1 en -> no_success en1 ->
    wp (saved_errno ← call Errno;
        if saved_errno == EEXIST then
          result ← send_error F sock (B "FILE_ALREADY_EXISTS");
          upload_cleanup F u storage_fd (-1) (Some temporary_text) None result
        else
          _ ← log LOG_ERROR FILE_MANAGER (B "Upload finalize failed filename=" ++ name ++ B " error=" ++ strerror saved_errno);
          result ← send_error F sock (B "UPLOAD_FINALIZE_FAILED");
          upload_cleanup F u storage_fd (-1) (Some temporary_text) None result) ended (W en1 (see v))).
  { intros en1 Hle1 Hno. apply wp_errno. case_if; [|apply wp_log; intros en2 Hle2].
    - apply wp_refuse; [by eapply complete_leaving, complete_file_le|done|done|by right].
    - apply wp_refuse; [eapply complete_leaving, complete_file_le; [|done]; env_lia| |done|by right].
      destruct Hno; [left; env_lia|by right]. }
  eapply (wp_linkat _ _ _ (see_extra _ _ _ _ _ Hdir) temporary_resolve name ino); [by apply filename_entry|exact (sv_storage _ St)|exact T|..].
  2:{ intros en1 Hle1 Hwhy. cbn [negb Z.eqb]. apply Hfail; [done|]. destruct Hwhy as [?|[[nd Hnd] _]]; [left; env_lia|right].
      intros (_ & _ & Hd & _). rewrite <- D in Hd. simpl in Hnd. unfold dest_path in Hd. congruence. }
  intros en1 Hle1 Hnone. cbn [negb Z.eqb]. rewrite see_with_tree. fold dest_path in Hnone |- *. simpl in Hnone.
  change (set_tree (<[dest_path := NReg ino]> (k_tree (see v))) v) with (linked ino v).
  set (v1 := linked ino v).
  assert (Hlv1 : forall en2, env_le en2 en -> leaving storage_fd (-1) (Some temporary_text) en2 v1).
  { intros en2 Hle2. split; [by eapply good_le|done| |by eapply linked_store|right; by eapply linked_published].
    right. split_and!; [done|done|]. simpl. rewrite lookup_insert_ne by apply dest_not_tmp. congruence. }
  assert (Hpub : published v1) by by eapply linked_published.
  eapply (wp_unlinkat (see v1) storage_fd _ (see_extra sock k v1 storage_fd _ Hdir) temporary_resolve).
  - intros en2 nd Hle2 _ _. cbn [negb Z.eqb]. apply wp_bind, wp_ret. rewrite see_with_tree. fold tmp_path.
    apply wp_upload_success; [|by apply (published_delete_tmp v1)|done].
    split; [eapply good_le; [|exact G]; env_lia|done| |apply (store_view_delete_tmp v1); by eapply linked_store|].
    + left. split; [done|]. left. apply lookup_delete_eq.
    + right. by apply (published_delete_tmp v1).
  - intros en2 Hle2 _. cbn [negb Z.eqb]. apply wp_bind, wp_log_errno. intros en3 Hle3. apply wp_ret.
    apply wp_upload_success; [apply Hlv1; env_lia|done|done].
Qed.

(** ** The transfer *)

(** The temporary file is created and open as [fd]. *)
Record created (storage_fd fd : Z) (ino : positive) (v : view) : Prop := {
  cr_storage : 0 <= storage_fd /\ holds storage_fd fd v;
  cr_fd : 0 <= fd /\ fd ≠ storage_fd;
  cr_store : store_view v;
  cr_dest : unpublished v;
  cr_tmp : v_tree v !! tmp_path = Some (NReg ino);
  cr_new : k_inodes k !! ino = None;
  cr_in : v_in v = 0%nat
}.

Section created.
Context (storage_fd fd : Z) (ino : positive) (v : view).
Hypothesis (Hc : created storage_fd fd ino v).

Lemma created_store mode d n : store_view (tmp_view v fd ino mode d n).
Proof.
  destruct Hc as [_ _ [K N D St] _ _ Hn _]. split; simpl; [done|done| |done].
  intros i x Hi. rewrite lookup_insert_ne; [by apply D|]. intros <-. congruence.
Qed.

Lemma created_fd_not_lock : fd ≠ lock.
Proof.
  destruct Hc as [[_ (_ & _ & [?|(_ & ? & _)] & _)] [? _] _ _ _ _ _]; [lia|done].
Qed.

Lemma created_holds mode d n : holds storage_fd fd (tmp_view v fd ino mode d n).
Proof.
  pose proof created_fd_not_lock as Hne. destruct Hc as [[H0 ((i & Hl) & Hs & _ & Hx & Hlk)] [Hfd Hfs] _ _ _ _ _].
  split_and!; [| | | |done]; simpl.
  - exists i. by rewrite lookup_insert_ne.
  - right. split; [done|]. destruct Hs as [?|[_ ?]]; [lia|]. by rewrite lookup_insert_ne.
  - right. split_and!; [done|done| |by rewrite lookup_insert_eq]. intros ->.
    destruct Hs as [?|[_ Hs]]; [lia|]. congruence.
  - intros f [x Hf]. apply lookup_insert_Some in Hf as [[<- _]|[_ Hf]]; [auto|]. apply Hx. by eexists.
Qed.

Lemma created_leaving en mode d n :
  good en (tmp_view v fd ino mode d n) -> leaving storage_fd fd (Some temporary_text) en (tmp_view v fd ino mode d n).
Proof.
  intros G. split; [done|apply created_holds| |apply created_store|left; exact (cr_dest _ _ _ _ Hc)].
  right. split_and!; [apply Hc|done|]. simpl. pose proof (cr_tmp _ _ _ _ Hc). congruence.
Qed.

(** After [close(file_fd)]. *)
Definition closed_view mode d n : view := close_extra fd (tmp_view v fd ino mode d n).

Lemma closed_holds mode d n : holds storage_fd (-1) (closed_view mode d n).
Proof.
  pose proof (holds_close_file _ _ _ _ _ (created_holds mode d n)) as Hh. unfold close_opt in Hh.
  rewrite (proj2 (Z.leb_le 0 fd)) in Hh; [done|]. apply Hc.
Qed.

Lemma closed_leaving en mode d n :
  good en (tmp_view v fd ino mode d n) -> leaving storage_fd (-1) (Some temporary_text) en (closed_view mode d n).
Proof.
  intros G. split; [by apply good_close|apply closed_holds| | |left; exact (cr_dest _ _ _ _ Hc)].
  - right. split_and!; [apply Hc|done|]. simpl. pose proof (cr_tmp _ _ _ _ Hc). congruence.
  - apply (store_view_same (tmp_view v fd ino mode d n)); [done|done|apply created_store].
Qed.

Lemma closed_complete en mode :
  good en (tmp_view v fd ino mode (take (Z.to_nat size) input) (Z.to_nat size)) -> size <= zlen input ->
  v_out v = ready_frame ->
  complete_file storage_fd ino en (closed_view mode (take (Z.to_nat size) input) (Z.to_nat size)).
Proof.
  intros G Hl Ho. pose proof (closed_leaving en mode _ _ G) as [G' Hh _ Hs _].
  split; [done|split; [apply Hc|done]|done|exact (cr_dest _ _ _ _ Hc)|exact (cr_tmp _ _ _ _ Hc)| | |].
  - exists mode. simpl. apply lookup_insert_eq.
  - split; [exact (cr_new _ _ _ _ Hc)|done].
  - split; [done|]. simpl. by rewrite (cr_in _ _ _ _ Hc).
Qed.
End created.

(** The last calls on the file, each skipped after a failure. *)
Lemma wp_finish_file storage_fd fd ino v d failed en :
  created storage_fd fd ino v -> good en (tmp_view v fd ino MODE_0600 d (Z.to_nat size)) ->
  v_out v = ready_frame -> size <= zlen input ->
  (failed = false /\ d = take (Z.to_nat size) input \/ failed = true /\ no_success en) ->
  wp (write_failed ← (if failed then mret true else r ← call (Fsync fd); mret (r != 0));
      write_failed ← (if write_failed : bool then mret true else r ← call (Fchmod fd MODE_0644); mret (r != 0));
      r ← call (Close fd);
      if (write_failed || (r != 0)) then
        result ← send_error F sock (B "UPLOAD_WRITE_FAILED");
        upload_cleanup F u storage_fd (-1) (Some temporary_text) None result
      else upload_publish F u storage_fd temporary_text) ended (W en (see (tmp_view v fd ino MODE_0600 d (Z.to_nat size)))).
Proof.
  intros Hc G Ho Hl Hf. pose proof G as (_ & Hle0 & _).
  assert (Hclose : forall mode failed1 en1, env_le en1 en ->
    (failed1 = false /\ d = take (Z.to_nat size) input \/ failed1 = true /\ no_success en1) ->
    wp (r ← call (Close fd);
        if (failed1 || (r != 0)) then
          result ← send_error F sock (B "UPLOAD_WRITE_FAILED");
          upload_cleanup F u storage_fd (-1) (Some temporary_text) None result
        else upload_publish F u storage_fd temporary_text) ended (W en1 (see (tmp_view v fd ino mode d (Z.to_nat size))))).
  { intros mode failed1 en1 Hle1 Hf1.
    assert (G1 : forall e, env_le e en1 -> good e (tmp_view v fd ino mode d (Z.to_nat size))).
    { intros e He. eapply good_tmp_view, (good_le _ _ en); [|exact G]. env_lia. }
    apply wp_close. intros en2 z Hle2 Hz.
    rewrite (see_close _ _ en0 en2 _ _ (FdFile ino (length d) create_flags)); [|by apply G1|simpl; apply lookup_insert_eq].
    change (close_extra fd (tmp_view v fd ino mode d (Z.to_nat size))) with (closed_view fd ino v mode d (Z.to_nat size)).
    destruct (failed1 || (z != 0)) eqn:E.
    - apply wp_refuse; [eapply closed_leaving; [done|by apply G1]| |done|].
      + destruct Hf1 as [[-> _]|[_ [?|?]]]; [|left; env_lia|by right]. simpl in E. unbool.
        destruct Hz as [?|[_ ?]]; [done|left; env_lia].
      + right. simpl. by rewrite (cr_in _ _ _ _ Hc).
    - apply orb_false_iff in E as [-> _]. destruct Hf1 as [[_ ->]|[? _]]; [|done].
      apply (wp_upload_publish storage_fd ino). apply closed_complete; [done|by apply G1|done|done]. }
  destruct failed.
  { apply wp_bind, wp_ret, wp_bind, wp_ret. apply Hclose; [env_lia|done]. }
  destruct Hf as [[_ Hd]|[? _]]; [|done].
  assert (Hfd : k_fds (see (tmp_view v fd ino MODE_0600 d (Z.to_nat size))) !! fd = Some (FdFile ino (length d) create_flags))
    by apply tmp_view_fd.
  apply wp_bind. eapply wp_fallible; [reflexivity| |].
  { intros en1 Hlt _. cbn [negb Z.eqb]. apply wp_ret, wp_bind, wp_ret, Hclose; [env_lia|right]. split; [done|left; env_lia]. }
  intros en1 lim Hle1 _ _. cbv beta. rewrite bool_decide_eq_true_2 by (rewrite Hfd; by eexists).
  cbn [negb Z.eqb]. apply wp_ret, wp_bind. eapply wp_fallible; [reflexivity| |].
  { intros en2 Hlt _. cbn [negb Z.eqb]. apply wp_ret, Hclose; [env_lia|right]. split; [done|left; env_lia]. }
  intros en2 lim2 Hle2 _ _. cbv beta. unfold fchmod_fd. rewrite Hfd. simpl k_inodes at 1. rewrite lookup_insert_eq.
  cbn [negb Z.eqb]. apply wp_ret.
  assert (Hm : with_inodes (<[ino := mk_inode (i_data (mk_inode d MODE_0600)) MODE_0644]>
                 (k_inodes (see (tmp_view v fd ino MODE_0600 d (Z.to_nat size)))))
               (see (tmp_view v fd ino MODE_0600 d (Z.to_nat size))) = see (tmp_view v fd ino MODE_0644 d (Z.to_nat size))).
  { unfold Store.see, with_inodes. simpl. by rewrite insert_insert_eq. }
  rewrite Hm. apply Hclose; [env_lia|by left].
Qed.

Lemma tmp_view_start v fd ino mode :
  v_extra v !! fd = Some (FdFile ino 0 create_flags) -> v_inodes v !! ino = Some (mk_inode [] mode) ->
  tmp_view v fd ino mode [] 0 = v.
Proof.
  intros Hf Hi. unfold tmp_view, add_in, set_extra, set_inodes. simpl.
  rewrite (insert_id _ _ _ Hf), (insert_id _ _ _ Hi), Nat.add_0_r. by destruct v.
Qed.

Lemma wp_upload_transfer storage_fd fd ino v en :
  created storage_fd fd ino v -> good en v -> v_out v = [] ->
  v_extra v !! fd = Some (FdFile ino 0 create_flags) -> v_inodes v !! ino = Some (mk_inode [] MODE_0600) ->
  wp (upload_transfer F u storage_fd temporary_text fd) ended (W en (see v)).
Proof.
  intros Hc G Ho Hx Hi. pose proof G as (_ & Hle0 & _). unfold upload_transfer.
  change (u_socket u) with sock. change (u_size u) with size.
  eapply wp_reply; [exact Hso|done|by apply stream_fuel_ok|done|done|].
  intros en1 h r out Hle1 G1 Hd. set (v1 := set_held h (add_out out v)) in *.
  assert (Hc1 : created storage_fd fd ino v1) by (destruct Hc as [? ? Hs ? ? ? ?]; split; try done; by apply (store_view_same v)).
  assert (Hv1 : tmp_view v1 fd ino MODE_0600 [] 0 = v1) by by apply tmp_view_start.
  destruct Hd as [[-> ->]|(-> & Hlt & _)]; cbn [negb Z.eqb].
  2:{ rewrite <- Hv1. apply wp_end_cleanup; [apply created_leaving; [done|by rewrite Hv1]|by right|right; left; env_lia]. }
  assert (Ho1 : v_out v1 = ready_frame) by (simpl; by rewrite Ho).
  apply wp_bind, wp_start_transfer_timer. intros en2 timer Hle2. rewrite <- Hv1 at 1.
  apply wp_bind. eapply (wp_upload_receive_loop v1 fd ino MODE_0600 F (Z.to_nat 6400)).
  - rewrite Hv1. by eapply good_le.
  - lia.
  - unfold FILE_CHUNK_SIZE, FILE_MAX_SIZE in *. lia.
  - unfold stream_fuel in HF. lia.
  - intros en3 failed d Hle3 Hl Hf. rewrite Nat.add_0_l, Nat.add_0_r in *. rewrite (cr_in _ _ _ _ Hc1), drop_0 in *.
    apply wp_bind, wp_upload_report. intros en4 Hle4.
    eapply wp_finish_file; [done| |done|done|].
    + eapply (good_tmp_view v1 fd ino MODE_0600 _ [] 0), good_le; [|by rewrite Hv1]. env_lia.
    + destruct Hf as [(-> & _ & ->)|[-> Hf]]; [by left|right]. split; [done|]. destruct Hf as [?|?]; [done|left; env_lia].
  - intros en3 d m Hle3 Hm Hm' Hwhy. rewrite Nat.add_0_l, Nat.add_0_r in *. rewrite (cr_in _ _ _ _ Hc1), drop_0 in *.
    apply wp_end_cleanup; [|by right|].
    + apply created_leaving; [done|]. eapply (good_tmp_view v1 fd ino MODE_0600 _ [] 0), good_le; [|by rewrite Hv1]. env_lia.
    + right. destruct Hwhy as [?|?]; [right|left; env_lia]. intros (_ & _ & _ & _ & _ & ?). lia.
Qed.

(** ** From the held lock *)

(** The state when the lock is held. *)
Record locked (v : view) : Prop := {
  lk_extra : exists ino, v_extra v = {[lock := FdFile ino 0 lock_flags]};
  lk_locks : forall l, l ∈ v_locks v -> l.1.2 ≠ lock -> l ∈ k_locks k;
  lk_store : store_view v;
  lk_dest : v_tree v !! dest_path = k_tree k !! dest_path;
  lk_tmp : v_tree v !! tmp_path = k_tree k !! tmp_path;
  lk_phase : v_out v = [] /\ v_in v = 0%nat
}.

(** With the storage directory open as [sfd]. *)
Definition with_storage (sfd : Z) (v : view) : view := set_extra (<[sfd := FdDir storage_path]> (v_extra v)) v.

Lemma locked_holds v : locked v -> holds (-1) (-1) v.
Proof.
  intros [(ino & Hx) Hl _ _ _ _]. split_and!; [exists ino; by rewrite Hx, lookup_singleton_eq|by left|by left| |done].
  intros fd [d Hd]. rewrite Hx in Hd. apply lookup_singleton_Some in Hd as [? _]. auto.
Qed.

Lemma locked_leaving en v : good en v -> locked v -> leaving (-1) (-1) None en v.
Proof.
  intros G L. split; [done|by apply locked_holds| |apply L|left; apply L]. left. split; [done|]. right. right. apply L.
Qed.

Lemma storage_leaving en v sfd :
  good en (with_storage sfd v) -> 0 <= sfd -> sfd ≠ lock -> locked v -> leaving sfd (-1) None en (with_storage sfd v).
Proof.
  intros G H0 Hne L. pose proof (locked_holds _ L) as ((ino & Hl) & _ & _ & Hx & Hlk).
  split; [done| | |apply (store_view_same v); [done|done|apply L]|left; apply L].
  - split_and!; simpl; [exists ino; by rewrite lookup_insert_ne|right; split; [done|apply lookup_insert_eq]|by left| |done].
    intros fd [d Hd]. apply lookup_insert_Some in Hd as [[<- _]|[_ Hd]]; [auto|].
    destruct (Hx fd ltac:(by eexists)) as [?|[[? _]|[? _]]]; [auto|lia|lia].
  - left. split; [done|]. right. right. apply L.
Qed.

(** [build_upload_temp_name] fills the buffer with [temporary_text]. *)
Lemma wp_build_temp_name {A} (g : option bytes -> prog server A) Q en v :
  (zlen temporary_text < FILE_NAME_MAX_SIZE -> wp (g (Some temporary_text)) Q (W en (see v))) ->
  (FILE_NAME_MAX_SIZE <= zlen temporary_text -> forall en', env_le en' en -> wp (g None) Q (W en' (see v))) ->
  wp (build_upload_temp_name sock FILE_NAME_MAX_SIZE ≫= g) Q (W en (see v)).
Proof.
  intros Hok Hko. apply wp_bind. unfold build_upload_temp_name. apply wp_getpid, wp_self.
  simpl k_pid. simpl k_self. fold temporary_text.
  destruct (Z.lt_ge_cases (zlen temporary_text) FILE_NAME_MAX_SIZE) as [Hl|Hl].
  - rewrite sprintf_fit_ok by done. apply wp_ret, Hok, Hl.
  - destruct (sprintf_fit FILE_NAME_MAX_SIZE temporary_text) eqn:E; [by apply sprintf_fit_Some in E as [_ ?]; lia|].
    apply wp_set_errno, wp_ret, Hko; [done|env_lia].
Qed.

Lemma see_created fd ino v :
  with_fds (<[fd := FdFile ino 0 create_flags]> (k_fds (see v)))
    (with_tree (<[tmp_path := NReg ino]> (k_tree (see v)))
      (with_inodes (<[ino := mk_inode [] MODE_0600]> (k_inodes (see v))) (see v)))
  = see (set_extra (<[fd := FdFile ino 0 create_flags]> (v_extra v))
          (set_tree (<[tmp_path := NReg ino]> (v_tree v)) (set_inodes (<[ino := mk_inode [] MODE_0600]> (v_inodes v)) v))).
Proof. unfold Store.see, with_fds, with_tree, with_inodes. simpl. by rewrite insert_union_l. Qed.

(** The storage directory is open, the temporary name is free unless the
    upload cannot succeed. *)
Lemma wp_create_temporary sfd v en :
  good en v -> 0 <= sfd -> holds sfd (-1) v -> store_view v -> unpublished v ->
  v_tree v !! tmp_path = None \/ v_tree v !! tmp_path = k_tree k !! tmp_path /\ no_success en ->
  v_out v = [] /\ v_in v = 0%nat ->
  wp (file_fd ← call (Openat sfd temporary_text (O_WRONLY ||| O_CREAT ||| O_EXCL ||| O_CLOEXEC ||| O_NOFOLLOW) MODE_0600);
      if file_fd <? 0 then
        _ ← log_errno LOG_ERROR FILE_MANAGER (B "Failed to create upload temp filename=" ++ name ++ B " error=");
        result ← send_error F sock (B "UPLOAD_CREATE_FAILED");
        upload_cleanup F u sfd (-1) None None result
      else upload_transfer F u sfd temporary_text file_fd) ended (W en (see v)).
Proof.
  intros G H0 Hh Hs Hd Ht Hp. pose proof G as (_ & Hle0 & _).
  assert (Hdir : v_extra v !! sfd = Some (FdDir storage_path)) by (destruct Hh as (_ & [?|[_ ?]] & _); [lia|done]).
  eapply (wp_create (see v) sfd _ (see_extra sock k v sfd _ Hdir) temporary_resolve); [exact (sv_storage _ Hs)| |].
  - intros en1 ino Hle1 Hnone Hino fd. pose proof (next_fd_nonneg (k_fds (see v))) as Hfd0. fold fd in Hfd0.
    rewrite (proj2 (Z.ltb_ge fd 0)) by done. fold tmp_path in Hnone |- *. simpl in Hnone, Hino.
    destruct (see_fresh sock k v) as [Hx Hk]. fold fd in Hx, Hk.
    rewrite see_created. set (v1 := set_extra _ _).
    assert (Hnew : k_inodes k !! ino = None).
    { destruct (k_inodes k !! ino) eqn:E; [|done]. apply (sv_data _ Hs) in E. congruence. }
    assert (Hlock : exists i, v_extra v !! lock = Some (FdFile i 0 lock_flags)) by apply Hh.
    eapply (wp_upload_transfer sfd fd ino v1); [| |apply Hp|apply lookup_insert_eq|apply lookup_insert_eq].
    2:{ exact (good_add_fd sock k en0 en1 v (FdFile ino 0 create_flags) (good_le k en0 en en1 v Hle1 G)). }
    split; [split; [done|]| | | | |done|apply Hp].
    + destruct Hh as ((i & Hl) & _ & _ & Hxx & Hlk). split_and!; [| | | |done]; simpl.
      * exists i. rewrite lookup_insert_ne; [done|]. intros E. rewrite E in Hx. congruence.
      * right. split; [done|]. rewrite lookup_insert_ne; [done|]. intros E. rewrite E in Hx. congruence.
      * right. split_and!; [done| | |by rewrite lookup_insert_eq]; intros E; rewrite E in Hx; congruence.
      * intros f [x Hf]. apply lookup_insert_Some in Hf as [[<- _]|[_ Hf]]; [auto|].
        destruct (Hxx f ltac:(by eexists)) as [?|[?|[? _]]]; [auto|auto|lia].
    + split; [done|]. intros E. rewrite E in Hx. congruence.
    + destruct Hs as [K N Da St]. split; simpl.
      * intros p nd Hp' Hne. rewrite lookup_insert_ne; [by apply K|]. by intros <-.
      * intros p Hp' [nd Hnd]. apply lookup_insert_Some in Hnd as [[<- _]|[_ Hnd]]; [auto|]. apply N; [done|by eexists].
      * intros i x Hi. rewrite lookup_insert_ne; [by apply Da|]. intros <-. congruence.
      * by rewrite lookup_insert_ne.
    + unfold unpublished. simpl. rewrite lookup_insert_ne; [done|]. intros E. by apply dest_not_tmp.
    + simpl. apply lookup_insert_eq.
  - intros en1 Hle1 Hwhy. cbn [Z.ltb Z.compare]. fold tmp_path in Hwhy. simpl in Hwhy.
    assert (Hno : no_success en1).
    { destruct Hwhy as [?|[? ?]]; [left; env_lia|]. destruct Ht as [?|[_ [?|?]]]; [congruence|left; env_lia|by right]. }
    apply wp_log_errno. intros en2 Hle2. apply wp_refuse; [|destruct Hno; [left; env_lia|by right]|done|by left].
    split; [by eapply good_le; [|done]; env_lia|done| |done|by left]. left. split; [done|].
    destruct Ht as [?|[? _]]; auto.
Qed.

Lemma wp_upload_prepare v en :
  good en v -> locked v -> wp (upload_prepare F u) ended (W en (see v)).
Proof.
  intros G L. pose proof G as (_ & Hle0 & _). pose proof (lk_phase _ L) as Hp. unfold upload_prepare.
  change (u_socket u) with sock. change (u_filename u) with name.
  eapply wp_open_storage_directory; [exact (sv_storage _ (lk_store _ L))| |].
  2:{ intros en1 Hlt. cbn [Z.ltb Z.compare]. apply wp_log_errno. intros en2 Hle2.
      apply wp_refuse; [apply locked_leaving; [|done]; eapply good_le; [|done]; env_lia|left; env_lia|done|by left]. }
  intros en1 Hle1. set (sfd := next_fd (k_fds (see v))). pose proof (next_fd_nonneg (k_fds (see v))) as H0. fold sfd in H0.
  rewrite (proj2 (Z.ltb_ge sfd 0)) by done.
  assert (Hsee : with_fds (<[sfd := FdDir storage_path]> (k_fds (see v))) (see v) = see (with_storage sfd v)) by apply see_add_fd.
  rewrite Hsee. set (v1 := with_storage sfd v).
  assert (G1 : forall e, env_le e en1 -> good e v1)
    by (intros; apply (good_add_fd sock k en0); eapply good_le; [|done]; env_lia).
  destruct (see_fresh sock k v) as [Hx Hk]. fold sfd in Hx, Hk.
  assert (Hsl : sfd ≠ lock) by (destruct (lk_extra _ L) as [ino E]; intros ->; rewrite E, lookup_singleton_eq in Hx; done).
  assert (Hlv : forall e, env_le e en1 -> leaving sfd (-1) None e v1) by (intros; apply storage_leaving; auto).
  assert (Hrefuse : forall e m, env_le e en1 -> no_success e -> strlen m <= MESSAGE_MAX_SIZE ->
    wp (result ← send_error F sock m; upload_cleanup F u sfd (-1) None None result) ended (W e (see v1)))
    by (intros; apply wp_refuse; auto).
  assert (Hdir : k_fds (see v1) !! sfd = Some (FdDir storage_path)) by (apply see_extra, lookup_insert_eq).
  eapply (wp_fstatat (see v1) sfd name Hdir (filename_entry _ Hname)).
  { intros en2 nd i Hle2 Hnd _. apply Hrefuse; [done|right|done]. intros (_ & _ & Hn & _).
    fold dest_path in Hnd. simpl in Hnd. rewrite (lk_dest _ L) in Hnd. congruence. }
  intros en2 Hle2 Hwhy. apply wp_errno. case_if.
  { apply wp_log_errno. intros en3 Hle3. apply Hrefuse; [env_lia| |done].
    destruct Hwhy as [?|[[_ ?]|(nd & Hnd & _)]]; [left; env_lia|done|right]. intros (_ & _ & Hn & _).
    fold dest_path in Hnd. simpl in Hnd. rewrite (lk_dest _ L) in Hnd. congruence. }
  apply wp_build_temp_name.
  2:{ intros Hl en3 Hle3. apply Hrefuse; [env_lia|right|done]. intros (_ & _ & _ & _ & ? & _). lia. }
  intros Hl. eapply (wp_unlinkat (see v1) sfd _ Hdir temporary_resolve).
  - intros en3 nd Hle3 _ _. apply wp_errno. cbn [negb Z.eqb andb]. rewrite see_with_tree. fold tmp_path.
    change (k_tree (see v1)) with (v_tree v1). apply wp_create_temporary; try done.
    + by apply (good_le _ _ en1); [env_lia|apply G1].
    + apply (lv_holds _ _ _ _ _ (Hlv en1 ltac:(env_lia))).
    + apply store_view_delete_tmp, (store_view_same v); [done|done|apply L].
    + unfold unpublished. simpl. rewrite dest_delete_tmp. apply L.
    + left. simpl. apply lookup_delete_eq.
  - intros en3 Hle3 Hwhy3. apply wp_errno. cbn [negb Z.eqb andb]. fold tmp_path in Hwhy3. simpl in Hwhy3.
    assert (Hno : v_tree v !! tmp_path = None \/ no_success en3).
    { destruct Hwhy3 as [?|[[? _]|Hnd]]; [right; left; env_lia|by left|right; right].
      intros (_ & _ & _ & Hnn & _). rewrite (lk_tmp _ L) in Hnd. congruence. }
    case_if.
    + apply wp_log_errno. intros en4 Hle4. apply Hrefuse; [env_lia| |done].
      destruct Hwhy3 as [?|[[_ ?]|Hnd]]; [left; env_lia|done|]. destruct Hno as [?|[?|?]]; [congruence|left; env_lia|by right].
    + apply wp_create_temporary; try done; [by apply G1; env_lia|apply (lv_holds _ _ _ _ _ (Hlv en1 ltac:(env_lia)))| |apply L|].
      * apply (store_view_same v); [done|done|apply L].
      * destruct Hno as [?|?]; [by left|right]. split; [apply L|done].
Qed.
End upload.

(** ** The handler *)

(** The temporary name, for a client on socket [sock]. *)
Definition upload_tmp (sock : Z) (k : kern server) : path :=
  tmp_path k {| u_socket := sock; u_username := []; u_filename := []; u_size := 0; u_lock := 0 |}.

(** Everything an upload of [size] bytes under [name] may do to the server,
    from state [k] (environment [en]) to [k'] (environment [en']). *)
Record upload_outcome (sock : Z) (name : bytes) (size : Z) (en : env) (k : kern server) (r : Z) (en' : env) (k' : kern server)
    : Prop := {
  uo_env : env_le en' en;
  uo_held : unlocked (k_held k) -> held_ok en' en (k_held k') (k_held k);
  uo_static : k_static k' = k_static k;
  uo_process : k_pid k' = k_pid k /\ k_self k' = k_self k;
  uo_fds : k_fds k' = k_fds k;
  uo_locks : k_locks k' ⊆ k_locks k;
  uo_others : forall fd, fd ≠ sock -> stream (k_out k') fd = stream (k_out k) fd /\ stream (k_in k') fd = stream (k_in k) fd;
  uo_streams : exists sent taken,
    stream (k_out k') sock = stream (k_out k) sock ++ sent /\ stream (k_in k') sock = drop taken (stream (k_in k) sock);
  uo_kept : forall p nd, k_tree k !! p = Some nd -> p ≠ upload_tmp sock k -> k_tree k' !! p = Some nd;
  uo_data : forall ino i, k_inodes k !! ino = Some i -> k_inodes k' !! ino = Some i;
  uo_new : forall p, k_tree k !! p = None -> is_Some (k_tree k' !! p) ->
    p = storage_path \/ lock_file name p \/ p = entry_path name \/ p = upload_tmp sock k /\ env_lt en' en;
  uo_dest : k_tree k' !! entry_path name = k_tree k !! entry_path name \/
    k_tree k !! entry_path name = None /\ size <= zlen (stream (k_in k) sock) /\
    exists ino mode, k_tree k' !! entry_path name = Some (NReg ino) /\
      k_inodes k' !! ino = Some (mk_inode (take (Z.to_nat size) (stream (k_in k) sock)) mode);
  uo_aligned : r = -1 \/ r = 0 /\ exists sent taken,
    stream (k_out k') sock = stream (k_out k) sock ++ sent /\ stream (k_in k') sock = drop taken (stream (k_in k) sock) /\
    ((exists m, sent = frame MSG_ERROR m) /\ taken = 0%nat \/
     (exists t m, sent = frame MSG_RESPONSE (B "UPLOAD_READY") ++ frame t m) /\ taken = Z.to_nat size)
}.

(** The conditions under which it must succeed. *)
Record upload_ready (sock : Z) (name : bytes) (size : Z) (k : kern server) : Prop := {
  ur_storage : storage_usable (k_tree k);
  ur_lock : lock_usable name k;
  ur_dest : k_tree k !! entry_path name = None;
  ur_tmp : k_tree k !! upload_tmp sock k ≠ Some NDir;
  ur_text : zlen (temporary_text k {| u_socket := sock; u_username := []; u_filename := []; u_size := 0; u_lock := 0 |})
            < FILE_NAME_MAX_SIZE;
  ur_input : size <= zlen (stream (k_in k) sock)
}.

Definition upload_success (sock : Z) (name : bytes) (size : Z) (k : kern server) (r : Z) (k' : kern server) : Prop :=
  r = 0 /\ k_tree k !! entry_path name = None /\
  (exists ino mode, k_tree k' !! entry_path name = Some (NReg ino) /\
     k_inodes k' !! ino = Some (mk_inode (take (Z.to_nat size) (stream (k_in k) sock)) mode)) /\
  stream (k_in k') sock = drop (Z.to_nat size) (stream (k_in k) sock) /\
  stream (k_out k') sock = stream (k_out k) sock ++ frame MSG_RESPONSE (B "UPLOAD_READY") ++
    frame MSG_RESPONSE (B "UPLOAD_SUCCESS " ++ name ++ B " " ++ dec size).

Lemma see_streams sock k v fd :
  fd ≠ sock ->
  stream (k_out (see sock k v)) fd = stream (k_out k) fd /\ stream (k_in (see sock k v)) fd = stream (k_in k) fd.
Proof.
  intros Hne. simpl. split; [by apply stream_app_ne|]. rewrite stream_drop. by rewrite decide_False.
Qed.

Lemma upload_end_outcome k en u r en' v :
  upload_end k en u r en' v ->
  upload_outcome (u_socket u) (u_filename u) (u_size u) en k r en' (see (u_socket u) k v) /\
  (upload_success (u_socket u) (u_filename u) (u_size u) k r (see (u_socket u) k v) \/
   env_lt en' en \/ ~ upload_ready (u_socket u) (u_filename u) (u_size u) k).
Proof.
  intros [G X L [K N D St] Hd Ht Hr Ho]. split.
  - split; simpl; try done; try apply G.
    + by rewrite X, (left_id_L ∅ (∪)).
    + intros fd Hne. by apply (see_streams _ _ v).
    + exists (v_out v), (v_in v). by rewrite stream_app_eq, stream_drop_eq.
    + intros p Hp Hs. destruct (N p Hp Hs) as [?|[?|[->|?]]]; [auto|auto| |auto].
      destruct Ht as [E|[?|E]]; [rewrite E in Hs; by destruct Hs|auto|]. rewrite E, Hp in Hs. by destruct Hs.
    + destruct Hd as [?|(P1 & P2 & ino & mode & _ & P3 & P4)]; [by left|right]. eauto 10.
    + destruct Hr as [[-> Ha]|?]; [right|by left]. split; [done|]. rewrite stream_app_eq, stream_drop_eq.
      exists (v_out v), (v_in v). split_and!; [done|done|].
      destruct Ha as [(m & -> & ->)|(t & m & -> & ->)]; [left|right]; eauto 10.
  - destruct Ho as [(-> & (P1 & P2 & ino & mode & P3 & P4 & P5) & E1 & E2)|[?|Hn]]; [left|right; by left|right; right].
    + split_and!; [done|done|by eauto| |]; simpl; [by rewrite stream_drop_eq, E2|by rewrite stream_app_eq, E1].
    + intros [? ? ? ? ? ?]. by apply Hn.
Qed.

(** A refusal before the lock is taken. *)
Lemma refused_outcome sock name size en k en' v r m :
  good k en en' v -> v_extra v = ∅ -> v_locks v ⊆ k_locks k -> store_kept (early name) k (see sock k v) ->
  v_in v = 0%nat -> ~ lock_file name (entry_path name) -> delivered MSG_ERROR m en' en r (v_out v) ->
  upload_outcome sock name size en k r en' (see sock k v).
Proof.
  intros G X L [T N D] I Hnl Hr. assert (Hdest : k_tree (see sock k v) !! entry_path name = k_tree k !! entry_path name).
  { destruct (k_tree k !! entry_path name) as [nd|] eqn:E; [by apply T|].
    destruct (k_tree (see sock k v) !! entry_path name) eqn:E'; [|done].
    destruct (N _ E ltac:(by eexists)) as [?|?]; [done|by destruct Hnl]. }
  split; simpl; try done; try apply G.
  - by rewrite X, (left_id_L ∅ (∪)).
  - intros fd Hne. by apply (see_streams _ _ v).
  - exists (v_out v), (v_in v). by rewrite stream_app_eq, stream_drop_eq.
  - intros p nd Hp _. by apply T.
  - intros p Hp Hs. destruct (N p Hp Hs); auto.
  - by left.
  - destruct Hr as [[-> ->]|[-> _]]; [right|by left]. split; [done|]. rewrite stream_app_eq, stream_drop_eq, I.
    eexists _, 0%nat. split_and!; [done|done|]. left. eauto.
Qed.

Lemma filename_ok_bar name : filename_ok name -> BAR ∉ name.
Proof. intros Hok. by destruct (filename_ok_no_slash _ Hok) as (_ & ? & _). Qed.

Lemma numeral_bar text n : numeral text n -> BAR ∉ text /\ text ≠ [].
Proof.
  intros (blanks & sign & digits & -> & Hb & Hd & Hne & _ & Hs). split; [|by destruct blanks, sign, digits].
  rewrite Forall_forall in Hb, Hd. rewrite !elem_of_app. intros [Hin|[Hin|Hin]].
  - by specialize (Hb _ Hin).
  - destruct Hs as [[[->| ->] _]|[-> _]]; apply strchr_None in Hin; try done; by vm_compute.
  - by specialize (Hd _ Hin).
Qed.

(** What [parse_upload_metadata] accepts, before the last checks. *)
Lemma parse_upload_split name text :
  BAR ∉ name -> BAR ∉ text -> filename_ok name -> text ≠ [] ->
  parse_upload_metadata (Some (name ++ BAR :: text)) FILE_NAME_MAX_SIZE =
    let r := strtoull text in
    if (match st_errno r with Some e => e != 0 | None => false end)
       || (Z.of_nat (st_end r) == 0) || negb (bool_decide (drop (st_end r) text = []))
       || (FILE_MAX_SIZE <? st_value r)
    then None else Some (name, st_value r).
Proof.
  intros Hn Ht Hok Hne. unfold parse_upload_metadata. change (FILE_NAME_MAX_SIZE == 0) with false. cbv iota.
  rewrite strchr_app by done.
  assert (Hd : drop (S (length name)) (name ++ BAR :: text) = text).
  { change (name ++ BAR :: text) with (name ++ [BAR] ++ text). rewrite app_assoc. apply drop_app_length'.
    rewrite length_app. simpl. lia. }
  rewrite Hd, take_app_length. rewrite (proj2 (strchr_None text BAR)) by done.
  pose proof Hok as [Hl _]. unfold zlen in Hl.
  replace ((Z.of_nat (length name) == 0) || (FILE_NAME_MAX_SIZE <=? Z.of_nat (length name))) with false
    by (symmetry; apply orb_false_iff; split; [apply Z.eqb_neq|apply Z.leb_gt; unfold FILE_NAME_MAX_SIZE]; lia).
  rewrite (proj2 (is_valid_shared_filename_iff name) Hok). cbn [negb]. by rewrite bool_decide_eq_false_2.
Qed.

Lemma parse_upload_shape metadata name n :
  parse_upload_metadata (Some metadata) FILE_NAME_MAX_SIZE = Some (name, n) ->
  exists text, metadata = name ++ BAR :: text /\ (BAR ∉ text) /\ filename_ok name /\ text ≠ [].
Proof.
  unfold parse_upload_metadata. change (FILE_NAME_MAX_SIZE == 0) with false. cbv iota.
  destruct (strchr metadata BAR) as [i|] eqn:Ei; [|done]. apply strchr_Some in Ei as (Hm & _ & Hi).
  set (text := drop (S i) metadata) in *.
  destruct (strchr text BAR) eqn:Et; [done|]. apply strchr_None in Et. case_if; [done|].
  destruct (negb (is_valid_shared_filename (Some (take i metadata)))) eqn:En; [done|].
  case_if; [done|].
  match goal with |- (if ?b then _ else _) = _ -> _ => destruct b; [done|] end.
  intros [= <- _]. unbool. exists text. split_and!; try done. by apply is_valid_shared_filename_iff.
Qed.

Lemma strtoull_errno_nonzero text e : st_errno (strtoull text) = Some e -> e = ERANGE.
Proof.
  unfold strtoull. destruct (span isspace text) as [blanks r].
  destruct (match r with x2d :: r' => _ | x2b :: r' => _ | _ => _ end) as [[negative sign] r'].
  destruct (span isdigit r') as [[|b s] rest]; [done|]. case_if; simpl; congruence.
Qed.

Lemma parse_upload_iff metadata name n :
  parse_upload_metadata (Some metadata) FILE_NAME_MAX_SIZE = Some (name, n) <->
  filename_ok name /\ n <= FILE_MAX_SIZE /\ exists text, metadata = name ++ BAR :: text /\ numeral text n.
Proof.
  split.
  - intros Hp. destruct (parse_upload_shape _ _ _ Hp) as (text & -> & Ht & Hok & Hne).
    rewrite parse_upload_split in Hp by (by first [done|apply filename_ok_bar]). cbv zeta in Hp.
    match type of Hp with (if ?b then _ else _) = _ => destruct b eqn:Eb; [done|] end. injection Hp as <-.
    rewrite !orb_false_iff in Eb. destruct Eb as [[[E1 E2] E3] E4]. unbool.
    split_and!; [done|lia|]. exists text. split; [done|]. apply strtoull_numeral. split_and!; [|lia|done|done].
    destruct (st_errno (strtoull text)) as [e|] eqn:E; [|done]. apply strtoull_errno_nonzero in E as ->. done.
  - intros (Hok & Hn & text & -> & Hnum). pose proof (numeral_bar _ _ Hnum) as [Ht Hne].
    rewrite parse_upload_split by (by first [done|apply filename_ok_bar]). cbv zeta.
    apply strtoull_numeral in Hnum as (-> & Hz & -> & ->).
    rewrite bool_decide_eq_true_2 by done. rewrite (proj2 (Z.eqb_neq _ _)) by lia.
    by rewrite (proj2 (Z.ltb_ge _ _)).
Qed.

Lemma numeral_nonneg text n : numeral text n -> 0 <= n.
Proof. intros Hn%strtoull_numeral. destruct Hn as (_ & _ & _ & <-). apply strtoull_range. Qed.

Lemma numeral_dec n : 0 <= n <= ULLONG_MAX -> numeral (dec n) n.
Proof.
  intros Hn. apply strtoull_numeral. rewrite strtoull_dec by done. cbn. split_and!; [done| |by apply drop_ge|done].
  pose proof (dec_nonempty n). destruct (dec n); [done|simpl; lia].
Qed.

Lemma parse_upload_print name n :
  filename_ok name -> 0 <= n <= FILE_MAX_SIZE ->
  parse_upload_metadata (Some (name ++ BAR :: dec n)) FILE_NAME_MAX_SIZE = Some (name, n).
Proof.
  intros Hname Hn. apply parse_upload_iff. split_and!; [done|lia|]. eexists. split; [done|].
  apply numeral_dec. unfold FILE_MAX_SIZE, ULLONG_MAX in *. lia.
Qed.

Section handle.
Context `{Libc} (F : nat) (sock : Z) (user metadata : bytes) (k : kern server) (en : env).
Hypothesis (Hso : sockets_open k) (Hreg : registered (k_static k) sock) (HF : stream_fuel F en).

(** The lock is held: the view of the handler. *)
Lemma locked_after name size lock en1 k1 :
  filename_ok name -> env_le en1 en ->
  files_only k k1 -> store_kept (early name) k k1 -> k_tree k1 !! storage_path = Some NDir -> k_fds k !! lock = None ->
  (exists ino l, k_fds k1 = <[lock := FdFile ino 0 lock_flags]> (k_fds k) /\ k_locks k1 ⊆ (ino, lock, l) :: k_locks k) ->
  exists v, k1 = see sock k v /\ good k en en1 v /\ v_tree v = k_tree k1 /\ v_inodes v = k_inodes k1 /\
    locked k {| u_socket := sock; u_username := user; u_filename := name; u_size := size; u_lock := lock |} v.
Proof.
  intros Hname Hle1 Hfo [T N D] Hst Hfree (ino & l & Hf & Hl).
  assert (Hx : k_fds k1 = {[lock := FdFile ino 0 lock_flags]} ∪ k_fds k) by by rewrite Hf, insert_union_singleton_l.
  eexists. split; [exact (files_only_see sock k k1 _ Hfo Hx)|]. set (v := View _ _ _ _ _ _ _).
  assert (Hsame : forall p, p ≠ storage_path -> ~ lock_file name p -> v_tree v !! p = k_tree k !! p).
  { intros p Hp Hnl. simpl. destruct (k_tree k !! p) as [nd|] eqn:E; [by apply T|].
    destruct (k_tree k1 !! p) eqn:E'; [|done]. destruct (N _ E ltac:(by eexists)); [done|by destruct Hnl]. }
  split; [split_and!; [by apply map_disjoint_singleton_l|done|by left]|]. do 2 (split; [done|]).
  split; simpl; [by exists ino| | | | |done].
  - intros x Hin Hne. apply Hl in Hin as [->|?]%elem_of_cons; [by destruct Hne|done].
  - split; simpl; [by intros; apply T| |done|done]. intros p Hp Hs. destruct (N p Hp Hs); auto.
  - apply Hsame; [done|by apply entry_not_lock].
  - apply Hsame; [done|]. by intros [[=]|[=]].
Qed.

(** ... and the rest of the upload. *)
Lemma wp_upload_locked name size lock en1 k1 :
  filename_ok name -> 0 <= size <= FILE_MAX_SIZE -> env_le en1 en ->
  files_only k k1 -> store_kept (early name) k k1 -> k_tree k1 !! storage_path = Some NDir ->
  0 <= lock -> k_fds k !! lock = None ->
  (exists ino l, k_fds k1 = <[lock := FdFile ino 0 lock_flags]> (k_fds k) /\ k_locks k1 ⊆ (ino, lock, l) :: k_locks k) ->
  wp (upload_prepare F {| u_socket := sock; u_username := user; u_filename := name; u_size := size; u_lock := lock |})
    (fun r '(W en' k') => upload_outcome sock name size en k r en' k' /\
       (upload_success sock name size k r k' \/ env_lt en' en \/ ~ upload_ready sock name size k)) (W en1 k1).
Proof.
  intros Hname Hsize Hle1 Hfo Hsk Hst H0 Hfree Hl.
  set (u := {| u_socket := sock; u_username := user; u_filename := name; u_size := size; u_lock := lock |}).
  destruct (locked_after name size lock en1 k1) as (v & -> & G & _ & _ & L); try done.
  eapply wp_mono; [by apply (wp_upload_prepare F k en u)|].
  intros r w (en' & v' & -> & He). by apply (upload_end_outcome k en u r en' v').
Qed.

Lemma refused_view name size m en1 k1 :
  env_le en1 en -> files_only k k1 -> k_fds k1 = k_fds k -> k_locks k1 ⊆ k_locks k ->
  store_kept (early name) k k1 -> strlen m <= MESSAGE_MAX_SIZE ->
  ~ lock_file name (entry_path name) ->
  wp (send_error F sock m) (fun r '(W en' k') => env_le en' en1 /\ upload_outcome sock name size en k r en' k') (W en1 k1).
Proof.
  intros Hle1 Hfo Hf Hl Hsk Hm Hnl. eapply (wp_refuse_early _ name _ _ _ en); try done; [by apply stream_fuel_ok|].
  intros en' v r Hle G X L T I N Hd. split; [done|]. eapply refused_outcome; try done.
  destruct Hsk as [K K' K'']. split; simpl; by rewrite ?T, ?I.
Qed.

Lemma wp_handle_upload :
  wp (file_manager_handle_upload F sock (Some user) (Some metadata))
    (fun r '(W en' k') =>
       match parse_upload_metadata (Some metadata) FILE_NAME_MAX_SIZE with
       | None => env_le en' en /\ (unlocked (k_held k) -> held_ok en' en (k_held k') (k_held k)) /\
                   exists out, delivered MSG_ERROR (B "INVALID_UPLOAD_METADATA") en' en r out /\
                     k' = with_held (k_held k') (sent_out sock out k)
       | Some (name, size) => upload_outcome sock name size en k r en' k' /\
           (upload_success sock name size k r k' \/ env_lt en' en \/ ~ upload_ready sock name size k)
       end) (W en k).
Proof.
  unfold file_manager_handle_upload.
  destruct (parse_upload_metadata (Some metadata) FILE_NAME_MAX_SIZE) as [[name size]|] eqn:Hp.
  2:{ apply wp_log. intros en1 Hle1. replace (W en1 k) with (W en1 (see sock k (view0 k))) by by rewrite see_view0.
      assert (Hw : wp (r ← send_error F sock (B "INVALID_UPLOAD_METADATA"); mret r) (fun r '(W en' k') =>
        env_le en' en /\ (unlocked (k_held k) -> held_ok en' en (k_held k') (k_held k)) /\
        exists out, delivered MSG_ERROR (B "INVALID_UPLOAD_METADATA") en' en r out /\
                   k' = with_held (k_held k') (sent_out sock out k)) (W en1 (see sock k (view0 k)))).
      { eapply (wp_send_error sock k en); [done|by eapply good_le, good_view0|by apply stream_fuel_ok|done|done|].
        intros en2 h r out Hle2 (_ & G2 & G3) Hd. apply wp_ret. split_and!; [done|done|]. exists out. split; [done|].
        transitivity (with_held h (sent_out sock out (see sock k (view0 k)))); [done|by rewrite see_view0]. }
      apply wp_bind_iff in Hw. eapply wp_mono; [exact Hw|]. by intros r w. }
  apply parse_upload_iff in Hp as (Hname & Hmax & text & _ & Hnum).
  assert (Hsize : 0 <= size <= FILE_MAX_SIZE) by (pose proof (numeral_nonneg _ _ Hnum); done).
  pose proof (entry_not_lock _ name Hname) as Hnl.
  assert (Hfail : forall m en1 k1, env_le en1 en -> files_only k k1 -> k_fds k1 = k_fds k -> k_locks k1 ⊆ k_locks k ->
    store_kept (early name) k k1 -> strlen m <= MESSAGE_MAX_SIZE ->
    env_lt en1 en \/ ~ upload_ready sock name size k ->
    wp (send_error F sock m) (fun r '(W en' k') => upload_outcome sock name size en k r en' k' /\
       (upload_success sock name size k r k' \/ env_lt en' en \/ ~ upload_ready sock name size k)) (W en1 k1)).
  { intros m en1 k1 Hle1 Hfo Hf Hl Hsk Hm Hwhy. eapply wp_mono; [by apply refused_view|].
    intros r [en' k'] [Hle Ho]. split; [exact Ho|right]. destruct Hwhy; [left; env_lia|by right]. }
  eapply wp_ensure_storage_directory.
  2:{ intros en1 k1 Hle1 Hwhy Hk1. cbn [negb Z.eqb]. destruct (storage_step_kept name _ _ Hk1) as (A1 & A2 & A3 & A4 & A5).
      apply wp_log_errno. intros en2 Hle2. apply Hfail; try done; [env_lia|by rewrite A3|].
      destruct Hwhy as [?|Hn]; [left; env_lia|right]. intros [? ? ? ? ? ?]. done. }
  intros en1 k1 Hle1 Hk1 Hst. cbn [negb Z.eqb]. destruct (storage_step_kept name _ _ Hk1) as (A1 & A2 & A3 & A4 & A5).
  apply wp_bind, wp_file_lock_acquire; [by eapply fuel_ok_le; [|apply stream_fuel_ok]|done|by right|done| |].
  - intros en2 k2 lock Hle2 [[B0 B1] B2 B3 (ino & _ & B4 & _ & B5)]. rewrite (proj2 (Z.ltb_ge lock 0)) by done.
    rewrite A2 in B1. rewrite A2 in B4. rewrite A3 in B5.
    apply wp_upload_locked; try done; [env_lia|by eapply files_only_trans| |by apply (kept_tree _ _ _ B3)|by eauto].
    eapply store_kept_trans; [done|]. eapply store_kept_mono; [|done]. by right.
  - intros en2 k2 Hle2 [B1 B2 B3 B4] Hwhy. cbn [Z.ltb Z.compare]. apply wp_log_errno. intros en3 Hle3.
    apply Hfail; [env_lia|by eapply files_only_trans|congruence|by rewrite <- A3| |done|].
    + eapply store_kept_trans; [done|]. eapply store_kept_mono; [|done]. by right.
    + destruct Hwhy as [?|Hn]; [left; env_lia|right]. intros [? ? ? ? ? ?]. auto.
Qed.
End handle.

(** ** Properties *)

(** The room, with an empty storage directory, and 12 bytes from Alice in
    her socket. *)
Definition upload_room : kern server :=
  with_in {[ 5 := B "hello world!" ]} (with_tree {[ storage_path := NDir ]} room).

Lemma upload_room_ready : upload_ready 5 (B "a.txt") 11 upload_room.
Proof.
  split; [by right| | |done|by vm_compute|by vm_compute].
  - split; left; by vm_compute.
  - by vm_compute.
Qed.

(** C13. Whatever calls fail, and however short the transfers, an upload ends;
    it leaves the registry, the open descriptors and the streams of the
    other clients alone, releases every file lock it took, never replaces or
    alters a stored file, and publishes a file, if at all, under the name
    asked for and with exactly the bytes the client sent, all of them. The
    result is 0 only when the client's stream is still in step: the request
    was refused and no byte of content was read, or READY and one final
    answer were sent and exactly [size] bytes were read. *)
Theorem upload_is_all_or_nothing `{Libc} F sock user metadata (k : kern server) en :
  sockets_open k -> registered (k_static k) sock -> stream_fuel F en ->
  runs (file_manager_handle_upload F sock (Some user) (Some metadata)) (W en k) (fun r '(W en' k') =>
    match parse_upload_metadata (Some metadata) FILE_NAME_MAX_SIZE with
    | None => exists out, delivered MSG_ERROR (B "INVALID_UPLOAD_METADATA") en' en r out /\
                k' = with_held (k_held k') (sent_out sock out k)
    | Some (name, size) => upload_outcome sock name size en k r en' k'
    end).
Proof.
  intros Hso Hr HF. apply wp_runs. eapply wp_mono; [by apply wp_handle_upload|].
  intros r [en' k']. destruct (parse_upload_metadata _ _) as [[name size]|]; [by intros [? _]|by intros (_ & _ & ?)].
Qed.

Lemma upload_is_all_or_nothing_witness :
  runs (file_manager_handle_upload (H := plain_libc) (Z.to_nat 7000) 5 (Some (B "alice")) (Some (B "a.txt|11")))
    (W (mk_env [Full; Short 3; Full; Fail 28] 0 [] [] []) upload_room) (fun r '(W en' k') =>
    match parse_upload_metadata (Some (B "a.txt|11")) FILE_NAME_MAX_SIZE with
    | None => exists out, delivered MSG_ERROR (B "INVALID_UPLOAD_METADATA") en' (mk_env [Full; Short 3; Full; Fail 28] 0 [] [] []) r out /\
                k' = with_held (k_held k') (sent_out 5 out upload_room)
    | Some (name, size) => upload_outcome 5 name size (mk_env [Full; Short 3; Full; Fail 28] 0 [] [] []) upload_room r en' k'
    end).
Proof.
  apply upload_is_all_or_nothing; [apply room_sockets|by apply registeredb_true|by vm_compute].
Defined.

(** C34. When no call fails, a well-formed request for a name that is free
    succeeds: the file is there with exactly the [size] bytes the client
    sent, the client is told UPLOAD_READY and UPLOAD_SUCCESS, and the rest of
    its stream is left for the next message. *)
Theorem upload_succeeds `{Libc} F sock user name size (k : kern server) en :
  sockets_open k -> registered (k_static k) sock -> stream_fuel F en -> faultless en ->
  filename_ok name -> 0 <= size <= FILE_MAX_SIZE -> upload_ready sock name size k ->
  runs (file_manager_handle_upload F sock (Some user) (Some (name ++ BAR :: dec size))) (W en k)
    (fun r '(W en' k') => upload_success sock name size k r k').
Proof.
  intros Hso Hr HF Hf Hn Hs Hready. apply wp_runs. eapply wp_mono; [by apply wp_handle_upload|].
  intros r [en' k']. rewrite parse_upload_print by done. intros [_ [?|[?|?]]]; [done| |done].
  by destruct (faultless_not_lt _ _ Hf ltac:(eassumption)).
Qed.

Lemma upload_succeeds_witness :
  runs (file_manager_handle_upload (H := plain_libc) (Z.to_nat 7000) 5 (Some (B "alice")) (Some (B "a.txt" ++ BAR :: dec 11)))
    (W calm upload_room) (fun r '(W en' k') => upload_success 5 (B "a.txt") 11 upload_room r k').
Proof.
  apply upload_succeeds; [apply room_sockets|by apply registeredb_true|by vm_compute|done|
    by apply is_valid_shared_filename_iff|by vm_compute|apply upload_room_ready].
Defined.

(** C39. [parse_upload_metadata] accepts exactly a valid file name, a bar and
    a number of at most 50 MiB, as [strtoull] reads it. *)
Theorem upload_metadata_grammar metadata name n :
  parse_upload_metadata (Some metadata) FILE_NAME_MAX_SIZE = Some (name, n) <->
  filename_ok name /\ n <= FILE_MAX_SIZE /\ exists text, metadata = name ++ BAR :: text /\ numeral text n.
Proof. apply parse_upload_iff. Qed.

(** In particular it reads back what the client writes. *)
Lemma upload_metadata_roundtrip name n :
  filename_ok name -> 0 <= n <= FILE_MAX_SIZE ->
  parse_upload_metadata (Some (name ++ BAR :: dec n)) FILE_NAME_MAX_SIZE = Some (name, n).
Proof. apply parse_upload_print. Qed.

Lemma upload_metadata_roundtrip_witness :
  parse_upload_metadata (Some (B "notes.txt" ++ BAR :: dec 52428800)) FILE_NAME_MAX_SIZE = Some (B "notes.txt", 52428800).
Proof. apply upload_metadata_roundtrip; [by apply is_valid_shared_filename_iff|by vm_compute]. Defined.
