(* ===== verification/Download.v ===== *)
(** * Downloads

    [file_manager_handle_download]: what the client is sent, whatever calls
    fail, and that the server's files, locks and descriptors are left alone. *)

From S2P Require Import Prelude CLib Posix Wp Protocol NetworkIO ClientManager Registry Sending PerfTimer FileLock Logger.
From S2P Require Import FileManager Store.

(** What a download of [name] is answered, from the files [t], [m]. *)
Definition download_answer (t : gmap path node) (m : gmap positive inode) (name : bytes) : bytes :=
  match t !! entry_path name with
  | None => frame MSG_ERROR (B "FILE_NOT_FOUND")
  | Some (NSymlink _) => frame MSG_ERROR (B "UNSAFE_FILE_ENTRY")
  | Some (NReg ino) =>
      match m !! ino with
      | None => frame MSG_ERROR (B "DOWNLOAD_STAT_FAILED")
      | Some i =>
          if FILE_MAX_SIZE <? zlen (i_data i) then frame MSG_ERROR (B "FILE_TOO_LARGE")
          else frame MSG_RESPONSE (B "DOWNLOAD_READY " ++ name ++ B "|" ++ dec (zlen (i_data i))) ++ i_data i
      end
  | Some NDir | Some NOther => frame MSG_ERROR (B "NOT_A_REGULAR_FILE")
  end.

Definition download_flags : Z := O_RDONLY ||| O_CLOEXEC ||| O_NOFOLLOW.

(** What the descriptor of an opened entry is. *)
Definition opened (nd : option node) (name : bytes) (d : fdesc) : Prop :=
  match nd with
  | Some (NReg ino) => d = FdFile ino 0 download_flags
  | Some NDir => d = FdDir (entry_path name)
  | Some NOther => d = FdOther
  | _ => False
  end.

Lemma wp_openat_read {A} dfd name (g : Z -> prog server A) Q en (k : kern server) :
  k_fds k !! dfd = Some (FdDir storage_path) -> resolve storage_path name = entry_path name ->
  (forall en' d, env_le en' en -> opened (k_tree k !! entry_path name) name d ->
     wp (g (next_fd (k_fds k))) Q (W en' (with_fds (<[next_fd (k_fds k) := d]> (k_fds k)) k))) ->
  (forall en', env_le en' en ->
     env_lt en' en \/ k_tree k !! entry_path name = None /\ e_errno en' = ENOENT \/
     (exists t, k_tree k !! entry_path name = Some (NSymlink t)) /\ e_errno en' = ELOOP ->
     wp (g (-1)) Q (W en' k)) ->
  wp (call (Openat dfd name download_flags 0) ≫= g) Q (W en k).
Proof.
  intros Hdir Hname Hok Hko. eapply wp_fallible; [reflexivity|intros en1 Hlt _; apply Hko; [env_lia|by left]|].
  intros en1 lim Hle _ _. cbv beta. unfold at_dir, fd_dir. rewrite Hdir, Hname. unfold open_path.
  change (has download_flags O_CREAT && has download_flags O_EXCL) with false.
  change (has download_flags O_NOFOLLOW) with true. change (has download_flags O_CREAT) with false. cbv iota.
  destruct (k_tree k !! entry_path name) as [nd|] eqn:E; [|apply Hko; [done|right; left; done]].
  destruct nd; try (apply Hok; [done|done]). apply Hko; [done|right; right]. split; [by eexists|done].
Qed.

(** The result and the bytes of a request that is to be answered by [answer]:
    another answer, or a part of one, needs a reason. *)
Definition served (answer : bytes) (ready : Prop) (en' en : env) (r : Z) (out : bytes) : Prop :=
  r = 0 /\ (out = answer \/ (exists m, out = frame MSG_ERROR m) /\ (env_lt en' en \/ ~ ready)) \/
  r = -1 /\ env_lt en' en /\ exists full, out `prefix_of` full /\ (full = answer \/ exists m, full = frame MSG_ERROR m).

Lemma delivered_served answer ready message en' en r out :
  delivered MSG_ERROR message en' en r out -> frame MSG_ERROR message = answer \/ env_lt en' en \/ ~ ready ->
  served answer ready en' en r out.
Proof.
  intros [[-> ->]|(-> & Hlt & n & _ & ->)] Hwhy; [left|right].
  - split; [done|]. destruct Hwhy as [->|?]; [by left|right; eauto].
  - split_and!; [done|done|]. eexists. split; [apply take_prefix_of|eauto].
Qed.

Section download.
Context `{Libc} (F : nat) (k : kern server) (en0 : env) (d : download).

Let sock := d_socket d.
Let name := d_filename d.
Let lock := d_lock d.
Abbreviation see := (see sock k).
Abbreviation good := (good k en0).
Abbreviation holds := (holds k lock).

Hypothesis (Hso : sockets_open k) (Hreg : registered (k_static k) sock) (HF : stream_fuel F en0).
Hypothesis (Hname : filename_ok name) (Hlock0 : 0 <= lock) (Hsock : 0 <= sock).

Lemma fuel_down en : env_le en en0 -> fuel_ok F en.
Proof. intros. eapply fuel_ok_le; [done|]. by apply stream_fuel_ok. Qed.

(** ** Leaving *)

(** After the cleanup only what was sent and received remains. *)
Record emptied (en' : env) (v v' : view) : Prop := {
  em_good : good en' v';
  em_extra : v_extra v' = ∅;
  em_locks : v_locks v' ⊆ k_locks k;
  em_tree : v_tree v' = v_tree v;
  em_inodes : v_inodes v' = v_inodes v;
  em_out : v_out v' = v_out v;
  em_in : v_in v' = v_in v
}.

Lemma wp_download_cleanup storage_fd file_fd result Q en v :
  good en v -> holds storage_fd file_fd v ->
  (forall en' v', env_le en' en -> emptied en' v v' -> Q result (W en' (see v'))) ->
  wp (download_cleanup F d storage_fd file_fd result) Q (W en (see v)).
Proof.
  intros Hg Hh HQ. unfold download_cleanup. eapply wp_close_opt; [done| |].
  { destruct Hh as (_ & _ & [?|(? & _ & _ & ?)] & _); [by left|by right]. }
  intros en1 Hle1 Hg1. apply holds_close_file in Hh. set (v1 := close_opt file_fd v) in *.
  assert (Hv1 : v_tree v1 = v_tree v /\ v_inodes v1 = v_inodes v /\ v_out v1 = v_out v /\ v_in v1 = v_in v)
    by (unfold v1, close_opt; by case_if).
  eapply wp_close_opt; [done| |].
  { destruct Hh as (_ & [?|[? Hs]] & _); [by left|right; rewrite Hs; eauto]. }
  intros en2 Hle2 Hg2. apply holds_close_storage in Hh. set (v2 := close_opt storage_fd v1) in *.
  assert (Hv2 : v_tree v2 = v_tree v1 /\ v_inodes v2 = v_inodes v1 /\ v_out v2 = v_out v1 /\ v_in v2 = v_in v1)
    by (unfold v2, close_opt; by case_if).
  destruct Hv1 as (? & ? & ? & ?), Hv2 as (? & ? & ? & ?), Hh as ((ino & Hl) & _ & _ & Hx & Hlk).
  eapply wp_release_lock; [done|by apply stream_fuel_ok|done|done| |done|].
  { intros fd [x Hd]. destruct (Hx fd ltac:(by eexists)) as [?|[[? _]|[? _]]]; [done|lia|lia]. }
  intros en3 locks Hle3 Hlocks Hg3. apply HQ; [env_lia|]. split; try done; simpl; congruence.
Qed.

(** The answer of a handler that also leaves. *)
Lemma wp_download_reject storage_fd file_fd message Q en v :
  good en v -> holds storage_fd file_fd v -> strlen message <= MESSAGE_MAX_SIZE ->
  (forall en' v' r out, env_le en' en -> emptied en' (add_out out v) v' -> delivered MSG_ERROR message en' en0 r out ->
     Q r (W en' (see v'))) ->
  wp (result ← send_error F sock message; download_cleanup F d storage_fd file_fd result) Q (W en (see v)).
Proof.
  intros Hg Hh Hm HQ. eapply wp_send_error; [exact Hso|done|by apply stream_fuel_ok|done|done|].
  intros en1 h r out Hle1 Hg1 Hd. apply wp_download_cleanup; [done|exact Hh|].
  intros en2 v2 Hle2 [? ? ? ? ? ? ?]. apply (HQ en2 v2 r out); [env_lia|by split|].
  by eapply delivered_le; [exact Hle2|reflexivity|].
Qed.

(** ** Streaming *)

Variable ready : Prop.

(** How the handler ends, from view [v]. *)
Definition finished (v : view) (r : Z) (w : world server) : Prop :=
  exists en' v' out, w = W en' (see v') /\ env_le en' en0 /\ emptied en' (add_out out v) v' /\
    served (download_answer (v_tree v) (v_inodes v) name) ready en' en0 r out.

Lemma wp_reject storage_fd file_fd message en v v0 :
  good en v -> holds storage_fd file_fd v -> strlen message <= MESSAGE_MAX_SIZE ->
  v_tree v = v_tree v0 -> v_inodes v = v_inodes v0 -> v_out v = v_out v0 -> v_in v = v_in v0 ->
  frame MSG_ERROR message = download_answer (v_tree v0) (v_inodes v0) name \/ env_lt en en0 \/ ~ ready ->
  wp (result ← send_error F sock message; download_cleanup F d storage_fd file_fd result) (finished v0) (W en (see v)).
Proof.
  intros Hg Hh Hm E1 E2 E3 E4 Hwhy. pose proof Hg as (_ & Hle0 & _).
  apply wp_download_reject; [done|done|done|]. intros en1 v1 r out Hle1 [] Hd. exists en1, v1, out.
  split_and!; [done|env_lia| |].
  - split; try done; simpl in *; congruence.
  - eapply delivered_served; [done|]. destruct Hwhy as [?|[?|?]]; [by left|right; left; env_lia|by right; right].
Qed.

Lemma see_read_ahead fd ino off fl n v :
  v_extra v !! fd = Some (FdFile ino off fl) ->
  read_ahead fd n (see v) = see (set_extra (<[fd := FdFile ino (off + n) fl]> (v_extra v)) v).
Proof.
  intros Hfd. unfold read_ahead. destruct n as [|n].
  - rewrite Nat.add_0_r, insert_id by done. by destruct v.
  - rewrite (see_extra _ _ _ _ _ Hfd). unfold Store.see, with_fds, set_extra. simpl. by rewrite insert_union_l.
Qed.

Lemma ready_frame_sendable i :
  zlen (i_data i) <= FILE_MAX_SIZE ->
  zlen (B "DOWNLOAD_READY " ++ name ++ B "|" ++ dec (zlen (i_data i))) < 4096.
Proof.
  intros Hmax. pose proof (dec_length (zlen (i_data i)) 8 ltac:(pose proof (zlen_nonneg (i_data i)); unfold FILE_MAX_SIZE in *; simpl; lia)).
  pose proof Hname as [Hl _]. rewrite !zlen_app.
  change (zlen (B "DOWNLOAD_READY ")) with 15. change (zlen (B "|")) with 1. lia.
Qed.

(** [v] is [v0] with descriptors opened. *)
Definition same_files (v v0 : view) : Prop :=
  v_tree v = v_tree v0 /\ v_inodes v = v_inodes v0 /\ v_out v = v_out v0 /\ v_in v = v_in v0.

Lemma wp_download_stream storage_fd fd ino i en v v0 :
  good en v -> holds storage_fd fd v -> 0 <= fd -> v_extra v !! fd = Some (FdFile ino 0 download_flags) ->
  v_tree v0 !! entry_path name = Some (NReg ino) -> v_inodes v0 !! ino = Some i -> zlen (i_data i) <= FILE_MAX_SIZE ->
  same_files v v0 ->
  wp (download_stream F d storage_fd fd (zlen (i_data i))) (finished v0) (W en (see v)).
Proof.
  intros Hg Hh H0 Hfd Hnd Hi Hmax (E1 & E2 & E3 & E4). pose proof Hg as (_ & Hle0 & Hheld0).
  unfold download_stream. pose proof (ready_frame_sendable i Hmax) as Hlen. change (d_filename d) with name.
  rewrite sprintf_fit_ok by (unfold MESSAGE_MAX_SIZE; lia). apply wp_bind, wp_start_transfer_timer. intros en1 timer Hle1.
  assert (Hrd : reading (see v) fd (i_data i)).
  { exists ino, 0%nat, download_flags, i. split_and!; [by apply see_extra| |done]. simpl. congruence. }
  assert (Hans : download_answer (v_tree v0) (v_inodes v0) name =
            file_stream MSG_RESPONSE (B "DOWNLOAD_READY " ++ name ++ B "|" ++ dec (zlen (i_data i))) (zlen (i_data i)) (i_data i)).
  { unfold download_answer, file_stream. rewrite Hnd, Hi, (proj2 (Z.ltb_ge _ _)) by done.
    f_equal. rewrite take_ge; [done|]. unfold zlen. lia. }
  assert (Hfile : fd ≠ lock) by (destruct Hh as (_ & _ & [?|(_ & ? & _)] & _); [lia|done]).
  (* Whatever was sent, the handler closes and releases. *)
  assert (Hend : forall en2 h n out r,
    env_le en2 en1 -> (unlocked (k_held (see v)) -> held_ok en2 en1 h (k_held (see v))) ->
    served (download_answer (v_tree v0) (v_inodes v0) name) ready en2 en0 r out ->
    forall en3, env_le en3 en2 -> wp (download_cleanup F d storage_fd fd r) (finished v0)
      (W en3 (with_held h (read_ahead fd n (sent_out sock out (see v)))))).
  { intros en2 h n out r Hle2 Hh2 Hs en3 Hle3.
    set (v1 := set_held h (add_out out (set_extra (<[fd := FdFile ino (0 + n) download_flags]> (v_extra v)) v))).
    assert (Hv : with_held h (read_ahead fd n (sent_out sock out (see v))) = see v1).
    { change (sent_out sock out (see v)) with (with_out (app_stream sock out (k_out (see v))) (see v)).
      assert (Hc : read_ahead fd n (with_out (app_stream sock out (k_out (see v))) (see v)) =
        with_out (app_stream sock out (k_out (see v))) (read_ahead fd n (see v))).
      { unfold read_ahead. destruct n; [done|]. cbn [k_fds with_out]. by destruct (k_fds (see v) !! fd) as [[]|]. }
      rewrite Hc, (see_read_ahead _ _ _ _ _ _ Hfd). unfold v1, Store.see, with_held, with_out. simpl. by rewrite app_stream_app. }
    rewrite Hv. apply wp_download_cleanup.
    - destruct Hg as (Hx & _ & _). split_and!; [|env_lia|].
      + simpl. apply map_disjoint_insert_l. split; [by eapply map_disjoint_Some_r|done].
      + intros Hu. simpl. destruct (Hheld0 Hu) as [E|?]; [|right; env_lia]. simpl in Hh2. rewrite E in Hh2.
        destruct (Hh2 Hu); [by left|right; env_lia].
    - by eapply holds_move_file.
    - intros en4 v4 Hle4 []. exists en4, v4, out. split_and!; [done|env_lia| |].
      + split; try done; simpl in *; congruence.
      + destruct Hs as [[-> [->|(m & [?|?])]]|(-> & ? & ?)].
        * left. auto.
        * left. split; [done|]. right. split; [done|left; env_lia].
        * left. split; [done|]. right. split; [done|by right].
        * right. split_and!; [done|env_lia|done]. }
  apply wp_bind. eapply (wp_send_file_stream F sock _ _ fd (zlen (i_data i)) (i_data i));
    [by eapply see_sockets_open|done|done|apply zlen_nonneg|unfold stream_fuel in *; env_lia| |].
  - intros en2 h Hle2 Hh2 _ _ _ _. apply wp_bind, wp_download_report. intros en3 Hle3. cbn [Z.eqb negb].
    apply wp_log. intros en4 Hle4. eapply Hend; [exact Hle2|done| |env_lia]. rewrite Hans. left. auto.
  - intros en2 h n out Hle2 Hh2 Hwhy Hp. apply wp_bind, wp_download_report. intros en3 Hle3. cbn [Z.eqb negb].
    apply wp_log. intros en4 Hle4. eapply Hend; [exact Hle2|done| |env_lia]. right. split_and!; [done| |].
    + destruct Hwhy as [Hn|[?|[?|[?|[?|?]]]]]; [|lia|lia|done|lia|env_lia].
      destruct Hn. split; [done|]. unfold strlen, MESSAGE_MAX_SIZE. lia.
    + rewrite Hans. eauto.
Qed.

Lemma wp_download_check storage_fd fd nd en v v0 :
  good en v -> holds storage_fd fd v -> 0 <= fd -> v_extra v !! fd = Some nd ->
  opened (v_tree v0 !! entry_path name) name nd -> same_files v v0 ->
  wp (download_check F d storage_fd fd) (finished v0) (W en (see v)).
Proof.
  intros Hg Hh H0 Hfd Hop Hsame. pose proof Hsame as (E1 & E2 & E3 & E4). pose proof Hg as (_ & Hle0 & _).
  unfold download_check. cbv zeta.
  assert (Hrej : forall m en1, env_le en1 en -> strlen m <= MESSAGE_MAX_SIZE ->
    frame MSG_ERROR m = download_answer (v_tree v0) (v_inodes v0) name \/ env_lt en1 en0 \/ ~ ready ->
    wp (result ← send_error F (d_socket d) m; download_cleanup F d storage_fd fd result) (finished v0) (W en1 (see v))).
  { intros. apply wp_reject; try done. by eapply good_le. }
  eapply wp_fallible; [reflexivity|intros en1 Hlt _; apply Hrej; [env_lia|done|right; left; env_lia]|].
  intros en1 lim Hle1 _ _. cbv beta. unfold fstat_fd. rewrite (see_extra _ _ _ _ _ Hfd).
  unfold opened in Hop. destruct (v_tree v0 !! entry_path name) as [[ino| |t|]|] eqn:E; [| |done| |done]; subst nd; cbn [stat_node].
  - cbn [k_inodes Store.see]. rewrite E2. destruct (v_inodes v0 !! ino) as [i|] eqn:Ei; cbn [mbind option_bind S_ISREG st_type st_size negb].
    2:{ apply Hrej; [env_lia|done|left]. unfold download_answer. by rewrite E, Ei. }
    pose proof (zlen_nonneg (i_data i)). rewrite (proj2 (Z.ltb_ge _ _)) by done. case_if.
    + apply Hrej; [env_lia|done|left]. unfold download_answer. rewrite E, Ei. by rewrite (proj2 (Z.ltb_lt _ _)) by done.
    + eapply (wp_download_stream _ _ ino i); try done. by eapply good_le.
  - cbn [S_ISREG st_type negb]. apply wp_log. intros en2 Hle2. apply Hrej; [env_lia|done|left]. unfold download_answer. by rewrite E.
  - cbn [S_ISREG st_type negb]. apply wp_log. intros en2 Hle2. apply Hrej; [env_lia|done|left]. unfold download_answer. by rewrite E.
Qed.

Lemma wp_download_open en v :
  good en v -> holds (-1) (-1) v -> v_tree v !! storage_path = Some NDir ->
  wp (download_open F d) (finished v) (W en (see v)).
Proof.
  intros Hg Hh Hst. pose proof Hg as (_ & Hle0 & _). unfold download_open.
  eapply wp_open_storage_directory; [done| |].
  2:{ intros en1 Hlt1. cbn [Z.ltb Z.compare]. apply wp_log_errno. intros en2 Hle2.
      apply wp_reject; try done; [eapply good_le; [|done]; env_lia|right; left; env_lia]. }
  intros en1 Hle1. set (sfd := next_fd (k_fds (see v))). assert (H0 : 0 <= sfd) by apply next_fd_nonneg.
  rewrite (proj2 (Z.ltb_ge _ _)) by done. unfold sfd. rewrite see_add_fd. fold sfd. set (v1 := set_extra _ v).
  assert (Hfr : v_extra v !! sfd = None) by apply see_fresh.
  assert (Hg1 : good en1 v1) by (eapply good_add_fd, good_le; [|done]; env_lia).
  assert (Hh1 : holds sfd (-1) v1) by by apply holds_add_storage.
  assert (Hdir : k_fds (see v1) !! sfd = Some (FdDir storage_path)) by (apply see_extra, lookup_insert_eq).
  change (O_RDONLY ||| O_CLOEXEC ||| O_NOFOLLOW) with download_flags.
  apply (wp_openat_read _ _ _ _ _ _ Hdir (filename_entry _ Hname)).
  - intros en2 nd Hle2 Hop. set (fd := next_fd (k_fds (see v1))). assert (H1 : 0 <= fd) by apply next_fd_nonneg.
    rewrite (proj2 (Z.ltb_ge _ _)) by done. unfold fd. rewrite see_add_fd. fold fd.
    assert (Hfr1 : v_extra v1 !! fd = None) by apply see_fresh.
    apply (wp_download_check _ _ nd); [|by apply holds_add_file|done|apply lookup_insert_eq|done|by split_and!].
    eapply good_add_fd, good_le; [|done]. env_lia.
  - intros en2 Hle2 Hwhy. cbn [Z.ltb Z.compare]. apply wp_errno.
    assert (Hrej : forall m en3, env_le en3 en2 -> strlen m <= MESSAGE_MAX_SIZE ->
      frame MSG_ERROR m = download_answer (v_tree v) (v_inodes v) name \/ env_lt en3 en0 \/ ~ ready ->
      wp (send_error F (d_socket d) m) (fun r w => wp (download_cleanup F d sfd (-1) r) (finished v) w) (W en3 (see v1))).
    { intros m en3 Hle3 Hm Hwhy'. apply (wp_bind_iff (send_error F (d_socket d) m) (download_cleanup F d sfd (-1))).
      apply wp_reject; try done. eapply good_le; [|done]. env_lia. }
    assert (Hans : env_lt en2 en0 \/ e_errno en2 = ENOENT /\ download_answer (v_tree v) (v_inodes v) name = frame MSG_ERROR (B "FILE_NOT_FOUND") \/
                     e_errno en2 = ELOOP /\ download_answer (v_tree v) (v_inodes v) name = frame MSG_ERROR (B "UNSAFE_FILE_ENTRY")).
    { unfold download_answer. destruct Hwhy as [?|[[Hn ?]|[[t Ht] ?]]]; [left; env_lia|right; left|right; right]; (split; [done|]).
      - by replace (v_tree v !! entry_path name) with (@None node).
      - by replace (v_tree v !! entry_path name) with (Some (NSymlink t)). }
    clear Hwhy. apply wp_bind. case_if; [|case_if].
    + apply Hrej; [done|done|]. destruct Hans as [?|[[_ ->]|[? _]]]; [right; left; env_lia|by left|unfold ENOENT, ELOOP in *; lia].
    + apply wp_log. intros en3 Hle3. apply Hrej; [done|done|].
      destruct Hans as [?|[[? _]|[_ ->]]]; [right; left; env_lia|unfold ENOENT, ELOOP in *; lia|by left].
    + apply wp_log. intros en3 Hle3. apply Hrej; [done|done|].
      destruct Hans as [?|[[? _]|[? _]]]; [right; left; env_lia|done|done].
Qed.
End download.

(** ** The handler *)

(** The conditions under which the answer must be [download_answer]. *)
Definition download_ready (name : bytes) (k : kern server) : Prop := storage_usable (k_tree k) /\ lock_usable name k.

(** The reply to a file name that is not acceptable. *)
Definition refused (message name : bytes) (sock : Z) (en : env) (k : kern server) (r : Z) (en' : env) (k' : kern server) : Prop :=
  quiet name sock en k en' k' /\ exists out,
    delivered MSG_ERROR message en' en r out /\ stream (k_out k') sock = stream (k_out k) sock ++ out.

Section handle.
Context `{Libc} (F : nat) (sock : Z) (user name : bytes) (k : kern server) (en : env).
Hypothesis (Hso : sockets_open k) (Hreg : registered (k_static k) sock) (HF : stream_fuel F en) (Hsock : 0 <= sock).

(** How a request for an acceptable name ends. *)
Definition download_outcome (r : Z) (w : world server) : Prop :=
  quiet name sock en k (w_env w) (w_kern w) /\ (r = 0 \/ r = -1 /\ env_lt (w_env w) en) /\
  ((forall ino, k_tree k !! entry_path name = Some (NReg ino) -> is_Some (k_inodes k !! ino)) ->
   exists out, stream (k_out (w_kern w)) sock = stream (k_out k) sock ++ out /\
     served (download_answer (k_tree k) (k_inodes k) name) (download_ready name k) (w_env w) en r out).

Lemma served_result answer ready en' en1 r out : served answer ready en' en1 r out -> r = 0 \/ r = -1 /\ env_lt en' en1.
Proof. intros [[? _]|(? & ? & _)]; auto. Qed.

(** The files that matter are the ones found. *)
Lemma answer_kept k1 :
  filename_ok name -> store_kept (early name) k k1 ->
  (forall ino, k_tree k !! entry_path name = Some (NReg ino) -> is_Some (k_inodes k !! ino)) ->
  download_answer (k_tree k1) (k_inodes k1) name = download_answer (k_tree k) (k_inodes k) name.
Proof.
  intros Hname [T N D] Hi. unfold download_answer.
  assert (k_tree k1 !! entry_path name = k_tree k !! entry_path name) as ->.
  { destruct (k_tree k !! entry_path name) as [nd|] eqn:E; [by apply T|].
    destruct (k_tree k1 !! entry_path name) eqn:E'; [|done].
    destruct (N _ E ltac:(by eexists)) as [?|?]; [done|by destruct (entry_not_lock _ name Hname)]. }
  destruct (k_tree k !! entry_path name) as [[ino| | |]|] eqn:E; try done.
  destruct (Hi ino eq_refl) as [i Hx]. by rewrite Hx, (D _ _ Hx).
Qed.

Lemma refused_download m en1 k1 :
  env_le en1 en -> files_only k k1 -> k_fds k1 = k_fds k -> k_locks k1 ⊆ k_locks k ->
  store_kept (early name) k k1 -> strlen m <= MESSAGE_MAX_SIZE ->
  env_lt en1 en \/ ~ download_ready name k ->
  wp (send_error F sock m) download_outcome (W en1 k1).
Proof.
  intros Hle1 Hfo Hf Hl Hsk Hm Hwhy. eapply (wp_refuse_early _ name _ _ _ en); try done; [by apply stream_fuel_ok|].
  intros en' v r Hle G X L T I N Hd.
  assert (Hs : served (download_answer (k_tree k) (k_inodes k) name) (download_ready name k) en' en r (v_out v)).
  { eapply delivered_served; [done|right]. destruct Hwhy; [left; env_lia|by right]. }
  split_and!; [|by eapply served_result|].
  - apply quiet_see; try done. destruct Hsk as [K K' K'']. split; simpl; by rewrite ?T, ?I.
  - intros _. exists (v_out v). split; [apply stream_app_eq|done].
Qed.

Lemma wp_download_locked lock en1 k1 :
  filename_ok name -> env_le en1 en -> files_only k k1 ->
  store_kept (early name) k k1 -> k_tree k1 !! storage_path = Some NDir ->
  0 <= lock -> k_fds k !! lock = None ->
  (exists ino l, k_fds k1 = <[lock := FdFile ino 0 lock_flags]> (k_fds k) /\ k_locks k1 ⊆ (ino, lock, l) :: k_locks k) ->
  wp (download_open F {| d_socket := sock; d_username := user; d_filename := name; d_lock := lock |}) download_outcome (W en1 k1).
Proof.
  intros Hname Hle1 Hfo Hsk Hst H0 Hfree (ino & l & Hf & Hl).
  assert (Hx : k_fds k1 = {[lock := FdFile ino 0 lock_flags]} ∪ k_fds k) by by rewrite Hf, insert_union_singleton_l.
  rewrite (files_only_see sock k k1 _ Hfo Hx). set (v := View _ _ _ _ _ _ _).
  set (d := {| d_socket := sock; d_username := user; d_filename := name; d_lock := lock |}).
  eapply wp_mono; [apply (wp_download_open F k en d Hso Hreg HF Hname H0 Hsock (download_ready name k) en1 v); [| |done]|].
  - split_and!; [by apply map_disjoint_singleton_l|done|by left].
  - split_and!; simpl; [exists ino; by rewrite lookup_singleton_eq|by left|by left| |].
    + intros fd [x Hfd]. apply lookup_singleton_Some in Hfd as [<- _]. by left.
    + intros x Hin Hne. apply Hl in Hin as [->|?]%elem_of_cons; [by destruct Hne|done].
  - intros r w (en' & v' & out & -> & Hle & [G X L T I O N] & Hs). cbn [d_filename] in Hs. simpl in O, N.
    split_and!; [|by eapply served_result|].
    + apply quiet_see; try done. destruct Hsk as [K K' K'']. split; simpl; by rewrite ?T, ?I.
    + intros Hi. exists out. simpl in *. rewrite O. split; [apply stream_app_eq|]. by rewrite <- (answer_kept k1).
Qed.

Lemma wp_handle_download :
  wp (file_manager_handle_download F sock (Some user) (Some name))
    (fun r w =>
       if is_valid_shared_filename (Some name) then download_outcome r w
       else refused (B "INVALID_DOWNLOAD_FILENAME") name sock en k r (w_env w) (w_kern w)) (W en k).
Proof.
  unfold file_manager_handle_download. destruct (is_valid_shared_filename (Some name)) eqn:Hv; cbn [negb].
  2:{ apply wp_log. intros en1 Hle1. eapply (wp_refuse_early _ name _ _ _ en); try done; [by apply stream_fuel_ok|apply files_only_refl|apply store_kept_refl|].
      intros en' v r Hle G X L T I N Hd. split.
      - apply quiet_see; try done. split; simpl; rewrite ?T, ?I; try done. intros p H1 [? ?]. congruence.
      - exists (v_out v). split; [done|apply stream_app_eq]. }
  apply is_valid_shared_filename_iff in Hv as Hname.
  eapply wp_ensure_storage_directory.
  2:{ intros en1 k1 Hle1 Hwhy Hk1. cbn [negb Z.eqb]. destruct (storage_step_kept name _ _ Hk1) as (A1 & A2 & A3 & A4 & A5).
      apply wp_log_errno. intros en2 Hle2. apply refused_download; try done; [env_lia|by rewrite A3|].
      destruct Hwhy as [?|Hn]; [left; env_lia|right]. by intros [? _]. }
  intros en1 k1 Hle1 Hk1 Hst. cbn [negb Z.eqb]. destruct (storage_step_kept name _ _ Hk1) as (A1 & A2 & A3 & A4 & A5).
  apply wp_bind, wp_file_lock_acquire; [by eapply fuel_ok_le; [|apply stream_fuel_ok]|done|by left|done| |].
  - intros en2 k2 lock Hle2 [[B0 B1] B2 B3 (ino & _ & B4 & _ & B5)]. rewrite (proj2 (Z.ltb_ge lock 0)) by done.
    rewrite A2 in B1. rewrite A2 in B4. rewrite A3 in B5.
    apply wp_download_locked; try done; [env_lia|by eapply files_only_trans| |by apply (kept_tree _ _ _ B3)|by eauto].
    eapply store_kept_trans; [done|]. eapply store_kept_mono; [|done]. by right.
  - intros en2 k2 Hle2 [B1 B2 B3 B4] Hwhy. cbn [Z.ltb Z.compare]. apply wp_log_errno. intros en3 Hle3.
    apply refused_download; [env_lia|by eapply files_only_trans|congruence|by rewrite <- A3| |done|].
    + eapply store_kept_trans; [done|]. eapply store_kept_mono; [|done]. by right.
    + destruct Hwhy as [?|Hn]; [left; env_lia|right]. intros [? ?]. auto.
Qed.
End handle.

(** ** Properties *)

(** The room, with the file [notes.txt] of eleven bytes in the store. *)
Definition download_room : kern server :=
  with_inodes {[ 1%positive := mk_inode (B "hello world") 0 ]}
    (with_tree (<[entry_path (B "notes.txt") := NReg 1]> {[ storage_path := NDir ]}) room).

Lemma download_room_ready : download_ready (B "notes.txt") download_room.
Proof. split; [by right|]. split; left; by vm_compute. Qed.

Lemma download_room_sound ino :
  k_tree download_room !! entry_path (B "notes.txt") = Some (NReg ino) -> is_Some (k_inodes download_room !! ino).
Proof. intros E. vm_compute in E. injection E as <-. by eexists. Qed.

(** C16. Whatever calls fail, a download ends; apart from lock files it leaves
    the store, the registry, the descriptors, the locks, the client's input
    and the other clients alone. It returns 0 after a complete answer: the
    exact announcement and content of the file found under that name, or an
    error that a failed call or an unusable store explains; and -1, which
    needs a failed call, after a prefix of an answer. *)
Theorem download_is_exact `{Libc} F sock user name (k : kern server) en :
  sockets_open k -> registered (k_static k) sock -> stream_fuel F en -> 0 <= sock ->
  runs (file_manager_handle_download F sock (Some user) (Some name)) (W en k) (fun r w =>
    if is_valid_shared_filename (Some name) then download_outcome sock name k en r w
    else refused (B "INVALID_DOWNLOAD_FILENAME") name sock en k r (w_env w) (w_kern w)).
Proof. intros. apply wp_runs. by apply wp_handle_download. Qed.

Lemma download_is_exact_witness :
  runs (file_manager_handle_download (H := plain_libc) (Z.to_nat 7000) 5 (Some (B "alice")) (Some (B "notes.txt")))
    (W (mk_env [Full; Fail 4; Short 3] 0 [] [] []) download_room) (fun r w =>
    if is_valid_shared_filename (Some (B "notes.txt"))
    then download_outcome 5 (B "notes.txt") download_room (mk_env [Full; Fail 4; Short 3] 0 [] [] []) r w
    else refused (B "INVALID_DOWNLOAD_FILENAME") (B "notes.txt") 5 (mk_env [Full; Fail 4; Short 3] 0 [] [] []) download_room r (w_env w) (w_kern w)).
Proof. apply download_is_exact; [apply room_sockets|by apply registeredb_true|by vm_compute|done]. Defined.

Lemma calm_handle_download `{Libc} F sock user name (k : kern server) en :
  sockets_open k -> registered (k_static k) sock -> stream_fuel F en -> 0 <= sock -> faultless en ->
  filename_ok name -> download_ready name k ->
  (forall ino, k_tree k !! entry_path name = Some (NReg ino) -> is_Some (k_inodes k !! ino)) ->
  wp (file_manager_handle_download F sock (Some user) (Some name)) (fun r w =>
    r = 0 /\ stream (k_out (w_kern w)) sock = stream (k_out k) sock ++ download_answer (k_tree k) (k_inodes k) name) (W en k).
Proof.
  intros Hso Hreg HF H0 Hf Hname Hready Hino. eapply wp_mono; [by apply wp_handle_download|].
  intros r [en' k']. cbv beta. rewrite (proj2 (is_valid_shared_filename_iff name) Hname).
  intros (_ & _ & Ho). destruct (Ho Hino) as (out & Hst & [[-> Hout]|(_ & Hlt & _)]); simpl in Hst; [split; [done|]; cbn; rewrite Hst|by destruct (faultless_not_lt _ _ Hf Hlt)].
  destruct Hout as [->|[_ [Hlt|?]]]; [done|by destruct (faultless_not_lt _ _ Hf Hlt)|done].
Qed.

(** When no call fails the client gets exactly the answer that the entry
    calls for: the whole file, or the reason why there is none. *)
Lemma download_succeeds `{Libc} F sock user name (k : kern server) en :
  sockets_open k -> registered (k_static k) sock -> stream_fuel F en -> 0 <= sock -> faultless en ->
  filename_ok name -> download_ready name k ->
  (forall ino, k_tree k !! entry_path name = Some (NReg ino) -> is_Some (k_inodes k !! ino)) ->
  runs (file_manager_handle_download F sock (Some user) (Some name)) (W en k) (fun r '(W en' k') =>
    r = 0 /\ stream (k_out k') sock = stream (k_out k) sock ++ download_answer (k_tree k) (k_inodes k) name).
Proof.
  intros. apply wp_runs. eapply wp_mono; [by apply calm_handle_download|]. by intros r [en' k'].
Qed.

Lemma download_succeeds_witness :
  runs (file_manager_handle_download (H := plain_libc) (Z.to_nat 7000) 5 (Some (B "alice")) (Some (B "notes.txt")))
    (W calm download_room) (fun r '(W en' k') =>
    r = 0 /\ stream (k_out k') 5 = stream (k_out download_room) 5
      ++ download_answer (k_tree download_room) (k_inodes download_room) (B "notes.txt")).
Proof.
  apply download_succeeds; [apply room_sockets|by apply registeredb_true|by vm_compute|done|done|
    by apply is_valid_shared_filename_iff|apply download_room_ready|apply download_room_sound].
Defined.
