(* ===== verification/Listing.v ===== *)
(** * The file list

    [file_manager_handle_list]: which entries of the storage directory are
    advertised, and how the list is framed. *)

From S2P Require Import Prelude CLib Posix Wp Protocol NetworkIO ClientManager Registry Sending PerfTimer FileLock Logger.
From S2P Require Import FileManager Store.

(** The line for the entry [name], if it is advertised. *)
Definition listed {S} (k : kern S) (name : bytes) : option bytes :=
  if is_valid_shared_filename (Some name) then
    nd ← k_tree k !! entry_path name; information ← stat_node k nd; list_line name information
  else None.

Definition list_frames (lines : list bytes) : bytes := concat (frame MSG_FILELIST <$> lines).

(** A list in step: its beginning, entries that are in the store, and one
    final message. *)
Definition list_stream (lines : list bytes) (final : bytes) : bytes :=
  frame MSG_RESPONSE (B "FILE_LIST_BEGIN") ++ list_frames lines ++ final.

Definition list_end (lines : list bytes) : bytes := frame MSG_RESPONSE (B "FILE_LIST_END " ++ sdec (zlen lines)).

Lemma listed_line {S} (k : kern S) name line : listed k name = Some line -> zlen line < 192.
Proof.
  unfold listed. destruct (is_valid_shared_filename (Some name)); [|done].
  destruct (k_tree k !! entry_path name) as [nd|]; [|done]. simpl. destruct (stat_node k nd) as [i|]; [|done]. simpl.
  unfold list_line. case_if; [done|]. case_if; [done|]. intros Hl. apply sprintf_fit_Some in Hl as [-> ?].
  unfold FILE_NAME_MAX_SIZE in *. lia.
Qed.

Lemma length_dir_names {S} (k : kern S) d : (length (dir_names k d) <= 2 + size (k_tree k))%nat.
Proof.
  unfold dir_names. cbn [length]. assert (H : forall A B (f : A -> option B) l, (length (omap f l) <= length l)%nat).
  { intros A B' f l. induction l as [|x l IH]; cbn [omap list_omap length]; [lia|]. destruct (f x); cbn [length]; lia. }
  apply le_n_S, le_n_S. etransitivity; [apply H|]. apply Nat.eq_le_incl, length_map_to_list.
Qed.

Lemma listed_ext {S S'} (k : kern S) (k' : kern S') name :
  k_tree k' = k_tree k -> k_inodes k' = k_inodes k -> listed k' name = listed k name.
Proof. intros Ht Hi. unfold listed, stat_node. by rewrite Ht, Hi. Qed.

Lemma omap_same {A B} (f g : A -> option B) (l : list A) : (forall x, f x = g x) -> omap f l = omap g l.
Proof. intros Hfg. induction l as [|x l IH]; [done|]. cbn [omap list_omap]. by rewrite Hfg, IH. Qed.

Section listing.
Context `{Libc} (F : nat) (sock : Z) (k : kern server) (en0 : env).
Abbreviation see := (see sock k).
Abbreviation good := (good k en0).
Hypothesis (Hso : sockets_open k) (Hreg : registered (k_static k) sock) (HF : fuel_ok F en0).

(** An entry of the store, as its line. *)
Definition advertised (v : view) (line : bytes) : Prop := exists name, listed (see v) name = Some line.

(** The handler reads a directory: [dir] is all it has opened. *)
Definition reading_dir (dir : Z) (rest : list bytes) (v : view) : Prop :=
  v_extra v = {[dir := FdStream storage_path rest]}.

Lemma see_readdir dir rest rest' v :
  reading_dir dir rest v ->
  with_fds (<[dir := FdStream storage_path rest']> (k_fds (see v))) (see v)
    = see (set_extra {[dir := FdStream storage_path rest']} v).
Proof.
  intros Hd. unfold Store.see, with_fds, set_extra. simpl. rewrite Hd, insert_union_l.
  by rewrite insert_singleton_eq.
Qed.

Lemma good_dir dir rest en v d : reading_dir dir rest v -> good en v -> good en (set_extra {[dir := d]} v).
Proof.
  intros Hd (Hx & Hle & Hh). split_and!; [|done|done]. simpl. rewrite Hd in Hx.
  apply map_disjoint_singleton_l in Hx. by apply map_disjoint_singleton_l.
Qed.

(** Closing the directory leaves nothing open. *)
Definition closed_dir (v : view) : view := set_extra ∅ v.

Lemma wp_closedir {A} dir rest (g : Z -> prog server A) Q en v :
  good en v -> reading_dir dir rest v ->
  (forall en' z, env_le en' en -> (z = 0 \/ z = -1 /\ env_lt en' en) -> good en' (closed_dir v) -> wp (g z) Q (W en' (see (closed_dir v)))) ->
  wp (call (Closedir dir) ≫= g) Q (W en (see v)).
Proof.
  intros Hg Hd HQ. assert (Hc : close_fd (see v) dir = see (closed_dir v)).
  { rewrite (see_close sock k en0 en v dir (FdStream storage_path rest) Hg) by (rewrite Hd; apply lookup_singleton_eq).
    unfold close_extra, closed_dir. rewrite Hd, lookup_singleton_eq. unfold set_locks, set_extra. simpl.
    by rewrite delete_singleton_eq. }
  assert (Hg' : forall en', env_le en' en -> good en' (closed_dir v)).
  { intros en' Hle. destruct Hg as (Hx & Hle0 & Hh). split_and!; [apply map_disjoint_empty_l|env_lia|].
    intros Hu. by eapply held_ok_le, Hh. }
  apply wp_call. unfold sem. cbn [w_env w_kern]. rewrite Hc.
  destruct (pop_cases en) as [(er & en' & -> & Hlt)|(o & en' & lim & -> & Hle & He & Ho & _)].
  - apply HQ; [env_lia|by right|apply Hg'; env_lia].
  - destruct o; try done; apply HQ; auto.
Qed.

(** The view after some lines were sent. *)
Definition list_view (dir : Z) (rest : list bytes) (lines : list bytes) (h : gset mutex) (v : view) : view :=
  set_held h (add_out (list_frames lines) (set_extra {[dir := FdStream storage_path rest]} v)).

Lemma list_view_cons dir rest rest1 line lines h h1 v :
  list_view dir rest lines h (set_held h1 (add_out (frame MSG_FILELIST line) (set_extra {[dir := FdStream storage_path rest1]} v)))
    = list_view dir rest (line :: lines) h v.
Proof.
  change (list_frames (line :: lines)) with (frame MSG_FILELIST line ++ list_frames lines).
  unfold list_view, set_held, add_out, set_extra. simpl. by rewrite <- app_assoc.
Qed.

Lemma wp_fstatat_dir {A} dir rest name (g : option stat_t -> prog server A) Q en v :
  reading_dir dir rest v -> resolve storage_path name = entry_path name ->
  (forall en' i nd, env_le en' en -> v_tree v !! entry_path name = Some nd -> stat_node (see v) nd = Some i ->
     wp (g (Some i)) Q (W en' (see v))) ->
  (forall en', env_le en' en -> wp (g None) Q (W en' (see v))) ->
  wp (call (Fstatat_nofollow dir name) ≫= g) Q (W en (see v)).
Proof.
  intros Hd Hname Hok Hko. eapply wp_fallible; [reflexivity|intros en1 Hlt _; apply Hko; env_lia|].
  intros en1 lim Hle _ _. cbv beta. unfold at_dir, fd_dir.
  rewrite (see_extra _ _ _ _ (FdStream storage_path rest)) by (rewrite Hd; apply lookup_singleton_eq).
  rewrite Hname. unfold lstat_path. change (k_tree (see v)) with (v_tree v).
  destruct (v_tree v !! entry_path name) as [nd|] eqn:E; [|by apply Hko].
  destruct (stat_node (see v) nd) as [i|] eqn:Ei; [by eapply Hok|by apply Hko].
Qed.

(** Some lines were sent, the last one perhaps in part. *)
Definition frames_begun (v v' : view) : Prop :=
  exists lines part, Forall (advertised v) lines /\ part `prefix_of` list_frames lines /\ v_out v' = v_out v ++ part.

Lemma wp_list_loop fuel dir rest count Q en v :
  good en v -> reading_dir dir rest v -> (length rest < fuel)%nat ->
  (forall en' lines rest' h failed, env_le en' en -> Forall (advertised v) lines -> (length lines <= length rest)%nat ->
     good en' (list_view dir rest' lines h v) ->
     Q (Some (count + zlen lines, failed)) (W en' (see (list_view dir rest' lines h v)))) ->
  (forall en' v', env_lt en' en0 -> good en' v' -> v_extra v' = ∅ -> v_tree v' = v_tree v -> v_inodes v' = v_inodes v ->
     v_locks v' = v_locks v -> v_in v' = v_in v -> frames_begun v v' -> Q None (W en' (see v'))) ->
  wp (list_loop F fuel sock dir count) Q (W en (see v)).
Proof.
  revert rest count en v. induction fuel as [|fuel IH]; intros rest count en v Hg Hd Hfuel Hok Hko; [lia|]. cbn [list_loop].
  pose proof Hg as (Hx & Hle0 & Hh0).
  assert (Hend : forall en1 rest1 failed, env_le en1 en -> Q (Some (count, failed)) (W en1 (see (set_extra {[dir := FdStream storage_path rest1]} v)))).
  { intros en1 rest1 failed Hle. specialize (Hok en1 [] rest1 (v_held v) failed Hle (Forall_nil_2 _) ltac:(simpl; lia)).
    rewrite zlen_nil, Z.add_0_r in Hok. unfold list_view, list_frames in Hok.
    assert (Hv : set_held (v_held v) (add_out (concat (frame MSG_FILELIST <$> [])) (set_extra {[dir := FdStream storage_path rest1]} v))
      = set_extra {[dir := FdStream storage_path rest1]} v) by (unfold set_held, add_out; simpl; by rewrite app_nil_r).
    rewrite Hv in Hok. apply Hok. eapply good_dir; [done|by eapply good_le]. }
  assert (Hsame : set_extra {[dir := FdStream storage_path rest]} v = v) by (rewrite <- Hd; by destruct v).
  eapply wp_fallible; [reflexivity| |].
  { intros en1 Hlt _. apply wp_errno, wp_ret. specialize (Hend en1 rest (e_errno en1 != 0) ltac:(env_lia)). by rewrite Hsame in Hend. }
  intros en1 lim Hle1 _ _. cbv beta. unfold readdir_fd.
  rewrite (see_extra _ _ _ _ (FdStream storage_path rest)) by (rewrite Hd; apply lookup_singleton_eq).
  destruct rest as [|name rest].
  { apply wp_errno, wp_ret. specialize (Hend en1 [] (e_errno en1 != 0) Hle1). by rewrite Hsame in Hend. }
  rewrite (see_readdir dir (name :: rest)) by done. set (v1 := set_extra {[dir := FdStream storage_path rest]} v).
  assert (Hg1 : forall e, env_le e en -> good e v1) by (intros; eapply good_dir; [done|by eapply good_le]).
  (* The rest of the directory. *)
  assert (Hnext : forall en2, env_le en2 en -> wp (list_loop F fuel sock dir count) Q (W en2 (see v1))).
  { intros en2 Hle2. apply (IH rest); [by apply Hg1|done|simpl in Hfuel; lia| |].
    - intros en3 lines rest' h failed Hle3 Hl Hlen3 Hg3. apply (Hok en3 lines rest' h failed); [env_lia|done|simpl; lia|exact Hg3].
    - intros en3 v3 Hlt3 G3 X3 T3 I3 L3 N3 O3. by apply Hko. }
  case_if; [by apply Hnext|]. apply is_valid_shared_filename_iff in E as Hname.
  apply (wp_fstatat_dir dir rest); [done|by apply filename_entry| |intros; apply Hnext; env_lia].
  intros en2 i nd Hle2 Hnd Hi. destruct (list_line name i) as [line|] eqn:El; [|apply Hnext; env_lia].
  assert (Hadv : advertised v line).
  { exists name. unfold listed. rewrite E. change (k_tree (see v)) with (v_tree v). simpl in Hnd. rewrite Hnd. simpl.
    change (stat_node (see v) nd) with (stat_node (see v1) nd). by rewrite Hi. }
  assert (Hlen : strlen line <= MESSAGE_MAX_SIZE).
  { destruct Hadv as [n Hn]. apply listed_line in Hn. unfold strlen, MESSAGE_MAX_SIZE. lia. }
  eapply wp_reply; [exact Hso|apply Hg1; env_lia|done|done|by split|].
  intros en3 h r out Hle3 Hg3 Hsent. destruct Hsent as [[-> ->]|(-> & Hlt & n & _ & ->)]; cbn [Z.eqb negb].
  - apply (IH rest); [done|done|simpl in Hfuel; lia| |].
    + intros en4 lines rest' h' failed Hle4 Hl Hlen4 Hg4. unfold v1 in *. rewrite list_view_cons in *.
      replace (count + 1 + zlen lines) with (count + zlen (line :: lines)) by (rewrite zlen_cons; lia).
      apply Hok; [env_lia|by constructor|simpl; lia|exact Hg4].
    + intros en4 v4 Hlt4 G4 X4 T4 I4 L4 N4 (lines & part & Hlines & Hpart & O4). apply Hko; try done.
      exists (line :: lines), (frame MSG_FILELIST line ++ part). split_and!; [by constructor| |].
      * by apply prefix_app.
      * rewrite O4. cbn [v_out set_held add_out v1 set_extra]. by rewrite <- app_assoc.
  - eapply wp_closedir; [done|done|]. intros en4 z Hle4 _ Hg4. apply wp_ret, Hko; try done; [env_lia|].
    exists [line], (take n (frame MSG_FILELIST line)). split_and!; [by repeat constructor| |done].
    unfold list_frames. cbn [fmap list_fmap concat]. rewrite app_nil_r. apply take_prefix_of.
Qed.

(** What a list in step looks like to the client. *)
Definition list_answer (v : view) (out : bytes) : Prop :=
  (exists m, out = frame MSG_ERROR m) \/
  exists lines final, Forall (advertised v) lines /\ out = list_stream lines final /\
    (final = list_end lines \/ final = frame MSG_ERROR (B "FILE_LIST_READ_FAILED")).

(** How the handler ends, from view [v]. *)
Definition list_finished (v : view) (r : Z) (w : world server) : Prop :=
  exists en' v', w = W en' (see v') /\ good en' v' /\ v_extra v' = ∅ /\ v_tree v' = v_tree v /\ v_inodes v' = v_inodes v /\
    v_locks v' = v_locks v /\ v_in v' = v_in v /\
    ((exists out, v_out v' = v_out v ++ out /\ list_answer v out) /\ r = 0 \/
     r = -1 /\ env_lt en' en0 /\ exists out full, v_out v' = v_out v ++ out /\ out `prefix_of` full /\ list_answer v full).

Lemma wp_list_entries user dir rest en v :
  good en v -> reading_dir dir rest v -> (length rest < F)%nat -> Z.of_nat (length rest) < 2 ^ 31 ->
  wp (list_entries F sock user dir) (list_finished v) (W en (see v)).
Proof.
  intros Hg Hd Hfuel Hmax. unfold list_entries.
  assert (Hfail : forall en' v', env_lt en' en0 -> good en' v' -> v_extra v' = ∅ -> v_tree v' = v_tree v -> v_inodes v' = v_inodes v ->
     v_locks v' = v_locks v -> v_in v' = v_in v ->
     (exists lines final out, Forall (advertised v) lines /\ (final = list_end lines \/ final = frame MSG_ERROR (B "FILE_LIST_READ_FAILED")) /\
        v_out v' = v_out v ++ out /\ out `prefix_of` list_stream lines final) ->
     list_finished v (-1) (W en' (see v'))).
  { intros en' v' Hlt G X T I L N (lines & final & out & Hl & Hf & O & Ho). exists en', v'. split_and!; try done. right. split_and!; [done|done|].
    exists out, (list_stream lines final). split_and!; [done|done|]. right. by exists lines, final. }
  eapply wp_reply; [exact Hso|done|done|done|by split|].
  intros en1 h r out Hle1 Hg1 Hsent. destruct Hsent as [[-> ->]|(-> & Hlt & n & _ & ->)]; cbn [Z.eqb negb].
  2:{ eapply wp_closedir; [done|exact Hd|]. intros en2 z Hle2 _ Hg2. apply wp_ret, Hfail; try done; [env_lia|].
      exists [], (list_end []), (take n (frame MSG_RESPONSE (B "FILE_LIST_BEGIN"))). split_and!; [done|by left|done|].
      unfold list_stream. apply prefix_app_r, take_prefix_of. }
  set (v1 := set_held h _) in *. apply wp_set_errno, wp_bind.
  apply (wp_list_loop F dir rest); [eapply good_le; [|exact Hg1]; env_lia|exact Hd|done| |].
  2:{ intros en2 v2 Hlt2 G2 X2 T2 I2 L2 N2 (lines & part & Hlines & Hpart & O2). apply wp_ret. apply Hfail; try done.
      exists lines, (list_end lines), (frame MSG_RESPONSE (B "FILE_LIST_BEGIN") ++ part). split_and!; [done|by left| |].
      - rewrite O2. cbn [v_out v1 set_held add_out]. by rewrite <- app_assoc.
      - unfold list_stream. by apply prefix_app, prefix_app_r. }
  intros en2 lines rest2 h2 failed Hle2 Hl Hlen Hg2. set (v2 := list_view dir rest2 lines h2 v1) in *.
  eapply (wp_closedir dir rest2); [done|done|]. intros en3 z Hle3 _ Hg3.
  assert (Hout : v_out (closed_dir v2) = v_out v ++ frame MSG_RESPONSE (B "FILE_LIST_BEGIN") ++ list_frames lines).
  { cbn [v_out closed_dir set_extra v2 list_view set_held add_out v1]. unfold v2, v1, list_view. cbn [v_out set_extra set_held add_out]. by rewrite <- app_assoc. }
  assert (Hfin : forall en4 h4 final, env_le en4 en3 -> good en4 (set_held h4 (add_out final (closed_dir v2))) ->
    final = list_end lines \/ final = frame MSG_ERROR (B "FILE_LIST_READ_FAILED") ->
    list_finished v 0 (W en4 (see (set_held h4 (add_out final (closed_dir v2)))))).
  { intros en4 h4 final Hle4 G4 Hf. exists en4. eexists. split; [reflexivity|]. split_and!; try done. left. split; [|done].
    exists (list_stream lines final). split; [|right; exists lines, final; split_and!; [exact Hl|done|done]].
    cbn [v_out set_held add_out]. rewrite Hout. unfold list_stream. by rewrite <- !app_assoc. }
  assert (Hcut : forall en4 h4 final n, env_lt en4 en0 -> good en4 (set_held h4 (add_out (take n final) (closed_dir v2))) ->
    final = list_end lines \/ final = frame MSG_ERROR (B "FILE_LIST_READ_FAILED") ->
    list_finished v (-1) (W en4 (see (set_held h4 (add_out (take n final) (closed_dir v2)))))).
  { intros en4 h4 final n Hlt4 G4 Hf. apply Hfail; try done.
    exists lines, final, (frame MSG_RESPONSE (B "FILE_LIST_BEGIN") ++ list_frames lines ++ take n final). split_and!; [exact Hl|done| |].
    - cbn [v_out set_held add_out]. rewrite Hout. by rewrite <- !app_assoc.
    - unfold list_stream. do 2 apply prefix_app. apply take_prefix_of. }
  destruct (failed || (z != 0)).
  - apply wp_log. intros en4 Hle4.
    assert (Hw : wp (r ← send_error F sock (B "FILE_LIST_READ_FAILED"); mret r) (list_finished v) (W en4 (see (closed_dir v2)))).
    { eapply wp_send_error; [exact Hso|by eapply good_le|done|done|done|].
      intros en5 h5 r out Hle5 Hg5 Hsent. apply wp_ret.
      destruct Hsent as [[-> ->]|(-> & Hlt & n & _ & ->)]; [apply Hfin; [env_lia|done|by right]|apply Hcut; auto]. }
    apply wp_bind_iff in Hw. eapply wp_mono; [exact Hw|]. by intros r w.
  - assert (Hcnt : zlen (B "FILE_LIST_END " ++ sdec (0 + zlen lines)) < 64).
    { rewrite zlen_app. change (zlen (B "FILE_LIST_END ")) with 14.
      pose proof (sdec_length (0 + zlen lines) ltac:(unfold zlen; lia)). lia. }
    rewrite sprintf_fit_ok by done. eapply wp_reply; [exact Hso|done|done|done| |].
    { split; [done|]. unfold strlen, MESSAGE_MAX_SIZE. lia. }
    intros en4 h4 r out Hle4 Hg4 Hsent. rewrite Z.add_0_l in *. destruct Hsent as [[-> ->]|(-> & Hlt & n & _ & ->)]; cbn [Z.eqb negb].
    + apply wp_log. intros en5 Hle5. apply wp_ret, Hfin; [env_lia|by eapply good_le|by left].
    + apply wp_ret. apply Hcut; [done|done|by left].
Qed.

(** ** Without faults *)

(** A name that [fstatat] finds, if it is looked up at all. *)
Definition entry_sound {S} (k1 : kern S) (name : bytes) : Prop :=
  filename_ok name -> exists nd i, k_tree k1 !! entry_path name = Some nd /\ stat_node k1 nd = Some i.

Lemma wp_list_loop_calm fuel dir rest count Q en v :
  faultless en -> e_errno en = 0 -> good en v -> unlocked (v_held v) -> reading_dir dir rest v -> (length rest < fuel)%nat ->
  Forall (entry_sound (see v)) rest ->
  (let lines := omap (listed (see v)) rest in
   Q (Some (count + zlen lines, false)) (W en (see (add_out (list_frames lines) (set_extra {[dir := FdStream storage_path []]} v))))) ->
  wp (list_loop F fuel sock dir count) Q (W en (see v)).
Proof.
  intros Hf He. revert rest count v. induction fuel as [|fuel IH]; intros rest count v Hg Hu Hd Hfuel Hsound HQ; [lia|]. cbn [list_loop].
  eapply wp_fallible_faultless; [reflexivity|done|]. cbv beta. unfold readdir_fd.
  rewrite (see_extra _ _ _ _ (FdStream storage_path rest)) by (rewrite Hd; apply lookup_singleton_eq).
  destruct rest as [|name rest].
  { apply wp_errno, wp_ret. rewrite He. cbn [omap list_omap] in HQ. rewrite zlen_nil, Z.add_0_r in HQ.
    assert (Hv : add_out (list_frames []) (set_extra {[dir := FdStream storage_path []]} v) = v).
    { rewrite <- Hd. unfold add_out, set_extra, list_frames. simpl. rewrite app_nil_r. by destruct v. }
    cbv zeta in HQ. by rewrite Hv in HQ. }
  rewrite (see_readdir dir (name :: rest)) by done. set (v1 := set_extra {[dir := FdStream storage_path rest]} v).
  assert (Hg1 : good en v1) by by eapply good_dir.
  inversion Hsound as [|? ? Hname Hrest]; subst.
  assert (Hnext : forall v2 count2, good en v2 -> unlocked (v_held v2) -> v_extra v2 = v_extra v1 -> v_tree v2 = v_tree v -> v_inodes v2 = v_inodes v ->
    (let lines := omap (listed (see v)) rest in
     Q (Some (count2 + zlen lines, false)) (W en (see (add_out (list_frames lines) (set_extra {[dir := FdStream storage_path []]} v2))))) ->
    wp (list_loop F fuel sock dir count2) Q (W en (see v2))).
  { intros v2 count2 G2 U2 X2 T2 I2 HQ2. apply (IH rest); [done|done|exact X2|simpl in Hfuel; lia| |].
    - eapply Forall_impl; [exact Hrest|]. unfold entry_sound, stat_node. simpl. by rewrite T2, I2.
    - assert (Hl : omap (listed (see v2)) rest = omap (listed (see v)) rest).
      { apply omap_same. intros n. by apply listed_ext. }
      cbv zeta. rewrite Hl. exact HQ2. }
  assert (Hskip : listed (see v) name = None -> wp (list_loop F fuel sock dir count) Q (W en (see v1))).
  { intros Hn. cbn [omap list_omap] in HQ. rewrite Hn in HQ. by apply Hnext. }
  case_if.
  { apply Hskip. unfold listed. by rewrite E. }
  apply is_valid_shared_filename_iff in E as Hok. destruct (Hname Hok) as (nd & i & Hnd & Hi).
  eapply wp_fallible_faultless; [reflexivity|done|]. cbv beta. unfold at_dir, fd_dir.
  rewrite (see_extra _ _ _ _ (FdStream storage_path rest)) by apply lookup_singleton_eq.
  rewrite (filename_entry _ Hok). unfold lstat_path. change (k_tree (see v1)) with (k_tree (see v)). rewrite Hnd.
  change (stat_node (see v1) nd) with (stat_node (see v) nd). rewrite Hi.
  assert (Hl : listed (see v) name = list_line name i) by (unfold listed; rewrite E, Hnd; simpl; by rewrite Hi).
  destruct (list_line name i) as [line|] eqn:El; [|by apply Hskip].
  apply wp_bind, wp_client_manager_send_calm; [by eapply see_sockets_open|done|done|unfold fuel_ok in HF; lia|done| |].
  { split; [done|]. apply listed_line in Hl. unfold strlen, MESSAGE_MAX_SIZE. lia. }
  cbn [Z.eqb negb].
  assert (Hv : sent_out sock (frame MSG_FILELIST line) (see v1) = see (add_out (frame MSG_FILELIST line) v1)).
  { generalize (frame MSG_FILELIST line). intros out. unfold Store.see, sent_out, with_out. simpl. by rewrite app_stream_app. }
  rewrite Hv. apply Hnext; [exact Hg1|done|done|done|done|]. cbn [omap list_omap] in HQ. rewrite Hl in HQ. cbv zeta in *.
  rewrite zlen_cons in HQ. replace (count + 1 + _) with (count + (1 + zlen (omap (listed (see v)) rest))) by lia.
  assert (Hv2 : add_out (list_frames (omap (listed (see v)) rest)) (set_extra {[dir := FdStream storage_path []]} (add_out (frame MSG_FILELIST line) v1))
    = add_out (list_frames (line :: omap (listed (see v)) rest)) (set_extra {[dir := FdStream storage_path []]} v)).
  { change (list_frames (line :: ?l)) with (frame MSG_FILELIST line ++ list_frames l).
    unfold add_out, set_extra. simpl. by rewrite <- app_assoc. }
  by rewrite Hv2.
Qed.

Lemma see_sent out v : sent_out sock out (see v) = see (add_out out v).
Proof. unfold Store.see, sent_out, with_out. simpl. by rewrite app_stream_app. Qed.

Lemma wp_list_entries_calm user dir rest en v :
  faultless en -> good en v -> unlocked (v_held v) -> reading_dir dir rest v -> (length rest < F)%nat ->
  Z.of_nat (length rest) < 2 ^ 31 -> Forall (entry_sound (see v)) rest ->
  let lines := omap (listed (see v)) rest in
  wp (list_entries F sock user dir) (fun r w => r = 0 /\
    stream (k_out (w_kern w)) sock = stream (k_out (see v)) sock ++ list_stream lines (list_end lines)) (W en (see v)).
Proof.
  intros Hf Hg Hu Hd Hfuel Hmax Hsound lines. unfold list_entries. pose proof (fun H => wp_client_manager_send_calm F sock H) as Hsend.
  assert (HF1 : (1 < F)%nat) by (unfold fuel_ok in HF; lia).
  apply wp_bind, Hsend; [by eapply see_sockets_open|done|done|done|done|by split|]. cbn [Z.eqb negb].
  rewrite see_sent. set (v1 := add_out _ v). apply wp_set_errno, wp_bind.
  apply (wp_list_loop_calm F dir rest); [done|done|exact Hg|done|done|done|done|]. cbv zeta.
  change (omap (listed (see v1)) rest) with lines. set (v2 := add_out _ _). apply wp_call.
  unfold sem. cbn [w_env w_kern]. rewrite pop_faultless by done. cbn [fst snd Z.eqb negb orb].
  assert (Hg2 : good (with_errno 0 en) v2) by (eapply (good_dir dir rest); [exact Hd|exact Hg]).
  assert (Hc : close_fd (see v2) dir = see (closed_dir v2)).
  { rewrite (see_close sock k en0 _ v2 dir (FdStream storage_path []) Hg2) by apply lookup_singleton_eq.
    unfold close_extra, closed_dir. unfold v2 at 1. cbn [v_extra add_out set_extra]. rewrite lookup_singleton_eq.
    unfold set_locks, set_extra. simpl. by rewrite delete_singleton_eq. }
  rewrite Hc. assert (Hlen : (length lines <= length rest)%nat).
  { unfold lines. clear. induction rest as [|x l IH]; [done|]. cbn [omap list_omap]. destruct (listed (see v) x); simpl; lia. }
  assert (Hcnt : zlen (B "FILE_LIST_END " ++ sdec (0 + zlen lines)) < 64).
  { rewrite zlen_app. change (zlen (B "FILE_LIST_END ")) with 14.
    pose proof (sdec_length (0 + zlen lines) ltac:(unfold zlen; lia)). lia. }
  rewrite sprintf_fit_ok by done.
  apply wp_bind, Hsend; [|done|done|done|done|split; [done|unfold strlen, MESSAGE_MAX_SIZE; lia]|].
  { eapply (see_sockets_open sock k en0); [exact Hso|]. split_and!; [apply map_disjoint_empty_l|apply Hg|apply Hg]. }
  cbn [Z.eqb negb]. rewrite see_sent. apply wp_log. intros en3 _. apply wp_ret. split; [done|]. cbn [w_kern].
  simpl k_out. rewrite !stream_app_eq, <- !app_assoc. unfold list_stream, list_end. by rewrite Z.add_0_l.
Qed.
End listing.

(** ** The handler *)

(** The answer to a list request, from a store [k]. *)
Definition list_answered (k : kern server) (out : bytes) : Prop :=
  (exists m, out = frame MSG_ERROR m) \/
  exists lines final, Forall (fun line => exists name, listed k name = Some line) lines /\ out = list_stream lines final /\
    (final = list_end lines \/ final = frame MSG_ERROR (B "FILE_LIST_READ_FAILED")).

(** Fuel for the directory, and room for its number of entries in an [int]. *)
Definition list_fuel {S} (F : nat) (k : kern S) : Prop :=
  (size (k_tree k) + 3 < F)%nat /\ Z.of_nat (size (k_tree k)) + 3 < 2 ^ 31.

Section handle.
Context `{Libc} (F : nat) (sock : Z) (user : bytes) (k : kern server) (en : env).
Hypothesis (Hso : sockets_open k) (Hreg : registered (k_static k) sock) (HF : fuel_ok F en) (HL : list_fuel F k).

Definition list_outcome (r : Z) (w : world server) : Prop :=
  quiet [] sock en k (w_env w) (w_kern w) /\
  ((exists out, stream (k_out (w_kern w)) sock = stream (k_out k) sock ++ out /\ list_answered k out) /\ r = 0 \/
   r = -1 /\ env_lt (w_env w) en /\
     exists out full, stream (k_out (w_kern w)) sock = stream (k_out k) sock ++ out /\ out `prefix_of` full /\ list_answered k full).

Lemma storage_step_size (k1 : kern server) :
  k1 = k \/ k1 = with_tree (<[storage_path := NDir]> (k_tree k)) k /\ k_tree k !! storage_path = None ->
  (size (k_tree k1) <= 1 + size (k_tree k))%nat /\ (forall name, listed k1 name = listed k name).
Proof.
  intros [->|[-> Hn]]; [split; [lia|done]|]. split; [simpl; rewrite map_size_insert_None by done; lia|].
  intros name. unfold listed. simpl. rewrite lookup_insert_ne by done. done.
Qed.

Lemma refused_list m en1 k1 :
  env_le en1 en -> (k1 = k \/ k1 = with_tree (<[storage_path := NDir]> (k_tree k)) k /\ k_tree k !! storage_path = None) ->
  strlen m <= MESSAGE_MAX_SIZE -> wp (send_error F sock m) list_outcome (W en1 k1).
Proof.
  intros Hle1 Hk1 Hm. destruct (storage_step_kept [] _ _ Hk1) as (A1 & A2 & A3 & _ & A5).
  eapply (wp_refuse_early _ [] _ _ _ en); try done; [by rewrite A3|].
  intros en' v r Hle G X L T I N Hd. split.
  - apply quiet_see; try done. destruct A5 as [K K' K'']. split; simpl; by rewrite ?T, ?I.
  - destruct Hd as [[-> Hd]|(-> & Hlt & n & _ & Hd)]; [left|right].
    + split; [|done]. exists (v_out v). split; [apply stream_app_eq|]. left. eauto.
    + split_and!; [done|done|]. exists (v_out v), (frame MSG_ERROR m). split_and!; [apply stream_app_eq|rewrite Hd; apply take_prefix_of|left; eauto].
Qed.

(** The opened directory, in [k1]. *)
Definition dir_view (k1 : kern server) (dir : Z) (rest : list bytes) : view :=
  View (k_tree k1) (k_inodes k1) {[dir := FdStream storage_path rest]} (k_locks k) (k_held k) [] 0.

Lemma dir_view_see (k1 : kern server) dir d :
  (k1 = k \/ k1 = with_tree (<[storage_path := NDir]> (k_tree k)) k /\ k_tree k !! storage_path = None) ->
  with_fds (<[dir := d]> (k_fds k1)) k1 = see sock k (View (k_tree k1) (k_inodes k1) {[dir := d]} (k_locks k) (k_held k) [] 0).
Proof.
  intros [->|[-> _]]; unfold see, with_fds; simpl; f_equal; apply insert_union_singleton_l.
Qed.

Lemma good_dir_view (k1 : kern server) en1 dir d :
  env_le en1 en -> k_fds k !! dir = None -> good k en en1 (View (k_tree k1) (k_inodes k1) {[dir := d]} (k_locks k) (k_held k) [] 0).
Proof. intros Hle Hfr. split_and!; [by apply map_disjoint_singleton_l|done|by left]. Qed.

Lemma wp_handle_list : wp (file_manager_handle_list F sock (Some user)) list_outcome (W en k).
Proof.
  unfold file_manager_handle_list. eapply wp_ensure_storage_directory.
  2:{ intros en1 k1 Hle1 Hwhy Hk1. cbn [negb Z.eqb]. by apply refused_list. }
  intros en1 k1 Hle1 Hk1 Hst. cbn [negb Z.eqb]. destruct (storage_step_kept [] _ _ Hk1) as (A1 & A2 & A3 & _ & A5).
  destruct (storage_step_size k1 Hk1) as [Hsize Hlisted].
  eapply wp_open_storage_directory; [done| |].
  2:{ intros en2 Hlt2. cbn [Z.ltb Z.compare]. apply wp_log_errno. intros en3 Hle3. apply refused_list; [env_lia|done|done]. }
  intros en2 Hle2. set (dir := next_fd (k_fds k1)). rewrite (proj2 (Z.ltb_ge _ _)) by apply next_fd_nonneg.
  assert (Hfr : k_fds k !! dir = None) by (rewrite <- A2; apply next_fd_fresh).
  eapply wp_fallible; [reflexivity| |].
  { intros en3 Hlt3 _. cbn [Z.ltb Z.compare]. apply wp_errno, wp_close. intros en4 z Hle4 _.
    unfold dir. rewrite close_add_fd by done. apply wp_set_errno, refused_list; [env_lia|done|done]. }
  intros en3 lim Hle3 _ _. cbv beta. unfold fdopendir_fd. cbn [k_fds with_fds]. rewrite lookup_insert_eq.
  rewrite (proj2 (Z.ltb_ge _ _)) by apply next_fd_nonneg. rewrite insert_insert_eq.
  set (rest := dir_names _ _). assert (Hlen : (length rest <= 3 + size (k_tree k))%nat).
  { unfold rest. etransitivity; [apply length_dir_names|]. simpl. lia. }
  change (with_fds (<[dir := FdStream storage_path rest]> (k_fds k1)) (with_fds (<[dir := FdDir storage_path]> (k_fds k1)) k1))
    with (with_fds (<[dir := FdStream storage_path rest]> (k_fds k1)) k1).
  rewrite (dir_view_see _ _ _ Hk1). destruct HL as [HL1 HL2].
  eapply wp_mono; [eapply (wp_list_entries F sock k en Hso Hreg HF user dir rest); [apply good_dir_view; [env_lia|done]|done|lia|lia]|].
  intros r w (en' & v' & -> & G & X & T & I & L & N & Hr). cbn [v_tree v_inodes v_locks v_in v_out] in *.
  split; cbn [w_env w_kern].
  - apply quiet_see; try done; [by rewrite L|]. destruct A5 as [K K' K'']. split; simpl; by rewrite ?T, ?I.
  - assert (Hans : forall v0 out, v_tree v0 = k_tree k1 -> v_inodes v0 = k_inodes k1 -> list_answer sock k v0 out -> list_answered k out).
    { intros v0 out Ht0 Hi0 [?|(lines & final & Hl & -> & Hf)]; [by left|right]. exists lines, final. split_and!; [|done|done].
      eapply Forall_impl; [exact Hl|]. intros line [name Hn]. exists name. rewrite <- Hlisted, <- Hn. apply listed_ext; done. }
    destruct Hr as [[(out & O & Ha) ->]|(-> & Hlt & out & full & O & Hpre & Ha)]; [left|right].
    + split; [|done]. exists out. simpl. rewrite stream_app_eq, O. split; [done|eapply Hans; [| |exact Ha]; done].
    + split_and!; [done|done|]. exists out, full. simpl. rewrite stream_app_eq, O. split_and!; [done|done|eapply Hans; [| |exact Ha]; done].
Qed.

(** Without faults, on an existing store of sound entries. *)
Lemma wp_handle_list_calm :
  faultless en -> unlocked (k_held k) -> k_tree k !! storage_path = Some NDir ->
  Forall (entry_sound k) (dir_names k storage_path) ->
  let lines := omap (listed k) (dir_names k storage_path) in
  wp (file_manager_handle_list F sock (Some user)) (fun r w =>
    r = 0 /\ stream (k_out (w_kern w)) sock = stream (k_out k) sock ++ list_stream lines (list_end lines)) (W en k).
Proof.
  intros Hf Hu Hst Hsound lines. unfold file_manager_handle_list. eapply wp_ensure_storage_directory.
  2:{ intros en1 k1 _ [Hlt|Hn] _; [by destruct (faultless_not_lt _ _ Hf Hlt)|]. destruct Hn. by right. }
  intros en1 k1 Hle1 [->|[_ ?]] _; [|congruence]. cbn [negb Z.eqb].
  eapply wp_open_storage_directory; [done| |].
  2:{ intros en2 Hlt2. destruct (faultless_not_lt en en2); [done|env_lia]. }
  intros en2 Hle2. set (dir := next_fd (k_fds k)). rewrite (proj2 (Z.ltb_ge _ _)) by apply next_fd_nonneg.
  assert (Hf2 : faultless en2) by (eapply faultless_le; [|done]; env_lia).
  eapply wp_fallible_faultless; [reflexivity|done|]. cbv beta. unfold fdopendir_fd. cbn [k_fds with_fds]. rewrite lookup_insert_eq.
  rewrite (proj2 (Z.ltb_ge _ _)) by apply next_fd_nonneg. rewrite insert_insert_eq.
  change (dir_names (with_fds _ k) storage_path) with (dir_names k storage_path).
  set (rest := dir_names k storage_path) in *.
  assert (Hlen : (length rest <= 2 + size (k_tree k))%nat) by apply length_dir_names.
  change (with_fds (<[dir := FdStream storage_path rest]> (k_fds k)) (with_fds (<[dir := FdDir storage_path]> (k_fds k)) k))
    with (with_fds (<[dir := FdStream storage_path rest]> (k_fds k)) k).
  rewrite (dir_view_see k) by by left. destruct HL as [HL1 HL2].
  eapply wp_mono; [apply (wp_list_entries_calm F sock k en Hso Hreg HF user dir rest en2); try done;
    [apply good_dir_view; [env_lia|apply next_fd_fresh]|lia|lia]|].
  intros r w [-> ->]. split; [done|]. simpl. unfold lines. do 2 f_equal.
Qed.
End handle.

(** ** Properties *)

(** The room, with a file and an entry that is not to be shown. *)
Definition list_room : kern server :=
  with_inodes {[ 1%positive := mk_inode (B "hello world") 0 ]}
    (with_tree (<[entry_path (B "notes.txt") := NReg 1]> (<[entry_path (B ".hidden") := NReg 1]> {[ storage_path := NDir ]})) room).

Lemma list_room_fuel : list_fuel 100 list_room.
Proof. split; [vm_compute; lia|by vm_compute]. Qed.

(** C36. Whatever calls fail, a list request ends and leaves everything but
    the client's stream alone.  With result 0 the client was sent an error, or
    a list in step: FILE_LIST_BEGIN, one message for each of some regular files
    of the store with a valid name and an allowed size, and one final message,
    which gives their number or reports a read failure.  With result -1, which
    needs a failed call, it was sent a prefix of such an answer, and the
    handler's caller ends the session. *)
Theorem list_stays_in_step `{Libc} F sock user (k : kern server) en :
  sockets_open k -> registered (k_static k) sock -> fuel_ok F en -> list_fuel F k ->
  runs (file_manager_handle_list F sock (Some user)) (W en k) (list_outcome sock k en).
Proof. intros. apply wp_runs. by apply wp_handle_list. Qed.

Lemma list_stays_in_step_witness :
  runs (file_manager_handle_list (H := plain_libc) 100 5 (Some (B "alice")))
    (W (mk_env [Full; Full; Fail 4; Full; Short 3] 0 [] [] []) list_room)
    (list_outcome 5 list_room (mk_env [Full; Full; Fail 4; Full; Short 3] 0 [] [] [])).
Proof. apply list_stays_in_step; [apply room_sockets|by apply registeredb_true|by vm_compute; lia|apply list_room_fuel]. Defined.

(** When no call fails the list has every such file of the store, in
    directory order, and ends with their number. *)
Theorem list_is_complete `{Libc} F sock user (k : kern server) en :
  sockets_open k -> registered (k_static k) sock -> fuel_ok F en -> list_fuel F k ->
  faultless en -> unlocked (k_held k) -> k_tree k !! storage_path = Some NDir ->
  Forall (entry_sound k) (dir_names k storage_path) ->
  runs (file_manager_handle_list F sock (Some user)) (W en k) (fun r '(W en' k') =>
    r = 0 /\ stream (k_out k') sock = stream (k_out k) sock ++
      list_stream (omap (listed k) (dir_names k storage_path)) (list_end (omap (listed k) (dir_names k storage_path)))).
Proof.
  intros. apply wp_runs. eapply wp_mono; [by apply wp_handle_list_calm|]. by intros r [en' k'].
Qed.

Lemma list_room_sound : Forall (entry_sound list_room) (dir_names list_room storage_path).
Proof.
  assert (Hs : forall name, match k_tree list_room !! entry_path name with Some nd => is_Some (stat_node list_room nd) | None => False end ->
                entry_sound list_room name).
  { intros name. destruct (k_tree list_room !! entry_path name) as [nd|] eqn:E; [|done]. intros [i Hi] _. eauto. }
  assert (Hbad : forall name, is_valid_shared_filename (Some name) = false -> entry_sound list_room name).
  { intros name Hn Hok%is_valid_shared_filename_iff. congruence. }
  let l := eval vm_compute in (dir_names list_room storage_path) in
    replace (dir_names list_room storage_path) with l by (vm_compute; reflexivity).
  repeat first [apply Forall_nil_2|apply Forall_cons_2]; first [by apply Hbad|apply Hs; vm_compute; by eexists].
Qed.

Lemma list_is_complete_witness :
  runs (file_manager_handle_list (H := plain_libc) 100 5 (Some (B "alice"))) (W calm list_room) (fun r '(W en' k') =>
    r = 0 /\ stream (k_out k') 5 = stream (k_out list_room) 5 ++
      list_stream (omap (listed list_room) (dir_names list_room storage_path))
        (list_end (omap (listed list_room) (dir_names list_room storage_path)))).
Proof.
  apply list_is_complete; [apply room_sockets|by apply registeredb_true|by vm_compute; lia|apply list_room_fuel|done|
    apply room_unlocked|done|apply list_room_sound].
Defined.
