(* ===== verification/ClientHandler.v ===== *)
(** * The thread that serves one client

    [src/server/client_handler.c]: login, the loop over the client's messages,
    the dispatch on their type, and the end of the connection. *)

From S2P Require Import Prelude CLib Posix Wp Protocol NetworkIO ClientManager PerfTimer FileLock Logger FileManager.

Definition CLIENT_HANDLER : bytes := B "CLIENT_HANDLER".
Definition AUTH : bytes := B "AUTH".

Section handler.
Context `{Libc}.
(** Fuel of the loops, and of the loop over the messages of the client. *)
Variable F : nat.

Definition send_message (socket_fd type : Z) (payload : option bytes) : prog server Z :=
  match payload with
  | None => mret (-1)
  | Some payload =>
      if negb (is_valid_message_type type) then mret (-1) else
      let payload_length := strlen payload in
      if MESSAGE_MAX_SIZE <? payload_length then mret (-1) else
      r ← send_all F socket_fd (message_header type payload_length);
      if r != 0 then mret (-1) else
      if payload_length == 0 then mret 0 else
      send_all F socket_fd payload
  end.

(** What [receive_message] gives its caller: the failure result, or the
    type and the bytes of the payload. *)
Inductive received := Received_failure (r : Z) | Received (type : Z) (payload : bytes).

Definition receive_message (socket_fd payload_size : Z) : prog server received :=
  if payload_size == 0 then mret (Received_failure (-1)) else
  '(result, header) ← recv_all F socket_fd 8;
  if result != 0 then mret (Received_failure result) else
  let type := of_be32 (take 4 header) in
  let length := of_be32 (drop 4 header) in
  if negb (is_valid_message_type type) then
    _ ← log LOG_WARN CLIENT_HANDLER (B "Rejected invalid message type " ++ dec type ++ B " on socket " ++ sdec socket_fd);
    mret (Received_failure (-1))
  else if MESSAGE_MAX_SIZE <? length then
    _ ← log LOG_WARN CLIENT_HANDLER (B "Rejected oversized payload length=" ++ dec length ++ B " socket=" ++ sdec socket_fd);
    mret (Received_failure (-1))
  else if payload_size <=? length then mret (Received_failure (-1))
  else if 0 <? length then
    '(result, payload) ← recv_all F socket_fd length;
    if result != 0 then mret (Received_failure result) else mret (Received type payload)
  else mret (Received type []).

(** The result, and the name left in the buffer of the caller. *)
Definition perform_login (socket_fd username_size : Z) : prog server (Z * bytes) :=
  if username_size <? USERNAME_MAX_SIZE then mret (-1, []) else
  r ← send_message socket_fd MSG_RESPONSE (Some (B "USERNAME_REQUIRED"));
  if r != 0 then
    _ ← log LOG_ERROR AUTH (B "Failed to request username socket=" ++ sdec socket_fd);
    mret (-1, [])
  else
  result ← receive_message socket_fd (MESSAGE_MAX_SIZE + 1);
  match result with
  | Received_failure _ =>
      _ ← log LOG_WARN AUTH (B "Client disconnected or failed during login socket=" ++ sdec socket_fd);
      mret (-1, [])
  | Received message_type payload =>
      if message_type != MSG_LOGIN then
        _ ← send_message socket_fd MSG_ERROR (Some (B "LOGIN_REQUIRED"));
        _ ← log LOG_WARN AUTH (B "Rejected non-login message during authentication socket=" ++ sdec socket_fd);
        mret (0, [])
      else if negb (is_valid_username (Some (c_str payload))) then
        _ ← send_message socket_fd MSG_ERROR (Some (B "INVALID_USERNAME"));
        _ ← log LOG_WARN AUTH (B "Rejected invalid username socket=" ++ sdec socket_fd);
        mret (0, [])
      else
      let username := strncpy_terminated (c_str payload) username_size in
      self ← call Pthread_self;
      client_id ← client_manager_add socket_fd self (Some username);
      if client_id == -2 then
        _ ← send_message socket_fd MSG_ERROR (Some (B "USERNAME_ALREADY_EXISTS"));
        _ ← log LOG_WARN AUTH (B "Duplicate username rejected username=" ++ username);
        mret (0, username)
      else if client_id <? 0 then
        _ ← send_message socket_fd MSG_ERROR (Some (B "SERVER_CLIENT_LIMIT"));
        _ ← log LOG_ERROR AUTH (B "Unable to register username=" ++ username);
        mret (-1, username)
      else
      match sprintf_fit (USERNAME_MAX_SIZE + 32) (B "LOGIN_SUCCESS " ++ username) with
      | None =>
          _ ← client_manager_remove socket_fd;
          mret (-1, username)
      | Some response =>
          r ← client_manager_send F socket_fd MSG_RESPONSE (Some response);
          if r != 0 then
            _ ← log LOG_ERROR AUTH (B "Failed to send login success client_id=" ++ sdec client_id ++ B " username=" ++ username);
            _ ← client_manager_remove socket_fd;
            mret (-1, username)
          else
            _ ← log LOG_INFO AUTH (B "Login success client_id=" ++ sdec client_id ++ B " username=" ++ username);
            mret (client_id, username)
      end
  end.

(** ** The messages of a registered client *)

(** The calls of [client_manager_send] whose result is ignored. *)
Definition reply (socket_fd type : Z) (payload : bytes) : prog server unit :=
  _ ← client_manager_send F socket_fd type (Some payload); mret tt.

(** [case MSG_CHAT] *)
Definition handle_chat (socket_fd client_id : Z) (username payload : bytes) : prog server unit :=
  if bool_decide (payload = []) then reply socket_fd MSG_ERROR (B "EMPTY_MESSAGE") else
  match sprintf_fit (MESSAGE_MAX_SIZE + 1) (username ++ B ": " ++ payload) with
  | None => reply socket_fd MSG_ERROR (B "MESSAGE_TOO_LONG")
  | Some broadcast_message =>
      recipients ← client_manager_broadcast F socket_fd MSG_BROADCAST (Some broadcast_message);
      if recipients <? 0 then
        _ ← reply socket_fd MSG_ERROR (B "BROADCAST_FAILED");
        log LOG_ERROR CLIENT_HANDLER (B "Broadcast failed client_id=" ++ sdec client_id ++ B " username=" ++ username)
      else
      _ ← call (Puts (B "Broadcast from Client " ++ sdec client_id ++ B " (" ++ username ++ B "): " ++ payload ++ [NEWLINE]));
      _ ← log LOG_INFO CLIENT_HANDLER (B "Broadcast sender=" ++ username ++ B " recipients=" ++ sdec recipients);
      match sprintf_fit 64 (B "MESSAGE_DELIVERED " ++ sdec recipients) with
      | Some response => reply socket_fd MSG_RESPONSE response
      | None => mret tt
      end
  end.

(** [case MSG_PRIVATE] *)
Definition handle_private (socket_fd client_id : Z) (username payload : bytes) : prog server unit :=
  match strchr payload SPACE with
  | None => reply socket_fd MSG_ERROR (B "PRIVATE_MESSAGE_USAGE")
  | Some separator =>
      if (separator =? 0)%nat || bool_decide (drop (S separator) payload = []) then
        reply socket_fd MSG_ERROR (B "PRIVATE_MESSAGE_USAGE")
      else
      let target_username := take separator payload in
      let private_text := drop (S separator) payload in
      if negb (is_valid_username (Some target_username)) then reply socket_fd MSG_ERROR (B "INVALID_TARGET_USERNAME")
      else if streq target_username username then reply socket_fd MSG_ERROR (B "CANNOT_MESSAGE_SELF")
      else
      match sprintf_fit (MESSAGE_MAX_SIZE + 1) (username ++ B ": " ++ private_text) with
      | None => reply socket_fd MSG_ERROR (B "PRIVATE_MESSAGE_TOO_LONG")
      | Some private_message =>
          send_result ← client_manager_send_to_username F (Some target_username) MSG_PRIVATE (Some private_message);
          if send_result == 1 then
            _ ← reply socket_fd MSG_ERROR (B "USER_NOT_FOUND");
            log LOG_WARN CLIENT_HANDLER (B "Private message target unavailable sender=" ++ username ++ B " target=" ++ target_username)
          else if send_result <? 0 then
            _ ← reply socket_fd MSG_ERROR (B "PRIVATE_MESSAGE_FAILED");
            log LOG_ERROR CLIENT_HANDLER (B "Private message delivery failed sender=" ++ username ++ B " target=" ++ target_username)
          else
          _ ← match sprintf_fit (USERNAME_MAX_SIZE + 40) (B "PRIVATE_MESSAGE_DELIVERED " ++ target_username) with
              | Some response => reply socket_fd MSG_RESPONSE response
              | None => mret tt
              end;
          _ ← call (Puts (B "Private message from Client " ++ sdec client_id ++ B " (" ++ username ++ B ") to "
                ++ target_username ++ B "." ++ [NEWLINE]));
          log LOG_INFO CLIENT_HANDLER (B "Private message sender=" ++ username ++ B " recipient=" ++ target_username)
      end
  end.

(** [case MSG_LIST_USERS] *)
Definition handle_list_users (socket_fd : Z) (username : bytes) : prog server unit :=
  '(users, user_list) ← client_manager_build_userlist (MESSAGE_MAX_SIZE + 1);
  if users <? 0 then
    _ ← reply socket_fd MSG_ERROR (B "USERLIST_FAILED");
    log LOG_ERROR CLIENT_HANDLER (B "User list generation failed requester=" ++ username)
  else
  let user_list := if users == 0 then strncpy_terminated (B "No users online") (MESSAGE_MAX_SIZE + 1) else user_list in
  _ ← reply socket_fd MSG_USERLIST user_list;
  log LOG_DEBUG CLIENT_HANDLER (B "User list requested username=" ++ username ++ B " count=" ++ sdec users).

(** The [switch]: whether the loop goes on ([false] for [goto connection_end]).
    [payload] is the text received, up to its first NUL. *)
Definition dispatch (socket_fd client_id : Z) (username : bytes) (message_type : Z) (payload : bytes) : prog server bool :=
  if message_type == MSG_CHAT then
    _ ← handle_chat socket_fd client_id username payload; mret true
  else if message_type == MSG_PRIVATE then
    _ ← handle_private socket_fd client_id username payload; mret true
  else if message_type == MSG_LIST_USERS then
    _ ← handle_list_users socket_fd username; mret true
  else if message_type == MSG_DISCONNECT then
    _ ← call (Puts (B "Client " ++ sdec client_id ++ B " (" ++ username ++ B ") requested disconnect." ++ [NEWLINE]));
    _ ← log LOG_INFO CLIENT_HANDLER (B "Graceful disconnect requested client_id=" ++ sdec client_id ++ B " username=" ++ username);
    _ ← reply socket_fd MSG_RESPONSE (B "GOODBYE");
    mret false
  else if message_type == MSG_UPLOAD then
    upload_result ← file_manager_handle_upload F socket_fd (Some username) (Some payload);
    mret (negb (upload_result <? 0))
  else if message_type == MSG_DOWNLOAD then
    download_result ← file_manager_handle_download F socket_fd (Some username) (Some payload);
    mret (negb (download_result <? 0))
  else if message_type == MSG_LIST_FILES then
    list_result ← file_manager_handle_list F socket_fd (Some username);
    mret (negb (list_result <? 0))
  else if message_type == MSG_LOGIN then
    _ ← reply socket_fd MSG_ERROR (B "ALREADY_LOGGED_IN");
    _ ← log LOG_WARN CLIENT_HANDLER (B "Repeated login attempt username=" ++ username);
    mret true
  else if (message_type == MSG_RESPONSE) || (message_type == MSG_ERROR) || (message_type == MSG_BROADCAST)
          || (message_type == MSG_USERLIST) || (message_type == MSG_FILELIST) then
    _ ← reply socket_fd MSG_ERROR (B "INVALID_CLIENT_MESSAGE_TYPE");
    _ ← log LOG_WARN CLIENT_HANDLER (B "Invalid client-originated message type=" ++ dec message_type ++ B " username=" ++ username);
    mret true
  else
    _ ← reply socket_fd MSG_ERROR (B "UNKNOWN_MESSAGE_TYPE");
    _ ← log LOG_WARN CLIENT_HANDLER (B "Unknown message type=" ++ dec message_type ++ B " username=" ++ username);
    mret true.

(** The [while (1)] of a registered client. *)
Fixpoint client_loop (fuel : nat) (socket_fd client_id : Z) (username : bytes) : prog server unit :=
  match fuel with
  | O => Diverge
  | S fuel =>
      result ← receive_message socket_fd (MESSAGE_MAX_SIZE + 1);
      match result with
      | Received_failure result =>
          if result == 1 then
            _ ← call (Puts (B "Client " ++ sdec client_id ++ B " (" ++ username ++ B ") closed the connection." ++ [NEWLINE]));
            log LOG_INFO CLIENT_HANDLER (B "Unexpected disconnect client_id=" ++ sdec client_id ++ B " username=" ++ username)
          else
            _ ← call (Eputs (B "Client " ++ sdec client_id ++ B " (" ++ username ++ B "): receive/protocol error." ++ [NEWLINE]));
            log LOG_WARN CLIENT_HANDLER (B "Receive/protocol error client_id=" ++ sdec client_id ++ B " username=" ++ username)
      | Received message_type payload =>
          continue ← dispatch socket_fd client_id username message_type (c_str payload);
          if continue : bool then client_loop fuel socket_fd client_id username else mret tt
      end
  end.

(** From the label [connection_end], for a registered client. *)
Definition connection_end (socket_fd client_id : Z) (username : bytes) : prog server unit :=
  remove_result ← client_manager_remove socket_fd;
  _ ← (if remove_result == 0 then
        call (Puts (B "Client " ++ sdec client_id ++ B " (" ++ username ++ B ") removed from client manager." ++ [NEWLINE]))
      else
        _ ← call (Eputs (B "Client " ++ sdec client_id ++ B " (" ++ username ++ B "): client manager removal failed." ++ [NEWLINE]));
        log LOG_ERROR CLIENT_HANDLER (B "Client manager removal failed client_id=" ++ sdec client_id ++ B " username=" ++ username));
  active_clients ← client_manager_count;
  _ ← call (Puts (B "Active clients: " ++ dec active_clients ++ [NEWLINE]));
  _ ← log LOG_INFO CLIENT_HANDLER (B "Client removed client_id=" ++ sdec client_id ++ B " username=" ++ username
        ++ B " active_clients=" ++ dec active_clients);
  _ ← call (Close socket_fd);
  self ← call Pthread_self;
  _ ← log LOG_DEBUG CLIENT_HANDLER (B "Client thread terminated thread=" ++ dec self ++ B " username=" ++ username);
  call (Puts (B "Client thread [" ++ dec self ++ B "] terminated." ++ [NEWLINE])).

(** [argument] is the socket of the context, [None] for a NULL argument. *)
Definition client_handler (argument : option Z) : prog server unit :=
  match argument with
  | None => mret tt
  | Some socket_fd =>
      self ← call Pthread_self;
      _ ← call (Puts (B "Client thread [" ++ dec self ++ B "] started." ++ [NEWLINE]));
      _ ← log LOG_DEBUG CLIENT_HANDLER (B "Client thread started thread=" ++ dec self ++ B " socket=" ++ sdec socket_fd);
      '(client_id, username) ← perform_login socket_fd USERNAME_MAX_SIZE;
      if client_id <=? 0 then
        _ ← call (Close socket_fd);
        _ ← log LOG_DEBUG CLIENT_HANDLER (B "Unregistered client thread terminated thread=" ++ dec self);
        call (Puts (B "Client thread [" ++ dec self ++ B "] terminated." ++ [NEWLINE]))
      else
      _ ← call (Puts (B "Client " ++ sdec client_id ++ B " registered: " ++ username ++ [NEWLINE]));
      _ ← client_loop F socket_fd client_id username;
      connection_end socket_fd client_id username
  end.
End handler.
