(* ===== verification/Receive.v ===== *)
(** * Receiving messages

    [receive_message] of the client handler, against the wire format. *)

From S2P Require Import Prelude CLib Posix Wp Protocol NetworkIO ClientManager Registry Sending Logger FileManager ClientHandler.

(** A frame that the receiver accepts into a buffer of [size] bytes. *)
Definition acceptable (size type : Z) (payload : bytes) : Prop :=
  is_valid_message_type type = true /\ zlen payload <= MESSAGE_MAX_SIZE /\ zlen payload < size.

(** The first eight bytes announce no such frame. *)
Definition bad_header (size : Z) (st : bytes) : Prop :=
  (8 <= length st)%nat /\
  (is_valid_message_type (of_be32 (take 4 st)) = false \/ MESSAGE_MAX_SIZE < of_be32 (take 4 (drop 4 st)) \/
   size <= of_be32 (take 4 (drop 4 st))).

Lemma message_type_range t : is_valid_message_type t = true -> 0 <= t < 2 ^ 32.
Proof.
  unfold is_valid_message_type. cbn [existsb]. intros Ht.
  repeat (apply orb_true_iff in Ht as [Ht|Ht]; [apply Z.eqb_eq in Ht; subst t; done|]). done.
Qed.

(** The bytes of a frame, and back. *)
Lemma frame_split t p st :
  is_valid_message_type t = true -> zlen p < 2 ^ 32 -> frame t p `prefix_of` st ->
  of_be32 (take 4 st) = t /\ of_be32 (take 4 (drop 4 st)) = zlen p /\ take (length p) (drop 8 st) = p /\ (8 + length p <= length st)%nat.
Proof.
  intros Ht Hp [rest ->]. pose proof (message_type_range t Ht). pose proof (zlen_nonneg p).
  assert (Hf : frame t p ++ rest = be32 t ++ be32 (zlen p) ++ p ++ rest) by (unfold frame, message_header; by rewrite <- !app_assoc).
  rewrite Hf. split_and!.
  - rewrite (take_app_length' _ _ 4) by done. by apply of_be32_be32.
  - rewrite (drop_app_length' _ _ 4), (take_app_length' _ _ 4) by done. by apply of_be32_be32.
  - replace 8%nat with (4 + 4)%nat by done. rewrite <- drop_drop, !(drop_app_length' _ _ 4) by done. by apply take_app_length'.
  - rewrite !length_app, !length_be32. lia.
Qed.

Lemma frame_join st (n : nat) :
  (8 + n <= length st)%nat -> of_be32 (take 4 (drop 4 st)) = Z.of_nat n ->
  take (8 + n) st = frame (of_be32 (take 4 st)) (take n (drop 8 st)).
Proof.
  intros Hl Hn. assert (Hz : zlen (take n (drop 8 st)) = Z.of_nat n) by (unfold zlen; rewrite length_take, length_drop; lia).
  unfold frame, message_header, strlen. rewrite Hz, <- Hn, !be32_of_be32 by (rewrite length_take, ?length_drop; lia).
  replace (drop 8 st) with (drop 4 (drop 4 st)) by by rewrite drop_drop.
  by rewrite <- app_assoc, !take_take_drop.
Qed.

(** A stream starts with one frame at most. *)
Lemma frame_prefix_unique size st t p t' p' :
  acceptable size t p -> acceptable size t' p' -> frame t p `prefix_of` st -> frame t' p' `prefix_of` st -> t' = t /\ p' = p.
Proof.
  intros (Ht & Hl & _) (Ht' & Hl' & _) Hp Hp'. unfold MESSAGE_MAX_SIZE in *.
  apply frame_split in Hp as (E1 & E2 & E3 & E4); [|done|lia]. apply frame_split in Hp' as (F1 & F2 & F3 & F4); [|done|lia].
  assert (length p' = length p) as Hpp by (unfold zlen in *; lia). rewrite Hpp in F3. split; congruence.
Qed.

Lemma frame_not_bad size st t p : acceptable size t p -> frame t p `prefix_of` st -> ~ bad_header size st.
Proof.
  intros (Ht & Hl & Hs) Hp [_ Hb]. unfold MESSAGE_MAX_SIZE in *. apply frame_split in Hp as (E1 & E2 & _); [|done|lia].
  rewrite E1, E2 in Hb. destruct Hb as [Hb|[?|?]]; [congruence|lia|lia].
Qed.

(** Both programs receive a frame in the same way, and differ in what they do
    when the header is not acceptable ([bad_type], [too_long], [too_big]). *)
Section receive_frame.
Context {S : Type} (F : nat) (bad_type too_long : Z -> prog S received) (too_big : prog S received).

Definition receive_frame (sock size : Z) : prog S received :=
  '(result, header) ← recv_all F sock 8;
  if result != 0 then mret (Received_failure result) else
  let type := of_be32 (take 4 header) in
  let length := of_be32 (drop 4 header) in
  if negb (is_valid_message_type type) then bad_type type
  else if MESSAGE_MAX_SIZE <? length then too_long length
  else if size <=? length then too_big
  else if 0 <? length then
    '(result, payload) ← recv_all F sock length;
    if result != 0 then mret (Received_failure result) else mret (Received type payload)
  else mret (Received type []).

Lemma wp_receive_frame sock size Q en (k : kern S) :
  let st := stream (k_in k) sock in
  k_fds k !! sock = Some FdSocket -> fuel_ok F en ->
  (forall en' z, env_le en' en -> bad_header size st ->
     wp (bad_type z) Q (W en' (received_in sock 8 k)) /\ wp (too_long z) Q (W en' (received_in sock 8 k)) /\
     wp too_big Q (W en' (received_in sock 8 k))) ->
  (forall en' t p, env_le en' en -> acceptable size t p -> frame t p `prefix_of` st ->
     Q (Received t p) (W en' (received_in sock (8 + length p) k))) ->
  (forall en' r n, env_le en' en -> (n <= length st)%nat ->
     (r = 1 /\ n = length st /\ (forall t p, acceptable size t p -> ~ frame t p `prefix_of` st) \/
      (r = 1 \/ r = -1) /\ env_lt en' en) ->
     Q (Received_failure r) (W en' (received_in sock n k))) ->
  wp (receive_frame sock size) Q (W en k).
Proof.
  intros st Hfd HF Hbad Hok Hko. unfold receive_frame.
  assert (Hacc : forall t p, acceptable size t p -> zlen p < 2 ^ 32).
  { intros t p (_ & Hl & _). unfold MESSAGE_MAX_SIZE in Hl. lia. }
  apply wp_bind, wp_recv_all; [done|lia|done| |]; fold st; change (Z.to_nat 8) with 8%nat.
  2:{ intros en1 r m Hle1 Hm Hm' Hr. assert (Hr' : r = 1 \/ r = -1) by tauto.
      assert (Hn : negb (r == 0) = true) by by destruct Hr' as [->| ->]. rewrite Hn. apply wp_ret, Hko; [done|done|].
      destruct Hr as [[-> ->]|[_ ?]]; [left|auto]. split_and!; [done|done|]. intros t p Ha Hp.
      pose proof Ha as (Ht & _). apply frame_split in Hp as (_ & _ & _ & ?); [lia|done|by eapply Hacc]. }
  intros en1 Hle1 Hst. cbn [negb Z.eqb]. rewrite (take_take st 4 8). change (take (Nat.min 4 8) st) with (take 4 st).
  replace (drop 4 (take 8 st)) with (take 4 (drop 4 st)) by apply (take_drop_commute st 4 4).
  set (t := of_be32 (take 4 st)). set (len := of_be32 (take 4 (drop 4 st))).
  assert (Hlen : 0 <= len < 2 ^ 32) by (apply of_be32_range; rewrite length_take, length_drop; lia).
  case_if; [|case_if; [|case_if]].
  - eapply Hbad; [done|]. split; [done|by left].
  - eapply Hbad; [done|]. split; [done|by right; left].
  - eapply (Hbad _ 0); [done|]. split; [done|by right; right].
  - assert (Hfull : forall en2, env_le en2 en -> (8 + Z.to_nat len <= length st)%nat ->
      Q (Received t (take (Z.to_nat len) (drop 8 st))) (W en2 (received_in sock (8 + Z.to_nat len) k))).
    { intros en2 Hle2 Hl. assert (Hp : length (take (Z.to_nat len) (drop 8 st)) = Z.to_nat len) by (rewrite length_take, length_drop; lia).
      specialize (Hok en2 t (take (Z.to_nat len) (drop 8 st)) Hle2). rewrite Hp in Hok. apply Hok.
      - unfold acceptable, zlen. rewrite Hp. split_and!; [done|lia|lia].
      - unfold t; rewrite <- frame_join by (fold len; lia). apply take_prefix_of. }
    case_if.
    + assert (Hst8 : stream (k_in (received_in sock 8 k)) sock = drop 8 st) by apply stream_drop_eq.
      apply wp_bind, wp_recv_all; [done|lia|by eapply fuel_ok_le|..]; rewrite Hst8, length_drop.
      * intros en2 Hle2 Hl. cbn [negb Z.eqb]. apply wp_ret. rewrite received_in_add. apply Hfull; [env_lia|lia].
      * intros en2 r m Hle2 Hm Hm' Hr. assert (Hr' : r = 1 \/ r = -1) by tauto.
        assert (Hn : negb (r == 0) = true) by by destruct Hr' as [->| ->]. rewrite Hn. apply wp_ret. rewrite received_in_add.
        apply Hko; [env_lia|lia|]. destruct Hr as [[-> Hm2]|[_ ?]]; [left|right; split; [done|env_lia]].
        split_and!; [done|lia|]. intros t' p Ha Hp. pose proof Ha as (Ht & _).
        apply frame_split in Hp as (_ & El & _ & Hl); [|done|by eapply Hacc]. fold len in El. unfold zlen in El. lia.
    + apply wp_ret. assert (len = 0) as Hz by lia. specialize (Hfull en1 Hle1). rewrite Hz in Hfull. apply Hfull. simpl. lia.
Qed.
End receive_frame.

Section receive.
Context (F : nat).

(** [receive_message] takes one frame off the stream, or fails for a reason. *)
Lemma wp_receive_message sock size Q en (k : kern server) :
  let st := stream (k_in k) sock in
  k_fds k !! sock = Some FdSocket -> fuel_ok F en -> 0 < size ->
  (forall en' t p, env_le en' en -> acceptable size t p -> frame t p `prefix_of` st ->
     Q (Received t p) (W en' (received_in sock (8 + length p) k))) ->
  (forall en' r n, env_le en' en -> (n <= length st)%nat ->
     (r = 1 /\ n = length st /\ (forall t p, acceptable size t p -> ~ frame t p `prefix_of` st) \/
      r = -1 /\ n = 8%nat /\ bad_header size st \/ (r = 1 \/ r = -1) /\ env_lt en' en) ->
     Q (Received_failure r) (W en' (received_in sock n k))) ->
  wp (receive_message F sock size) Q (W en k).
Proof.
  intros st Hfd HF Hsize Hok Hko. unfold receive_message. rewrite (proj2 (Z.eqb_neq _ _)) by lia.
  apply (wp_receive_frame F
    (fun type => _ ← log LOG_WARN CLIENT_HANDLER (B "Rejected invalid message type " ++ dec type ++ B " on socket " ++ sdec sock);
                 mret (Received_failure (-1)))
    (fun length => _ ← log LOG_WARN CLIENT_HANDLER (B "Rejected oversized payload length=" ++ dec length ++ B " socket=" ++ sdec sock);
                   mret (Received_failure (-1)))
    (mret (Received_failure (-1)))); [done|done| |done|].
  - intros en1 z Hle Hb. pose proof Hb as [Hn _].
    assert (HQ : forall en', env_le en' en1 -> Q (Received_failure (-1)) (W en' (received_in sock 8 k))).
    { intros en' Hle'. apply Hko; [env_lia|done|]. right. left. auto. }
    split_and!; [apply wp_log; intros en2 Hle2..|]; apply wp_ret, HQ; env_lia.
  - intros en1 r n Hle Hn Hr. apply Hko; [done|done|]. tauto.
Qed.
End receive.

(** ** Properties *)

(** What [receive_message] does with the stream of the client. *)
Definition received_outcome (sock size : Z) (k : kern server) (en : env) (r : received) (en' : env) (k' : kern server) : Prop :=
  let st := stream (k_in k) sock in
  match r with
  | Received t p => acceptable size t p /\ frame t p `prefix_of` st /\ k' = received_in sock (length (frame t p)) k
  | Received_failure r => exists n, (n <= length st)%nat /\ k' = received_in sock n k /\
      (r = 1 /\ n = length st /\ (forall t p, acceptable size t p -> ~ frame t p `prefix_of` st) \/
       r = -1 /\ n = 8%nat /\ bad_header size st \/ (r = 1 \/ r = -1) /\ env_lt en' en)
  end.

(** C35. [receive_message] ends having taken exactly one frame off the client's
    stream and returning its type and payload, which fit the buffer; or
    failing: with 1 when the stream ends before the frame does, with -1 when
    the header announces an unknown type or too much, and otherwise only after
    a failed or short call. *)
Theorem receive_takes_one_frame F sock size en (k : kern server) :
  k_fds k !! sock = Some FdSocket -> fuel_ok F en -> 0 < size ->
  runs (receive_message F sock size) (W en k) (fun r '(W en' k') => received_outcome sock size k en r en' k').
Proof.
  intros Hfd HF Hs. apply wp_runs, wp_receive_message; [done|done|done| |].
  - intros en' t p Hle Ha Hp. unfold received_outcome. by rewrite length_frame.
  - intros en' r n Hle Hn Hr. unfold received_outcome. eauto.
Qed.

(** A stream that starts with a chat message. *)
Definition receive_room : kern server := with_in {[ 5 := frame MSG_CHAT (B "hello") ++ B "rest" ]} room.

Lemma receive_takes_one_frame_witness :
  runs (receive_message 9 5 4097) (W (mk_env [Short 3; Fail 4; Short 2] 0 [] [] []) receive_room)
    (fun r '(W en' k') => received_outcome 5 4097 receive_room (mk_env [Short 3; Fail 4; Short 2] 0 [] [] []) r en' k').
Proof. apply receive_takes_one_frame; [done|by vm_compute; lia|done]. Defined.

(** What one side frames the other side reads back: without faults,
    [receive_message] returns the type and payload of the frame that is first
    in the stream, and leaves what follows. *)
Lemma frame_roundtrip F sock t p rest en (k : kern server) :
  k_fds k !! sock = Some FdSocket -> fuel_ok F en -> faultless en -> sendable t p ->
  stream (k_in k) sock = frame t p ++ rest ->
  runs (receive_message F sock (MESSAGE_MAX_SIZE + 1)) (W en k) (fun r '(W en' k') =>
    r = Received t p /\ stream (k_in k') sock = rest).
Proof.
  intros Hfd HF Hf [Ht Hl] Hst. unfold strlen in Hl.
  assert (Ha : acceptable (MESSAGE_MAX_SIZE + 1) t p) by (split_and!; [done|done|lia]).
  assert (Hpre : frame t p `prefix_of` stream (k_in k) sock) by (rewrite Hst; by eexists).
  apply wp_runs, wp_receive_message; [done|done|unfold MESSAGE_MAX_SIZE; lia| |].
  - intros en' t' p' Hle Ha' Hp'. destruct (frame_prefix_unique _ _ _ _ _ _ Ha Ha' Hpre Hp') as [-> ->]. split; [done|].
    unfold received_in. cbn [k_in with_in]. rewrite stream_drop_eq, Hst. apply drop_app_length'. by rewrite length_frame.
  - intros en' r n Hle Hn [(_ & _ & Hno)|[(_ & _ & Hb)|[_ Hlt']]]; [by destruct (Hno t p Ha)|by destruct (frame_not_bad _ _ _ _ Ha Hpre)|].
    by destruct (faultless_not_lt _ _ Hf Hlt').
Qed.

Lemma frame_roundtrip_witness :
  runs (receive_message 9 5 (MESSAGE_MAX_SIZE + 1)) (W calm receive_room) (fun r '(W en' k') =>
    r = Received MSG_CHAT (B "hello") /\ stream (k_in k') 5 = B "rest").
Proof. apply frame_roundtrip; [done|by vm_compute; lia|done|by split|done]. Defined.
