(* ===== verification/Session.v ===== *)
(** * The service of one client

    [client_handler] from the accepted connection to its end: that it ends,
    whatever the client sends and whatever calls fail, and what it may have
    done by then to the registry, to the other clients and to the store. *)

From S2P Require Import Prelude CLib Posix Wp Protocol NetworkIO ClientManager Registry Sending PerfTimer FileLock Logger.
From S2P Require Import FileManager Store Upload Download Listing ClientHandler Receive.

(** ** Sizes of trees *)

Lemma size_list_set {K} `{Countable K} (l : list K) : (size (list_to_set l : gset K) <= length l)%nat.
Proof.
  induction l as [|x l IH]; [done|]. rewrite list_to_set_cons. cbn [length]. rewrite size_union_alt, size_singleton.
  assert (size ((list_to_set l : gset K) ∖ {[x]}) <= size (list_to_set l : gset K))%nat by (apply subseteq_size; set_solver).
  lia.
Qed.

Lemma size_new_keys {K A} `{Countable K} (t t' : gmap K A) (l : list K) :
  (forall p, t !! p = None -> is_Some (t' !! p) -> p ∈ l) -> (size t' <= size t + length l)%nat.
Proof.
  intros Hn. rewrite <- !size_dom.
  assert (Hsub : dom t' ⊆ dom t ∪ list_to_set l).
  { intros p Hp. apply elem_of_union. destruct (t !! p) as [a|] eqn:E; [left; apply elem_of_dom; by exists a|right].
    apply elem_of_list_to_set, Hn; [done|]. by apply elem_of_dom. }
  etransitivity; [by apply subseteq_size|]. rewrite size_union_alt.
  pose proof (size_list_set l) as Hl.
  assert (size ((list_to_set l : gset K) ∖ dom t) <= size (list_to_set l : gset K))%nat by (apply subseteq_size; set_solver).
  lia.
Qed.

(** ** What a client's text looks like to the others *)

(** Whole broadcasts and private messages, each signed with the name. *)
Definition authored (name out : bytes) : Prop :=
  exists frames : list (Z * bytes),
    Forall (fun f => (f.1 = MSG_BROADCAST \/ f.1 = MSG_PRIVATE) /\ (name ++ B ": ") `prefix_of` f.2) frames /\
    out = concat ((fun f => frame f.1 f.2) <$> frames).

Lemma authored_nil name : authored name [].
Proof. by exists []. Qed.

Lemma authored_one name type text :
  type = MSG_BROADCAST \/ type = MSG_PRIVATE -> authored name (frame type (name ++ B ": " ++ text)).
Proof.
  intros Ht. exists [(type, name ++ B ": " ++ text)]. split; [|simpl; by rewrite app_nil_r].
  constructor; [|done]. split; [done|]. exists text. by rewrite <- app_assoc.
Qed.

Lemma authored_app name o1 o2 : authored name o1 -> authored name o2 -> authored name (o1 ++ o2).
Proof.
  intros (f1 & H1 & ->) (f2 & H2 & ->). exists (f1 ++ f2). split; [by apply Forall_app|].
  by rewrite fmap_app, concat_app.
Qed.

(** Prefixes of such messages: a failed [send] cuts one off. *)
Definition excerpts (name out : bytes) : Prop :=
  exists parts : list bytes,
    Forall (fun part => exists type text, (type = MSG_BROADCAST \/ type = MSG_PRIVATE) /\
      part `prefix_of` frame type (name ++ B ": " ++ text)) parts /\
    out = concat parts.

Lemma excerpts_app name o1 o2 : excerpts name o1 -> excerpts name o2 -> excerpts name (o1 ++ o2).
Proof. intros (p1 & H1 & ->) (p2 & H2 & ->). exists (p1 ++ p2). split; [by apply Forall_app|]. by rewrite concat_app. Qed.

(** Messages signed with the name, all of them whole unless a call has failed. *)
Definition spoken (name : bytes) (en' en : env) (out : bytes) : Prop :=
  excerpts name out /\ (env_lt en' en \/ authored name out).

Lemma spoken_nil name en' en : spoken name en' en [].
Proof. split; [by exists []|right; apply authored_nil]. Qed.

Lemma spoken_app name en1 en2 en3 o1 o2 :
  env_le en2 en1 -> env_le en3 en2 -> spoken name en2 en1 o1 -> spoken name en3 en2 o2 -> spoken name en3 en1 (o1 ++ o2).
Proof.
  intros Hle1 Hle2 [E1 A1] [E2 A2]. split; [by apply excerpts_app|].
  destruct A1 as [?|?]; [left; env_lia|]. destruct A2 as [?|?]; [left; env_lia|right; by apply authored_app].
Qed.

(** ** The effect of serving a client *)

(** The paths for the server's own use. *)
Definition store_area (p : path) : Prop := p = storage_path \/ exists name, lock_file name p.

(** The file [p] holds bytes that the client has sent, in one piece. *)
Definition stored_from (input : bytes) {S} (k : kern S) (p : path) : Prop :=
  exists name ino n m mode, filename_ok name /\ p = entry_path name /\ k_tree k !! p = Some (NReg ino) /\
    (m + n <= length input)%nat /\ k_inodes k !! ino = Some (mk_inode (take n (drop m input)) mode).

Lemma upload_tmp_eq sock (k k' : kern server) :
  k_pid k' = k_pid k -> k_self k' = k_self k -> upload_tmp sock k' = upload_tmp sock k.
Proof. unfold upload_tmp, tmp_path, temporary_text. by intros -> ->. Qed.

Lemma upload_tmp_not_file sock (k : kern server) name : filename_ok name -> entry_path name ≠ upload_tmp sock k.
Proof.
  intros Hn. apply (dest_not_tmp k {| u_socket := sock; u_username := []; u_filename := name; u_size := 0; u_lock := 0 |} Hn).
Qed.

(** From [k] (environment [en]) to [k'] (environment [en']), at most [n] new
    paths have been made by the service of the client [name] on [sock]. *)
Record kept (sock : Z) (name : bytes) (n : nat) (en : env) (k : kern server) (en' : env) (k' : kern server) : Prop := {
  kp_env : env_le en' en;
  kp_held : unlocked (k_held k) -> held_ok en' en (k_held k') (k_held k);
  kp_registered : forall fd, fd ≠ sock -> registered (k_static k') fd <-> registered (k_static k) fd;
  kp_process : k_pid k' = k_pid k /\ k_self k' = k_self k;
  kp_fds : forall fd, fd ≠ sock -> k_fds k' !! fd = k_fds k !! fd;
  kp_locks : k_locks k' ⊆ k_locks k;
  kp_in : forall fd, fd ≠ sock -> stream (k_in k') fd = stream (k_in k) fd;
  kp_own : exists sent taken,
    stream (k_out k') sock = stream (k_out k) sock ++ sent /\ stream (k_in k') sock = drop taken (stream (k_in k) sock);
  kp_out : forall fd, fd ≠ sock -> exists out, stream (k_out k') fd = stream (k_out k) fd ++ out /\
    spoken name en' en out /\ (registered (k_static k) fd \/ out = []);
  kp_tree : forall p nd, k_tree k !! p = Some nd -> p ≠ upload_tmp sock k -> k_tree k' !! p = Some nd;
  kp_data : forall ino i, k_inodes k !! ino = Some i -> k_inodes k' !! ino = Some i;
  kp_new : forall p, k_tree k !! p = None -> is_Some (k_tree k' !! p) ->
    store_area p \/ p = upload_tmp sock k \/ stored_from (stream (k_in k) sock) k' p;
  kp_size : (size (k_tree k') <= size (k_tree k) + n)%nat
}.

Section kept.
Context (sock : Z) (name : bytes).
Abbreviation kept := (kept sock name).

Lemma kept_refl en k : kept 0 en k en k.
Proof.
  split; try done.
  - by left.
  - exists [], 0%nat. by rewrite app_nil_r.
  - intros fd _. exists []. rewrite app_nil_r. split_and!; [done|apply spoken_nil|by right].
  - intros p -> [? ?]. done.
  - lia.
Qed.

Lemma kept_weaken n m en k en' k' : (n <= m)%nat -> kept n en k en' k' -> kept m en k en' k'.
Proof. intros Hle []. split; try done. lia. Qed.

(** What was stored before is still there. *)
Lemma stored_kept n en k en' k' input taken p :
  kept n en k en' k' -> stored_from (drop taken input) k p -> stored_from input k' p.
Proof.
  intros [] (nm & ino & n0 & m & mode & Hn & -> & Ht & Hl & Hi).
  rewrite drop_drop in Hi. rewrite length_drop in Hl. destruct (decide (n0 = 0%nat)) as [->|Hne].
  - exists nm, ino, 0%nat, 0%nat, mode. split_and!; try done; [|simpl; lia|by apply kp_data0].
    apply kp_tree0; [done|]. by apply upload_tmp_not_file.
  - exists nm, ino, n0, (taken + m)%nat, mode. split_and!; try done; [|lia|by apply kp_data0].
    apply kp_tree0; [done|]. by apply upload_tmp_not_file.
Qed.

Lemma kept_trans n1 n2 en1 k1 en2 k2 en3 k3 :
  kept n1 en1 k1 en2 k2 -> kept n2 en2 k2 en3 k3 -> kept (n1 + n2) en1 k1 en3 k3.
Proof.
  intros K1 K2. pose proof K1 as [E1 H1 R1 [P1 S1] F1 L1 I1 O1 T1 Tr1 D1 N1 Z1].
  pose proof K2 as [E2 H2 R2 [P2 S2] F2 L2 I2 O2 T2 Tr2 D2 N2 Z2].
  pose proof (upload_tmp_eq sock k1 k2 P1 S1) as Htmp.
  split.
  - env_lia.
  - intros Hu. destruct (H1 Hu) as [Heq|Hlt]; [|right; env_lia].
    rewrite Heq in H2. destruct (H2 Hu) as [Heq2|?]; [left; congruence|right; env_lia].
  - intros fd Hne. by rewrite R2, R1.
  - split; congruence.
  - intros fd Hne. by rewrite F2, F1.
  - by etransitivity.
  - intros fd Hne. by rewrite I2, I1.
  - destruct O1 as (s1 & t1 & Hs1 & Ht1), O2 as (s2 & t2 & Hs2 & Ht2). exists (s1 ++ s2), (t1 + t2)%nat.
    by rewrite Hs2, Hs1, Ht2, Ht1, drop_drop, <- app_assoc.
  - intros fd Hne. destruct (T1 fd Hne) as (o1 & Eo1 & A1 & B1), (T2 fd Hne) as (o2 & Eo2 & A2 & B2).
    exists (o1 ++ o2). rewrite Eo2, Eo1, <- app_assoc. split_and!; [done| |].
    + by eapply spoken_app.
    + destruct (decide (o1 = [])) as [->|?]; [|left; tauto].
      destruct B2 as [?| ->]; [left; by apply (R1 fd Hne)|by right].
  - intros p nd Hp Hne. apply Tr2; [by apply Tr1|by rewrite Htmp].
  - auto.
  - intros p Hp Hs. destruct (k_tree k2 !! p) as [nd|] eqn:E2p.
    + destruct (N1 p Hp ltac:(by eexists)) as [?|[?|?]]; [by left|right; by left|right; right].
      eapply (stored_kept _ _ _ _ _ _ 0); [done|by rewrite drop_0].
    + destruct (N2 p E2p Hs) as [?|[?|Hst]]; [by left|right; left; congruence|right; right].
      destruct O1 as (_ & t1 & _ & Ht1). rewrite Ht1 in Hst.
      destruct Hst as (nm & ino & n0 & m & mode & Hn & -> & Ht & Hl & Hi). rewrite length_drop in Hl. rewrite drop_drop in Hi.
      destruct (decide (n0 = 0%nat)) as [->|?]; [by exists nm, ino, 0%nat, 0%nat, mode; split_and!; try done; simpl; lia|].
      exists nm, ino, n0, (t1 + m)%nat, mode. split_and!; try done. lia.
  - lia.
Qed.
End kept.

(** ** Programs that only serve *)

(** The console and the outgoing streams apart, nothing has changed. *)
Record talked (en : env) (k : kern server) (en' : env) (k' : kern server) : Prop := {
  tk_env : env_le en' en;
  tk_held : unlocked (k_held k) -> held_ok en' en (k_held k') (k_held k);
  tk_static : k_static k' = k_static k;
  tk_fds : k_fds k' = k_fds k;
  tk_locks : k_locks k' = k_locks k;
  tk_process : k_pid k' = k_pid k /\ k_self k' = k_self k;
  tk_in : k_in k' = k_in k;
  tk_files : k_tree k' = k_tree k /\ k_inodes k' = k_inodes k
}.

Section keeps.
Context `{Libc} (F : nat) (sock : Z) (name : bytes).
Abbreviation kept := (kept sock name).

Lemma kept_talked en k en' k' :
  talked en k en' k' -> (exists sent, stream (k_out k') sock = stream (k_out k) sock ++ sent) ->
  (forall fd, fd ≠ sock -> exists out, stream (k_out k') fd = stream (k_out k) fd ++ out /\
     spoken name en' en out /\ (registered (k_static k) fd \/ out = [])) ->
  kept 0 en k en' k'.
Proof.
  intros [E Hh S Fd L P I [T N]] [sent Hs] Ho. split; try done; rewrite ?S, ?Fd, ?L, ?I, ?T, ?N; try done.
  - by exists sent, 0%nat.
  - intros p -> [? ?]. done.
  - lia.
Qed.

(** The server's own sending. *)
Lemma kept_sent en k en' h out :
  env_le en' en -> (unlocked (k_held k) -> held_ok en' en h (k_held k)) -> kept 0 en k en' (with_held h (sent_out sock out k)).
Proof.
  intros Hle Hh. apply kept_talked; [by split| |]; simpl.
  - eexists. apply stream_app_eq.
  - intros fd Hne. exists []. rewrite stream_app_ne, app_nil_r by done.
    split_and!; [done|apply spoken_nil|by right].
Qed.

Lemma kept_held en k en' h :
  env_le en' en -> (unlocked (k_held k) -> held_ok en' en h (k_held k)) -> kept 0 en k en' (with_held h k).
Proof. intros Hle Hh. rewrite <- (sent_out_nil sock k) at 2. by apply kept_sent. Qed.

Lemma kept_env en k en' : env_le en' en -> kept 0 en k en' k.
Proof. intros Hle. rewrite <- (with_held_id k) at 2. apply kept_held; [done|by left]. Qed.

Lemma kept_console en k en' out err :
  env_le en' en -> kept 0 en k en' (with_stdout out (with_stderr err k)).
Proof.
  intros Hle. apply kept_talked; [by split; [|left|..]|by exists []; rewrite app_nil_r|].
  intros fd _. exists []. rewrite app_nil_r. split_and!; [done|apply spoken_nil|by right].
Qed.

(** A logged-in client is being served. *)
Record serving (en : env) (k : kern server) : Prop := {
  sv_registry : registry_ok (k_static k);
  sv_sockets : sockets_open k;
  sv_registered : registered (k_static k) sock;
  sv_fuel : stream_fuel F en;
  sv_sock : 0 <= sock
}.

Definition same (k k' : kern server) : Prop := k_static k' = k_static k /\ k_fds k' = k_fds k.

Lemma serving_kept n en k en' k' : kept n en k en' k' -> same k k' -> serving en k -> serving en' k'.
Proof.
  intros [E _ _ _ _ _ _ _ _ _ _ _ _] [S Fd] [A B' C D G].
  split; rewrite ?S; try done; [unfold sockets_open; by rewrite S, Fd|]. unfold stream_fuel in *. env_lia.
Qed.

(** [p] does nothing but serve, making at most [n] paths. *)
Definition keeps {A} (n : nat) (p : prog server A) : Prop := forall en k, serving en k ->
  wp p (fun _ w => kept n en k (w_env w) (w_kern w) /\ same k (w_kern w)) (W en k).

Lemma keeps_ret {A} (a : A) : keeps 0 (mret a).
Proof. intros en k _. apply wp_ret. split; [apply kept_refl|done]. Qed.

Lemma keeps_bind {A A'} n m (p : prog server A) (g : A -> prog server A') :
  keeps n p -> (forall a, keeps m (g a)) -> keeps (n + m) (p ≫= g).
Proof.
  intros Hp Hg en k Hs. apply wp_bind. eapply wp_mono; [by apply Hp|]. intros a [en1 k1] [K1 [S1 F1]]. simpl in *.
  eapply wp_mono; [apply Hg; by eapply serving_kept|]. intros b [en2 k2] [K2 [S2 F2]]. simpl in *.
  split; [by eapply kept_trans|split; congruence].
Qed.

Lemma keeps_then {A A'} (p : prog server A) (g : A -> prog server A') :
  keeps 0 p -> (forall a, keeps 0 (g a)) -> keeps 0 (p ≫= g).
Proof. apply (keeps_bind 0 0). Qed.

Lemma keeps_weaken {A} n m (p : prog server A) : (n <= m)%nat -> keeps n p -> keeps m p.
Proof.
  intros Hle Hp en k Hs. eapply wp_mono; [by apply Hp|]. intros a w [K S]. split; [by eapply kept_weaken|done].
Qed.

(** A program needs to be looked at only outside of the critical sections. *)
Lemma kept_unlocked {A} n (R : A -> env -> kern server -> Prop) (p : prog server A) en k :
  (forall a en' k' h, R a en' k' -> R a en' (with_held h k')) ->
  (forall h, unlocked h ->
     wp p (fun a w => kept n en (with_held h k) (w_env w) (w_kern w) /\ R a (w_env w) (w_kern w)) (W en (with_held h k))) ->
  wp p (fun a w => kept n en k (w_env w) (w_kern w) /\ R a (w_env w) (w_kern w)) (W en k).
Proof.
  intros HR Hp. apply (wp_any_held unlocked); [split; set_solver|..].
  - intros Hu. specialize (Hp _ Hu). by rewrite with_held_id in Hp.
  - intros Hn. eapply wp_mono; [apply Hp; split; set_solver|].
    intros a [en' k'] [[] HRa] h. simpl in *. split; [|by apply HR]. split; try done.
Qed.

Lemma keeps_unlocked {A} n (p : prog server A) :
  (forall en k, serving en k -> unlocked (k_held k) ->
     wp p (fun _ w => kept n en k (w_env w) (w_kern w) /\ same k (w_kern w)) (W en k)) -> keeps n p.
Proof.
  intros Hp en k Hs. apply (kept_unlocked n (fun _ _ k' => same k k')); [done|]. intros h Hu.
  eapply wp_mono; [apply Hp; [by destruct Hs|done]|]. by intros a w [K S].
Qed.

Lemma keeps_log lvl src text : keeps 0 (log lvl src text).
Proof.
  intros en k _. apply wp_log_last. intros en' Hle. split; [by apply kept_env|done].
Qed.

Lemma wp_last_call (e : sys server) (Q : ans e -> world server -> Prop) w : Q (fst (sem e w)) (snd (sem e w)) -> wp (call e) Q w.
Proof. intros HQ. unfold call, wp. by destruct (sem e w). Qed.

Lemma keeps_puts text : keeps 0 (call (Puts text)).
Proof.
  intros en k _. apply wp_last_call. simpl. split; [|done].
  replace (with_stdout _ k) with (with_stdout (k_stdout k ++ text) (with_stderr (k_stderr k) k)) by by destruct k.
  by apply kept_console.
Qed.

Lemma keeps_eputs text : keeps 0 (call (Eputs text)).
Proof.
  intros en k _. apply wp_last_call. simpl. split; [|done].
  replace (with_stderr _ k) with (with_stdout (k_stdout k) (with_stderr (k_stderr k ++ text) k)) by by destruct k.
  by apply kept_console.
Qed.

Lemma keeps_send type payload : keeps 0 (client_manager_send F sock type (Some payload)).
Proof.
  intros en k [A B' C D G]. apply wp_client_manager_send; [done|by apply stream_fuel_ok|..].
  - intros en' h r Hle Hh _. split; [by apply kept_held|done].
  - intros en' h r out Hle Hh _ _ _. split; [by apply kept_sent|done].
Qed.

Lemma keeps_reply type payload : keeps 0 (reply F sock type payload).
Proof. apply keeps_then; [apply keeps_send|intros; apply keeps_ret]. Qed.

(** ** Messages to other clients *)

Lemma shipped_spoken type text en' en out :
  type = MSG_BROADCAST \/ type = MSG_PRIVATE -> shipped type (name ++ B ": " ++ text) en' en out -> spoken name en' en out.
Proof.
  intros Ht Hs. assert (Hpre : out `prefix_of` frame type (name ++ B ": " ++ text)).
  { destruct Hs as [->|(_ & n & _ & ->)]; [done|apply take_prefix_of]. }
  split; [exists [out]; split; [|simpl; by rewrite app_nil_r]; apply Forall_singleton; by exists type, text|].
  destruct Hs as [->|[? _]]; [right; by apply authored_one|by left].
Qed.

Lemma sent_each_same l k :
  k_static (sent_each l k) = k_static k /\ k_held (sent_each l k) = k_held k /\ k_fds (sent_each l k) = k_fds k /\
  k_locks (sent_each l k) = k_locks k /\ k_pid (sent_each l k) = k_pid k /\ k_self (sent_each l k) = k_self k /\
  k_in (sent_each l k) = k_in k /\ k_tree (sent_each l k) = k_tree k /\ k_inodes (sent_each l k) = k_inodes k.
Proof. destruct (sent_each_frame l k) as [E _]. split_and!.
  all: match goal with |- ?f (sent_each _ _) = _ => by apply (f_equal f) in E end.
Qed.

Lemma keeps_broadcast text :
  keeps 0 (client_manager_broadcast F sock MSG_BROADCAST (Some (name ++ B ": " ++ text))).
Proof.
  intros en k [A B' C D G]. apply wp_client_manager_broadcast; [done|done|by apply stream_fuel_ok|..].
  2:{ intros _. split; [apply kept_refl|done]. }
  intros en' h err outs r Hle Hh Hlen Hsh _ _.
  set (fds := others (k_static k) sock) in *. destruct (sent_each_same (zip fds outs) k) as (S1 & _ & S3 & S4 & S5 & S6 & S7 & S8 & S9).
  split; [|by split]. simpl. apply kept_talked; [split; simpl; done|simpl..].
  - exists []. rewrite app_nil_r. apply stream_sent_each_other. rewrite fst_zip by lia. unfold fds.
    rewrite elem_of_others. by intros [_ ?].
  - intros fd Hne. destruct (decide (fd ∈ fds)) as [Hin|Hin].
    + pose proof (stream_sent_each fds outs k (others_NoDup _ _ A) Hlen) as Hall.
      apply list_elem_of_lookup in Hin as [i Hi]. destruct (Forall2_lookup_l _ _ _ _ _ Hall Hi) as (out & Ho & ->).
      exists out. split_and!; [done| |].
      * eapply shipped_spoken; [by left|]. by eapply (Forall_lookup_1 _ _ _ _ Hsh).
      * left. by apply (elem_of_others _ sock), list_elem_of_lookup_2 with i.
    + exists []. rewrite app_nil_r. split_and!; [|apply spoken_nil|by right].
      apply stream_sent_each_other. by rewrite fst_zip by lia.
Qed.

Lemma keeps_private target text :
  keeps 0 (client_manager_send_to_username F (Some target) MSG_PRIVATE (Some (name ++ B ": " ++ text))).
Proof.
  intros en k [A B' C D G]. apply wp_client_manager_send_to_username; [done|done|by apply stream_fuel_ok|..].
  - intros en' h r Hle Hh _. split; [by apply kept_held|done].
  - intros en' h r fd id out Hle Hh Hu Hs Hd. split; [|done]. simpl. apply kept_talked; [by split|simpl..].
    + rewrite stream_app. case_decide; [subst fd; by eexists|]. exists []. by rewrite app_nil_r.
    + intros fd' Hne. rewrite stream_app. case_decide as Hfd.
      * subst fd'. exists out. split_and!; [done| |].
        -- eapply shipped_spoken; [by right|]. by eapply delivered_shipped.
        -- left. apply users_lookup in Hu as (i & e & ? & ? & _ & ? & _); [|done]. by exists i, e.
      * exists []. rewrite app_nil_r. split_and!; [done|apply spoken_nil|by right].
Qed.

Lemma keeps_userlist size : 2049 <= size -> keeps 0 (client_manager_build_userlist size).
Proof.
  intros Hsz. apply keeps_unlocked. intros en k [A B' C D G] Hu.
  apply wp_client_manager_build_userlist; [done|done|done|].
  intros en' h r l Hle Hh _. split; [by apply kept_held|done].
Qed.

(** ** Requests for files *)

(** A request that is only answered, its lock files apart. *)
Lemma kept_quiet file en k en' k' : quiet file sock en k en' k' -> kept 3 en k en' k'.
Proof.
  intros [E Hh S P Fd L I O [sent Hs] [T N D]]. split; try done; rewrite ?S, ?Fd, ?I; try done.
  - by exists sent, 0%nat.
  - intros fd Hne. exists []. rewrite app_nil_r. split_and!; [by apply O|apply spoken_nil|by right].
  - intros p nd Hp _. by apply T.
  - intros p Hp Hs'. left. destruct (N p Hp Hs') as [->|?]; [by left|right; by exists file].
  - apply (size_new_keys _ _ [storage_path; locks_path; lock_path file]).
    intros p Hp Hs'. destruct (N p Hp Hs') as [->|[->| ->]]; set_solver.
Qed.

Lemma keeps_download user file : keeps 3 (file_manager_handle_download F sock (Some user) (Some file)).
Proof.
  intros en k [A B' C D G]. eapply wp_mono; [by apply wp_handle_download|]. intros r [en' k'] Ho. cbn [w_env w_kern] in *.
  assert (Hq : quiet file sock en k en' k') by (destruct (is_valid_shared_filename _); apply Ho).
  split; [by eapply kept_quiet|]. split; apply Hq.
Qed.

Lemma serve_list user en k :
  serving en k -> list_fuel F k ->
  wp (file_manager_handle_list F sock (Some user)) (fun _ w => kept 3 en k (w_env w) (w_kern w) /\ same k (w_kern w)) (W en k).
Proof.
  intros [A B' C D G] Hl. eapply wp_mono; [by apply wp_handle_list; [..|apply stream_fuel_ok|]|].
  intros r [en' k'] [Hq _]. simpl in *. split; [by eapply kept_quiet|]. split; apply Hq.
Qed.

Lemma upload_outcome_stored file size en k r en' k' :
  filename_ok file -> 0 <= size -> upload_outcome sock file size en k r en' k' ->
  k_tree k !! entry_path file = None -> is_Some (k_tree k' !! entry_path file) ->
  stored_from (stream (k_in k) sock) k' (entry_path file).
Proof.
  intros Hf Hsz Ho Hn Hs. destruct (uo_dest _ _ _ _ _ _ _ _ Ho) as [Heq|(_ & Hlen & ino & mode & Ht & Hi)].
  - rewrite Heq, Hn in Hs. by destruct Hs.
  - exists file, ino, (Z.to_nat size), 0%nat, mode. rewrite drop_0. split_and!; try done. unfold zlen in Hlen. lia.
Qed.

Lemma kept_upload file size en k r en' k' :
  filename_ok file -> 0 <= size -> upload_outcome sock file size en k r en' k' -> kept 5 en k en' k' /\ same k k'.
Proof.
  intros Hf Hsz Ho. pose proof (upload_outcome_stored _ _ _ _ _ _ _ Hf Hsz Ho) as Hst.
  destruct Ho as [E Hh S P Fd L Ot (sent & taken & Hs & Ht) T D N _ _]. split; [|done].
  split; try done; rewrite ?S, ?Fd; try done.
  - intros fd Hne. by apply Ot.
  - by exists sent, taken.
  - intros fd Hne. exists []. rewrite app_nil_r. split_and!; [by apply Ot|apply spoken_nil|by right].
  - intros p Hp Hs'. destruct (N p Hp Hs') as [->|[?|[->|[? _]]]].
    + left. by left.
    + left. right. by exists file.
    + right. right. by apply Hst.
    + right. by left.
  - apply (size_new_keys _ _ [storage_path; locks_path; lock_path file; entry_path file; upload_tmp sock k]).
    intros p Hp Hs'. destruct (N p Hp Hs') as [->|[[->| ->]|[->|[-> _]]]]; set_solver.
Qed.

Lemma keeps_upload user metadata : keeps 5 (file_manager_handle_upload F sock (Some user) (Some metadata)).
Proof.
  intros en k [A B' C D G]. eapply wp_mono; [by apply wp_handle_upload|]. intros r [en' k'] Ho. cbn [w_env w_kern] in *.
  destruct (parse_upload_metadata (Some metadata) FILE_NAME_MAX_SIZE) as [[file size]|] eqn:Hp.
  - apply parse_upload_iff in Hp as (Hf & _ & text & _ & Hn). destruct Ho as [Ho _].
    eapply kept_upload; [done|by eapply numeral_nonneg|done].
  - destruct Ho as (Hle & Hh & out & Hd & Hk). rewrite Hk. split; [|done].
    apply (kept_weaken _ _ 0 5); [lia|]. by apply kept_sent.
Qed.

(** ** The dispatch *)

Lemma sprintf_fit_text size text s : sprintf_fit size text = Some s -> s = text.
Proof. by intros [-> _]%sprintf_fit_Some. Qed.

Ltac serve_with handler :=
  repeat first
    [ handler | apply keeps_log | apply keeps_puts | apply keeps_eputs | apply keeps_ret | apply keeps_reply | apply keeps_send
    | apply keeps_then; [|intros ?]
    | match goal with |- keeps _ (match ?p with (_, _) => _ end) => destruct p end
    | match goal with |- keeps _ (if ?b then _ else _) => destruct b end
    | match goal with
      | |- keeps _ (match sprintf_fit ?n ?t with _ => _ end) =>
          let E := fresh "E" in destruct (sprintf_fit n t) eqn:E; [apply sprintf_fit_text in E; subst|]
      end ].

Ltac serve := serve_with fail.

Lemma keeps_chat client_id payload : keeps 0 (handle_chat F sock client_id name payload).
Proof. unfold handle_chat. serve. apply keeps_broadcast. Qed.

Lemma keeps_private_message client_id payload : keeps 0 (handle_private F sock client_id name payload).
Proof.
  unfold handle_private. destruct (strchr payload SPACE) as [separator|]; [|serve]. cbv zeta. serve. apply keeps_private.
Qed.

Lemma keeps_list_users : keeps 0 (handle_list_users F sock name).
Proof. unfold handle_list_users. apply keeps_then; [by apply keeps_userlist|intros [users list]]. cbv zeta. serve. Qed.

Lemma keeps_dispatch client_id type payload :
  type ≠ MSG_LIST_FILES -> keeps 5 (dispatch F sock client_id name type payload).
Proof.
  intros Hne. destruct (decide (type = MSG_UPLOAD)) as [->|H1].
  { change (dispatch F sock client_id name MSG_UPLOAD payload) with
      (r ← file_manager_handle_upload F sock (Some name) (Some payload); mret (negb (r <? 0))).
    apply (keeps_bind 5 0); [apply keeps_upload|intros; apply keeps_ret]. }
  destruct (decide (type = MSG_DOWNLOAD)) as [->|H2].
  { change (dispatch F sock client_id name MSG_DOWNLOAD payload) with
      (r ← file_manager_handle_download F sock (Some name) (Some payload); mret (negb (r <? 0))).
    apply (keeps_weaken 3 5); [lia|]. apply (keeps_bind 3 0); [apply keeps_download|intros; apply keeps_ret]. }
  apply (keeps_weaken 0 5); [lia|]. unfold dispatch.
  rewrite (proj2 (Z.eqb_neq type MSG_UPLOAD)), (proj2 (Z.eqb_neq type MSG_DOWNLOAD)), (proj2 (Z.eqb_neq type MSG_LIST_FILES)) by done.
  serve_with ltac:(first [apply keeps_chat|apply keeps_private_message|apply keeps_list_users]).
Qed.

Lemma serve_dispatch client_id type payload en k :
  serving en k -> list_fuel F k ->
  wp (dispatch F sock client_id name type payload) (fun _ w => kept 5 en k (w_env w) (w_kern w) /\ same k (w_kern w)) (W en k).
Proof.
  intros Hs Hl. destruct (decide (type = MSG_LIST_FILES)) as [->|Hne]; [|by apply keeps_dispatch].
  change (dispatch F sock client_id name MSG_LIST_FILES payload) with
    (list_result ← file_manager_handle_list F sock (Some name); mret (negb (list_result <? 0))).
  apply wp_bind. eapply wp_mono; [by apply serve_list|]. intros r w [K S]. apply wp_ret.
  split; [by eapply kept_weaken; [|done]; lia|done].
Qed.

(** ** The loop over the messages *)

Lemma kept_received en k en' m : env_le en' en -> kept 0 en k en' (received_in sock m k).
Proof.
  intros Hle. split; simpl; try done.
  - by left.
  - intros fd Hne. rewrite stream_drop. by rewrite decide_False.
  - exists [], m. by rewrite app_nil_r, stream_drop_eq.
  - intros fd Hne. exists []. rewrite app_nil_r. split_and!; [done|apply spoken_nil|by right].
  - intros p -> [? ?]. done.
  - lia.
Qed.

(** Serving, with a bound for the entries of the store that each message of
    the client may add. *)
Definition roomy (k : kern server) : Prop :=
  (size (k_tree k) + length (stream (k_in k) sock) + 4 < F)%nat /\
  Z.of_nat (size (k_tree k)) + zlen (stream (k_in k) sock) + 4 < 2 ^ 31.

Lemma roomy_list k : roomy k -> list_fuel F k.
Proof. unfold roomy, list_fuel, zlen. lia. Qed.

(** A message of at least eight bytes pays for five entries. *)
Lemma roomy_step n en k en' k' :
  roomy k -> kept n en k en' k' ->
  (length (stream (k_in k') sock) + n <= length (stream (k_in k) sock))%nat -> roomy k'.
Proof. intros [? ?] [] ?. unfold roomy, zlen in *. lia. Qed.

Definition served_out (en : env) (k : kern server) (w : world server) : Prop :=
  (exists n, kept n en k (w_env w) (w_kern w)) /\ same k (w_kern w).

Lemma served_trans n en k en1 k1 w : kept n en k en1 k1 -> same k k1 -> served_out en1 k1 w -> served_out en k w.
Proof.
  intros K1 [S1 F1] [[m K2] [S2 F2]]. split; [exists (n + m)%nat; by eapply kept_trans|split; congruence].
Qed.

Lemma served_keeps {A} n (p : prog server A) en k : serving en k -> keeps n p -> wp p (fun _ => served_out en k) (W en k).
Proof. intros Hs Hp. eapply wp_mono; [by apply Hp|]. intros _ w [K S]. split; [by exists n|done]. Qed.

Lemma serve_loop fuel client_id en k :
  serving en k -> roomy k -> (length (stream (k_in k) sock) < fuel)%nat ->
  wp (client_loop F fuel sock client_id name) (fun _ => served_out en k) (W en k).
Proof.
  revert en k. induction fuel as [|fuel IH]; intros en k Hs Hr Hf; [lia|]. cbn [client_loop].
  pose proof Hs as [A B' (i & e & Hi & Ha & He) D G].
  assert (Hopen : k_fds k !! sock = Some FdSocket) by (rewrite <- He; by eapply B').
  apply wp_bind, wp_receive_message; [done|by apply stream_fuel_ok|done|..].
  - intros en1 t p Hle1 _ [rest Hpre].
    pose proof (kept_received en k en1 (8 + length p) Hle1) as K1.
    assert (Hs1 : serving en1 (received_in sock (8 + length p) k)) by by eapply serving_kept.
    assert (Hlen : (length (stream (k_in (received_in sock (8 + length p) k)) sock) + 8
                    <= length (stream (k_in k) sock))%nat).
    { unfold received_in. cbn [k_in with_in]. rewrite stream_drop_eq, Hpre, length_drop, length_app, length_frame. lia. }
    set (k1 := received_in _ _ k) in *. assert (Hr1 : roomy k1) by (eapply roomy_step; [done|done|lia]).
    apply wp_bind. eapply wp_mono; [apply serve_dispatch; [done|by apply roomy_list]|].
    intros [] [en2 k2] [K2 S2]; cbn [w_env w_kern] in *.
    2:{ apply wp_ret. eapply served_trans; [done|by split|]. split; [by eexists|done]. }
    assert (Hr2 : roomy k2 /\ (length (stream (k_in k2) sock) < fuel)%nat).
    { pose proof (kp_own _ _ _ _ _ _ _ K2) as (_ & taken & _ & Ht). pose proof (kp_size _ _ _ _ _ _ _ K2).
      pose proof (kp_size _ _ _ _ _ _ _ K1). unfold roomy, zlen in *. rewrite Ht, length_drop. lia. }
    eapply wp_mono; [apply IH; [by eapply serving_kept|apply Hr2|apply Hr2]|].
    intros [] w Hw. eapply served_trans; [done|by split|]. by eapply served_trans.
  - intros en1 r n Hle1 _ _. pose proof (kept_received en k en1 n Hle1) as K1.
    assert (Hs1 : serving en1 (received_in sock n k)) by by eapply serving_kept.
    eapply (wp_mono _ (fun _ => served_out en1 (received_in sock n k)));
      [|intros _ w Hw; by eapply served_trans; [done|by split|]].
    destruct (r == 1); (eapply served_keeps; [done|serve]).
Qed.

(** ** Entering and leaving the registry *)

Lemma kept_static en k en' h s :
  env_le en' en -> (unlocked (k_held k) -> held_ok en' en h (k_held k)) ->
  (forall fd, fd ≠ sock -> registered s fd <-> registered (k_static k) fd) ->
  kept 0 en k en' (with_held h (with_static s k)).
Proof.
  intros Hle Hh Hreg. split; simpl; try done.
  - exists [], 0%nat. by rewrite app_nil_r.
  - intros fd _. exists []. rewrite app_nil_r. split_and!; [done|apply spoken_nil|by right].
  - intros p -> [? ?]. done.
  - lia.
Qed.

(** An accepted connection, before the login. *)
Record accepted (en : env) (k : kern server) : Prop := {
  ac_registry : registry_ok (k_static k);
  ac_sockets : sockets_open k;
  ac_new : ~ registered (k_static k) sock;
  ac_open : k_fds k !! sock = Some FdSocket;
  ac_ids : next_client_id (k_static k) < 2 ^ 31;
  ac_fuel : stream_fuel F en;
  ac_sock : 0 <= sock
}.

Lemma accepted_kept n en k en' k' : kept n en k en' k' -> same k k' -> accepted en k -> accepted en' k'.
Proof.
  intros [E _ _ _ _ _ _ _ _ _ _ _ _] [S Fd] []. split; rewrite ?S, ?Fd; try done;
    [unfold sockets_open; by rewrite S, Fd|]. unfold stream_fuel in *. env_lia.
Qed.

(** What [client_manager_add] makes of it. *)
Definition added (user : bytes) (en : env) (k : kern server) (r : Z) (en' : env) (k' : kern server) : Prop :=
  r < 0 /\ same k k' \/
  username_ok user /\ users (k_static k) !! user = None /\ k_fds k' = k_fds k /\ sockets_open k' /\
    registry_ok (k_static k') /\ users (k_static k') = <[user := (sock, next_client_id (k_static k))]> (users (k_static k)) /\
    (r = next_client_id (k_static k) \/ r = -1 /\ env_lt en' en).

Lemma add_state_sockets i e0 thread user k :
  registry_ok (k_static k) -> clients (k_static k) !! i = Some e0 -> k_fds k !! sock = Some FdSocket -> username_ok user ->
  sockets_open k -> sockets_open (with_static (add_state (Z.of_nat i) sock thread user (k_static k)) k).
Proof.
  intros Hok Hi Ho Hu Hso j e. cbn [k_static with_static k_fds]. rewrite (add_state_lookup _ i e0 sock thread user) by done.
  case_decide; [intros [= <-] _; done|apply Hso].
Qed.

Lemma wp_login_add thread user en k :
  accepted en k ->
  wp (client_manager_add sock thread (Some user)) (fun r w =>
    kept 0 en k (w_env w) (w_kern w) /\ added user en k r (w_env w) (w_kern w)) (W en k).
Proof.
  intros [A B' C D G J K]. apply (kept_unlocked 0 (added user en k)); [done|]. intros h0 Hu.
  apply wp_client_manager_add; [done|apply Hu|..].
  - intros en' h r Hle Hh Hr. split; [by apply kept_held|left]. split; [|done]. destruct Hr as [(-> & _)|(-> & _)]; lia.
  - intros en' h r i e0 Hle Hh Hname Hfree Hi Hact Hr.
    pose proof (reg_next _ A). assert (Hid : next_client_id (k_static k) < 2 ^ 32 - 1) by lia.
    split; [apply kept_static; [done|done|]|right].
    + intros fd Hne. rewrite (add_state_registered _ i e0 sock thread user) by done. naive_solver.
    + split_and!; try done.
      * by apply (add_state_sockets i e0).
      * by apply (add_state_ok _ i e0).
      * by apply (add_state_users _ i e0).
      * destruct Hr as [->|?]; [left|by right]. change (k_static (with_held h0 k)) with (k_static k). unfold i32. rewrite Z.mod_small; lia.
Qed.

(** What [client_manager_remove] does for the client [user]. *)
Definition removed (user : bytes) (en : env) (k : kern server) (en' : env) (k' : kern server) : Prop :=
  k_fds k' = k_fds k /\
  (registry_ok (k_static k') /\ users (k_static k') = delete user (users (k_static k)) \/ env_lt en' en /\ k_static k' = k_static k).

Lemma wp_logout user id en k :
  serving en k -> users (k_static k) !! user = Some (sock, id) ->
  wp (client_manager_remove sock) (fun _ w => kept 0 en k (w_env w) (w_kern w) /\ removed user en k (w_env w) (w_kern w)) (W en k).
Proof.
  intros [A B' C D G] Hname. apply (kept_unlocked 0 (fun _ => removed user en k)); [done|]. intros h0 Hu.
  apply wp_client_manager_remove; [done|..].
  - intros en' h r Hle Hh Hr. split; [by apply kept_held|]. split; [done|right].
    destruct Hr as [[_ Hn]|[_ ?]]; [by destruct Hn|done].
  - intros en' h r i e Hle Hh Hi Ha Hsk Hr.
    change (k_static (with_held h0 k)) with (k_static k) in *.
    apply users_lookup in Hname as (j & e' & Hj & Ha' & Hn & Hsk' & _); [|done].
    assert (i = j) as -> by (eapply (reg_sockets _ A); try done; congruence).
    assert (e' = e) as -> by congruence.
    split; [apply kept_static; [done|done|]|split; [done|left]].
    + intros fd Hne. rewrite (remove_state_registered _ j e) by done. naive_solver.
    + simpl. split; [by apply (remove_state_ok _ j e)|rewrite <- Hn; by apply (remove_state_users _ j e)].
Qed.

(** ** The login *)

Lemma wp_send_message type payload Q en (k : kern server) :
  k_fds k !! sock = Some FdSocket -> fuel_ok F en ->
  (forall en' r out, env_le en' en -> Q r (W en' (sent_out sock out k))) ->
  wp (send_message F sock type (Some payload)) Q (W en k).
Proof.
  intros Ho HF HQ. unfold send_message. case_if; [apply wp_ret; rewrite <- (sent_out_nil sock k); by apply HQ|]. cbv zeta.
  case_if; [apply wp_ret; rewrite <- (sent_out_nil sock k); by apply HQ|].
  apply wp_bind, wp_send_all; [done|done|..].
  2:{ intros en1 m Hlt _. apply wp_ret. apply HQ. by apply env_lt_le. }
  intros en1 Hle1. cbn [negb Z.eqb]. case_if; [apply wp_ret; by apply HQ|].
  apply wp_send_all; [done|by eapply fuel_ok_le|..].
  - intros en2 Hle2. rewrite sent_out_app. apply HQ. by etransitivity.
  - intros en2 m Hlt _. rewrite sent_out_app. apply HQ. env_lia.
Qed.

(** A login that did not succeed leaves the registry as it was, unless a
    call has failed: then the name may have stayed in the table. *)
Definition left_over (en : env) (k : kern server) (en' : env) (k' : kern server) : Prop :=
  k_fds k' = k_fds k /\ registry_ok (k_static k') /\
  (users (k_static k') = users (k_static k) \/
   env_lt en' en /\ exists user id, users (k_static k) !! user = None /\
     users (k_static k') = <[user := (sock, id)]> (users (k_static k))).

Definition logged_in (user : bytes) (en : env) (k : kern server) (en' : env) (k' : kern server) : Prop :=
  serving en' k' /\ k_fds k' = k_fds k /\ username_ok user /\ users (k_static k) !! user = None /\
  users (k_static k') = <[user := (sock, next_client_id (k_static k))]> (users (k_static k)).

Definition login_outcome (en : env) (k : kern server) (r : Z * bytes) (w : world server) : Prop :=
  kept 0 en k (w_env w) (w_kern w) /\
  (r.1 <= 0 /\ left_over en k (w_env w) (w_kern w) \/ 0 < r.1 /\ logged_in r.2 en k (w_env w) (w_kern w)).

Lemma same_left_over en k en' k' : registry_ok (k_static k) -> same k k' -> left_over en k en' k'.
Proof. intros Hok [S Fd]. split_and!; rewrite ?S; auto. Qed.

Lemma added_serving user en k en' k' :
  accepted en k -> env_le en' en -> users (k_static k) !! user = None -> k_fds k' = k_fds k -> sockets_open k' ->
  registry_ok (k_static k') -> users (k_static k') = <[user := (sock, next_client_id (k_static k))]> (users (k_static k)) ->
  username_ok user -> logged_in user en k en' k'.
Proof.
  intros [A B' C D G J K] Hle Hu Fd So Ok Us Hn. split_and!; try done. split; try done.
  - assert (Hl : users (k_static k') !! user = Some (sock, next_client_id (k_static k))) by by rewrite Us, lookup_insert_eq.
    apply users_lookup in Hl as (i & e & ? & ? & _ & ? & _); [|done]. by exists i, e.
  - unfold stream_fuel in *. env_lia.
Qed.

(** From the registration on: the client is told, or removed again. *)
Lemma wp_login_success user id en k en1 k1 :
  logged_in user en k en1 k1 -> kept 0 en k en1 k1 -> 0 < id ->
  wp (match sprintf_fit (USERNAME_MAX_SIZE + 32) (B "LOGIN_SUCCESS " ++ user) with
      | None => _ ← client_manager_remove sock; mret (-1, user)
      | Some response =>
          r ← client_manager_send F sock MSG_RESPONSE (Some response);
          if r != 0 then
            _ ← log LOG_ERROR AUTH (B "Failed to send login success client_id=" ++ sdec id ++ B " username=" ++ user);
            _ ← client_manager_remove sock;
            mret (-1, user)
          else
            _ ← log LOG_INFO AUTH (B "Login success client_id=" ++ sdec id ++ B " username=" ++ user);
            mret (id, user)
      end) (login_outcome en k) (W en1 k1).
Proof.
  intros (Hs & Hf & Hok & Hnew & Hus) K1 Hid.
  rewrite sprintf_fit_ok by (destruct Hok as [Hl _]; rewrite zlen_app; unfold USERNAME_MAX_SIZE; change (zlen (B "LOGIN_SUCCESS ")) with 14; lia).
  apply wp_bind. eapply wp_mono; [by apply keeps_send|]. intros r [en2 k2] [K2 S2]. cbn [w_env w_kern] in *.
  pose proof (serving_kept _ _ _ _ _ K2 S2 Hs) as Hs2. pose proof (kept_trans _ _ _ _ _ _ _ _ _ _ K1 K2) as K12.
  destruct S2 as [S2 F2]. case_if; apply wp_log; intros en3 Hle3.
  - apply wp_bind. eapply wp_mono; [apply (wp_logout user (next_client_id (k_static k)))|].
    + eapply serving_kept; [by apply kept_env|done|done].
    + by rewrite S2, Hus, lookup_insert_eq.
    + intros r' [en4 k4] [K4 [F4 R4]]. cbn [w_env w_kern] in *. apply wp_ret.
      pose proof (kept_trans _ _ _ _ _ _ _ _ _ _ K12 (kept_trans _ _ _ _ _ _ _ _ _ _ (kept_env en2 k2 en3 Hle3) K4)) as K14.
      split; [done|left]. split; [done|]. split; [cbn [w_kern]; congruence|]. cbn [w_env w_kern].
      destruct R4 as [[R4 U4]|[Hlt R4]]; [split; [done|left]|split; [rewrite R4; by destruct Hs2|right]].
      * rewrite U4, S2, Hus. by rewrite delete_insert_id.
      * split; [destruct K12; env_lia|]. exists user, (next_client_id (k_static k)). split; [done|]. by rewrite R4, S2.
  - apply wp_ret. pose proof (kept_trans _ _ _ _ _ _ _ _ _ _ K12 (kept_env en2 k2 en3 Hle3)) as K13.
    split; [done|right]. split; [done|]. split_and!; cbn [w_kern w_env snd]; try done; [|congruence|by rewrite S2].
    eapply serving_kept; [by apply kept_env|done|done].
Qed.

(** Refusals, before the client is registered: a message at most. *)
Lemma wp_refuse_login r user en k en1 k1 type text lvl log_text :
  accepted en k -> same k k1 -> kept 0 en k en1 k1 -> r <= 0 ->
  wp (_ ← send_message F sock type (Some text); _ ← log lvl AUTH log_text; mret (r, user)) (login_outcome en k) (W en1 k1).
Proof.
  intros Ha [S Fd] K Hr. pose proof Ha as [A B' C D G J L]. pose proof (kp_env _ _ _ _ _ _ _ K) as Hle.
  apply wp_bind, wp_send_message; [by rewrite Fd|by eapply fuel_ok_le, stream_fuel_ok|].
  intros en2 r' out Hle2. apply wp_log. intros en3 Hle3. apply wp_ret.
  split; [|left; split; [done|by apply same_left_over]].
  eapply (kept_trans _ _ 0 0); [done|]. apply kept_sent; [env_lia|by left].
Qed.

Lemma wp_drop_login r user en k en1 k1 lvl log_text :
  accepted en k -> same k k1 -> kept 0 en k en1 k1 -> r <= 0 ->
  wp (_ ← log lvl AUTH log_text; mret (r, user)) (login_outcome en k) (W en1 k1).
Proof.
  intros Ha S K Hr. pose proof (ac_registry _ _ Ha). apply wp_log. intros en2 Hle2. apply wp_ret.
  split; [|left; split; [done|by apply same_left_over]]. by eapply (kept_trans _ _ 0 0), kept_env.
Qed.

Lemma wp_perform_login en k : accepted en k -> wp (perform_login F sock USERNAME_MAX_SIZE) (login_outcome en k) (W en k).
Proof.
  intros Ha. pose proof Ha as [A B' C D G J L]. unfold perform_login. change (USERNAME_MAX_SIZE <? USERNAME_MAX_SIZE) with false. cbv iota.
  apply wp_bind, wp_send_message; [done|by apply stream_fuel_ok|]. intros en1 r out Hle1.
  assert (K1 : kept 0 en k en1 (sent_out sock out k)) by (apply kept_sent; [done|by left]).
  case_if; [by apply wp_drop_login|].
  apply wp_bind, wp_receive_message; [done|by eapply fuel_ok_le, stream_fuel_ok|done|..].
  2:{ intros en2 r2 n Hle2 _ _. apply wp_drop_login; [done|done| |lia].
      eapply (kept_trans _ _ 0 0); [done|by apply kept_received]. }
  intros en2 t p Hle2 _ _. pose proof (kept_trans _ _ _ _ _ _ _ _ _ _ K1 (kept_received en1 (sent_out sock out k) en2 (8 + length p) Hle2)) as K2.
  set (k2 := received_in _ _ _) in *. assert (S2 : same k k2) by done.
  case_if; [by apply wp_refuse_login|]. case_if; [by apply wp_refuse_login|]. cbv zeta.
  set (user := strncpy_terminated _ _). apply wp_self, wp_bind.
  eapply wp_mono; [apply wp_login_add; by eapply accepted_kept|].
  intros id [en3 k3] [K3 Had]. cbn [w_env w_kern] in *.
  pose proof (kept_trans _ _ _ _ _ _ _ _ _ _ K2 K3) as K13.
  destruct Had as [[Hneg S3]|(Hu & Hnew & F3 & So & Ok & Us & Hid)].
  - assert (S13 : same k k3) by (destruct S2, S3; split; congruence).
    case_if; [by apply wp_refuse_login|]. rewrite (proj2 (Z.ltb_lt id 0)) by done. apply wp_refuse_login; try done.
  - assert (Hlog : logged_in user en k en3 k3) by (apply added_serving; try done; apply K13).
    pose proof (reg_next _ A) as Hnext. destruct Hid as [->|[-> Hlt]].
    + assert (Hpos : 0 < next_client_id (k_static k2)) by (change (k_static k2) with (k_static k); lia).
      rewrite (proj2 (Z.eqb_neq _ _)), (proj2 (Z.ltb_ge _ _)) by lia. by apply wp_login_success.
    + cbn [Z.eqb Z.ltb Z.compare]. apply wp_bind, wp_send_message.
      * rewrite F3. done.
      * eapply fuel_ok_le; [apply K13|by apply stream_fuel_ok].
      * intros en4 r4 out4 Hle4. apply wp_log. intros en5 Hle5. apply wp_ret.
        split; [|left; split; [done|]]; cbn [w_env w_kern].
        -- eapply (kept_trans _ _ 0 0); [done|]. apply kept_sent; [env_lia|by left].
        -- split_and!; [done|done|right]. split; [destruct K2; env_lia|]. by exists user, (next_client_id (k_static k)).
Qed.

(** ** The end of the connection *)

Lemma kept_closed en k en' :
  k_fds k !! sock = Some FdSocket -> env_le en' en -> kept 0 en k en' (close_fd k sock).
Proof.
  intros Ho Hle. unfold close_fd. rewrite Ho. split; simpl; try done.
  - by left.
  - intros fd Hne. by rewrite lookup_delete_ne.
  - exists [], 0%nat. by rewrite app_nil_r.
  - intros fd _. exists []. rewrite app_nil_r. split_and!; [done|apply spoken_nil|by right].
  - intros p -> [? ?]. done.
  - lia.
Qed.

Lemma wp_count en k :
  registry_ok (k_static k) ->
  wp client_manager_count (fun _ w => kept 0 en k (w_env w) (w_kern w) /\ same k (w_kern w)) (W en k).
Proof.
  intros A. apply (kept_unlocked 0 (fun _ _ k' => same k k')); [done|]. intros h Hu.
  apply wp_client_manager_count; [done|done|]. intros en' h' r Hle Hh _. split; [by apply kept_held|done].
Qed.

(** The socket is closed and the client's name is gone, unless a call failed. *)
Definition ended (user : bytes) (en : env) (k : kern server) (en' : env) (k' : kern server) : Prop :=
  kept 0 en k en' k' /\ k_fds k' !! sock = None /\
  (registry_ok (k_static k') /\ users (k_static k') = delete user (users (k_static k)) \/
   env_lt en' en /\ k_static k' = k_static k).

Lemma kept_stdout en k en' text : env_le en' en -> kept 0 en k en' (with_stdout (k_stdout k ++ text) k).
Proof.
  intros Hle. replace (with_stdout _ k) with (with_stdout (k_stdout k ++ text) (with_stderr (k_stderr k) k)) by by destruct k.
  by apply kept_console.
Qed.

(** The last reports of the thread. *)
Lemma wp_farewell lvl text1 text2 (R : env -> kern server -> Prop) en k :
  (forall en' out, env_le en' en -> R en' (with_stdout out k)) ->
  wp (_ ← log lvl CLIENT_HANDLER text1; call (Puts text2)) (fun _ w => R (w_env w) (w_kern w)) (W en k).
Proof. intros HR. apply wp_log. intros en1 Hle. apply (wp_last_call (Puts _)). by apply HR. Qed.

Lemma wp_connection_end client_id user id en k :
  serving en k -> users (k_static k) !! user = Some (sock, id) ->
  wp (connection_end sock client_id user) (fun _ w => ended user en k (w_env w) (w_kern w)) (W en k).
Proof.
  intros Hs Hu. pose proof Hs as [A B' (i & e & Hi & Ha & He) D G].
  assert (Hopen : k_fds k !! sock = Some FdSocket) by (rewrite <- He; by eapply B').
  unfold connection_end. apply wp_bind. eapply wp_mono; [by eapply wp_logout|].
  intros r [en1 k1] [K1 [F1 R1]]. cbn [w_env w_kern] in *.
  assert (A1 : registry_ok (k_static k1)) by (destruct R1 as [[? _]|[_ ->]]; done).
  apply wp_bind. apply (wp_mono _ (fun _ w => kept 0 en1 k1 (w_env w) (w_kern w) /\ same k1 (w_kern w))).
  { case_if; [apply (wp_last_call (Puts _)); split; [by apply kept_stdout|done]|]. apply wp_eputs, wp_log_last. intros en2 Hle2.
    split; [|done]. cbn [w_env w_kern].
    replace (with_stderr _ k1) with (with_stdout (k_stdout k1) (with_stderr (k_stderr k1 ++ B "Client " ++ sdec client_id ++ B " (" ++ user
      ++ B "): client manager removal failed." ++ [NEWLINE]) k1)) by by destruct k1.
    by apply kept_console. }
  intros _ [en2 k2] [K2 [S2 F2]]. cbn [w_env w_kern] in *.
  apply wp_bind. eapply wp_mono; [apply wp_count; by rewrite S2|]. intros n [en3 k3] [K3 [S3 F3]]. cbn [w_env w_kern] in *.
  apply wp_puts, wp_log. intros en4 Hle4. apply wp_close. intros en5 z Hle5 _. apply wp_self.
  apply (wp_farewell _ _ _ (ended user en k)). intros en6 out Hle6.
  assert (F4 : k_fds k3 = k_fds k) by congruence.
  split_and!.
  - apply (kept_trans _ _ 0 0 _ _ en1 k1); [done|]. apply (kept_trans _ _ 0 0 _ _ en2 k2); [done|].
    apply (kept_trans _ _ 0 0 _ _ en3 k3); [done|].
    eapply (kept_trans _ _ 0 0 _ _ en4); [by apply kept_stdout|].
    eapply (kept_trans _ _ 0 0 _ _ en5); [by apply kept_closed; [simpl; rewrite F4|]|].
    match goal with |- kept 0 _ ?k5 _ (with_stdout out _) => apply (kept_console en5 k5 en6 out (k_stderr k5) Hle6) end.
  - simpl. apply lookup_delete_eq.
  - change (k_static (with_stdout out _)) with (k_static k3). rewrite S3, S2. destruct R1 as [?|[? ?]]; [by left|right].
    split; [|done]. destruct K2, K3. env_lia.
Qed.
End keeps.

(** ** The whole service *)

Lemma wp_forall {S A X} `{!Inhabited X} (p : prog S A) (Q : X -> A -> world S -> Prop) w :
  (forall x, wp p (Q x) w) -> wp p (fun a w' => forall x, Q x a w') w.
Proof.
  revert w. induction p as [a|e g IH|]; intros w Hp; [exact Hp| |exact (Hp inhabitant)].
  change (let '(r, w') := sem e w in wp (g r) (fun a w' => forall x, Q x a w') w').
  change (forall x, let '(r, w') := sem e w in wp (g r) (Q x) w') in Hp.
  destruct (sem e w) as [r w']. by apply IH.
Qed.

Lemma no_user_unnamed s : registry_ok s -> users s !! ([] : bytes) = None.
Proof.
  intros Hok. apply users_lookup_None; [done|]. intros i e Hi Ha He.
  pose proof (reg_entries _ Hok _ _ Hi) as Ho. unfold entry_ok in Ho. rewrite Ha, He in Ho. destruct Ho as [Ho _].
  by destruct Ho as [[? ?] _].
Qed.

(** What the service of a client may have done when it ends. *)
Record session_outcome (sock : Z) (en : env) (k : kern server) (en' : env) (k' : kern server) : Prop := {
  so_registry : registry_ok (k_static k');
  so_users : users (k_static k') = users (k_static k) \/
    env_lt en' en /\ exists user id, users (k_static k) !! user = None /\
      users (k_static k') = <[user := (sock, id)]> (users (k_static k));
  so_closed : k_fds k' !! sock = None;
  so_kept : exists name n, users (k_static k) !! name = None /\ kept sock name n en k en' k'
}.

Section whole.
Context `{Libc} (F : nat) (sock : Z).

(** Right after the login. *)
Lemma wp_after_login client_id user en0 k0 en k :
  accepted F sock en0 k0 -> roomy F sock k ->
  kept sock user 0 en0 k0 en k -> logged_in F sock user en0 k0 en k ->
  wp (_ ← call (Puts (B "Client " ++ sdec client_id ++ B " registered: " ++ user ++ [NEWLINE]));
      _ ← client_loop F F sock client_id user;
      connection_end sock client_id user) (fun _ w => session_outcome sock en0 k0 (w_env w) (w_kern w)) (W en k).
Proof.
  intros Ha Hr K0 (Hs & Hf & Hok & Hnew & Hus). apply wp_puts.
  pose proof (kept_stdout sock user en k en (B "Client " ++ sdec client_id ++ B " registered: " ++ user ++ [NEWLINE]) ltac:(reflexivity)) as K1.
  set (k1 := with_stdout _ k) in *. apply wp_bind. eapply wp_mono; [apply (serve_loop F sock user)|].
  - eapply serving_kept; [exact K1|done|done].
  - exact Hr.
  - destruct Hr as [Hr _]. simpl. lia.
  - intros _ [en2 k2] [[n K2] [S2 F2]]. cbn [w_env w_kern] in *.
    assert (Hs2 : serving F sock en2 k2).
    { eapply serving_kept; [exact K2|by split|]. eapply serving_kept; [exact K1|done|done]. }
    assert (Hu2 : users (k_static k2) !! user = Some (sock, next_client_id (k_static k0))).
    { rewrite S2. change (k_static k1) with (k_static k). by rewrite Hus, lookup_insert_eq. }
    eapply wp_mono; [by eapply (wp_connection_end F sock user)|]. intros _ [en3 k3] (K3 & Hc & R3). cbn [w_env w_kern] in *.
    assert (K03 : kept sock user (0 + (0 + (n + 0))) en0 k0 en3 k3) by (repeat (eapply kept_trans; [done|]); done).
    rewrite S2 in R3. change (k_static k1) with (k_static k) in R3.
    split; [|destruct R3 as [[_ R3]|[Hlt R3]]|done|by eauto].
    + destruct R3 as [[? _]|[_ ->]]; [done|by destruct Hs].
    + left. rewrite R3, Hus. by rewrite delete_insert_id.
    + right. split; [destruct K0, K1, K2; env_lia|]. exists user, (next_client_id (k_static k0)). by rewrite R3.
Qed.

Lemma wp_client_handler en k :
  accepted F sock en k -> roomy F sock k ->
  wp (client_handler F (Some sock)) (fun _ w => session_outcome sock en k (w_env w) (w_kern w)) (W en k).
Proof.
  intros Ha Hr. unfold client_handler. apply wp_self, wp_puts, wp_log. intros en1 Hle1. set (k1 := with_stdout _ k).
  assert (K1 : forall name, kept sock name 0 en k en1 k1).
  { intros name. by apply kept_stdout. }
  assert (Ha1 : accepted F sock en1 k1) by (eapply (accepted_kept F sock []); [apply K1|done|done]).
  apply wp_bind. eapply wp_mono; [apply (wp_forall _ (fun name => login_outcome F sock name en1 k1)); intros name; by apply wp_perform_login|].
  intros [client_id user] [en2 k2] Hl.
  assert (K2 : forall name, kept sock name 0 en k en2 k2) by (intros name; eapply (kept_trans _ _ 0 0); [apply K1|apply (Hl name)]).
  destruct (Hl []) as [_ [[Hneg Hl2]|[Hpos Hl2]]]; cbn [fst snd w_env w_kern] in *.
  - rewrite (proj2 (Z.leb_le _ _)) by done. destruct Hl2 as (F2 & A2 & U2).
    apply wp_close. intros en3 z Hle3 _. apply wp_log. intros en4 Hle4. apply (wp_last_call (Puts _)). cbn [sem fst snd w_env w_kern].
    assert (K3 : kept sock [] 0 en2 k2 en4 (close_fd k2 sock)) by (apply kept_closed; [rewrite F2; apply Ha|env_lia]).
    split; cbn [w_env w_kern].
    + done.
    + destruct U2 as [?|[? ?]]; [by left|right]. split; [env_lia|done].
    + simpl. apply lookup_delete_eq.
    + exists [], (0 + (0 + 0))%nat. split; [apply no_user_unnamed, Ha|].
      eapply kept_trans; [apply K2|]. eapply kept_trans; [exact K3|by apply kept_stdout].
  - rewrite (proj2 (Z.leb_gt _ _)) by done.
    apply wp_after_login; [done| |apply K2|].
    + pose proof (kp_own _ _ _ _ _ _ _ (K2 [])) as (_ & taken & _ & Ht). pose proof (kp_size _ _ _ _ _ _ _ (K2 [])).
      unfold roomy, zlen in *. rewrite Ht, length_drop. lia.
    + destruct Hl2 as (G1 & G2 & G3 & G4 & G5). by split_and!.
Qed.
End whole.

(** ** Properties *)

(** Bob is logged in on socket 6; on socket 5 somebody connects, logs in as
    alice, says hello, and leaves. *)
Definition lobby_state : server := add_state 0 6 2 (B "bob") (init_state server_start).

Definition lobby_input : bytes :=
  frame MSG_LOGIN (B "alice") ++ frame MSG_CHAT (B "hello") ++ frame MSG_DISCONNECT [].

Definition lobby : kern server :=
  with_in {[ 5 := lobby_input ]} (with_fds {[ 5 := FdSocket; 6 := FdSocket ]} (idle lobby_state)).

Lemma lobby_accepted F en : stream_fuel F en -> accepted F 5 en lobby.
Proof.
  intros HF. split; try done.
  - apply (add_state_ok _ 0 free_entry); try done; [apply init_state_ok|by apply is_valid_username_iff|].
    intros (i & e & Hi & Ha & _). by apply lookup_replicate in Hi as [-> _].
  - intros [|i] e Hi Ha; [by injection Hi as <-|].
    change (replicate 63 free_entry !! i = Some e) in Hi. by apply lookup_replicate in Hi as [-> _].
  - rewrite <- registeredb_true. by vm_compute.
Qed.

(** What Bob is sent in that session, computed. *)
Example lobby_session :
  (fun '(_, w) => (stream (k_out (w_kern w)) 6, users (k_static (w_kern w)) !! B "alice")) <$>
    run (client_handler (H := plain_libc) 40 (Some 5)) (W calm lobby)
  = Some (frame MSG_BROADCAST (B "alice: hello"), None).
Proof. vm_compute. reflexivity. Qed.
