(* ===== verification/ServerMain.v ===== *)
(** * The server's main program

    [src/server/main.c]: the listening socket, the loop that accepts
    connections and hands each of them to a thread of its own, and the end.
    [client_handler], which the thread runs, is in ClientHandler and Session;
    here [Pthread_create] records the context it is given. *)

From S2P Require Import Prelude CLib Posix Wp Protocol NetworkIO Logger ClientManager Registry RegistrySpec Sending.
From S2P Require Import ClientHandler Receive Session.

Definition SERVER_PORT : Z := 9000.
Definition SERVER_BACKLOG : Z := 16.
(** [sizeof(client_context_t)] *)
Definition SIZEOF_CONTEXT : Z := 4.

Definition with_running (b : bool) (s : server) : server :=
  {| clients := clients s; next_client_id := next_client_id s; manager_initialized := manager_initialized s;
     running := b; server_socket := server_socket s |}.
Definition with_server_socket (fd : Z) (s : server) : server :=
  {| clients := clients s; next_client_id := next_client_id s; manager_initialized := manager_initialized s;
     running := running s; server_socket := fd |}.

Definition handle_signal (s : server) : server := with_running false s.

Definition SERVER : bytes := B "SERVER".

Section main.
Context `{Libc}.
Variable F : nat.

Definition cleanup : prog server unit :=
  s ← call Get_static;
  if 0 <=? server_socket s then
    r ← call (Close (server_socket s));
    _ ← (if r != 0 then
          _ ← perror (B "close server socket");
          log LOG_ERROR SERVER (B "Failed to close listening socket")
        else mret tt);
    s ← call Get_static;
    call (Put_static (with_server_socket (-1) s))
  else mret tt.

(** [perror(prefix); logger_client_log(..., text, strerror(errno))] *)
Definition report_errno (prefix text : bytes) : prog server unit :=
  _ ← perror prefix;
  errno ← call Errno;
  log LOG_ERROR SERVER (text ++ strerror errno).

(** [close(server_socket); server_socket = -1;] *)
Definition drop_server_socket : prog server unit :=
  s ← call Get_static;
  _ ← call (Close (server_socket s));
  s ← call Get_static;
  call (Put_static (with_server_socket (-1) s)).

Definition create_server_socket : prog server Z :=
  fd ← call Socket_stream;
  s ← call Get_static;
  _ ← call (Put_static (with_server_socket fd s));
  if fd <? 0 then
    _ ← report_errno (B "socket") (B "socket() failed: ");
    mret (-1)
  else
  r ← call (Setsockopt fd);
  if r <? 0 then
    _ ← report_errno (B "setsockopt") (B "setsockopt(SO_REUSEADDR) failed: ");
    _ ← drop_server_socket;
    mret (-1)
  else
  r ← call (Bind fd SERVER_PORT);
  if r <? 0 then
    _ ← report_errno (B "bind") (B "bind() failed on port " ++ sdec SERVER_PORT ++ B ": ");
    _ ← drop_server_socket;
    mret (-1)
  else
  r ← call (Listen fd SERVER_BACKLOG);
  if r <? 0 then
    _ ← report_errno (B "listen") (B "listen() failed: ");
    _ ← drop_server_socket;
    mret (-1)
  else mret 0.

(** One accepted connection, to the end of the loop's body. *)
Definition serve_connection (client_socket : Z) (sin_addr : bytes) (sin_port : Z) : prog server unit :=
  text ← call (Inet_ntop sin_addr);
  let client_ip := match text with Some text => text | None => B "unknown" end in
  let client_port := sin_port in
  let peer := client_ip ++ B ":" ++ dec client_port in
  _ ← call (Puts (B "Accepted client " ++ peer ++ [NEWLINE]));
  _ ← log LOG_INFO SERVER (B "Accepted client connection from " ++ peer);
  context ← call (Malloc SIZEOF_CONTEXT);
  if context == 0 then
    _ ← call (Eputs (B "Failed to allocate client context." ++ [NEWLINE]));
    _ ← log LOG_ERROR SERVER (B "Failed to allocate client context for " ++ peer);
    _ ← call (Close client_socket);
    mret tt
  else
  '(thread_result, thread) ← call (Pthread_create client_socket);
  if thread_result != 0 then
    _ ← call (Eputs (B "pthread_create failed: " ++ strerror thread_result ++ [NEWLINE]));
    _ ← log LOG_ERROR SERVER (B "pthread_create failed for " ++ peer ++ B ": " ++ strerror thread_result);
    _ ← call (Close client_socket);
    mret tt
  else
  thread_result ← call (Pthread_detach thread);
  _ ← (if thread_result != 0 then
        _ ← call (Eputs (B "pthread_detach failed: " ++ strerror thread_result ++ [NEWLINE]));
        log LOG_WARN SERVER (B "pthread_detach failed for thread " ++ dec thread ++ B ": " ++ strerror thread_result)
      else mret tt);
  _ ← call (Puts (B "Created client thread [" ++ dec thread ++ B "]." ++ [NEWLINE]));
  log LOG_DEBUG SERVER (B "Created client handler thread " ++ dec thread).

(** The loop of [main]. *)
Fixpoint accept_loop (fuel : nat) : prog server unit :=
  match fuel with
  | O => Diverge
  | S fuel =>
      s ← call Get_static;
      if negb (running s) then mret tt else
      client ← call (Accept (server_socket s) handle_signal);
      match client with
      | None =>
          errno ← call Errno;
          if errno == EINTR then
            s ← call Get_static;
            if negb (running s) then mret tt else accept_loop fuel
          else report_errno (B "accept") (B "accept() failed: ")
      | Some (client_socket, (sin_addr, sin_port)) =>
          _ ← serve_connection client_socket sin_addr sin_port;
          accept_loop fuel
      end
  end.

(** A call of [main] that sets up the signal handling, and its failure. *)
Definition setup_failed (prefix text : bytes) : prog server Z :=
  _ ← perror prefix;
  _ ← log LOG_ERROR SERVER text;
  mret EXIT_FAILURE.

Definition server_main : prog server Z :=
  r ← call Sigemptyset;
  if r != 0 then setup_failed (B "sigemptyset") (B "sigemptyset() failed") else
  r ← call (Sigaction SIGINT);
  if r != 0 then setup_failed (B "sigaction SIGINT") (B "Failed to configure SIGINT handler") else
  r ← call (Sigaction SIGTERM);
  if r != 0 then setup_failed (B "sigaction SIGTERM") (B "Failed to configure SIGTERM handler") else
  r ← client_manager_init;
  if r != 0 then
    _ ← call (Eputs (B "Failed to initialize client manager." ++ [NEWLINE]));
    _ ← log LOG_ERROR SERVER (B "Client manager initialization failed");
    mret EXIT_FAILURE
  else
  r ← create_server_socket;
  if r != 0 then mret EXIT_FAILURE else
  _ ← call (Puts (B "Concurrent TCP server started." ++ [NEWLINE] ++
                  B "Listening on port " ++ sdec SERVER_PORT ++ B "." ++ [NEWLINE]));
  _ ← log LOG_INFO SERVER (B "Server started on TCP port " ++ sdec SERVER_PORT);
  _ ← accept_loop F;
  _ ← log LOG_INFO SERVER (B "Server shutdown initiated");
  _ ← cleanup;
  _ ← call (Puts (B "Concurrent TCP server stopped." ++ [NEWLINE]));
  _ ← log LOG_INFO SERVER (B "Server stopped");
  mret EXIT_SUCCESS.
End main.

(** ** The parts of the main program *)

Section parts.
Context `{Libc}.

Lemma wp_report_errno {A} prefix text (g : unit -> prog server A) Q en k :
  (forall en' err, env_le en' en -> wp (g tt) Q (W en' (with_stderr err k))) -> wp (report_errno prefix text ≫= g) Q (W en k).
Proof.
  intros HQ. unfold report_errno. apply wp_bind, wp_perror. intros err. apply wp_errno, wp_of_bind, wp_log.
  intros en' Hle. apply wp_ret, HQ. env_lia.
Qed.

(** The process after it has closed the listening socket [s] again. *)
Lemma wp_drop_server_socket {A} (g : unit -> prog server A) Q en k :
  (forall en', env_le en' en ->
     wp (g tt) Q (W en' (with_static (with_server_socket (-1) (k_static k)) (close_fd k (server_socket (k_static k)))))) ->
  wp (drop_server_socket ≫= g) Q (W en k).
Proof.
  intros HQ. unfold drop_server_socket. apply wp_bind, wp_get, wp_close. intros en' z Hle _.
  apply wp_get. refine (wp_put _ mret _ _ _ _). by apply wp_ret, HQ.
Qed.

Lemma close_opened s d (k : kern server) :
  k_fds k !! s = None -> (forall i o f, d ≠ FdFile i o f) ->
  close_fd (with_fds (<[s := d]> (k_fds k)) k) s = k.
Proof.
  intros Hs Hd. unfold close_fd. cbn [k_fds with_fds k_locks]. rewrite lookup_insert_eq, delete_insert_id by done.
  destruct k. by destruct d; [..|destruct (Hd ino off flags)|].
Qed.

(** Listening on [s]. *)
Definition listening (s : Z) (k : kern server) : kern server :=
  with_static (with_server_socket s (k_static k)) (with_fds (<[s := FdListen]> (k_fds k)) k).

Lemma wp_create_server_socket {A} (g : Z -> prog server A) Q en k :
  server_socket (k_static k) = -1 ->
  (forall en' s, env_le en' en -> 0 <= s -> k_fds k !! s = None -> wp (g 0) Q (W en' (listening s k))) ->
  (forall en' err, env_lt en' en -> wp (g (-1)) Q (W en' (with_stderr err k))) ->
  wp (create_server_socket ≫= g) Q (W en k).
Proof.
  intros Hm Hok Hko. unfold create_server_socket. apply wp_bind.
  assert (Hst : forall s, with_server_socket (-1) (with_server_socket s (k_static k)) = k_static k).
  { intros s. destruct k as [[] ]. unfold with_server_socket. simpl in *. by subst. }
  eapply wp_fallible; [reflexivity| |].
  { intros en1 Hlt _. apply wp_get, wp_put. cbn [Z.ltb Z.compare]. apply wp_report_errno. intros en2 err Hle. apply wp_ret.
    specialize (Hko en2 err). replace (with_static _ k) with k by (rewrite <- Hm; by destruct k as [[] ]). apply Hko. env_lia. }
  intros en1 lim Hle1 _ _. cbn [add_fd]. pose proof (next_fd_nonneg (k_fds k)) as H0. pose proof (next_fd_fresh (k_fds k)) as Hfresh.
  set (s := next_fd (k_fds k)) in *. apply wp_get, wp_put. rewrite (proj2 (Z.ltb_ge _ _)) by done.
  set (kd := fun d => with_static (with_server_socket s (k_static k)) (with_fds (<[s := d]> (k_fds k)) k)).
  change (with_static _ _) with (kd FdSocket).
  assert (Hfail : forall en' prefix text, env_lt en' en ->
    wp (_ ← report_errno prefix text; _ ← drop_server_socket; mret (-1)) (fun a => wp (g a) Q) (W en' (kd FdSocket))).
  { intros en' prefix text Hlt. apply wp_report_errno. intros en'' err Hle. apply wp_drop_server_socket. intros en3 Hle3.
    apply wp_ret. cbn [k_static with_stderr kd with_static server_socket with_server_socket]. rewrite Hst.
    pose proof (close_opened s FdSocket k Hfresh) as Hc.
    specialize (Hko en3 err). unfold close_fd, kd in *. cbn [k_fds with_fds with_static with_stderr k_locks] in *.
    destruct k. simpl in *. rewrite lookup_insert_eq, delete_insert_id in * by done. apply Hko. env_lia. }
  eapply wp_fallible; [reflexivity|intros; apply Hfail; env_lia|].
  intros en2 lim2 Hle2 _ _. cbv beta. rewrite bool_decide_eq_true_2 by (exists FdSocket; apply lookup_insert_eq). cbn [Z.ltb Z.compare].
  eapply wp_fallible; [reflexivity|intros; apply Hfail; env_lia|].
  intros en3 lim3 Hle3 _ _. cbv beta. unfold bind_fd. cbn [kd k_fds with_static with_fds]. rewrite lookup_insert_eq. cbn [Z.ltb Z.compare].
  eapply wp_fallible; [reflexivity|intros; apply Hfail; env_lia|].
  intros en4 lim4 Hle4 _ _. cbv beta. unfold listen_fd. cbn [kd k_fds with_static with_fds]. rewrite lookup_insert_eq. cbn [Z.ltb Z.compare].
  apply wp_ret. rewrite insert_insert_eq. apply Hok; [env_lia|done|done].
Qed.
End parts.

(** ** The loop *)

(** Since [k0], which listens, the connections [l] have each been given to a
    thread, on the paired descriptor; nothing else has been opened or closed. *)
Record accepting (k0 : kern server) (l : list (Z * conn)) (k : kern server) : Prop := {
  ag_threads : k_threads k = k_threads k0 ++ l.*1;
  ag_fds : forall fd, k_fds k !! fd = if bool_decide (fd ∈ l.*1) then Some FdSocket else k_fds k0 !! fd;
  ag_fresh : forall fd, fd ∈ l.*1 -> 0 <= fd /\ k_fds k0 !! fd = None;
  ag_nodup : NoDup l.*1;
  ag_streams : forall fd c, (fd, c) ∈ l -> stream (k_in k) fd = c_input c /\ stream (k_out k) fd = [];
  ag_static : with_running false (k_static k) = with_running false (k_static k0);
  ag_rest : k_tree k = k_tree k0 /\ k_inodes k = k_inodes k0 /\ k_locks k = k_locks k0 /\ k_pid k = k_pid k0
}.

(** Some connections of the list, in its order. *)
Definition taken_from (l : list (Z * conn)) (conns : list conn) : Prop := l.*2 `sublist_of` conns.

Section loop.
Context `{Libc}.

Lemma accepting_refl (k0 k : kern server) :
  k_threads k = k_threads k0 -> k_fds k = k_fds k0 -> with_running false (k_static k) = with_running false (k_static k0) ->
  k_tree k = k_tree k0 /\ k_inodes k = k_inodes k0 /\ k_locks k = k_locks k0 /\ k_pid k = k_pid k0 ->
  accepting k0 [] k.
Proof.
  intros Ht Hf Hs Hr. split; try done; [by rewrite Ht, app_nil_r|by intros fd; rewrite Hf| | |].
  - by intros fd ?%not_elem_of_nil.
  - constructor.
  - by intros fd c ?%not_elem_of_nil.
Qed.

(** Writing on the console. *)
Lemma accepting_console k0 l k out err : accepting k0 l k -> accepting k0 l (with_stdout out (with_stderr err k)).
Proof. intros []. by split. Qed.

Lemma accepting_stopped k0 l k b : accepting k0 l k -> accepting k0 l (with_static (with_running b (k_static k)) k).
Proof. intros []. by split. Qed.

(** A new connection on the descriptor [fd]. *)
Lemma accepted_fresh k0 l k c fd k1 :
  accepting k0 l k -> accept_fd c k = (fd, k1) -> 0 <= fd /\ k_fds k0 !! fd = None /\ (fd ∉ l.*1) /\ k_fds k !! fd = None.
Proof.
  intros [T F R N S St] [= <- <-]. pose proof (next_fd_fresh (k_fds k)) as Hn. pose proof (next_fd_nonneg (k_fds k)).
  pose proof (F (next_fd (k_fds k))) as E. rewrite Hn in E. case_bool_decide; done.
Qed.

Lemma accepting_thread k0 l k c fd k1 :
  accepting k0 l k -> accept_fd c k = (fd, k1) -> accepting k0 (l ++ [(fd, c)]) (with_threads (k_threads k1 ++ [fd]) k1).
Proof.
  intros Hk Ha. destruct (accepted_fresh _ _ _ _ _ _ Hk Ha) as (H0 & Hf0 & Hl & Hf). destruct Hk as [T F R N S St Re].
  injection Ha as <- <-. set (fd := next_fd (k_fds k)) in *. split; cbn; rewrite ?fmap_app; cbn.
  - by rewrite T, <- app_assoc.
  - intros fd'. destruct (decide (fd' = fd)) as [->|Hne].
    + rewrite lookup_insert_eq, bool_decide_eq_true_2; [done|set_solver].
    + rewrite lookup_insert_ne, F by done. apply (f_equal (fun b : bool => if b then _ else _)), bool_decide_ext. set_solver.
  - intros fd' [?| ->%list_elem_of_singleton]%elem_of_app; [by apply R|done].
  - apply NoDup_app. split; [done|]. split; [set_solver|apply NoDup_singleton].
  - intros fd' c' [Hin| [= -> ->]%list_elem_of_singleton]%elem_of_app; unfold stream in *.
    + assert (fd' ≠ fd) by (intros ->; apply Hl, list_elem_of_fmap; by exists (fd, c')).
      rewrite lookup_insert_ne, lookup_delete_ne by done. by apply S.
    + by rewrite lookup_insert_eq, lookup_delete_eq.
  - exact St.
  - exact Re.
Qed.

Lemma accepting_closed k0 l k c fd k1 :
  accepting k0 l k -> accept_fd c k = (fd, k1) -> accepting k0 l (close_fd k1 fd).
Proof.
  intros Hk Ha. destruct (accepted_fresh _ _ _ _ _ _ Hk Ha) as (H0 & Hf0 & Hl & Hf). destruct Hk as [T F R N S St Re].
  injection Ha as <- <-. set (fd := next_fd (k_fds k)) in *. unfold close_fd. cbn [k_fds with_fds with_in with_out].
  rewrite lookup_insert_eq, delete_insert_id by done. split; try done.
  intros fd' c' Hin. assert (fd' ≠ fd) by (intros ->; apply Hl, list_elem_of_fmap; by exists (fd, c')).
  unfold stream in *. cbn. rewrite lookup_insert_ne, lookup_delete_ne by done. by apply S.
Qed.

Lemma wp_inet_ntop {A} address (g : option bytes -> prog server A) Q en k :
  (forall r en', env_le en' en -> wp (g r) Q (W en' k)) -> wp (call (Inet_ntop address) ≫= g) Q (W en k).
Proof. intros HQ. eapply wp_fallible; [reflexivity|intros; apply HQ; by apply env_lt_le|]. intros en' lim Hle _ _. by apply HQ. Qed.

Lemma wp_pthread_create {A} arg (g : Z * Z -> prog server A) Q en k :
  (forall en' z, env_lt en' en -> 0 < z -> wp (g (z, 0)) Q (W en' k)) ->
  (forall en' t, env_le en' en -> wp (g (0, t)) Q (W en' (with_threads (k_threads k ++ [arg]) k))) ->
  wp (call (Pthread_create arg) ≫= g) Q (W en k).
Proof.
  intros Hko Hok. apply wp_call. unfold sem. cbn [w_env w_kern].
  destruct (pop_cases en) as [(z & en' & -> & Hlt)|(o & en' & lim & -> & Hle & _ & Ho & _)]; [by apply Hko|].
  destruct o; try done; by apply Hok.
Qed.

Lemma wp_pthread_detach {A} t (g : Z -> prog server A) Q en k :
  (forall en' z, env_le en' en -> wp (g z) Q (W en' k)) -> wp (call (Pthread_detach t) ≫= g) Q (W en k).
Proof.
  intros HQ. apply wp_call. pose proof (pthread_call_wp (fun k => k) g Q en k) as Hp. unfold sem. cbn [w_env w_kern].
  destruct (pthread_call _ _). apply Hp; intros; apply HQ; [by apply env_lt_le|done].
Qed.

(** Every accepted connection gets its thread or is closed. *)
Lemma wp_serve_connection fd address port (Q : unit -> world server -> Prop) en (k : kern server) :
  (forall en' out err, env_le en' en -> Q tt (W en' (with_stdout out (with_stderr err (with_threads (k_threads k ++ [fd]) k))))) ->
  (forall en' out err, env_lt en' en -> Q tt (W en' (with_stdout out (with_stderr err (close_fd k fd))))) ->
  wp (serve_connection fd address port) Q (W en k).
Proof.
  intros Hok Hko. unfold serve_connection. apply wp_inet_ntop. intros r en1 Hle1. cbv zeta.
  set (peer := _ ++ B ":" ++ dec port). clearbody peer. apply wp_puts, wp_log. intros en2 Hle2.
  set (out := k_stdout k ++ _). clearbody out.
  assert (Hclose : forall en' err text lvl, env_lt en' en ->
    wp (_ ← call (Eputs err); _ ← log lvl SERVER text; _ ← call (Close fd); mret tt) Q (W en' (with_stdout out k))).
  { intros en' err text lvl Hlt. apply wp_eputs, wp_log. intros en'' Hle. apply wp_close. intros en3 z Hle3 _. apply wp_ret.
    apply (Hko en3 out). env_lia. }
  eapply wp_fallible; [reflexivity|intros; apply Hclose; env_lia|]. intros en3 lim Hle3 _ _. cbn [Z.eqb].
  apply wp_pthread_create.
  { intros en4 z Hlt Hz. rewrite (proj2 (Z.eqb_neq z 0)) by lia. apply Hclose. env_lia. }
  intros en4 t Hle4. cbn [Z.eqb negb]. apply wp_pthread_detach. intros en5 z Hle5. apply wp_bind.
  set (k1 := with_threads _ _).
  assert (Hend : forall en' err, env_le en' en -> wp (_ ← call (Puts (B "Created client thread [" ++ dec t ++ B "]." ++ [NEWLINE]));
      log LOG_DEBUG SERVER (B "Created client handler thread " ++ dec t)) Q (W en' (with_stderr err k1))).
  { intros en' err Hle. apply wp_puts, wp_of_bind, wp_log. intros en'' Hle'. apply wp_ret.
    apply (Hok en'' _ err). env_lia. }
  case_if.
  - apply wp_eputs, wp_of_bind, wp_log. intros en6 Hle6. apply wp_ret, wp_ret. apply Hend. env_lia.
  - apply wp_ret. apply (Hend en5 (k_stderr k)). env_lia.
Qed.

Lemma serve_no_accept fd address port : calls no_accept (serve_connection fd address port).
Proof. unfold serve_connection, log, logger_client_log. solve_calls. Qed.

Definition loop_outcome (k0 : kern server) (l : list (Z * conn)) (en : env) (w : world server) : Prop :=
  exists l', accepting k0 (l ++ l') (w_kern w) /\ env_le (w_env w) en /\ taken_from l' (e_conns en) /\
    (faultless en -> l'.*2 = e_conns en /\ e_conns (w_env w) = []).

Lemma loop_ends k0 l en en' k :
  accepting k0 l k -> env_lt en' en \/ env_le en' en /\ e_conns en = [] /\ e_conns en' = [] -> loop_outcome k0 l en (W en' k).
Proof.
  intros Hk Hen. exists []. rewrite app_nil_r. split; [done|]. split; [destruct Hen as [?|[? _]]; [by apply env_lt_le|done]|].
  split; [apply sublist_nil_l|]. intros Hf. destruct Hen as [Hlt|(_ & -> & ?)]; [|done]. by destruct (faultless_not_lt en en' Hf).
Qed.

Lemma wp_accept_loop fuel en k0 l (k : kern server) :
  (script_len en + length (e_conns en) + 1 < fuel)%nat -> k_fds k0 !! server_socket (k_static k0) = Some FdListen ->
  accepting k0 l k -> running (k_static k) = true ->
  wp (accept_loop fuel) (fun _ => loop_outcome k0 l en) (W en k).
Proof.
  revert en l k. induction fuel as [|fuel IH]; intros en l k Hfuel Hs Hk Hrun; [lia|]. cbn [accept_loop]. apply wp_get.
  rewrite Hrun. cbn [negb]. assert (Hss : server_socket (k_static k) = server_socket (k_static k0)).
  { pose proof (f_equal server_socket (ag_static _ _ _ Hk)) as E. exact E. }
  assert (Hl : k_fds k !! server_socket (k_static k) = Some FdListen).
  { rewrite Hss, (ag_fds _ _ _ Hk), bool_decide_eq_false_2; [done|]. intros Hin%(ag_fresh _ _ _ Hk). destruct Hin. congruence. }
  assert (Hstop : forall en', env_lt en' en \/ env_le en' en /\ e_conns en = [] /\ e_conns en' = [] ->
    wp (errno ← call Errno;
        if errno == EINTR then s ← call Get_static; if negb (running s) then mret tt else accept_loop fuel
        else report_errno (B "accept") (B "accept() failed: ")) (fun _ => loop_outcome k0 l en)
      (W (with_errno EINTR en') (with_static (handle_signal (k_static k)) k))).
  { intros en' Hen. apply wp_errno. cbn [e_errno with_errno Z.eqb]. change (EINTR == EINTR) with true. cbv iota. apply wp_get. cbn.
    apply wp_ret. apply loop_ends; [by apply accepting_stopped|done]. }
  apply wp_call. unfold sem, interruptible. cbn [w_env w_kern].
  destruct (pop_cases en) as [(z & en' & -> & Hlt)|(o & en' & lim & Hpop & Hle & _ & Ho & _ & _ & _ & Hc)].
  { case_if; cbn [fst snd]; [apply Hstop; by left|]. apply wp_errno. cbn [e_errno with_errno]. rewrite (proj2 (Z.eqb_neq _ _)) by done.
    apply wp_of_bind, wp_report_errno. intros en2 err Hle2. apply wp_ret.
    apply loop_ends; [|left; eapply env_le_lt_trans; [exact Hle2|exact Hlt]].
    destruct (accepting_console k0 l k (k_stdout k) err Hk). by split. }
  rewrite Hpop, Hl, Hc. destruct (e_conns en) as [|c conns] eqn:Ec.
  { destruct o; try done; cbn [fst snd]; apply Hstop; right; by rewrite Hc. }
  assert (Hgo : let '(fd, k1) := accept_fd c k in
    wp (_ ← serve_connection fd (c_address c) (c_port c); accept_loop fuel) (fun _ => loop_outcome k0 l en) (W (with_conns conns en') k1)).
  { destruct (accept_fd c k) as [fd k1] eqn:Ea. apply wp_bind. eapply wp_mono.
    - apply (wp_pending _ (fun _ w => env_le (w_env w) en' /\ running (k_static (w_kern w)) = true /\
        (accepting k0 (l ++ [(fd, c)]) (w_kern w) \/ env_lt (w_env w) en' /\ accepting k0 l (w_kern w)))); [apply serve_no_accept|].
      assert (Hr1 : running (k_static k1) = true) by (injection Ea as <- <-; exact Hrun).
      apply wp_serve_connection; intros en2 out err Hen2; cbn [w_env w_kern].
      + split; [exact Hen2|]. split; [exact Hr1|]. left. apply accepting_console. by apply (accepting_thread k0 l k).
      + split; [exact (env_lt_le _ _ Hen2)|]. split; [exact Hr1|]. right. split; [exact Hen2|].
        apply accepting_console. by apply (accepting_closed k0 l k c).
    - intros _ [en2 k2] [(Hle2 & Hr2 & Hk2) Hc2]. cbn [w_env w_kern e_conns with_conns] in *.
      assert (Hf2 : (script_len en2 + length (e_conns en2) + 1 < fuel)%nat) by (rewrite Hc2; simpl in *; env_lia).
      destruct Hk2 as [Hk2|[Hlt2 Hk2]]; (eapply wp_mono; [by eapply IH|]); intros _ [en3 k3] (l' & Hk3 & Hle3 & Ht3 & Hf3).
      + exists ((fd, c) :: l'). rewrite <- app_assoc in Hk3. split; [done|]. split; [cbn [w_env] in *; env_lia|]. rewrite Hc2 in *.
        split; [unfold taken_from; rewrite Ec; by apply sublist_skip|]. intros Hf.
        destruct Hf3 as [E ?]; [apply (faultless_le en); [|done]; env_lia|]. rewrite Ec. split; [|done]. cbn. by rewrite E.
      + exists l'. split; [done|]. split; [cbn [w_env] in *; env_lia|]. rewrite Hc2 in *.
        split; [unfold taken_from; rewrite Ec; by apply sublist_cons|]. intros Hf. destruct (faultless_not_lt en en2); [done|]. env_lia. }
  destruct (accept_fd c k) as [fd k1]. destruct o; try done; exact Hgo.
Qed.

(** ** The whole program *)

(** From the start [k] to the end [k'] of the main thread: [l] as above, and
    everything else that was opened is closed. *)
Definition handed_over (k : kern server) (l : list (Z * conn)) (k' : kern server) : Prop :=
  accepting (with_static (k_static k') k) l k'.

(** How the main thread, started in [k], ends. *)
Definition main_outcome (en : env) (k : kern server) (r : Z) (w : world server) : Prop :=
  (r = EXIT_SUCCESS \/ r = EXIT_FAILURE) /\ server_socket (k_static (w_kern w)) = -1 /\
  exists l, handed_over k l (w_kern w) /\ taken_from l (e_conns en) /\
    (r = EXIT_FAILURE -> l = []) /\
    (faultless en -> r = EXIT_SUCCESS /\ l.*2 = e_conns en /\ e_conns (w_env w) = [] /\
       clients (k_static (w_kern w)) = clients (init_state server_start) /\ next_client_id (k_static (w_kern w)) = 1 /\
       manager_initialized (k_static (w_kern w)) = true).

(** A failure of the set-up. *)
Lemma main_fails en k w :
  server_socket (k_static (w_kern w)) = -1 -> handed_over k [] (w_kern w) -> ~ faultless en -> main_outcome en k EXIT_FAILURE w.
Proof.
  intros Hs Hk Hf. split; [by right|]. split; [done|]. exists []. split; [done|]. split; [apply sublist_nil_l|]. by split.
Qed.

Lemma handed_nothing (k k' : kern server) :
  k_threads k' = k_threads k -> k_fds k' = k_fds k ->
  k_tree k' = k_tree k /\ k_inodes k' = k_inodes k /\ k_locks k' = k_locks k /\ k_pid k' = k_pid k -> handed_over k [] k'.
Proof. intros Ht Hf Hr. by apply accepting_refl. Qed.

(** Closing the listening socket. *)
Lemma handed_closed s k l (k1 k2 : kern server) out err :
  0 <= s -> k_fds k !! s = None -> k_threads k1 = k_threads k -> k_fds k1 = <[s := FdListen]> (k_fds k) ->
  k_tree k1 = k_tree k /\ k_inodes k1 = k_inodes k /\ k_locks k1 = k_locks k /\ k_pid k1 = k_pid k ->
  accepting k1 l k2 ->
  handed_over k l (with_static (with_server_socket (-1) (k_static k2)) (with_stdout out (with_stderr err (close_fd k2 s)))).
Proof.
  intros H0 Hs Ht Hf (R1 & R2 & R3 & R4) [T F R N St _ (S1 & S2 & S3 & S4)].
  assert (Hsl : s ∉ l.*1). { intros [_ Hn]%R. by rewrite Hf, lookup_insert_eq in Hn. }
  assert (Hl : k_fds k2 !! s = Some FdListen) by (rewrite F, bool_decide_eq_false_2, Hf by done; apply lookup_insert_eq).
  split; cbn; try congruence; try done.
  - intros fd. destruct (decide (fd = s)) as [->|Hne].
    + by rewrite lookup_delete_eq, bool_decide_eq_false_2.
    + rewrite lookup_delete_ne, F, Hf, lookup_insert_ne by done. done.
  - intros fd Hin. destruct (R fd Hin) as [? Hn]. split; [done|]. rewrite Hf in Hn.
    rewrite lookup_insert_ne in Hn; [done|]. by intros ->.
  - rewrite Hl. split_and!; congruence.
Qed.

Lemma wp_steady {A A'} (p : prog server A) (g : A -> prog server A') R Q en k :
  calls no_accept p -> wp p R (W en k) ->
  (forall a en' k', R a (W en' k') -> e_conns en' = e_conns en -> wp (g a) Q (W en' k')) ->
  wp (p ≫= g) Q (W en k).
Proof.
  intros Hp Hw HQ. apply wp_bind. eapply wp_mono; [apply wp_pending; [exact Hp|exact Hw]|].
  intros a [en' k'] [? ?]. by apply HQ.
Qed.

Lemma log_no_accept lvl src text : calls no_accept (log lvl src text : prog server unit).
Proof. unfold log, logger_client_log. solve_calls. Qed.

Lemma create_no_accept : calls no_accept create_server_socket.
Proof. unfold create_server_socket, report_errno, drop_server_socket, perror, log, logger_client_log. solve_calls. Qed.

Lemma destroy_no_accept n j : calls no_accept (destroy_loop n j).
Proof. revert j. induction n as [|n IH]; intros j; [done|]. cbn [destroy_loop]. apply calls_bind; [by apply calls_call|done]. Qed.

Lemma init_loop_no_accept n i : calls no_accept (init_loop n i).
Proof.
  revert i. induction n as [|n IH]; intros i; [done|]. cbn [init_loop].
  apply calls_bind; [by apply calls_call|intros st]. apply calls_bind; [by apply calls_call|intros _].
  apply calls_bind; [by apply calls_call|intros r]. case_if; [|apply IH].
  apply calls_bind; [apply destroy_no_accept|intros _]. apply calls_bind; [by apply calls_call|done].
Qed.

Lemma init_no_accept : calls no_accept client_manager_init.
Proof.
  pose proof (init_loop_no_accept (Z.to_nat MAX_CLIENTS) 0) as Hl. unfold client_manager_init. generalize dependent (Z.to_nat MAX_CLIENTS).
  intros n Hl. apply calls_bind; [by apply calls_call|intros r]. case_if; [done|]. apply calls_bind; [by apply calls_call|intros st].
  destruct (manager_initialized st); [solve_calls|]. apply calls_bind; [by apply calls_call|intros _].
  apply calls_bind; [exact Hl|intros r2]. solve_calls.
Qed.

(** The end of [main], after the loop. *)
Lemma wp_finish (Q : Z -> world server -> Prop) en (k : kern server) s :
  0 <= s -> server_socket (k_static k) = s ->
  (forall en' out err, e_conns en' = e_conns en -> env_le en' en ->
     Q EXIT_SUCCESS (W en' (with_static (with_server_socket (-1) (k_static k)) (with_stdout out (with_stderr err (close_fd k s)))))) ->
  wp (_ ← log LOG_INFO SERVER (B "Server shutdown initiated");
      _ ← cleanup;
      _ ← call (Puts (B "Concurrent TCP server stopped." ++ [NEWLINE]));
      _ ← log LOG_INFO SERVER (B "Server stopped");
      mret EXIT_SUCCESS) Q (W en k).
Proof.
  intros H0 Hs HQ.
  enough (Hw : wp (_ ← log LOG_INFO SERVER (B "Server shutdown initiated");
      _ ← cleanup;
      _ ← call (Puts (B "Concurrent TCP server stopped." ++ [NEWLINE]));
      _ ← log LOG_INFO SERVER (B "Server stopped");
      mret EXIT_SUCCESS) (fun r w => r = EXIT_SUCCESS /\ env_le (w_env w) en /\ exists out err, w_kern w =
        with_static (with_server_socket (-1) (k_static k)) (with_stdout out (with_stderr err (close_fd k s)))) (W en k)).
  { eapply wp_mono; [apply wp_pending; [|exact Hw]|].
    - unfold cleanup, perror, log, logger_client_log. solve_calls.
    - intros r [en' k'] [(-> & Hle & out & err & Hk) Hc]. cbn [w_env w_kern] in *. subst k'. by apply HQ. }
  apply wp_log. intros en1 Hle1. unfold cleanup. apply wp_bind, wp_get. rewrite Hs, (proj2 (Z.leb_le _ _)) by done.
  apply wp_close. intros en2 z Hle2 _.
  assert (Hend : forall en' err, env_le en' en -> wp (s ← call Get_static; call (Put_static (with_server_socket (-1) s)))
    (fun a => wp (_ ← call (Puts (B "Concurrent TCP server stopped." ++ [NEWLINE]));
      _ ← log LOG_INFO SERVER (B "Server stopped"); mret EXIT_SUCCESS) (fun r w => r = EXIT_SUCCESS /\ env_le (w_env w) en /\ exists out err, w_kern w =
        with_static (with_server_socket (-1) (k_static k)) (with_stdout out (with_stderr err (close_fd k s)))))
    (W en' (with_stderr err (close_fd k s)))).
  { intros en' err Hle. apply wp_get. refine (wp_put _ mret _ _ _ _). apply wp_ret, wp_puts, wp_log. intros en3 Hle3.
    apply wp_ret. split; [done|]. split; [cbn [w_env]; env_lia|]. by eexists _, err. }
  apply wp_bind. case_if; [|apply wp_ret; apply (Hend en2 (k_stderr k)); env_lia].
  apply wp_perror. intros err. apply wp_of_bind, wp_log. intros en3 Hle3. apply wp_ret, wp_ret, (Hend en3 err). env_lia.
Qed.

(** A failure while nothing has been opened yet. *)
Lemma fails_clean en k en' (k' : kern server) :
  server_socket (k_static k') = -1 -> k_threads k' = k_threads k -> k_fds k' = k_fds k ->
  k_tree k' = k_tree k /\ k_inodes k' = k_inodes k /\ k_locks k' = k_locks k /\ k_pid k' = k_pid k ->
  env_lt en' en -> main_outcome en k EXIT_FAILURE (W en' k').
Proof.
  intros Hs Ht Hf Hr Hlt. apply main_fails; [done|by apply handed_nothing|]. intros Hfl. by apply (faultless_not_lt en en').
Qed.

Lemma wp_setup_failed prefix text en k en' :
  server_socket (k_static k) = -1 -> env_lt en' en -> wp (setup_failed prefix text) (main_outcome en k) (W en' k).
Proof.
  intros Hs Hlt. unfold setup_failed. apply wp_perror. intros err. apply wp_log. intros en2 Hle. apply wp_ret.
  apply fails_clean; try done. by eapply env_le_lt_trans.
Qed.

(** From the initialised registry on. *)
Lemma wp_main_rest F en0 k0 en (k : kern server) :
  (script_len en + length (e_conns en) + 1 < F)%nat -> env_le en en0 -> e_conns en = e_conns en0 ->
  k_static k = init_state server_start -> k_threads k = k_threads k0 -> k_fds k = k_fds k0 ->
  k_tree k = k_tree k0 /\ k_inodes k = k_inodes k0 /\ k_locks k = k_locks k0 /\ k_pid k = k_pid k0 ->
  wp (r ← create_server_socket;
      if r != 0 then mret EXIT_FAILURE else
      _ ← call (Puts (B "Concurrent TCP server started." ++ [NEWLINE] ++
                      B "Listening on port " ++ sdec SERVER_PORT ++ B "." ++ [NEWLINE]));
      _ ← log LOG_INFO SERVER (B "Server started on TCP port " ++ sdec SERVER_PORT);
      _ ← accept_loop F;
      _ ← log LOG_INFO SERVER (B "Server shutdown initiated");
      _ ← cleanup;
      _ ← call (Puts (B "Concurrent TCP server stopped." ++ [NEWLINE]));
      _ ← log LOG_INFO SERVER (B "Server stopped");
      mret EXIT_SUCCESS) (main_outcome en0 k0) (W en k).
Proof.
  intros HF Hle0 Hc0 Hst Ht Hf Hr.
  eapply (wp_steady _ _ (fun r w => r = 0 /\ env_le (w_env w) en /\ (exists s, 0 <= s /\ k_fds k !! s = None /\ w_kern w = listening s k) \/
    r = -1 /\ env_lt (w_env w) en /\ exists err, w_kern w = with_stderr err k)); [apply create_no_accept| |].
  { apply wp_of_bind, wp_create_server_socket; [by rewrite Hst| |].
    - intros en1 s Hle H0 Hn. apply wp_ret. left. split; [done|]. split; [done|]. by exists s.
    - intros en1 err Hlt. apply wp_ret. right. split; [done|]. split; [done|]. by exists err. }
  intros r en1 k1 [(-> & Hle1 & s & H0 & Hs & Hk1)|(-> & Hlt1 & err & Hk1)] Hc1; cbn [w_env w_kern Z.eqb negb] in *; subst k1.
  2:{ apply wp_ret, fails_clean; try done; [by rewrite <- (eq_refl : k_static k = k_static (with_stderr err k)), Hst|].
      eapply env_lt_le_trans; [exact Hlt1|exact Hle0]. }
  apply wp_puts. eapply (wp_steady _ _ (fun _ w => env_le (w_env w) en1 /\ w_kern w = with_stdout _ (listening s k))); [apply log_no_accept| |].
  { apply wp_of_bind, wp_log. intros en2 Hle2. apply wp_ret. by split. }
  intros _ en2 k2 [Hle2 Hk2] Hc2. cbn [w_env w_kern] in *. subst k2.
  apply wp_bind. eapply wp_mono.
  - apply (wp_accept_loop F en2 (listening s k) []); [rewrite Hc2, Hc1; env_lia|cbn; apply lookup_insert_eq| |cbn; by rewrite Hst].
    by apply accepting_refl.
  - intros _ [en3 k3] (l & Hk3 & Hle3 & Htk & Hfl). cbn [app w_env w_kern] in *.
    pose proof (f_equal server_socket (ag_static _ _ _ Hk3)) as Hsk. cbn in Hsk.
    apply (wp_finish _ en3 k3 s); [done|exact Hsk|]. intros en4 out err Hc4 Hle4. split; [by left|]. split; [done|]. exists l.
    assert (Hh : handed_over k0 l (with_static (with_server_socket (-1) (k_static k3)) (with_stdout out (with_stderr err (close_fd k3 s))))).
    { destruct Hr as (? & ? & ? & ?). apply (handed_closed s k0 l (listening s k)); [done|by rewrite <- Hf|done|cbn; by rewrite Hf|by split_and!|done]. }
    split; [done|]. rewrite Hc2, Hc1, Hc0 in *. split; [done|]. split; [done|]. intros Hfn.
    destruct Hfl as [El Ec]; [apply (faultless_le en0); [|done]; env_lia|]. split; [done|]. split; [done|].
    split; [cbn; congruence|]. pose proof (ag_static _ _ _ Hk3) as Hs3. cbn in Hs3. rewrite Hst in Hs3. cbn.
    split; [exact (f_equal clients Hs3)|]. split; [exact (f_equal next_client_id Hs3)|exact (f_equal manager_initialized Hs3)].
Qed.

Lemma wp_server_main F en (k : kern server) :
  k_static k = server_start -> unlocked (k_held k) -> (script_len en + length (e_conns en) + 1 < F)%nat ->
  wp (server_main F) (main_outcome en k) (W en k).
Proof.
  intros Hst Hh HF. unfold server_main. assert (Hm : server_socket (k_static k) = -1) by by rewrite Hst.
  apply wp_signal; [by left|intros; by apply wp_setup_failed|]. intros en1 Hle1 Hs1. cbn [Z.eqb negb].
  apply wp_signal; [by right; eexists|intros; apply wp_setup_failed; [done|env_lia]|]. intros en2 Hle2 Hs2. cbn [Z.eqb negb].
  apply wp_signal; [by right; eexists|intros; apply wp_setup_failed; [done|env_lia]|]. intros en3 Hle3 Hs3. cbn [Z.eqb negb].
  assert (Hc3 : e_conns en3 = e_conns en) by (destruct Hs1 as (? & ? & ?), Hs2 as (? & ? & ?), Hs3 as (? & ? & ?); congruence).
  eapply (wp_steady _ _ (fun r w => env_le (w_env w) en3 /\ exists h s, w_kern w = with_held h (with_static s k) /\
    server_socket s = -1 /\ (r = -1 /\ env_lt (w_env w) en3 \/ r = 0 /\ s = init_state server_start))); [apply init_no_accept| |].
  { apply wp_client_manager_init; [done|..]; rewrite Hst.
    - intros en4 h' r Hle _ [[_ [=]]|[-> Hlt]]. split; [done|]. exists h', server_start. split; [rewrite <- Hst; by destruct k|]. split; [done|by left].
    - intros en4 h' r Hle _ _ Hr. split; [done|]. exists h', (init_state server_start). split; [done|]. split; [done|].
      destruct Hr as [->|[-> ?]]; [by right|by left].
    - intros en4 h' s' Hlt _ Hs'. split; [by apply env_lt_le|]. exists h', s'. split; [done|].
      split; [exact (f_equal server_socket Hs')|by left]. }
  intros r en4 k4 (Hle4 & h & s & Hk4 & Hs4 & Hr) Hc4. cbn [w_env w_kern] in *. subst k4.
  destruct Hr as [[-> Hlt4]|[-> ->]]; cbn [Z.eqb negb].
  - apply wp_eputs, wp_log. intros en5 Hle5. apply wp_ret, fails_clean; try done. env_lia.
  - apply wp_main_rest; try done; [rewrite Hc4, Hc3; env_lia|env_lia|congruence].
Qed.
End loop.

(** ** Properties *)

Lemma init_unregistered s fd : clients s = clients (init_state server_start) -> ~ registered s fd.
Proof.
  intros Hc (i & e & Hi & Ha & _). rewrite Hc in Hi. by apply lookup_replicate in Hi as [-> _].
Qed.

(** C18. The main thread always ends, whatever fails and however many
    connections arrive, with the listening socket closed.  It has started
    threads for some of the connections, in the order of their arrival, each
    on a descriptor of its own; these descriptors are open, all others are as
    they were: a connection whose thread could not be made is closed, no
    descriptor leaks, and none that a thread owns is closed by the main
    thread. *)
Theorem server_main_ends `{Libc} F en (k : kern server) :
  k_static k = server_start -> unlocked (k_held k) -> (script_len en + length (e_conns en) + 1 < F)%nat ->
  runs (server_main F) (W en k) (fun r '(W en' k') =>
    (r = EXIT_SUCCESS \/ r = EXIT_FAILURE) /\ server_socket (k_static k') = -1 /\
    exists l : list (Z * conn), (l.*2 `sublist_of` e_conns en) /\ NoDup l.*1 /\ k_threads k' = k_threads k ++ l.*1 /\
      (forall fd, k_fds k' !! fd = if bool_decide (fd ∈ l.*1) then Some FdSocket else k_fds k !! fd) /\
      (forall fd c, (fd, c) ∈ l -> k_fds k !! fd = None /\ stream (k_in k') fd = c_input c /\ stream (k_out k') fd = [])).
Proof.
  intros Hst Hh HF. apply wp_runs. eapply wp_mono; [by apply wp_server_main|].
  intros r [en' k'] (Hr & Hs & l & [T Fd R N St _ _] & Ht & _). split; [done|]. split; [done|]. exists l.
  split_and!; try done. intros fd c Hin. split; [|by apply St]. apply R, list_elem_of_fmap. by exists (fd, c).
Qed.

(** *** The mutexes, in the end *)

Definition no_mutex (e : sys server) : Prop :=
  match e with Mutex_lock _ | Mutex_unlock _ | Cond_sleep _ | Cond_wake _ => False | _ => True end.

Lemma no_mutex_held e w : no_mutex e -> k_held (w_kern (snd (sem e w))) = k_held (w_kern w).
Proof.
  intros He. destruct e; try done; try (apply (fallible_obs k_held); solve_obs); unfold sem, pthread_call, interruptible.
  all: try (by repeat case_match).
  all: destruct (pop (w_env w)) as [[|n|z] en]; try by destruct (_ == EINTR).
  1,2: by destruct (e_dgrams en).
  all: destruct (k_fds (w_kern w) !! fd) as [[]|]; try done; by destruct (e_conns en).
Qed.

(** It ends with the mutexes that it had, if no call fails. *)
Definition held_kept {A} (p : prog server A) : Prop := forall w a w',
  faultless (w_env w) -> unlocked (k_held (w_kern w)) -> run p w = Some (a, w') -> k_held (w_kern w') = k_held (w_kern w).

Lemma held_kept_calls {A} (p : prog server A) : calls no_mutex p -> held_kept p.
Proof.
  intros Hp w a w' _ _. revert w Hp. induction p as [b|e g IH|]; intros w Hp; [by intros [= _ <-]| |done].
  destruct Hp as [He Hg]. cbn [run]. pose proof (no_mutex_held e w He) as Hk. destruct (sem e w) as [r w1]. cbn [snd] in Hk.
  intros Hrun. rewrite <- Hk. by eapply IH.
Qed.

Lemma held_kept_bind {A A'} (p : prog server A) (g : A -> prog server A') :
  held_kept p -> (forall a, held_kept (g a)) -> held_kept (p ≫= g).
Proof.
  intros Hp Hg w b w' Hf Hu Hrun.
  assert (Hw : wp (p ≫= g) (fun b' w'' => b' = b /\ w'' = w') w) by (apply wp_run; by exists b, w').
  apply wp_bind_iff, wp_env_le, wp_run in Hw as (a & w1 & Hrun1 & Hw & Hle).
  apply wp_run in Hw as (b' & w2 & Hrun2 & -> & ->).
  pose proof (Hp _ _ _ Hf Hu Hrun1) as E. rewrite <- E. apply (Hg a w1 b w'); [by eapply faultless_le|by rewrite E|done].
Qed.

Lemma held_kept_init : held_kept client_manager_init.
Proof.
  intros [en k] r w' Hf Hu Hrun. cbn [w_env w_kern] in *.
  assert (Hw : wp client_manager_init (fun _ w => k_held (w_kern w) = k_held k) (W en k)).
  { apply wp_client_manager_init; [done|..].
    - intros en' h r' Hle [->|Hlt] _; [done|by destruct (faultless_not_lt _ _ Hf Hlt)].
    - intros en' h r' Hle [->|Hlt] _ _; [done|by destruct (faultless_not_lt _ _ Hf Hlt)].
    - intros en' h s Hlt _ _. by destruct (faultless_not_lt _ _ Hf Hlt). }
  apply wp_run in Hw as (a & w1 & Hrun' & Hk). rewrite Hrun in Hrun'. by injection Hrun' as <- <-.
Qed.

Lemma held_kept_main `{Libc} F : held_kept (server_main F).
Proof.
  assert (Hlog : forall lvl src text, calls no_mutex (log lvl src text : prog server unit)) by (intros; unfold log, logger_client_log; solve_calls).
  assert (Hloop : calls no_mutex (accept_loop F)).
  { induction F as [|F IH]; [done|]. cbn [accept_loop]. unfold serve_connection, log, logger_client_log, perror, report_errno. solve_calls; exact IH. }
  assert (Hcreate : calls no_mutex create_server_socket) by (unfold create_server_socket, report_errno, drop_server_socket, perror, log, logger_client_log; solve_calls).
  assert (Hcleanup : calls no_mutex cleanup) by (unfold cleanup, perror, log, logger_client_log; solve_calls).
  assert (Hsetup : forall prefix text, calls no_mutex (setup_failed prefix text)) by (intros; unfold setup_failed, perror, log, logger_client_log; solve_calls).
  unfold server_main. do 3 (apply held_kept_bind; [by apply held_kept_calls, calls_call|intros ?]; case_if; [by apply held_kept_calls|]).
  apply held_kept_bind; [apply held_kept_init|intros ?]. apply held_kept_calls.
  repeat first [apply calls_ret|apply Hlog|exact Hloop|exact Hcreate|exact Hcleanup|apply calls_call; exact I|apply calls_bind; [|intros ?]|case_if].
Qed.

(** C23. When no call fails, every connection that arrives before the signal
    is accepted and gets a thread, in order; the thread finds a registry with
    no user and free mutexes, and its socket open and unread, so that what
    Session.v and Service.v prove of the service of a client applies to it. *)
Theorem every_connection_is_served `{Libc} F F' en (k : kern server) :
  k_static k = server_start -> unlocked (k_held k) -> faultless en -> (length (e_conns en) + 1 < F)%nat -> 6402 < Z.of_nat F' ->
  runs (server_main F) (W en k) (fun r '(W en' k') =>
    r = EXIT_SUCCESS /\ e_conns en' = [] /\ unlocked (k_held k') /\ next_client_id (k_static k') = 1 /\
    exists l : list (Z * conn), l.*2 = e_conns en /\ k_threads k' = k_threads k ++ l.*1 /\
      Forall (fun '(fd, c) => stream (k_in k') fd = c_input c /\ accepted F' fd en' k') l).
Proof.
  intros Hst Hh Hf HF HF'. unfold faultless in Hf.
  destruct (wp_runs _ _ _ (wp_env_le _ _ _ (wp_server_main F en k Hst Hh ltac:(unfold script_len; rewrite Hf; exact HF)))) as (r & [en' k'] & Hrun & Ho & Hle).
  pose proof (held_kept_main F (W en k) _ _ Hf Hh Hrun) as Hheld. exists r, (W en' k'). split; [done|].
  destruct Ho as (_ & _ & l & [T Fd R N St _ _] & _ & _ & Hfl). destruct (Hfl Hf) as (-> & Hl & Hc & Hcl & Hid & _).
  cbn [w_env w_kern] in *. split; [done|]. split; [done|]. split; [by rewrite Hheld|]. split; [done|]. exists l. split; [done|]. split; [done|].
  apply Forall_forall. intros [fd c] Hin. split; [by apply St|].
  assert (Hfd : fd ∈ l.*1) by (apply list_elem_of_fmap; by exists (fd, c)).
  split.
  - pose proof (init_state_ok server_start) as []. rewrite <- Hcl in *. split; rewrite ?Hid; done.
  - intros i e Hi Ha. exfalso. apply (init_unregistered (k_static k') (socket_fd e) Hcl). by exists i, e.
  - by apply init_unregistered.
  - by rewrite Fd, bool_decide_eq_true_2.
  - by rewrite Hid.
  - unfold stream_fuel. unfold env_le, script_len in *. cbn [w_env] in Hle. rewrite Hf in Hle. simpl in Hle. lia.
  - by apply R.
Qed.

(** The process at its start: the three standard descriptors. *)
Definition booted : kern server := with_fds {[ 0 := FdOther; 1 := FdOther; 2 := FdOther ]} (idle server_start).

(** Two clients connect, one of them says hello. *)
Definition two_clients : list conn :=
  [ {| c_address := [x7f; x00; x00; x01]; c_port := 40000; c_input := lobby_input |};
    {| c_address := [x0a; x00; x00; x02]; c_port := 40001; c_input := [] |} ].

Definition too_many_files : env := mk_env (replicate 12 Full ++ [Fail 24]) 0 [] [] two_clients.

Lemma server_main_ends_witness :
  runs (server_main (H := plain_libc) 20) (W too_many_files booted) (fun r '(W en' k') =>
    (r = EXIT_SUCCESS \/ r = EXIT_FAILURE) /\ server_socket (k_static k') = -1 /\
    exists l : list (Z * conn), (l.*2 `sublist_of` e_conns too_many_files) /\ NoDup l.*1 /\ k_threads k' = [] ++ l.*1 /\
      (forall fd, k_fds k' !! fd = if bool_decide (fd ∈ l.*1) then Some FdSocket else k_fds booted !! fd) /\
      (forall fd c, (fd, c) ∈ l -> k_fds booted !! fd = None /\ stream (k_in k') fd = c_input c /\ stream (k_out k') fd = [])).
Proof. apply (server_main_ends (H := plain_libc) 20 too_many_files booted); [reflexivity|by split|]. simpl. lia. Defined.

Lemma every_connection_is_served_witness :
  runs (server_main (H := plain_libc) 4) (W (with_conns two_clients calm) booted) (fun r '(W en' k') =>
    r = EXIT_SUCCESS /\ e_conns en' = [] /\ unlocked (k_held k') /\ next_client_id (k_static k') = 1 /\
    exists l : list (Z * conn), l.*2 = two_clients /\ k_threads k' = [] ++ l.*1 /\
      Forall (fun '(fd, c) => stream (k_in k') fd = c_input c /\ accepted (Z.to_nat 7000) fd en' k') l).
Proof.
  apply (every_connection_is_served (H := plain_libc) 4 (Z.to_nat 7000) (with_conns two_clients calm) booted);
    [reflexivity|by split|reflexivity|simpl; lia|lia].
Defined.

(** The descriptors of the two threads, computed. *)
Example two_clients_threads :
  (fun '(r, w) => (r, k_threads (w_kern w))) <$>
    run (server_main (H := plain_libc) 4) (W (with_conns two_clients calm) booted) = Some (EXIT_SUCCESS, [4; 5]).
Proof. by vm_compute. Qed.
