(* ===== verification/Dialogue.v ===== *)
(** * The dialogue with a client

    What the handlers of client_handler.c answer, to whom, when no call
    fails: chat, private messages, the user list and the login. *)

From S2P Require Import Prelude CLib Posix Wp Protocol NetworkIO ClientManager Registry RegistrySpec Sending Logger.
From S2P Require Import FileManager Store Upload ClientHandler Receive Session.

(** ** Who was told what *)

(** From [k] to [k'] only the console and the outgoing streams have changed;
    [fd] was sent [f fd]. *)
Definition said (f : Z -> bytes) (k k' : kern server) : Prop :=
  k' = with_stdout (k_stdout k') (with_stderr (k_stderr k') (with_out (k_out k') k)) /\
  forall fd, stream (k_out k') fd = stream (k_out k) fd ++ f fd.

(** Only the client on [sock] was told something. *)
Definition only (sock : Z) (out : bytes) (fd : Z) : bytes := if decide (fd = sock) then out else [].

Definition also (f g : Z -> bytes) (fd : Z) : bytes := f fd ++ g fd.

Lemma said_nothing k o e : said (fun _ => []) k (with_stdout o (with_stderr e k)).
Proof. split; [done|]. intros fd. by rewrite app_nil_r. Qed.

Lemma said_trans f g k1 k2 k3 : said f k1 k2 -> said g k2 k3 -> said (also f g) k1 k3.
Proof.
  intros [E1 S1] [E2 S2]. split; [rewrite E2; cbn [k_stdout k_stderr k_out with_stdout with_stderr with_out]; by rewrite E1|].
  intros fd. unfold also. by rewrite S2, S1, <- app_assoc.
Qed.

Lemma said_sent fd out k : said (only fd out) k (sent_out fd out k).
Proof.
  split; [by destruct k|]. intros fd'. simpl. rewrite stream_app. unfold only.
  case_decide; [by subst|by rewrite app_nil_r].
Qed.

Lemma said_ext f g k k' : (forall fd, f fd = g fd) -> said f k k' -> said g k k'.
Proof. intros E [H1 H2]. split; [done|]. intros fd. by rewrite <- E. Qed.

Lemma also_nil_l g fd : also (fun _ => []) g fd = g fd.
Proof. done. Qed.
Lemma also_nil_r f fd : also f (fun _ => []) fd = f fd.
Proof. apply app_nil_r. Qed.

(** What the addressees of a broadcast are told. *)
Definition each (fds : list Z) (out : bytes) (fd : Z) : bytes := if decide (fd ∈ fds) then out else [].

Lemma said_each fds out k outs :
  NoDup fds -> length outs = length fds -> Forall (fun o => o = out) outs ->
  said (each fds out) k (sent_each (zip fds outs) k).
Proof.
  intros Hnd Hlen Hout. split.
  - destruct (sent_each_frame (zip fds outs) k) as [E _]. revert E. generalize (sent_each (zip fds outs) k).
    intros k' E. apply (f_equal (with_out (k_out k'))) in E. change (with_out (k_out k') k' = with_out (k_out k') k) in E.
    rewrite <- E. by destruct k'.
  - intros fd. unfold each. case_decide as Hin.
    + apply list_elem_of_lookup in Hin as [i Hi].
      destruct (Forall2_lookup_l _ _ _ _ _ (stream_sent_each fds outs k Hnd Hlen) Hi) as (o & Ho & ->).
      by rewrite (Forall_lookup_1 _ _ _ _ Hout Ho).
    + rewrite app_nil_r. apply stream_sent_each_other. by rewrite fst_zip by lia.
Qed.

(** ** Calm service *)

(** A logged-in client, outside of the critical sections, and no fault to come. *)
Record calmly (F : nat) (sock : Z) (en : env) (k : kern server) : Prop := {
  ca_serving : serving F sock en k;
  ca_unlocked : unlocked (k_held k);
  ca_faultless : faultless en
}.

Section calm.
Context `{Libc} (F : nat) (sock : Z).
Abbreviation calmly := (calmly F sock).

Lemma calmly_said f en en' k k' : said f k k' -> env_le en' en -> calmly en k -> calmly en' k'.
Proof.
  intros [E _] Hle [[A B' C D G] Hu Hf]. rewrite E. split; [split; try done|done|by eapply faultless_le].
  unfold stream_fuel in *. env_lia.
Qed.

(** [p] tells [f fd] to each [fd], and nothing else happens. *)
Definition tells {A} (p : prog server A) (f : Z -> bytes) (en : env) (k : kern server) : Prop :=
  wp p (fun _ w => said f k (w_kern w) /\ env_le (w_env w) en) (W en k).

Lemma tells_bind {A A'} (p : prog server A) (g : A -> prog server A') f f' en k :
  calmly en k -> tells p f en k ->
  (forall a en' k', calmly en' k' -> k_static k' = k_static k -> tells (g a) f' en' k') -> tells (p ≫= g) (also f f') en k.
Proof.
  intros Hc Hp Hg. apply wp_bind. eapply wp_mono; [exact Hp|]. intros a [en1 k1] [S1 L1]. cbn [w_env w_kern] in *.
  eapply wp_mono; [apply Hg; [by eapply calmly_said|]|].
  - destruct S1 as [E _]. by rewrite E.
  - intros b [en2 k2] [S2 L2]. cbn [w_env w_kern] in *. split; [by eapply said_trans|by etransitivity].
Qed.

Lemma tells_ext {A} (p : prog server A) f g en k : (forall fd, f fd = g fd) -> tells p f en k -> tells p g en k.
Proof. intros E Hp. eapply wp_mono; [exact Hp|]. intros _ w [S L]. split; [by eapply said_ext|done]. Qed.

Lemma tells_ret {A} (a : A) en k : tells (mret a) (fun _ => []) en k.
Proof. apply wp_ret. split; [|done]. cbn [w_kern]. replace k with (with_stdout (k_stdout k) (with_stderr (k_stderr k) k)) at 2 by by destruct k. apply said_nothing. Qed.

Lemma tells_log lvl src text en k : tells (log lvl src text) (fun _ => []) en k.
Proof.
  apply wp_log_last. intros en' Hle. split; [|done]. cbn [w_kern].
  replace k with (with_stdout (k_stdout k) (with_stderr (k_stderr k) k)) at 2 by by destruct k. apply said_nothing.
Qed.

Lemma tells_puts text en k : tells (call (Puts text)) (fun _ => []) en k.
Proof.
  apply (wp_last_call (Puts _)). split; [|done]. cbn [sem snd w_kern].
  change (w_kern (snd (sem (Puts text) (W en k)))) with (with_stdout (k_stdout k ++ text) k).
  replace (with_stdout _ k) with (with_stdout (k_stdout k ++ text) (with_stderr (k_stderr k) k)) by by destruct k. apply said_nothing.
Qed.

Lemma calm_sends type payload en k :
  calmly en k -> sendable type payload ->
  wp (client_manager_send F sock type (Some payload)) (fun r w => r = 0 /\ w = W en (sent_out sock (frame type payload) k)) (W en k).
Proof.
  intros [[A B' C D G] Hu Hf] Hs. apply wp_client_manager_send_calm; try done.
  apply stream_fuel_ok in D. unfold fuel_ok in D. lia.
Qed.

Lemma tells_reply type payload en k :
  calmly en k -> sendable type payload -> tells (reply F sock type payload) (only sock (frame type payload)) en k.
Proof.
  intros Hc Hs. unfold reply. apply wp_bind. eapply wp_mono; [by apply calm_sends|]. intros r w [-> ->]. apply wp_ret.
  split; [apply said_sent|done].
Qed.

(** A reply, after which nothing is said. *)
Lemma tells_last {A} (p : prog server unit) (g : unit -> prog server A) f en k :
  calmly en k -> tells p f en k -> (forall a en' k', tells (g a) (fun _ => []) en' k') -> tells (p ≫= g) f en k.
Proof. intros Hc Hp Hg. eapply tells_ext; [apply also_nil_r|]. by eapply tells_bind. Qed.

Lemma tells_then {A A'} (p : prog server A) (g : A -> prog server A') f en k :
  calmly en k -> tells p (fun _ => []) en k ->
  (forall a en' k', calmly en' k' -> k_static k' = k_static k -> tells (g a) f en' k') -> tells (p ≫= g) f en k.
Proof. intros Hc Hp Hg. eapply tells_ext; [apply also_nil_l|]. by eapply tells_bind. Qed.

(** ** Messages to others *)

Lemma shipped_calm type payload en en' outs :
  faultless en -> Forall (shipped type payload en' en) outs -> Forall (fun o => o = frame type payload) outs.
Proof.
  intros Hf Ho. eapply Forall_impl; [exact Ho|]. intros o [?|[Hlt _]]; [done|]. by destruct (faultless_not_lt _ _ Hf Hlt).
Qed.

Lemma complete_all type payload outs : Forall (fun o => o = frame type payload) outs -> complete type payload outs = zlen outs.
Proof. intros Ho. unfold complete. by rewrite filter_all. Qed.

Lemma calm_broadcast type payload en k :
  calmly en k -> sendable type payload ->
  wp (client_manager_broadcast F sock type (Some payload)) (fun r w =>
    r = zlen (others (k_static k) sock) /\ said (each (others (k_static k) sock) (frame type payload)) k (w_kern w) /\
    env_le (w_env w) en) (W en k).
Proof.
  intros [[A B' C D G] Hu Hf] Hs. apply wp_client_manager_broadcast; [done|done|by apply stream_fuel_ok|..]; [|done].
  intros en' h' err outs r Hle Hh Hlen Hsh _ Hr.
  pose proof (shipped_calm _ _ _ _ _ Hf Hsh) as Ho.
  destruct (Hh Hu) as [->|Hlt]; [|by destruct (faultless_not_lt _ _ Hf Hlt)].
  destruct Hr as [->|[_ Hlt]]; [|by destruct (faultless_not_lt _ _ Hf Hlt)].
  split; [by rewrite complete_all; unfold zlen; f_equal|]. split; [|done]. cbn [w_kern].
  pose proof (said_each _ _ k outs (others_NoDup _ sock A) Hlen Ho) as Hsaid.
  set (k1 := sent_each _ k) in *. eapply said_ext; [apply also_nil_r|]. eapply said_trans; [exact Hsaid|].
  replace (with_held (k_held k) (with_stderr err k1)) with (with_stdout (k_stdout k1) (with_stderr err k1)); [apply said_nothing|].
  destruct Hsaid as [-> _]. done.
Qed.

Lemma calm_private target type payload en k :
  calmly en k -> sendable type payload -> username_ok target ->
  wp (client_manager_send_to_username F (Some target) type (Some payload)) (fun r w =>
    match users (k_static k) !! target with
    | Some (fd, _) => r = 0 /\ said (only fd (frame type payload)) k (w_kern w)
    | None => r = 1 /\ said (fun _ => []) k (w_kern w)
    end /\ env_le (w_env w) en) (W en k).
Proof.
  intros [[A B' C D G] Hu Hf] Hs Ht. apply wp_client_manager_send_to_username; [done|done|by apply stream_fuel_ok|..].
  - intros en' h' r Hle Hh Hr. split; [|done].
    destruct (Hh Hu) as [->|Hlt]; [|by destruct (faultless_not_lt _ _ Hf Hlt)].
    destruct Hr as [(-> & _ & _ & ->)|(_ & [?|[?|Hlt]])]; [|done|done|by destruct (faultless_not_lt _ _ Hf Hlt)].
    split; [done|]. cbn [w_kern]. rewrite with_held_id.
    replace k with (with_stdout (k_stdout k) (with_stderr (k_stderr k) k)) at 2 by by destruct k. apply said_nothing.
  - intros en' h' r fd id out Hle Hh -> _ Hd. split; [|done].
    destruct (Hh Hu) as [->|Hlt]; [|by destruct (faultless_not_lt _ _ Hf Hlt)].
    destruct Hd as [[-> ->]|(_ & Hlt & _)]; [|by destruct (faultless_not_lt _ _ Hf Hlt)].
    split; [done|]. cbn [w_kern].
    replace (with_held (k_held k) (sent_out fd (frame type payload) k)) with (sent_out fd (frame type payload) k) by by destruct k.
    apply said_sent.
Qed.

(** ** Chat *)

Definition signed (name text : bytes) : bytes := name ++ B ": " ++ text.

(** The text can be sent on. *)
Definition transmissible (name text : bytes) : Prop := text ≠ [] /\ zlen (signed name text) <= MESSAGE_MAX_SIZE.

#[export] Instance transmissible_dec name text : Decision (transmissible name text).
Proof. unfold transmissible. apply _. Defined.

Lemma others_bound s : registry_ok s -> zlen (others s sock) <= 64.
Proof.
  intros [Hl _ _ _ _ _ _]. unfold others, zlen. rewrite length_fmap.
  pose proof (length_filter (addressee sock) (clients s)). lia.
Qed.

Lemma sprintf_fit_number size text n :
  zlen text < 30 -> size = 64 -> 0 <= n <= 64 -> sprintf_fit size (text ++ sdec n) = Some (text ++ sdec n).
Proof.
  intros Ht -> Hn. apply sprintf_fit_ok. rewrite zlen_app.
  pose proof (sdec_length n ltac:(lia)). lia.
Qed.

(** What a chat message makes the server say. *)
Definition chat_answer (s : server) (name text : bytes) (fd : Z) : bytes :=
  also (each (others s sock) (frame MSG_BROADCAST (signed name text)))
       (only sock (frame MSG_RESPONSE (B "MESSAGE_DELIVERED " ++ sdec (zlen (others s sock))))) fd.

Lemma sendable_short type text : is_valid_message_type type = true -> zlen text <= 4096 -> sendable type text.
Proof. intros Ht Hl. split; [done|]. unfold strlen, MESSAGE_MAX_SIZE. lia. Qed.

Lemma sprintf_fit_eq size text : sprintf_fit size text = if size <=? zlen text then None else Some text.
Proof.
  case_if; [|by apply sprintf_fit_ok]. destruct (sprintf_fit size text) eqn:E'; [|done].
  apply sprintf_fit_Some in E'. lia.
Qed.

Lemma calm_chat client_id name text en k :
  calmly en k ->
  if decide (transmissible name text) then tells (handle_chat F sock client_id name text) (chat_answer (k_static k) name text) en k
  else exists m, tells (handle_chat F sock client_id name text) (only sock (frame MSG_ERROR m)) en k.
Proof.
  intros Hc. pose proof (sv_registry _ _ _ _ (ca_serving _ _ _ _ Hc)) as Hreg. unfold handle_chat.
  destruct (bool_decide (text = [])) eqn:E; [apply bool_decide_eq_true_1 in E|apply bool_decide_eq_false_1 in E].
  { rewrite decide_False by by intros [? _]. eexists. by apply tells_reply. }
  fold (signed name text). rewrite sprintf_fit_eq. change (MESSAGE_MAX_SIZE + 1) with 4097.
  destruct (decide (transmissible name text)) as [[_ Hl]|Hn].
  2:{ assert (Hl : MESSAGE_MAX_SIZE < zlen (signed name text)) by (apply Z.lt_nge; by intros ?; destruct Hn).
      rewrite (proj2 (Z.leb_le _ _)) by (unfold MESSAGE_MAX_SIZE in Hl; lia). eexists. by apply tells_reply. }
  rewrite (proj2 (Z.leb_gt _ _)) by (unfold MESSAGE_MAX_SIZE in Hl; lia).
  pose proof (others_bound _ Hreg) as Hb. pose proof (zlen_nonneg (others (k_static k) sock)) as Hb0.
  apply wp_bind. eapply wp_mono; [apply calm_broadcast; [done|by apply sendable_short]|].
  intros r [en1 k1] (-> & S1 & L1). cbn [w_env w_kern] in *. pose proof (calmly_said _ _ _ _ _ S1 L1 Hc) as Hc1.
  rewrite (proj2 (Z.ltb_ge _ _)) by done. rewrite sprintf_fit_number by (try done; lia).
  eapply wp_mono; [eapply (tells_then (A := unit) _ _ (only sock _))|].
  - exact Hc1.
  - apply tells_puts.
  - intros _ en2 k2 Hc2 _. eapply (tells_then (A := unit)); [exact Hc2|apply tells_log|].
    intros _ en3 k3 Hc3 _. apply tells_reply; [exact Hc3|]. apply sendable_short; [done|].
    rewrite zlen_app. pose proof (sdec_length (zlen (others (k_static k) sock)) ltac:(lia)).
    change (zlen (B "MESSAGE_DELIVERED ")) with 18. lia.
  - intros _ [en4 k4] [S4 L4]. split; [by eapply said_trans|by etransitivity].
Qed.

(** ** Private messages *)

(** A well-formed request to send [text] to [target]. *)
Definition private_request (name payload target text : bytes) : Prop :=
  payload = target ++ SPACE :: text /\ text ≠ [] /\ username_ok target /\ target ≠ name /\
  zlen (signed name text) <= MESSAGE_MAX_SIZE.

Definition private_answer (fd : Z) (name target text : bytes) : Z -> bytes :=
  also (only fd (frame MSG_PRIVATE (signed name text)))
       (only sock (frame MSG_RESPONSE (B "PRIVATE_MESSAGE_DELIVERED " ++ target))).

(** [handle_private] on a payload with a space after [target]. *)
Lemma private_split target text : SPACE ∉ target ->
  strchr (target ++ SPACE :: text) SPACE = Some (length target) /\ take (length target) (target ++ SPACE :: text) = target /\
  drop (S (length target)) (target ++ SPACE :: text) = text.
Proof.
  intros Ht. split_and!; [by apply strchr_app|by rewrite take_app_length|].
  change (target ++ SPACE :: text) with (target ++ [SPACE] ++ text). rewrite app_assoc. apply drop_app_length'.
  rewrite length_app. simpl. lia.
Qed.

Lemma calm_private_request client_id name target text en k :
  calmly en k -> private_request name (target ++ SPACE :: text) target text ->
  match users (k_static k) !! target with
  | Some (fd, _) => tells (handle_private F sock client_id name (target ++ SPACE :: text)) (private_answer fd name target text) en k
  | None => tells (handle_private F sock client_id name (target ++ SPACE :: text)) (only sock (frame MSG_ERROR (B "USER_NOT_FOUND"))) en k
  end.
Proof.
  intros Hc (_ & Hne & Ht & Hself & Hl). pose proof (proj1 (proj2 (username_ok_chars _ Ht))) as Hsp.
  destruct (private_split target text Hsp) as (E1 & E2 & E3).
  assert (Hlen : (length target =? 0)%nat = false) by (apply Nat.eqb_neq; destruct Ht as [Hz _]; unfold zlen in Hz; lia).
  enough (Hw : wp (handle_private F sock client_id name (target ++ SPACE :: text)) (fun _ w =>
    match users (k_static k) !! target with
    | Some (fd, _) => said (private_answer fd name target text) k (w_kern w)
    | None => said (only sock (frame MSG_ERROR (B "USER_NOT_FOUND"))) k (w_kern w)
    end /\ env_le (w_env w) en) (W en k)) by by (unfold tells; destruct (users (k_static k) !! target) as [[fd id]|]).
  unfold handle_private. rewrite E1, E2, E3, Hlen, bool_decide_eq_false_2 by done. cbn [orb]. cbv zeta.
  rewrite (proj2 (is_valid_username_iff _) Ht). cbn [negb].
  assert (Hs : streq target name = false) by (unfold streq; by apply bool_decide_eq_false_2). rewrite Hs.
  fold (signed name text). rewrite sprintf_fit_eq. rewrite (proj2 (Z.leb_gt _ _)) by lia.
  apply wp_bind. eapply wp_mono; [apply calm_private; [done|by apply sendable_short|done]|].
  intros r [en1 k1] [Hr L1]. cbn [w_env w_kern] in *.
  destruct (users (k_static k) !! target) as [[fd id]|]; destruct Hr as [-> S1];
    pose proof (calmly_said _ _ _ _ _ S1 L1 Hc) as Hc1; cbn [Z.eqb Z.ltb Z.compare Pos.eqb].
  - eapply wp_mono; [eapply (tells_last (A := unit)); [exact Hc1| |]|].
    + rewrite sprintf_fit_ok.
      2:{ destruct Ht as [Hz _]. rewrite zlen_app. unfold USERNAME_MAX_SIZE. change (zlen (B "PRIVATE_MESSAGE_DELIVERED ")) with 26. lia. }
      apply tells_reply; [exact Hc1|]. apply sendable_short; [done|]. destruct Ht as [Hz _]. rewrite zlen_app.
      change (zlen (B "PRIVATE_MESSAGE_DELIVERED ")) with 26. lia.
    + intros _ en2 k2. apply wp_puts. apply wp_log_last. intros en3 Hle3. split; [|done]. cbn [w_kern].
      replace (with_stdout _ k2) with (with_stdout (k_stdout k2 ++ B "Private message from Client " ++ sdec client_id ++ B " (" ++ name ++ B ") to "
                ++ target ++ B "." ++ [NEWLINE]) (with_stderr (k_stderr k2) k2)) by by destruct k2. apply said_nothing.
    + intros _ [en4 k4] [S4 L4]. split; [by eapply said_trans|by etransitivity].
  - eapply wp_mono; [eapply (tells_last (A := unit)); [exact Hc1|by apply tells_reply|intros; apply tells_log]|].
    intros _ [en4 k4] [S4 L4]. cbn [w_env w_kern] in *. split; [|by etransitivity].
    eapply said_ext; [apply also_nil_l|]. by eapply said_trans.
Qed.

Lemma calm_private_refused client_id name payload en k :
  calmly en k -> (forall target text, ~ private_request name payload target text) ->
  exists m, tells (handle_private F sock client_id name payload) (only sock (frame MSG_ERROR m)) en k.
Proof.
  intros Hc Hn. unfold handle_private.
  destruct (strchr payload SPACE) as [i|] eqn:Ei; [|by eexists; apply tells_reply].
  apply strchr_Some in Ei as (Hp & Hlen & Hsp).
  destruct ((i =? 0)%nat || bool_decide (drop (S i) payload = [])) eqn:E1; [by eexists; apply tells_reply|]. cbv zeta.
  destruct (negb (is_valid_username (Some (take i payload)))) eqn:E2; [by eexists; apply tells_reply|].
  destruct (streq (take i payload) name) eqn:E3; [by eexists; apply tells_reply|].
  fold (signed name (drop (S i) payload)). rewrite sprintf_fit_eq. case_if; [by eexists; apply tells_reply|].
  destruct (Hn (take i payload) (drop (S i) payload)). unbool. split_and!; try done.
  - by apply is_valid_username_iff.
  - intros Heq. unfold streq in E3. by apply bool_decide_eq_false_1 in E3.
  - unfold MESSAGE_MAX_SIZE in *. lia.
Qed.

(** ** The user list *)

Lemma name_lines_bound l : Forall (fun n => zlen n <= 31) l -> zlen (name_lines l) <= 32 * zlen l.
Proof.
  unfold name_lines. induction 1 as [|n l Hn _ IH]; [done|].
  rewrite fmap_cons, concat_cons, !zlen_app, (zlen_cons n l). change (zlen [NEWLINE]) with 1. lia.
Qed.

Lemma userlist_bound s : registry_ok s -> zlen (join NEWLINE (usernames s)) <= 2048.
Proof.
  intros Hok. rewrite <- name_lines_join.
  assert (Hr : zlen (removelast (name_lines (usernames s))) <= zlen (name_lines (usernames s))).
  { destruct (name_lines (usernames s)) as [|b l] using rev_ind; [done|]. rewrite removelast_last, zlen_app. pose proof (zlen_nonneg [b]). lia. }
  pose proof (name_lines_bound (usernames s)) as Hb.
  assert (Hl : zlen (usernames s) <= 64).
  { unfold usernames, zlen. rewrite length_fmap. pose proof (length_filter (fun e => active e = true) (clients s)).
    pose proof (reg_length _ Hok) as H64. rewrite H64 in *. lia. }
  enough (zlen (name_lines (usernames s)) <= 32 * zlen (usernames s)) by lia. apply Hb.
  apply Forall_fmap, Forall_forall. intros e He. apply list_elem_of_filter in He as [Ha He]. by eapply active_name_length.
Qed.

Lemma calm_list_users name en k :
  calmly en k ->
  tells (handle_list_users F sock name) (only sock (frame MSG_USERLIST (join NEWLINE (usernames (k_static k))))) en k.
Proof.
  intros Hc. pose proof Hc as [[A B' C D G] Hu Hf]. unfold handle_list_users.
  apply wp_bind, wp_client_manager_build_userlist; [done|done|done|].
  intros en1 h1 r l Hle Hh Hr.
  destruct Hr as [[-> ->]|[_ Hlt]]; [|by destruct (faultless_not_lt _ _ Hf Hlt)].
  destruct (Hh) as [->|Hlt]; [|by destruct (faultless_not_lt _ _ Hf Hlt)]. rewrite with_held_id.
  assert (Hpos : 0 < Z.of_nat (size (users (k_static k)))).
  { destruct C as (i & e & Hi & Ha & _). enough (size (users (k_static k)) <> 0%nat) by lia. intros Hz.
    apply map_size_empty_inv in Hz. assert (Hl : users (k_static k) !! username e = Some (socket_fd e, client_id e)).
    { apply users_lookup; [done|]. eauto 10. }
    by rewrite Hz in Hl. }
  rewrite (proj2 (Z.ltb_ge _ _)), (proj2 (Z.eqb_neq _ _)) by lia. cbv zeta.
  assert (Hc1 : calmly en1 k) by (split; [split; try done; unfold stream_fuel in *; env_lia|done|by eapply faultless_le]).
  pose proof (userlist_bound _ A). eapply wp_mono; [eapply (tells_last (A := unit)); [exact Hc1| |intros; apply tells_log]|].
  - apply tells_reply; [exact Hc1|]. by apply sendable_short; [|lia].
  - intros _ w [S L]. split; [done|by etransitivity].
Qed.

(** ** The login *)

Lemma calm_send_message type payload (g : Z -> prog server (Z * bytes)) Q en (k : kern server) :
  k_fds k !! sock = Some FdSocket -> faultless en -> (1 < F)%nat -> sendable type payload ->
  wp (g 0) Q (W en (sent_out sock (frame type payload) k)) ->
  wp (send_message F sock type (Some payload) ≫= g) Q (W en k).
Proof.
  intros Ho Hf HF [Ht Hl] HQ. unfold send_message. rewrite Ht. cbn [negb]. cbv zeta.
  rewrite (proj2 (Z.ltb_ge _ _)) by done. apply wp_bind, wp_bind, wp_send_all_calm; [done|done|done|].
  cbn [Z.eqb negb]. unfold frame, strlen in *. case_if.
  - apply wp_ret. apply zlen_zero in E as ->. by rewrite app_nil_r in HQ.
  - apply wp_send_all_calm; [done|done|done|]. by rewrite sent_out_app.
Qed.

Lemma calm_receive_message {A} t p (g : received -> prog server A) Q en (k : kern server) :
  k_fds k !! sock = Some FdSocket -> fuel_ok F en -> faultless en ->
  acceptable (MESSAGE_MAX_SIZE + 1) t p -> frame t p `prefix_of` stream (k_in k) sock ->
  (forall en', env_le en' en -> wp (g (Received t p)) Q (W en' (received_in sock (8 + length p) k))) ->
  wp (receive_message F sock (MESSAGE_MAX_SIZE + 1) ≫= g) Q (W en k).
Proof.
  intros Ho HF Hf Ha Hp HQ. apply wp_bind, wp_receive_message; [done|done|done|..].
  - intros en' t' p' Hle Ha' Hp'. destruct (frame_prefix_unique _ _ _ _ _ _ Ha Ha' Hp Hp') as [-> ->]. by apply HQ.
  - intros en' r n Hle Hn [(_ & _ & Hno)|[(_ & _ & Hbad)|[_ Hlt]]]; [by destruct (Hno t p)|by destruct (frame_not_bad _ _ _ _ Ha Hp)|].
    by destruct (faultless_not_lt _ _ Hf Hlt).
Qed.

(** The result of a login message [t] with text [user], and the answer. *)
Definition login_result (s : server) (t : Z) (user : bytes) : Z * bytes :=
  if decide (t = MSG_LOGIN) then
    if decide (username_ok user) then
      if decide (users s !! user = None) then
        if decide (size (users s) < 64)%nat
        then (next_client_id s, frame MSG_RESPONSE (B "LOGIN_SUCCESS " ++ user))
        else (-1, frame MSG_ERROR (B "SERVER_CLIENT_LIMIT"))
      else (0, frame MSG_ERROR (B "USERNAME_ALREADY_EXISTS"))
    else (0, frame MSG_ERROR (B "INVALID_USERNAME"))
  else (0, frame MSG_ERROR (B "LOGIN_REQUIRED")).

(** The state left by a login. *)
Definition login_done (t : Z) (p : bytes) (k : kern server) (r : Z) (k' : kern server) : Prop :=
  let s := k_static k in
  r = fst (login_result s t (c_str p)) /\
  users (k_static k') = (if decide (0 < r) then <[c_str p := (sock, r)]> (users s) else users s) /\
  registry_ok (k_static k') /\ k_held k' = k_held k /\
  (forall fd, stream (k_out k') fd = stream (k_out k) fd ++
     only sock (frame MSG_RESPONSE (B "USERNAME_REQUIRED") ++ snd (login_result s t (c_str p))) fd) /\
  stream (k_in k') sock = drop (length (frame t p)) (stream (k_in k) sock).

(** From [k]: the prompt was sent, the message received. *)
Definition prompted (t : Z) (p : bytes) (k : kern server) : kern server :=
  received_in sock (8 + length p) (sent_out sock (frame MSG_RESPONSE (B "USERNAME_REQUIRED")) k).

Lemma login_done_intro t p k r out s h :
  registry_ok s -> h = k_held k -> r = fst (login_result (k_static k) t (c_str p)) ->
  out = snd (login_result (k_static k) t (c_str p)) ->
  users s = (if decide (0 < r) then <[c_str p := (sock, r)]> (users (k_static k)) else users (k_static k)) ->
  login_done t p k r (sent_out sock out (with_held h (with_static s (prompted t p k)))).
Proof.
  intros Hok -> Hr -> Hu. split_and!; try done.
  - intros fd. unfold prompted, sent_out, received_in, only.
    cbn [k_out with_out with_in with_held with_static k_static]. rewrite app_stream_app, stream_app.
    destruct (decide (fd = sock)) as [Hd|]; [by rewrite Hd|by rewrite app_nil_r].
  - unfold prompted, sent_out, received_in. cbn [k_in with_out with_in with_held with_static].
    by rewrite stream_drop_eq, length_frame.
Qed.

(** The refusals. *)
Lemma calm_login_refused t p k en r m user lvl text :
  registry_ok (k_static k) -> k_fds k !! sock = Some FdSocket -> faultless en -> (1 < F)%nat -> r <= 0 -> zlen m <= 4096 ->
  login_result (k_static k) t (c_str p) = (r, frame MSG_ERROR m) ->
  wp (_ ← send_message F sock MSG_ERROR (Some m); _ ← log lvl AUTH text; mret (r, user))
    (fun (r : Z * bytes) w => login_done t p k r.1 (w_kern w)) (W en (prompted t p k)).
Proof.
  intros Hok Ho Hf HF Hr Hm Hl. apply calm_send_message; [done|done|done|by apply sendable_short|].
  apply wp_log. intros en2 Hle2. apply wp_ret. cbn [fst w_kern].
  replace (prompted t p k) with (with_held (k_held k) (with_static (k_static k) (prompted t p k))) by by destruct k.
  apply login_done_intro; rewrite ?Hl; try done. rewrite decide_False by (cbn; lia). done.
Qed.

Lemma calm_login t p en k :
  accepted F sock en k -> unlocked (k_held k) -> faultless en ->
  acceptable (MESSAGE_MAX_SIZE + 1) t p -> frame t p `prefix_of` stream (k_in k) sock ->
  wp (perform_login F sock USERNAME_MAX_SIZE) (fun (r : Z * bytes) w => login_done t p k r.1 (w_kern w)) (W en k).
Proof.
  intros [A B' C D G J L] Hu Hf Hacc Hp. pose proof (stream_fuel_ok _ _ J) as HF.
  assert (HF1 : (1 < F)%nat) by (unfold fuel_ok in HF; lia).
  unfold perform_login. change (USERNAME_MAX_SIZE <? USERNAME_MAX_SIZE) with false. cbv iota.
  apply calm_send_message; [done|done|done|by apply sendable_short|]. cbn [negb Z.eqb].
  apply (calm_receive_message t p); try done. intros en1 Hle1. fold (prompted t p k).
  pose proof (faultless_le _ _ Hle1 Hf) as Hf1.
  assert (Hrefuse : forall r m user lvl text, r <= 0 -> zlen m <= 4096 ->
    login_result (k_static k) t (c_str p) = (r, frame MSG_ERROR m) ->
    wp (_ ← send_message F sock MSG_ERROR (Some m); _ ← log lvl AUTH text; mret (r, user))
      (fun (r : Z * bytes) w => login_done t p k r.1 (w_kern w)) (W en1 (prompted t p k))).
  { intros. by apply calm_login_refused. }
  unfold login_result in Hrefuse. case_if.
  { apply Hrefuse; [done|done|]. by rewrite decide_False by done. }
  rewrite decide_True in Hrefuse by done. case_if.
  { apply Hrefuse; [done|done|]. rewrite decide_False; [done|]. rewrite <- is_valid_username_iff. congruence. }
  apply is_valid_username_iff in E0. rewrite decide_True in Hrefuse by done. cbv zeta.
  rewrite strncpy_username by done. set (user := c_str p) in *. apply wp_self, wp_bind.
  assert (Hfault : forall en2 h', held_ok en2 en1 h' (k_held (prompted t p k)) -> h' = k_held k).
  { intros en2 h' [->|Hlt]; [done|by destruct (faultless_not_lt _ _ Hf1 Hlt)]. }
  assert (Hk : with_held (k_held k) (prompted t p k) = prompted t p k) by by destruct k.
  pose proof (reg_next _ A) as Hnext.
  apply wp_client_manager_add; [done|apply Hu|..].
  - intros en2 h' r Hle2 Hh Hr. rewrite (Hfault _ _ Hh), Hk. pose proof (faultless_le _ _ Hle2 Hf1) as Hf2.
    destruct Hr as [(-> & _ & Hin)|(-> & [Hn|[(_ & Hnew & Hfull)|Hlt]])]; [| |
      |by destruct (faultless_not_lt _ _ Hf1 Hlt)].
    + cbn [Z.eqb]. apply calm_login_refused; try done.
      unfold login_result. fold user. rewrite decide_True, decide_True, decide_False by (try done; by apply not_eq_None_Some). done.
    + by destruct Hn.
    + cbn [Z.eqb Z.ltb Z.compare]. apply calm_login_refused; try done.
      apply size_full in Hfull; [|done]. unfold login_result. fold user.
      rewrite decide_True, decide_True, decide_True, decide_False by (done || (change (k_static (prompted t p k)) with (k_static k) in Hfull; lia)).
      done.
  - intros en2 h' r i e0 Hle2 Hh Hname Hnew Hi Hact Hr. rewrite (Hfault _ _ Hh). pose proof (faultless_le _ _ Hle2 Hf1) as Hf2.
    destruct Hr as [->|[_ Hlt]]; [|by destruct (faultless_not_lt _ _ Hf1 Hlt)].
    change (k_static (prompted t p k)) with (k_static k) in *.
    assert (Hid : next_client_id (k_static k) < 2 ^ 32 - 1) by lia.
    replace (i32 (next_client_id (k_static k))) with (next_client_id (k_static k)) by (unfold i32; rewrite Z.mod_small; lia).
    rewrite (proj2 (Z.eqb_neq _ _)), (proj2 (Z.ltb_ge _ _)) by lia.
    set (s1 := add_state (Z.of_nat i) sock (k_self (prompted t p k)) user (k_static k)).
    set (k1 := with_held (k_held k) (with_static s1 (prompted t p k))).
    assert (Hu31 : zlen user <= 31) by apply Hname.
    rewrite sprintf_fit_ok by (rewrite zlen_app; unfold USERNAME_MAX_SIZE; change (zlen (B "LOGIN_SUCCESS ")) with 14; lia).
    apply wp_bind, wp_client_manager_send_calm; try done.
    + by apply (add_state_sockets sock i e0 _ user (prompted t p k)).
    + apply (add_state_registered _ i e0 sock _ user); try done. by left.
    + apply sendable_short; [done|]. rewrite zlen_app. change (zlen (B "LOGIN_SUCCESS ")) with 14. lia.
    + cbn [negb Z.eqb]. apply wp_log. intros en3 Hle3. apply wp_ret. cbn [fst w_kern].
      apply login_done_intro; try done.
      * by apply (add_state_ok _ i e0).
      * unfold login_result. fold user. rewrite !decide_True by (try done; by eapply size_not_full). done.
      * unfold login_result. fold user. rewrite !decide_True by (try done; by eapply size_not_full). done.
      * rewrite decide_True by lia. by apply (add_state_users _ i e0).
Qed.
End calm.

(** A payload is a request in at most one way. *)
Lemma private_request_fields name payload target text :
  private_request name payload target text ->
  exists i, strchr payload SPACE = Some i /\ target = take i payload /\ text = drop (S i) payload.
Proof.
  intros (-> & _ & Ht & _). pose proof (proj1 (proj2 (username_ok_chars _ Ht))) as Hsp.
  destruct (private_split target text Hsp) as (E1 & E2 & E3). exists (length target). by rewrite E2, E3.
Qed.

Lemma private_request_unique name payload target text target' text' :
  private_request name payload target text -> private_request name payload target' text' -> target' = target /\ text' = text.
Proof.
  intros (i & Hi & -> & ->)%private_request_fields (j & Hj & -> & ->)%private_request_fields.
  rewrite Hi in Hj. by injection Hj as <-.
Qed.

Lemma private_request_cases name payload :
  (exists target text, private_request name payload target text) \/
  (forall target text, ~ private_request name payload target text).
Proof.
  destruct (strchr payload SPACE) as [i|] eqn:Ei.
  2:{ right. intros target text Hr. apply private_request_fields in Hr as (j & Hj & _). congruence. }
  set (target := take i payload). set (text := drop (S i) payload).
  destruct (decide (text ≠ [] /\ is_valid_username (Some target) = true /\ target ≠ name /\ zlen (signed name text) <= MESSAGE_MAX_SIZE))
    as [(H1 & H2 & H3 & H4)|Hn]; [left|right].
  - apply strchr_Some in Ei as (Hp & _). exists target, text. split_and!; try done. by apply is_valid_username_iff.
  - intros tg tx Hr. destruct (private_request_fields _ _ _ _ Hr) as (j & Hj & -> & ->).
    rewrite Ei in Hj. injection Hj as <-. destruct Hr as (_ & ? & ? & ? & ?). apply Hn. split_and!; try done.
    by apply is_valid_username_iff.
Qed.

(** ** Properties *)

Definition room_F : nat := Z.to_nat 7000.

Lemma room_calmly : calmly room_F 5 calm room.
Proof.
  split; [split|apply room_unlocked|done]; [apply room_ok|apply room_sockets|by apply registeredb_true|by vm_compute|done].
Qed.

(** C30. Without faults, a chat message of a logged-in client is sent to every
    other client, signed, and acknowledged with their number; an empty text,
    or one too long to be signed, is answered with one error message, and
    nobody else hears of it. *)
Theorem chat_is_heard `{Libc} F sock client_id name text en (k : kern server) :
  calmly F sock en k ->
  runs (handle_chat F sock client_id name text) (W en k) (fun _ '(W _ k') =>
    if decide (transmissible name text) then said (chat_answer sock (k_static k) name text) k k'
    else exists m, said (only sock (frame MSG_ERROR m)) k k').
Proof.
  intros Hc. apply wp_runs. pose proof (calm_chat F sock client_id name text en k Hc) as Hw.
  destruct (decide (transmissible name text)); [|destruct Hw as [m Hw]]; (eapply wp_mono; [exact Hw|]); intros _ [en' k'] [S _]; eauto.
Qed.

Lemma chat_is_heard_witness :
  runs (handle_chat room_F 5 1 (B "alice") (B "good morning")) (W calm room) (fun _ '(W _ k') =>
    if decide (transmissible (B "alice") (B "good morning")) then said (chat_answer 5 (k_static room) (B "alice") (B "good morning")) room k'
    else exists m, said (only 5 (frame MSG_ERROR m)) room k').
Proof. apply (chat_is_heard (H := plain_libc)), room_calmly. Defined.

(** C31. Without faults, a well-formed private message is sent, signed, to the
    client with the target's name, and acknowledged; to nobody, with an error
    for the sender, if there is none; and any other payload is answered with
    one error message. *)
Theorem private_message_is_heard `{Libc} F sock client_id name payload en (k : kern server) :
  calmly F sock en k ->
  runs (handle_private F sock client_id name payload) (W en k) (fun _ '(W _ k') =>
    (forall target text, private_request name payload target text ->
       match users (k_static k) !! target with
       | Some (fd, _) => said (private_answer sock fd name target text) k k'
       | None => said (only sock (frame MSG_ERROR (B "USER_NOT_FOUND"))) k k'
       end) /\
    ((forall target text, ~ private_request name payload target text) -> exists m, said (only sock (frame MSG_ERROR m)) k k')).
Proof.
  intros Hc. apply wp_runs.
  destruct (private_request_cases name payload) as [(target & text & Hr)|Hn].
  - pose proof Hr as (-> & _ & Ht & _).
    assert (Hw : wp (handle_private F sock client_id name (target ++ SPACE :: text)) (fun _ w =>
      match users (k_static k) !! target with
       | Some (fd, _) => said (private_answer sock fd name target text) k (w_kern w)
       | None => said (only sock (frame MSG_ERROR (B "USER_NOT_FOUND"))) k (w_kern w)
       end) (W en k)).
    { pose proof (calm_private_request F sock client_id name target text en k Hc Hr) as Hw.
      destruct (users (k_static k) !! target) as [[fd id]|]; (eapply wp_mono; [exact Hw|]); by intros _ w [? _]. }
    eapply wp_mono; [exact Hw|]. intros _ [en' k'] Hs. cbn [w_kern] in Hs. split; [|intros Hn; by destruct (Hn _ _ Hr)].
    intros tg tx Hr'. by destruct (private_request_unique _ _ _ _ _ _ Hr Hr') as [-> ->].
  - destruct (calm_private_refused F sock client_id name payload en k Hc Hn) as [m Hw].
    eapply wp_mono; [exact Hw|]. intros _ [en' k'] [Hs _]. split; [|by eauto]. intros target text Hr. by destruct (Hn _ _ Hr).
Qed.

Lemma private_message_is_heard_witness :
  runs (handle_private room_F 5 1 (B "alice") (B "bob psst")) (W calm room) (fun _ '(W _ k') =>
    (forall target text, private_request (B "alice") (B "bob psst") target text ->
       match users (k_static room) !! target with
       | Some (fd, _) => said (private_answer 5 fd (B "alice") target text) room k'
       | None => said (only 5 (frame MSG_ERROR (B "USER_NOT_FOUND"))) room k'
       end) /\
    ((forall target text, ~ private_request (B "alice") (B "bob psst") target text) -> exists m, said (only 5 (frame MSG_ERROR m)) room k')).
Proof. apply (private_message_is_heard (H := plain_libc)), room_calmly. Defined.

(** Without faults, the user list sent to a logged-in client has the name
    of every logged-in client, once each, on lines of their own. *)
Theorem user_list_is_exact `{Libc} F sock name en (k : kern server) :
  calmly F sock en k ->
  runs (handle_list_users F sock name) (W en k) (fun _ '(W _ k') =>
    exists names, names ≡ₚ (map_to_list (users (k_static k))).*1 /\
      said (only sock (frame MSG_USERLIST (join NEWLINE names))) k k').
Proof.
  intros Hc. apply wp_runs. eapply wp_mono; [by apply calm_list_users|]. intros _ [en' k'] [S _].
  exists (usernames (k_static k)). split; [apply usernames_perm, Hc|done].
Qed.

Lemma user_list_is_exact_witness :
  runs (handle_list_users room_F 5 (B "alice")) (W calm room) (fun _ '(W _ k') =>
    exists names, names ≡ₚ (map_to_list (users (k_static room))).*1 /\
      said (only 5 (frame MSG_USERLIST (join NEWLINE names))) room k').
Proof. apply (user_list_is_exact (H := plain_libc)), room_calmly. Defined.

(** C19. Without faults, a connection whose first message is well formed gets
    the prompt and one answer, and is registered, with the next client id,
    exactly when the message is a login with a valid name that nobody uses and
    there is room; otherwise the answer names the first condition that failed. *)
Theorem login_is_decided `{Libc} F sock t p en (k : kern server) :
  accepted F sock en k -> unlocked (k_held k) -> faultless en ->
  acceptable (MESSAGE_MAX_SIZE + 1) t p -> frame t p `prefix_of` stream (k_in k) sock ->
  runs (perform_login F sock USERNAME_MAX_SIZE) (W en k) (fun r '(W _ k') => login_done sock t p k r.1 k').
Proof. intros. apply wp_runs. eapply wp_mono; [by apply (calm_login F sock t p)|]. by intros r [en' k']. Qed.

Lemma login_is_decided_witness :
  runs (perform_login room_F 5 USERNAME_MAX_SIZE) (W calm lobby) (fun r '(W _ k') => login_done 5 MSG_LOGIN (B "alice") lobby r.1 k').
Proof.
  apply (login_is_decided (H := plain_libc)); [by apply lobby_accepted; vm_compute|split; [done|by intros ?]|done|done|].
  exists (frame MSG_CHAT (B "hello") ++ frame MSG_DISCONNECT []). by vm_compute.
Defined.
