(* ===== verification/DownloadClient.v ===== *)
(** * Downloads, at the client

    [src/client/download_client.c]: the response that announces a file, and
    the raw bytes that follow it. *)

From S2P Require Import Prelude CLib Posix Wp Protocol NetworkIO ClientManager Registry Sending PerfTimer FileLock Logger.
From S2P Require Import FileManager Store Upload Download.

Definition FILE_DOWNLOAD_DIRECTORY : bytes := B "downloads".
Definition PATH_MAX : Z := 4096.

(** ** Definitions *)

(** What [copy_result] leaves in the buffer [result]. *)
Definition copy_result (result_size : Z) (message : bytes) : bytes := snd (snprintf result_size message).

(** The result 0, -1, or 1 with the name and the size. *)
Inductive ready_result :=
  | Not_ready
  | Bad_ready
  | Ready (filename : bytes) (file_size : Z).

Definition parse_download_ready (payload : bytes) (filename_size : Z) : ready_result :=
  let prefix := B "DOWNLOAD_READY " in
  if negb (strneq payload prefix (length prefix)) then Not_ready else
  let metadata := drop (length prefix) payload in
  match strchr metadata BAR with
  | None => Bad_ready
  | Some separator =>
      let size_text := drop (S separator) metadata in
      match strchr size_text BAR with
      | Some _ => Bad_ready
      | None =>
          let filename_length := Z.of_nat separator in
          if (filename_length == 0) || (filename_size <=? filename_length) then Bad_ready else
          let filename := take separator metadata in
          if negb (is_valid_shared_filename (Some filename)) then Bad_ready else
          if bool_decide (size_text = []) then Bad_ready else
          let r := strtoull size_text in
          if (match st_errno r with Some e => e != 0 | None => false end)
             || (Z.of_nat (st_end r) == 0)
             || negb (bool_decide (drop (st_end r) size_text = []))
             || (FILE_MAX_SIZE <? st_value r)
          then Bad_ready
          else Ready filename (st_value r)
      end
  end.

Section handler.
Context {St : Type}.
Abbreviation prog := (prog St).
(** Fuel of the loops. *)
Variable F : nat.

Definition ensure_download_directory : prog Z :=
  information ← call (Stat FILE_DOWNLOAD_DIRECTORY);
  match information with
  | Some information => mret (if S_ISDIR information then 0 else -1)
  | None =>
      errno ← call Errno;
      if errno != ENOENT then mret (-1) else
      r ← call (Mkdir FILE_DOWNLOAD_DIRECTORY MODE_0755);
      errno ← call Errno;
      if (r != 0) && (errno != EEXIST) then mret (-1) else mret 0
  end.

Definition write_all_file (file_fd : Z) (buffer : bytes) : prog Z := write_all_loop false F file_fd buffer 0.

(** The transfer loop: [None] when the bytes did not all arrive, otherwise
    whether the local file could not be written. *)
Fixpoint drain_loop (fuel : nat) (socket_fd file_fd remaining : Z) (local_write_failed : bool) : prog (option bool) :=
  match fuel with
  | O => Diverge
  | S fuel =>
      if 0 <? remaining then
        let chunk_size := if FILE_CHUNK_SIZE <? remaining then FILE_CHUNK_SIZE else remaining in
        '(receive_result, buffer) ← recv_all F socket_fd chunk_size;
        if receive_result != 0 then mret None else
        local_write_failed ← (if negb local_write_failed then
                                r ← write_all_file file_fd buffer;
                                mret (r != 0)
                              else mret true);
        drain_loop fuel socket_fd file_fd (remaining - chunk_size) local_write_failed
      else mret (Some local_write_failed)
  end.

(** The paths of a download; [None] when one does not fit. *)
Definition final_path_text (filename : bytes) : bytes := FILE_DOWNLOAD_DIRECTORY ++ B "/" ++ filename.
Definition temporary_path_text (pid : Z) : bytes := FILE_DOWNLOAD_DIRECTORY ++ B "/.download-" ++ sdec pid ++ B ".tmp".

(** From the announcement to the open temporary file: the two paths, the
    descriptor (-1 when there is none) and whether it failed. *)
Definition download_prepare (filename : bytes) : prog (bytes * bytes * Z * bool) :=
  r ← ensure_download_directory;
  pid ← call Getpid;
  let '(final_written, final_path) := snprintf PATH_MAX (final_path_text filename) in
  let '(temporary_written, temporary_path) := snprintf PATH_MAX (temporary_path_text pid) in
  let local_write_failed := (r != 0) || (PATH_MAX <=? final_written) || (PATH_MAX <=? temporary_written) in
  exists_already ← (if negb local_write_failed then
                      r ← call (Access final_path);
                      mret (r == 0)
                    else mret false);
  if negb (local_write_failed || exists_already) then
    _ ← call (Unlink temporary_path);
    file_fd ← call (Open temporary_path (O_WRONLY ||| O_CREAT ||| O_EXCL) MODE_0600);
    mret (final_path, temporary_path, file_fd, file_fd <? 0)
  else mret (final_path, temporary_path, -1, true).

(** From the last byte on: the result and its text. *)
Definition download_finish (final_path temporary_path filename : bytes) (file_size file_fd : Z)
    (local_write_failed : bool) (result_size : Z) : prog (Z * bytes) :=
  local_write_failed ←
    (if 0 <=? file_fd then
      failed ← (if local_write_failed then mret true else r ← call (Fsync file_fd); mret (r != 0));
      failed ← (if failed : bool then mret true else r ← call (Fchmod file_fd MODE_0644); mret (r != 0));
      r ← call (Close file_fd);
      mret (failed || (r != 0))
    else mret local_write_failed);
  if local_write_failed : bool then
    _ ← call (Unlink temporary_path);
    mret (2, copy_result result_size (B "LOCAL_DOWNLOAD_WRITE_FAILED_OR_FILE_EXISTS"))
  else
  r ← call (Link temporary_path final_path);
  if r != 0 then
    _ ← call (Unlink temporary_path);
    mret (2, copy_result result_size (B "LOCAL_DOWNLOAD_FINALIZE_FAILED"))
  else
  _ ← call (Unlink temporary_path);
  let '(written, result) := snprintf result_size (B "DOWNLOAD_SUCCESS " ++ filename ++ B " " ++ dec file_size) in
  if result_size <=? written then mret (2, result) else mret (1, result).

(** The result, and what is in the buffer [result] (not written for 0). *)
Definition download_client_handle_server_message (socket_fd message_type : Z) (payload : option bytes)
    (result_size : Z) : prog (Z * bytes) :=
  match payload with
  | None => mret (-1, [])
  | Some payload =>
      if result_size == 0 then mret (-1, []) else
      if message_type != MSG_RESPONSE then mret (0, []) else
      match parse_download_ready payload FILE_NAME_MAX_SIZE with
      | Not_ready => mret (0, [])
      | Bad_ready => mret (-1, copy_result result_size (B "INVALID_DOWNLOAD_METADATA"))
      | Ready filename file_size =>
          '(final_path, temporary_path, file_fd, local_write_failed) ← download_prepare filename;
          drained ← drain_loop F socket_fd file_fd file_size local_write_failed;
          match drained with
          | None =>
              _ ← (if 0 <=? file_fd then _ ← call (Close file_fd); mret tt else mret tt);
              _ ← (if bool_decide (temporary_path ≠ []) then _ ← call (Unlink temporary_path); mret tt else mret tt);
              mret (-1, copy_result result_size (B "DOWNLOAD_CONNECTION_FAILED"))
          | Some local_write_failed =>
              download_finish final_path temporary_path filename file_size file_fd local_write_failed result_size
          end
      end
  end.
End handler.

(** ** Names *)

Definition download_dir : path := [FILE_DOWNLOAD_DIRECTORY].
Definition local_path (name : bytes) : path := [FILE_DOWNLOAD_DIRECTORY; name].
Definition temporary_name (pid : Z) : bytes := B ".download-" ++ sdec pid ++ B ".tmp".

Lemma split_slash_app s t : SLASH ∉ s -> split_slash (s ++ SLASH :: t) = s :: split_slash t.
Proof.
  induction s as [|b s IH]; [done|]. intros [Hb Hs]%not_elem_of_cons. cbn [app split_slash].
  rewrite decide_False by congruence. by rewrite IH.
Qed.

Lemma resolve_local name : SLASH ∉ name -> name ≠ [] -> name ≠ [DOT] -> name ≠ [DOT; DOT] ->
  resolve [] (FILE_DOWNLOAD_DIRECTORY ++ B "/" ++ name) = local_path name.
Proof.
  intros Hs H0 H1 H2. unfold resolve. change (B "/" ++ name) with (SLASH :: name).
  rewrite split_slash_app, split_slash_single by (done || by apply strchr_None). cbn [app FILE_DOWNLOAD_DIRECTORY].
  change (match FILE_DOWNLOAD_DIRECTORY ++ SLASH :: name with x2f :: _ => [[SLASH]] | _ => [] end) with (@nil bytes).
  cbn [fold_left]. change (walk [] FILE_DOWNLOAD_DIRECTORY) with [FILE_DOWNLOAD_DIRECTORY]. unfold walk.
  by rewrite !bool_decide_eq_false_2.
Qed.

Lemma resolve_final name : filename_ok name -> resolve [] (final_path_text name) = local_path name.
Proof.
  intros Hn. destruct (filename_ok_no_slash _ Hn) as [Hs _]. destruct Hn as (_ & _ & (c & t & -> & Hc) & _).
  apply resolve_local; [done|done|..]; intros [= -> ->]; destruct Hc as [Hc|Hc]; by vm_compute in Hc.
Qed.

Lemma resolve_temporary pid : resolve [] (temporary_path_text pid) = local_path (temporary_name pid).
Proof.
  unfold temporary_path_text. change (B "/.download-" ++ sdec pid ++ B ".tmp") with (B "/" ++ temporary_name pid).
  apply resolve_local; [|done|done|done]. unfold temporary_name.
  rewrite !not_elem_of_app. split; [by apply strchr_None|]. split; [apply sdec_no_slash|by apply strchr_None].
Qed.

Lemma final_not_temporary name pid : filename_ok name -> local_path name ≠ local_path (temporary_name pid).
Proof. intros (_ & _ & (c & t & -> & Hc) & _) [= -> _]. destruct Hc as [Hc|Hc]; by vm_compute in Hc. Qed.

Lemma temporary_text_fits pid : - 2 ^ 31 <= pid < 2 ^ 31 -> zlen (temporary_path_text pid) < PATH_MAX.
Proof.
  intros Hp. pose proof (sdec_length pid Hp). unfold temporary_path_text, PATH_MAX.
  rewrite !zlen_app. change (zlen FILE_DOWNLOAD_DIRECTORY) with 9. change (zlen (B "/.download-")) with 11. change (zlen (B ".tmp")) with 4. lia.
Qed.

Lemma final_text_fits name : filename_ok name -> zlen (final_path_text name) < PATH_MAX.
Proof.
  intros [Hn _]. unfold final_path_text, PATH_MAX. rewrite !zlen_app. change (zlen FILE_DOWNLOAD_DIRECTORY) with 9.
  change (zlen (B "/")) with 1. lia.
Qed.

Lemma snprintf_whole size text : zlen text < size -> snprintf size text = (zlen text, text).
Proof. intros H. unfold snprintf. f_equal. apply take_ge. unfold zlen in *. lia. Qed.

(** ** The announcement *)

(** The same grammar as the server's for uploads, after the prefix. *)
Lemma parse_download_ready_eq payload :
  parse_download_ready payload FILE_NAME_MAX_SIZE =
    if strneq payload (B "DOWNLOAD_READY ") 15 then
      match parse_upload_metadata (Some (drop 15 payload)) FILE_NAME_MAX_SIZE with
      | Some (name, n) => Ready name n
      | None => Bad_ready
      end
    else Not_ready.
Proof.
  unfold parse_download_ready, parse_upload_metadata. change (length (B "DOWNLOAD_READY ")) with 15%nat.
  change (FILE_NAME_MAX_SIZE == 0) with false. cbv iota.
  destruct (strneq _ _ _); [|done]. cbn [negb]. destruct (strchr (drop 15 payload) BAR); [|done].
  destruct (strchr _ BAR); [done|]. repeat case_if; done.
Qed.

Lemma parse_ready_sound payload name n :
  parse_download_ready payload FILE_NAME_MAX_SIZE = Ready name n -> filename_ok name /\ 0 <= n <= FILE_MAX_SIZE.
Proof.
  rewrite parse_download_ready_eq. destruct (strneq _ _ _); [|done].
  destruct (parse_upload_metadata _ _) as [[name' n']|] eqn:E; [|done]. intros [= -> ->].
  apply parse_upload_iff in E as (? & ? & text & _ & Hn). pose proof (numeral_nonneg _ _ Hn). done.
Qed.

(** ** The state of the process during a download *)

Lemma stat_dir_cases {St} p (k : kern St) :
  k_tree k !! p = None /\ stat_path k p = inl ENOENT \/
  k_tree k !! p = Some NDir /\ (exists i, stat_path k p = inr (Some i, k) /\ S_ISDIR i = true) \/
  k_tree k !! p ≠ None /\ k_tree k !! p ≠ Some NDir /\
    ((exists e, stat_path k p = inl e) \/ exists i, stat_path k p = inr (Some i, k)).
Proof.
  unfold stat_path, follow. destruct (k_tree k !! p) as [[ino| |t|]|] eqn:E; [|by right; left; split; [|eexists]| | |by left].
  - right. right. split; [done|]. split; [done|]. destruct (stat_node k (NReg ino)); eauto.
  - right. right. split; [done|]. split; [done|]. destruct (k_tree k !! resolve (removelast p) t) as [[]|]; eauto;
      destruct (stat_node k _); eauto.
  - right. right. split; [done|]. split; [done|]. destruct (stat_node k NOther); eauto.
Qed.

Section download.
Context {St : Type} (F : nat) (sock : Z) (name : bytes) (size : Z) (k : kern St) (en0 : env).

Let pid := k_pid k.
Let tmp := local_path (temporary_name pid).
Let dest := local_path name.

(** The bytes that are still to come. *)
Definition incoming : bytes := stream (k_in k) sock.

Hypothesis (Hopen : k_fds k !! sock = Some FdSocket) (HF : stream_fuel F en0).
Hypothesis (Hname : filename_ok name) (Hsize : 0 <= size <= FILE_MAX_SIZE) (Hpid : - 2 ^ 31 <= pid < 2 ^ 31).

(** [k] with other files, descriptors and locks, and [n] bytes received. *)
Definition during (t : gmap path node) (m : gmap positive inode) (x : gmap Z fdesc) (l : list (positive * Z * lock_type))
    (n : nat) : kern St :=
  mk_kern (k_static k) (k_held k) t m x l (drop_stream sock n (k_in k)) (k_out k) (k_shut k) (k_stdin k)
    (k_stdout k) (k_stderr k) (k_pid k) (k_self k) (k_threads k).

Lemma during_0 : during (k_tree k) (k_inodes k) (k_fds k) (k_locks k) 0 = k.
Proof. clear. unfold during. by destruct k. Qed.

Definition tmp_flags : Z := O_WRONLY ||| O_CREAT ||| O_EXCL.

(** With the temporary file open as the pair of [o], holding [d]; or, with
    [None], without one. *)
Definition draining (o : option (Z * positive)) (t : gmap path node) (d : bytes) (n : nat) : kern St :=
  match o with
  | Some (fd, ino) =>
      during t (<[ino := mk_inode d MODE_0600]> (k_inodes k)) (<[fd := FdFile ino (length d) tmp_flags]> (k_fds k)) (k_locks k) n
  | None => during t (k_inodes k) (k_fds k) (k_locks k) n
  end.

Definition fd_of (o : option (Z * positive)) : Z := match o with Some (fd, _) => fd | None => -1 end.

Lemma draining_sock o t d n :
  (forall fd ino, o = Some (fd, ino) -> k_fds k !! fd = None) -> k_fds (draining o t d n) !! sock = Some FdSocket.
Proof.
  intros Ho. destruct o as [[fd ino]|]; [|exact Hopen]. simpl. rewrite lookup_insert_ne; [exact Hopen|].
  intros ->. specialize (Ho _ _ eq_refl). congruence.
Qed.

Lemma draining_recv o t d n m : received_in sock m (draining o t d n) = draining o t d (n + m).
Proof.
  destruct o as [[fd ino]|]; unfold received_in, draining, during, with_in; simpl; by rewrite drop_stream_drop.
Qed.

Lemma draining_stream o t d n : stream (k_in (draining o t d n)) sock = drop n incoming.
Proof. destruct o as [[fd ino]|]; simpl; by rewrite stream_drop_eq. Qed.

Lemma draining_appendable fd ino t d n : appendable (draining (Some (fd, ino)) t d n) fd.
Proof.
  exists ino, (length d), tmp_flags, (mk_inode d MODE_0600). simpl. rewrite !lookup_insert_eq. split_and!; [done|done|done|by right].
Qed.

Lemma draining_write fd ino t d s n :
  file_app fd s (draining (Some (fd, ino)) t d n) = draining (Some (fd, ino)) t (d ++ s) n.
Proof.
  unfold file_app. destruct s as [|b s]; [by rewrite app_nil_r|]. simpl. rewrite !lookup_insert_eq. simpl.
  unfold with_fds, with_inodes, draining, during. simpl. by rewrite !insert_insert_eq.
Qed.

(** The loop takes exactly the announced bytes off the stream, also when they
    cannot be written, and stores them all unless a call failed. *)
Lemma wp_drain_loop fuel steps o t d n remaining failed Q en :
  let rest := drop n incoming in
  (forall fd ino, o = Some (fd, ino) -> k_fds k !! fd = None) -> (o = None -> failed = true) -> env_le en en0 ->
  0 <= remaining -> remaining <= FILE_CHUNK_SIZE * Z.of_nat steps -> (steps < fuel)%nat ->
  (forall en' failed' d', env_le en' en -> remaining <= zlen rest ->
     (failed' = false /\ failed = false /\ d' = d ++ take (Z.to_nat remaining) rest \/
      failed' = true /\ (failed = true \/ env_lt en' en)) ->
     Q (Some failed') (W en' (draining o t d' (n + Z.to_nat remaining)))) ->
  (forall en' d' m, env_le en' en -> Z.of_nat m < remaining -> (m <= length rest)%nat ->
     (zlen rest < remaining \/ env_lt en' en) -> Q None (W en' (draining o t d' (n + m)))) ->
  wp (drain_loop F fuel sock (fd_of o) remaining failed) Q (W en (draining o t d n)).
Proof.
  revert steps d n remaining failed en. induction fuel as [|fuel IH]; intros steps d n remaining failed en rest Ho Hn Hle0 H0 Hst Hfuel Hok Hko;
    [lia|]. cbn [drain_loop]. case_if.
  2:{ apply wp_ret. assert (remaining = 0) as -> by lia. specialize (Hok en failed d ltac:(env_lia)).
      change (Z.to_nat 0) with 0%nat in Hok. rewrite Nat.add_0_r in Hok. apply Hok; [apply zlen_nonneg|].
      rewrite take_0, app_nil_r. destruct failed; auto. }
  set (chunk := if FILE_CHUNK_SIZE <? remaining then FILE_CHUNK_SIZE else remaining).
  assert (Hchunk : 0 < chunk <= remaining /\ (chunk = FILE_CHUNK_SIZE \/ chunk = remaining)).
  { unfold chunk, FILE_CHUNK_SIZE in *. case_if; lia. }
  assert (Hfl : forall en', env_le en' en -> fuel_ok F en') by (intros en' Hle; apply stream_fuel_ok in HF; eapply fuel_ok_le; [|exact HF]; env_lia).
  apply wp_bind, wp_recv_all; [by apply draining_sock|lia|by apply Hfl|..]; rewrite draining_stream; fold rest.
  2:{ intros en1 r m Hle1 Hm Hm' Hwhy. assert (Hr : (r != 0) = true) by (destruct Hwhy as [[-> _]|[[-> | ->] _]]; done).
      rewrite Hr. apply wp_ret. rewrite draining_recv.
      apply Hko; [env_lia|lia|done|]. destruct Hwhy as [[_ ->]|[_ ?]]; [left; unfold zlen; lia|right; env_lia]. }
  intros en1 Hle1 Hlen. cbn [negb Z.eqb]. rewrite draining_recv.
  assert (Hnext : forall en2 failed2 d2, env_le en2 en1 ->
    (failed2 = false /\ failed = false /\ d2 = d ++ take (Z.to_nat chunk) rest \/
     failed2 = true /\ (failed = true \/ env_lt en2 en)) ->
    wp (drain_loop F fuel sock (fd_of o) (remaining - chunk) failed2) Q (W en2 (draining o t d2 (n + Z.to_nat chunk)))).
  { intros en2 failed2 d2 Hle2 Hf2.
    assert (Hrest : drop (n + Z.to_nat chunk) incoming = drop (Z.to_nat chunk) rest) by (unfold rest; by rewrite drop_drop).
    eapply (IH (pred steps)); rewrite ?Hrest; [done| |env_lia|lia|unfold FILE_CHUNK_SIZE in *; destruct steps; lia|
      unfold FILE_CHUNK_SIZE in *; destruct steps; lia| |].
    - intros Hnone. specialize (Hn Hnone). destruct Hf2 as [(_ & ? & _)|[? _]]; congruence.
    - intros en3 failed3 d3 Hle3 Hl3 Hf3.
      replace (n + Z.to_nat chunk + Z.to_nat (remaining - chunk))%nat with (n + Z.to_nat remaining)%nat by lia.
      unfold zlen in *. rewrite length_drop in Hl3. apply Hok; [env_lia|lia|].
      destruct Hf3 as [(-> & -> & ->)|[-> Hf3]].
      + destruct Hf2 as [(_ & -> & ->)|[? _]]; [|done]. left. split_and!; [done|done|].
        rewrite <- app_assoc, take_add_drop. do 2 f_equal. lia.
      + right. split; [done|]. destruct Hf2 as [(-> & _)|[_ [?|?]]]; [|by left|right; env_lia].
        destruct Hf3 as [?|?]; [done|right; env_lia].
    - intros en3 d3 m Hle3 Hm Hm' Hwhy. rewrite <- Nat.add_assoc. unfold zlen in *. rewrite length_drop in Hm', Hwhy.
      apply Hko; [env_lia|lia|lia|]. destruct Hwhy; [left; lia|right; env_lia]. }
  destruct failed; cbn [negb].
  { apply wp_bind, wp_ret, Hnext; [done|right; auto]. }
  destruct o as [[fd ino]|]; [|by specialize (Hn eq_refl)].
  apply wp_bind, wp_bind, wp_write_all; [apply draining_appendable|apply Hfl; env_lia|..].
  - intros en2 Hle2. cbn [negb Z.eqb]. apply wp_ret. rewrite draining_write. apply Hnext; [done|left; auto].
  - intros en2 m Hlt2 _. cbn [negb Z.eqb]. apply wp_ret. rewrite draining_write. apply Hnext; [env_lia|right].
    split; [done|right; env_lia].
Qed.

(** ** The outcome *)

(** The files: nothing is lost or overwritten but a temporary file of this process. *)
Record files_kept (t : gmap path node) (m : gmap positive inode) : Prop := {
  fk_tree : forall p nd, k_tree k !! p = Some nd -> p ≠ tmp -> t !! p = Some nd;
  fk_new : forall p, k_tree k !! p = None -> is_Some (t !! p) -> p = download_dir \/ p = tmp \/ p = dest;
  fk_data : forall ino i, k_inodes k !! ino = Some i -> m !! ino = Some i
}.

(** The file is new and has exactly the bytes that came. *)
Definition saved (t : gmap path node) (m : gmap positive inode) : Prop :=
  k_tree k !! dest = None /\ exists ino mode, k_inodes k !! ino = None /\ t !! dest = Some (NReg ino) /\
    m !! ino = Some (mk_inode (take (Z.to_nat size) incoming) mode).

Definition dir_usable : Prop := k_tree k !! download_dir = None \/ k_tree k !! download_dir = Some NDir.

(** The file can be saved. *)
Definition savable : Prop := dir_usable /\ k_tree k !! dest = None /\ k_tree k !! tmp ≠ Some NDir.

Definition unsaved (en : env) : Prop := env_lt en en0 \/ ~ savable.

Lemma unsaved_le en en' : env_le en' en -> unsaved en -> unsaved en'.
Proof. intros Hle [?|?]; [left; env_lia|by right]. Qed.

Definition success_text : bytes := B "DOWNLOAD_SUCCESS " ++ name ++ B " " ++ dec size.

(** What the handler has done when it returns [r] with the text [text]. *)
Record handled (r : Z) (text : bytes) (en : env) (k' : kern St) : Prop := {
  hd_env : env_le en en0;
  hd_state : exists t m l n, k' = during t m (k_fds k) l n /\ l ⊆ k_locks k /\ files_kept t m /\
    (t !! tmp = None \/ env_lt en en0 \/ t !! tmp = k_tree k !! tmp) /\
    (r = 1 /\ n = Z.to_nat size /\ size <= zlen incoming /\ saved t m /\ text = success_text \/
     r = 2 /\ n = Z.to_nat size /\ size <= zlen incoming /\ t !! dest = k_tree k !! dest /\ unsaved en \/
     r = -1 /\ Z.of_nat n < size /\ (n <= length incoming)%nat /\ t !! dest = k_tree k !! dest /\
       (zlen incoming < size \/ env_lt en en0))
}.

Definition ends_well (a : Z * bytes) (w : world St) : Prop := handled a.1 a.2 (w_env w) (w_kern w).

Lemma final_not_tmp : dest ≠ tmp.
Proof. by apply final_not_temporary. Qed.

Lemma directory_not_tmp : download_dir ≠ tmp.
Proof. done. Qed.

Lemma files_kept_0 : files_kept (k_tree k) (k_inodes k).
Proof. split; [done|by intros p -> [? ?]|done]. Qed.

Lemma files_kept_delete t m : files_kept t m -> files_kept (delete tmp t) m.
Proof.
  intros [T N D]. split; [|intros p Hp [nd Hnd]|done].
  - intros p nd Hp Hne. rewrite lookup_delete_ne by done. by apply T.
  - apply lookup_delete_Some in Hnd as [Hne Hnd]. apply N; [done|by eexists].
Qed.

(** ** The directory *)

Lemma wp_ensure_download_directory {A} (g : Z -> prog St A) Q en :
  env_le en en0 ->
  (forall en' t, env_le en' en -> files_kept t (k_inodes k) -> (forall p, p ≠ download_dir -> t !! p = k_tree k !! p) ->
     t !! download_dir = Some NDir \/ env_lt en' en0 \/ ~ dir_usable ->
     wp (g 0) Q (W en' (during t (k_inodes k) (k_fds k) (k_locks k) 0))) ->
  (forall en', env_le en' en -> env_lt en' en0 \/ ~ dir_usable -> wp (g (-1)) Q (W en' k)) ->
  wp (ensure_download_directory ≫= g) Q (W en k).
Proof.
  intros Hle0 Hok Hko. unfold ensure_download_directory. apply wp_bind. change (resolve [] FILE_DOWNLOAD_DIRECTORY) with download_dir.
  assert (Hsame : forall en', env_le en' en -> k_tree k !! download_dir = Some NDir \/ env_lt en' en0 \/ ~ dir_usable -> wp (g 0) Q (W en' k)).
  { intros en' Hle Hwhy. rewrite <- during_0. apply Hok; [done|apply files_kept_0|done|exact Hwhy]. }
  assert (Hmiss : forall en', env_le en' en -> env_lt en' en0 \/ ~ dir_usable \/ k_tree k !! download_dir = None /\ e_errno en' = ENOENT ->
    wp (errno ← call Errno;
        if errno != ENOENT then mret (-1) else
        r ← call (Mkdir FILE_DOWNLOAD_DIRECTORY MODE_0755);
        errno ← call Errno;
        if (r != 0) && (errno != EEXIST) then mret (-1) else mret 0) (fun a => wp (g a) Q) (W en' k)).
  { intros en' Hle Hwhy. apply wp_errno. case_if.
    { apply wp_ret, Hko; [done|]. destruct Hwhy as [?|[?|[_ ?]]]; [by left|by right|done]. }
    apply wp_mkdir; change (resolve [] FILE_DOWNLOAD_DIRECTORY) with download_dir.
    - intros en2 Hle2 Hnone _. apply wp_errno. cbn [Z.eqb negb andb]. apply wp_ret.
      rewrite <- during_0 at 1. apply (Hok en2 (<[download_dir := NDir]> (k_tree k))); [env_lia| | |left; apply lookup_insert_eq].
      + split; [|intros p Hp [nd Hnd]|done].
        * intros p nd Hp Hne. rewrite lookup_insert_ne; [done|]. intros <-. congruence.
        * apply lookup_insert_Some in Hnd as [[<- _]|[_ Hnd]]; [by left|congruence].
      + intros p Hne. by rewrite lookup_insert_ne.
    - intros en2 Hle2 Hwhy2 _. assert (Hw : env_lt en2 en0 \/ ~ dir_usable).
      { destruct Hwhy as [?|[?|[Hnone _]]]; [left; env_lia|by right|].
        destruct Hwhy2 as [?|[[_ [x Hx]]|Hd]]; [left; env_lia|congruence|done]. }
      apply wp_errno. case_if; apply wp_ret; [apply Hko; [env_lia|done]|]. apply Hsame; [env_lia|by right]. }
  eapply wp_fallible; [reflexivity| |].
  { intros en1 Hlt _. apply Hmiss; [by apply env_lt_le|left; env_lia]. }
  intros en1 lim Hle _ _. cbv beta. change (resolve [] FILE_DOWNLOAD_DIRECTORY) with download_dir.
  destruct (stat_dir_cases download_dir k) as [[Hn ->]|[[Hd (i & -> & Hi)]|(Hn & Hd & [(e & ->)|(i & ->)])]].
  - apply (Hmiss (with_errno ENOENT en1)); [done|by right; right].
  - apply wp_ret. rewrite Hi. apply Hsame; [done|by left].
  - apply (Hmiss (with_errno e en1)); [done|]. right. left. by intros [?|?].
  - assert (Hu : ~ dir_usable) by (by intros [?|?]). apply wp_ret. destruct (S_ISDIR i); [apply Hsame|apply Hko]; auto.
Qed.

(** ** The temporary file *)

Lemma wp_remove_temporary_path {A} (g : Z -> prog St A) Q en t m x l n :
  env_le en en0 ->
  (forall en' z t', env_le en' en ->
     t' = t /\ (t !! tmp = None \/ env_lt en' en0 \/ t !! tmp = Some NDir) \/ t' = delete tmp t ->
     wp (g z) Q (W en' (during t' m x l n))) ->
  wp (call (Unlink (temporary_path_text pid)) ≫= g) Q (W en (during t m x l n)).
Proof.
  intros Hle0 HQ. apply wp_unlink; unfold pid; rewrite resolve_temporary; fold pid; fold tmp.
  - intros en' nd Hle _ _. apply (HQ en' 0 (delete tmp t)); [done|by right].
  - intros en' Hle Hwhy. apply (HQ en' (-1) t); [done|]. left. split; [done|].
    destruct Hwhy as [?|[[? _]|?]]; [right; left; env_lia|by left|by right; right].
Qed.

(** What is known before the transfer. *)
Record prepared (o : option (Z * positive)) (t : gmap path node) : Prop := {
  pr_open : forall fd ino, o = Some (fd, ino) -> 0 <= fd /\ k_fds k !! fd = None /\ k_inodes k !! ino = None /\
    t !! tmp = Some (NReg ino) /\ t !! download_dir = Some NDir;
  pr_kept : files_kept t (k_inodes k);
  pr_dest : t !! dest = k_tree k !! dest;
  pr_tmp : t !! tmp = None \/ t !! tmp = k_tree k !! tmp \/ exists ino, t !! tmp = Some (NReg ino)
}.

Lemma wp_download_prepare Q en :
  env_le en en0 ->
  (forall en' fd ino t, env_le en' en -> prepared (Some (fd, ino)) t ->
     Q (final_path_text name, temporary_path_text pid, fd, false) (W en' (draining (Some (fd, ino)) t [] 0))) ->
  (forall en' t, env_le en' en -> prepared None t -> unsaved en' ->
     Q (final_path_text name, temporary_path_text pid, -1, true) (W en' (draining None t [] 0))) ->
  wp (download_prepare name) Q (W en k).
Proof.
  intros Hle0 Hok Hko. unfold download_prepare.
  assert (Hrest : forall en1 r t, env_le en1 en -> prepared None t -> (r = 0 /\ (t !! download_dir = Some NDir \/ unsaved en1) \/ r = -1 /\ unsaved en1) ->
    wp (pid ← call Getpid;
        let '(final_written, final_path) := snprintf PATH_MAX (final_path_text name) in
        let '(temporary_written, temporary_path) := snprintf PATH_MAX (temporary_path_text pid) in
        let local_write_failed := (r != 0) || (PATH_MAX <=? final_written) || (PATH_MAX <=? temporary_written) in
        exists_already ← (if negb local_write_failed then r ← call (Access final_path); mret (r == 0) else mret false);
        if negb (local_write_failed || exists_already) then
          _ ← call (Unlink temporary_path);
          file_fd ← call (Open temporary_path (O_WRONLY ||| O_CREAT ||| O_EXCL) MODE_0600);
          mret (final_path, temporary_path, file_fd, file_fd <? 0)
        else mret (final_path, temporary_path, -1, true)) Q (W en1 (draining None t [] 0))).
  { intros en1 r t Hle1 Hp Hr. apply wp_getpid. change (k_pid (draining None t [] 0)) with pid.
    rewrite (snprintf_whole _ _ (final_text_fits _ Hname)), (snprintf_whole _ _ (temporary_text_fits _ Hpid)).
    rewrite (proj2 (Z.leb_gt _ _) (final_text_fits _ Hname)), (proj2 (Z.leb_gt _ _) (temporary_text_fits _ Hpid)), !orb_false_r.
    destruct Hr as [[-> Hd]|[-> Hu]]; cbn [Z.eqb negb]; [|apply wp_bind, wp_ret; apply Hko; [done|done|done]].
    apply wp_bind, wp_access.
    { intros en2 Hle2 Hsome. rewrite resolve_final in Hsome by done. apply wp_ret. cbn [Z.eqb orb negb]. apply wp_ret, Hko; [env_lia|done|]. right.
      intros (_ & Hnone & _). cbn [draining k_tree during] in Hsome. fold dest in Hsome. rewrite (pr_dest _ _ Hp), Hnone in Hsome. by destruct Hsome. }
    intros en2 Hle2. apply wp_ret. cbn [Z.eqb orb negb].
    apply wp_remove_temporary_path; [env_lia|]. intros en3 z t' Hle3 Ht'.
    assert (Hp' : prepared None t' /\ (forall p, p ≠ tmp -> t' !! p = t !! p) /\ (t' !! tmp = None \/ unsaved en3)).
    { destruct Hp as [_ K D T]. destruct Ht' as [[-> Hwhy]| ->].
      - split; [by split|]. split; [done|]. destruct Hwhy as [?|[?|Hdir]]; [by left|right; by left|right; right].
        intros (_ & _ & Hn). destruct T as [?|[?|[ino ?]]]; congruence.
      - split; [split; [done|by apply files_kept_delete| |left; by apply lookup_delete_eq]|].
        + rewrite lookup_delete_ne by (intros E; by apply final_not_tmp). done.
        + split; [|left; apply lookup_delete_eq]. intros p Hne. by rewrite lookup_delete_ne. }
    destruct Hp' as (Hp' & Hsame & Hnone). apply wp_open_excl; [done|done|..]; unfold pid; rewrite resolve_temporary; fold pid; fold tmp.
    - intros en4 ino Hle4 Ht Hdir Hi. apply wp_ret. pose proof (next_fd_nonneg (k_fds k)) as Hfd0. pose proof (next_fd_fresh (k_fds k)).
      cbv zeta. change (k_fds (during t' _ _ _ 0)) with (k_fds k). rewrite (proj2 (Z.ltb_ge _ _)) by done.
      apply (Hok en4 (next_fd (k_fds k)) ino (<[tmp := NReg ino]> t')); [env_lia|].
      destruct Hp' as [_ [KT KN KD] D T]. split.
      + intros fd ino' [= <- <-]. split; [done|]. split; [done|]. split; [done|]. split; [apply lookup_insert_eq|].
        rewrite lookup_insert_ne by done. unfold is_dir in Hdir. simpl in Hdir. destruct (t' !! download_dir) as [[]|] eqn:E; try done;
          unfold download_dir in E; by rewrite E in Hdir.
      + split; [|intros p Hpn [nd Hnd]|done].
        * intros p nd Hpn Hne. rewrite lookup_insert_ne by done. by apply KT.
        * apply lookup_insert_Some in Hnd as [[<- _]|[_ Hnd]]; [by right; left|]. apply KN; [done|by eexists].
      + rewrite lookup_insert_ne; [done|]. intros E. by apply final_not_tmp.
      + right. right. exists ino. apply lookup_insert_eq.
    - intros en4 Hle4 Hwhy. apply wp_ret. cbn [Z.ltb Z.compare]. apply Hko; [env_lia|done|].
      destruct Hwhy as [?|[[nd Hnd]|Hdir]]; [left; env_lia| |].
      + cbn [k_tree during] in Hnd. destruct Hnone as [?|Hu]; [congruence|]. eapply unsaved_le; [|exact Hu]. env_lia.
      + unfold is_dir in Hdir. simpl in Hdir. destruct Hd as [Hd|Hu]; [|eapply unsaved_le; [|exact Hu]; env_lia].
        rewrite <- Hsame in Hd by done. unfold download_dir in Hd. by rewrite Hd in Hdir. }
  apply wp_ensure_download_directory; [done| |].
  - intros en1 t Hle1 Hk Hsame Hwhy. apply (Hrest en1 0 t); [done| |left; split; [done|]].
    + split; [done|done|by apply Hsame|right; left; by apply Hsame].
    + destruct Hwhy as [?|[?|Hn]]; [by left|right; by left|right; right]. by intros [? _].
  - intros en1 Hle1 Hwhy. pose proof (Hrest en1 (-1) (k_tree k) Hle1) as Hr. unfold draining in Hr. rewrite during_0 in Hr. apply Hr.
    + split; [done|apply files_kept_0|done|by right; left].
    + right. split; [done|]. destruct Hwhy as [?|Hn]; [by left|right]. by intros [? _].
Qed.

(** ** After the transfer *)

(** The temporary file is closed. *)
Record arrived (t : gmap path node) (m : gmap positive inode) (l : list (positive * Z * lock_type)) : Prop := {
  ar_kept : files_kept t m;
  ar_dest : t !! dest = k_tree k !! dest;
  ar_locks : l ⊆ k_locks k;
  ar_tmp : t !! tmp = None \/ t !! tmp = k_tree k !! tmp \/ exists ino, t !! tmp = Some (NReg ino);
  ar_size : size <= zlen incoming
}.

Lemma arrived_ends t m l r text en :
  arrived t m l -> env_le en en0 -> (t !! tmp = None \/ env_lt en en0 \/ t !! tmp = Some NDir) -> r = 2 -> unsaved en ->
  ends_well (r, text) (W en (during t m (k_fds k) l (Z.to_nat size))).
Proof.
  intros [K D L T S] Hle Htmp -> Hu. split; [exact Hle|]. exists t, m, l, (Z.to_nat size).
  split; [done|]. split; [done|]. split; [done|]. split.
  - destruct Htmp as [?|[?|Hdir]]; [by left|by right; left|right; right]. destruct T as [?|[?|[ino ?]]]; congruence.
  - right. left. by split_and!.
Qed.

Lemma arrived_delete t m l : arrived t m l -> arrived (delete tmp t) m l.
Proof.
  intros [K D L T S]. split; try done; [by apply files_kept_delete| |left; apply lookup_delete_eq].
  rewrite lookup_delete_ne; [done|]. intros E. by apply final_not_tmp.
Qed.

(** The end of a download that is not saved. *)
Lemma wp_not_saved t m l text en :
  arrived t m l -> env_le en en0 -> unsaved en ->
  wp (_ ← call (Unlink (temporary_path_text pid)); mret (2, text)) ends_well (W en (during t m (k_fds k) l (Z.to_nat size))).
Proof.
  intros Ha Hle Hu. apply wp_remove_temporary_path; [done|]. intros en' z t' Hle' [[-> Hw]| ->]; apply wp_ret.
  - apply arrived_ends; [done|env_lia|done|done|by eapply unsaved_le].
  - apply arrived_ends; [by apply arrived_delete|env_lia|left; apply lookup_delete_eq|done|by eapply unsaved_le].
Qed.

Lemma success_text_length : zlen success_text < 256.
Proof.
  unfold success_text. rewrite !zlen_app. destruct Hname as [Hn _].
  pose proof (dec_length size 8 ltac:(unfold FILE_MAX_SIZE in *; simpl; lia)).
  change (zlen (B "DOWNLOAD_SUCCESS ")) with 17. change (zlen (B " ")) with 1. lia.
Qed.

Lemma wp_publish_local t m l ino mode result_size en :
  arrived t m l -> env_le en en0 -> 256 <= result_size -> t !! tmp = Some (NReg ino) -> t !! download_dir = Some NDir ->
  k_inodes k !! ino = None -> m !! ino = Some (mk_inode (take (Z.to_nat size) incoming) mode) ->
  wp (r ← call (Link (temporary_path_text pid) (final_path_text name));
      if r != 0 then
        _ ← call (Unlink (temporary_path_text pid));
        mret (2, copy_result result_size (B "LOCAL_DOWNLOAD_FINALIZE_FAILED"))
      else
      _ ← call (Unlink (temporary_path_text pid));
      let '(written, result) := snprintf result_size success_text in
      if result_size <=? written then mret (2, result) else mret (1, result))
    ends_well (W en (during t m (k_fds k) l (Z.to_nat size))).
Proof.
  intros Ha Hle Hrs Ht Hd Hnew Hm.
  eapply (wp_link _ _ ino); unfold pid; rewrite ?resolve_temporary, ?resolve_final by done; fold pid; fold tmp; fold dest.
  - exact Ht.
  - intros en1 Hle1 Hnone. cbn [Z.eqb negb]. change (k_tree (during t m (k_fds k) l (Z.to_nat size))) with t in *.
    change (with_tree _ _) with (during (<[dest := NReg ino]> t) m (k_fds k) l (Z.to_nat size)).
    assert (Hdt : dest ≠ tmp) by apply final_not_tmp. destruct Ha as [[KT KN KD] D L T S].
    assert (Hk : files_kept (<[dest := NReg ino]> t) m).
    { split; [|intros p Hp [nd Hnd]|done].
      - intros p nd Hp Hne. rewrite lookup_insert_ne; [by apply KT|]. intros <-. congruence.
      - apply lookup_insert_Some in Hnd as [[<- _]|[_ Hnd]]; [by right; right|]. apply KN; [done|by eexists]. }
    apply wp_remove_temporary_path; [env_lia|]. intros en2 z t' Hle2 Ht'.
    rewrite snprintf_whole by (pose proof success_text_length; lia).
    rewrite (proj2 (Z.leb_gt _ _)) by (pose proof success_text_length; lia). apply wp_ret.
    split; [cbn [w_env]; env_lia|]. exists t', m, l, (Z.to_nat size). cbn [w_kern fst snd].
    split; [done|]. split; [done|].
    assert (Hsaved : forall t', t' !! dest = Some (NReg ino) -> saved t' m).
    { intros t1 H1. split; [congruence|]. by exists ino, mode. }
    destruct Ht' as [[-> Hwhy]| ->].
    + split; [done|]. split.
      * destruct Hwhy as [?|[?|Hdir]]; [by left|by right; left|]. by rewrite lookup_insert_ne, Ht in Hdir.
      * left. split_and!; try done. apply Hsaved, lookup_insert_eq.
    + split; [by apply files_kept_delete|]. split; [left; apply lookup_delete_eq|].
      left. split_and!; try done. apply Hsaved. by rewrite lookup_delete_ne, lookup_insert_eq.
  - intros en1 Hle1 Hwhy. cbn [Z.eqb negb]. apply wp_not_saved; [done|env_lia|].
    change (k_tree (during t m (k_fds k) l (Z.to_nat size))) with t in *.
    destruct Hwhy as [?|[[nd Hnd]|Hdir]]; [left; env_lia|right|].
    + intros (_ & Hn & _). rewrite (ar_dest _ _ _ Ha) in Hnd. congruence.
    + unfold is_dir in Hdir. simpl in Hdir. unfold download_dir in Hd. by rewrite Hd in Hdir.
Qed.

Lemma draining_close fd ino t d mode n :
  k_fds k !! fd = None ->
  exists l, l ⊆ k_locks k /\
    close_fd (during t (<[ino := mk_inode d mode]> (k_inodes k)) (<[fd := FdFile ino (length d) tmp_flags]> (k_fds k)) (k_locks k) n) fd
    = during t (<[ino := mk_inode d mode]> (k_inodes k)) (k_fds k) l n.
Proof.
  intros Hfd. unfold close_fd. cbn [k_fds during k_locks]. rewrite lookup_insert_eq, delete_insert_id by done.
  eexists. split; [|reflexivity]. intros x [_ Hx]%list_elem_of_filter. done.
Qed.

Lemma prepared_arrived o t d mode l :
  prepared o t -> size <= zlen incoming -> l ⊆ k_locks k ->
  arrived t (match o with Some (_, ino) => <[ino := mk_inode d mode]> (k_inodes k) | None => k_inodes k end) l.
Proof.
  intros [O [KT KN KD] D T] Hs Hl. split; try done. split; [done|done|].
  destruct o as [[fd ino]|]; [|done]. destruct (O fd ino eq_refl) as (_ & _ & Hn & _).
  intros ino' i Hi. rewrite lookup_insert_ne; [by apply KD|]. intros <-. congruence.
Qed.

Lemma wp_download_finish o t d failed result_size en :
  prepared o t -> env_le en en0 -> 256 <= result_size -> size <= zlen incoming -> (o = None -> failed = true) ->
  (failed = false /\ d = take (Z.to_nat size) incoming \/ failed = true /\ unsaved en) ->
  wp (download_finish (final_path_text name) (temporary_path_text pid) name size (fd_of o) failed result_size) ends_well
    (W en (draining o t d (Z.to_nat size))).
Proof.
  intros Hp Hle Hrs Hlen Hnone Hf. unfold download_finish. fold success_text.
  set (tail := fun failed : bool => _ : prog St (Z * bytes)).
  destruct o as [[fd ino]|]; cbn [fd_of].
  2:{ rewrite (Hnone eq_refl) in *. destruct Hf as [[? _]|[_ Hu]]; [done|]. cbn [Z.leb Z.compare]. apply wp_bind, wp_ret.
      apply wp_not_saved; [by apply (prepared_arrived None t d MODE_0600)|done|done]. }
  destruct (pr_open _ _ Hp fd ino eq_refl) as (H0 & Hfd & Hnew & Htmp & Hdir). rewrite (proj2 (Z.leb_le _ _)) by done.
  set (state := fun mode => during t (<[ino := mk_inode d mode]> (k_inodes k)) (<[fd := FdFile ino (length d) tmp_flags]> (k_fds k)) (k_locks k) (Z.to_nat size)).
  change (draining _ _ _ _) with (state MODE_0600). apply wp_bind.
  assert (Hclose : forall en' failed' mode, env_le en' en ->
    (failed' = false /\ d = take (Z.to_nat size) incoming \/ failed' = true /\ unsaved en') ->
    wp (r ← call (Close fd); mret (failed' || (r != 0))) (fun a => wp (tail a) ends_well) (W en' (state mode))).
  { intros en' failed' mode Hle' Hf'. apply wp_close. intros en2 z Hle2 Hz. apply wp_ret.
    destruct (draining_close fd ino t d mode (Z.to_nat size) Hfd) as (l & Hl & Hcl). unfold state. rewrite Hcl.
    pose proof (prepared_arrived (Some (fd, ino)) t d mode l Hp Hlen Hl) as Ha. cbv iota beta in Ha.
    assert (Hcase : failed' || (z != 0) = false /\ d = take (Z.to_nat size) incoming \/ failed' || (z != 0) = true /\ unsaved en2).
    { destruct Hf' as [[-> Hd]|[-> Hu]]; [|right; split; [done|by eapply unsaved_le]]. cbn [orb].
      destruct Hz as [->|[-> Hlt]]; [by left|right; split; [done|left; env_lia]]. }
    destruct Hcase as [[-> ->]|[-> Hu]]; unfold tail.
    - eapply wp_publish_local; try done; [env_lia|apply lookup_insert_eq].
    - apply wp_not_saved; [done|env_lia|done]. }
  assert (Hchmod : forall en' failed', env_le en' en ->
    (failed' = false /\ d = take (Z.to_nat size) incoming \/ failed' = true /\ unsaved en') ->
    wp (failed ← (if failed' : bool then mret true else r ← call (Fchmod fd MODE_0644); mret (r != 0));
        r ← call (Close fd); mret (failed || (r != 0))) (fun a => wp (tail a) ends_well) (W en' (state MODE_0600))).
  { intros en' failed' Hle' Hf'. apply wp_bind. destruct failed'.
    { apply wp_ret, Hclose; [done|]. destruct Hf' as [[? _]|[_ ?]]; [done|by right]. }
    destruct Hf' as [[_ Hd]|[? _]]; [|done].
    eapply (wp_fchmod fd MODE_0644 ino); [apply lookup_insert_eq|apply lookup_insert_eq|..].
    - intros en2 Hle2. cbn [Z.eqb negb]. apply wp_ret.
      replace (with_inodes _ (state MODE_0600)) with (state MODE_0644); [apply Hclose; [env_lia|by left]|].
      unfold state, with_inodes, during. cbn. by rewrite insert_insert_eq.
    - intros en2 Hlt2. cbn [Z.eqb negb]. apply wp_ret, Hclose; [env_lia|right]. split; [done|left; env_lia]. }
  apply wp_bind. destruct failed.
  { apply wp_ret, (Hchmod en true); [done|]. destruct Hf as [[? _]|[_ ?]]; [done|by right]. }
  destruct Hf as [[_ Hd]|[? _]]; [|done]. apply wp_fsync; [eexists; apply lookup_insert_eq|].
  intros en2 z Hle2 Hz. apply wp_ret, (Hchmod en2 (z != 0)); [done|].
  destruct Hz as [->|[-> Hlt]]; [by left|right; split; [done|left; env_lia]].
Qed.

(** The stream broke off. *)
Lemma wp_broken_off o t d n text en :
  prepared o t -> env_le en en0 -> Z.of_nat n < size -> (n <= length incoming)%nat -> zlen incoming < size \/ env_lt en en0 ->
  wp (_ ← (if 0 <=? fd_of o then _ ← call (Close (fd_of o)); mret tt else mret tt);
      _ ← (if bool_decide (temporary_path_text pid ≠ []) then _ ← call (Unlink (temporary_path_text pid)); mret tt else mret tt);
      mret (-1, text)) ends_well (W en (draining o t d n)).
Proof.
  intros Hp Hle Hn Hlen Hwhy. rewrite bool_decide_eq_true_2 by done.
  assert (Hrest : forall en' m l, env_le en' en -> l ⊆ k_locks k -> files_kept t m ->
    wp (_ ← (_ ← call (Unlink (temporary_path_text pid)); mret tt); mret (-1, text)) ends_well (W en' (during t m (k_fds k) l n))).
  { intros en' m l Hle' Hl Hk. apply wp_bind, wp_remove_temporary_path; [env_lia|]. intros en2 z t' Hle2 Ht'. apply wp_ret, wp_ret.
    split; [cbn [w_env]; env_lia|]. exists t', m, l, n. cbn [w_kern fst snd]. split; [done|]. split; [done|].
    assert (Hw : zlen incoming < size \/ env_lt en2 en0) by (destruct Hwhy; [by left|right; env_lia]).
    destruct Ht' as [[-> Hd]| ->].
    - split; [done|]. split; [|right; right; split_and!; try done; apply Hp].
      destruct Hd as [?|[?|Hd]]; [by left|by right; left|right; right]. destruct (pr_tmp _ _ Hp) as [?|[?|[ino ?]]]; congruence.
    - split; [by apply files_kept_delete|]. split; [left; apply lookup_delete_eq|]. right. right. split_and!; try done.
      rewrite lookup_delete_ne; [apply Hp|]. intros E. by apply final_not_tmp. }
  apply wp_bind. destruct o as [[fd ino]|]; cbn [fd_of].
  - destruct (pr_open _ _ Hp fd ino eq_refl) as (H0 & Hfd & Hnew & _). rewrite (proj2 (Z.leb_le _ _)) by done.
    apply wp_close. intros en2 z Hle2 _. apply wp_ret.
    destruct (draining_close fd ino t d MODE_0600 n Hfd) as (l & Hl & Hcl). unfold draining. rewrite Hcl. apply Hrest; [done|done|].
    destruct (pr_kept _ _ Hp) as [KT KN KD]. split; [done|done|]. intros ino' i Hi. rewrite lookup_insert_ne; [by apply KD|]. intros <-. congruence.
  - apply wp_ret, Hrest; [done|done|apply Hp].
Qed.

(** A response that announces the file. *)
Lemma wp_handle_ready payload result_size :
  env_le en0 en0 -> 256 <= result_size -> parse_download_ready payload FILE_NAME_MAX_SIZE = Ready name size ->
  wp (download_client_handle_server_message F sock MSG_RESPONSE (Some payload) result_size) ends_well (W en0 k).
Proof.
  intros Hle Hrs Hp. unfold download_client_handle_server_message. rewrite (proj2 (Z.eqb_neq result_size 0)) by lia.
  cbn [Z.eqb negb]. change (MSG_RESPONSE != MSG_RESPONSE) with false. cbv iota. rewrite Hp. apply wp_bind.
  assert (Hchunks : size <= FILE_CHUNK_SIZE * Z.of_nat (Z.to_nat 6400)) by (unfold FILE_CHUNK_SIZE, FILE_MAX_SIZE in *; lia).
  assert (HFc : (Z.to_nat 6400 < F)%nat) by (unfold stream_fuel in HF; lia).
  assert (Hgo : forall en o t failed, env_le en en0 -> prepared o t -> (o = None -> failed = true) -> (failed = true -> unsaved en) ->
    wp (drained ← drain_loop F F sock (fd_of o) size failed;
        match drained with
        | None =>
            _ ← (if 0 <=? fd_of o then _ ← call (Close (fd_of o)); mret tt else mret tt);
            _ ← (if bool_decide (temporary_path_text pid ≠ []) then _ ← call (Unlink (temporary_path_text pid)); mret tt else mret tt);
            mret (-1, copy_result result_size (B "DOWNLOAD_CONNECTION_FAILED"))
        | Some failed => download_finish (final_path_text name) (temporary_path_text pid) name size (fd_of o) failed result_size
        end) ends_well (W en (draining o t [] 0))).
  { intros en o t failed Hen Hpr Hnone Hu. apply wp_bind. apply (wp_drain_loop F (Z.to_nat 6400) o t [] 0 size failed); try done; try lia.
    - intros fd ino ->. by apply (pr_open _ _ Hpr fd ino).
    - intros en1 failed1 d1 Hle1 Hlen Hf. rewrite drop_0 in *. rewrite Nat.add_0_l. apply wp_download_finish; try done; [env_lia| |].
      + intros Ho. specialize (Hnone Ho). destruct Hf as [(_ & ? & _)|[? _]]; congruence.
      + destruct Hf as [(-> & _ & ->)|[-> [Hf|Hlt]]]; [by left|right..]; (split; [done|]); [by eapply unsaved_le; [|apply Hu]|left; env_lia].
    - intros en1 d1 m Hle1 Hm Hlen Hwhy. rewrite drop_0 in *. rewrite Nat.add_0_l. apply wp_broken_off; try done; [env_lia|].
      destruct Hwhy; [by left|right; env_lia]. }
  apply wp_download_prepare; [done| |].
  - intros en1 fd ino t Hle1 Hpr. apply (Hgo en1 (Some (fd, ino)) t false); done.
  - intros en1 t Hle1 Hpr Hu. apply (Hgo en1 None t true); done.
Qed.
End download.

(** ** Properties *)

(** What the handler does with one message. *)
Definition message_outcome {St} (sock type : Z) (payload : bytes) (en : env) (k : kern St) (a : Z * bytes) (en' : env) (k' : kern St) : Prop :=
  match (if type == MSG_RESPONSE then parse_download_ready payload FILE_NAME_MAX_SIZE else Not_ready) with
  | Not_ready => a.1 = 0 /\ en' = en /\ k' = k
  | Bad_ready => a.1 = -1 /\ en' = en /\ k' = k
  | Ready name size => filename_ok name /\ 0 <= size <= FILE_MAX_SIZE /\ handled sock name size k en a.1 a.2 en' k'
  end.

(** C17. Whatever calls fail, the handler ends. Messages that announce no file are
    left alone (0), malformed announcements refused (-1), both without touching
    anything. After a good one: with 1, exactly the announced bytes were taken
    off the stream and a new local file has exactly them; with 2, the same bytes
    were taken, so that the next message can be read, but the file was not
    saved, for which a failed call or an existing file is the reason; with -1
    the stream broke off. No existing file is ever changed, and descriptors
    and locks are given back. *)
Theorem download_client_is_exact {St} F sock type payload result_size en (k : kern St) :
  k_fds k !! sock = Some FdSocket -> stream_fuel F en -> - 2 ^ 31 <= k_pid k < 2 ^ 31 -> 256 <= result_size ->
  runs (download_client_handle_server_message F sock type (Some payload) result_size) (W en k)
    (fun a '(W en' k') => message_outcome sock type payload en k a en' k').
Proof.
  intros Hfd HF Hpid Hsize. apply wp_runs. unfold message_outcome.
  destruct (Z.eqb_spec type MSG_RESPONSE) as [->|Hne].
  - destruct (parse_download_ready payload FILE_NAME_MAX_SIZE) as [| |name size] eqn:Hp.
    1,2: unfold download_client_handle_server_message; rewrite (proj2 (Z.eqb_neq result_size 0)) by lia;
      change (MSG_RESPONSE != MSG_RESPONSE) with false; cbv iota; rewrite Hp; by apply wp_ret.
    destruct (parse_ready_sound _ _ _ Hp) as [Hname Hn].
    eapply wp_mono; [apply (wp_handle_ready F sock name size k en); try done|].
    intros a [en' k'] Ha. split; [done|split; [done|exact Ha]].
  - unfold download_client_handle_server_message. rewrite (proj2 (Z.eqb_neq result_size 0)) by lia.
    rewrite (proj2 (Z.eqb_neq type MSG_RESPONSE)) by done. by apply wp_ret.
Qed.

(** The data of a download, and what comes after it, have arrived. *)
Definition downloading : kern unit :=
  with_in {[ 3 := B "hello" ++ frame MSG_BROADCAST (B "next") ]} (with_fds {[ 3 := FdSocket ]} (idle tt)).

Definition announcement : bytes := B "DOWNLOAD_READY notes.txt|5".

Definition hiccups : env := mk_env [Fail 2; Full; Full; Fail 4; Short 2] 0 [] [] [].

Lemma download_client_is_exact_witness :
  runs (download_client_handle_server_message (Z.to_nat 7000) 3 MSG_RESPONSE (Some announcement) 4097) (W hiccups downloading)
    (fun a '(W en' k') => message_outcome 3 MSG_RESPONSE announcement hiccups downloading a en' k').
Proof. apply download_client_is_exact; [reflexivity|unfold stream_fuel, script_len, hiccups; simpl; lia|by vm_compute|lia]. Defined.

(** The result, the local files and what is left of the stream, computed. *)
Example downloading_result :
  (fun '(a, w) => (a, k_tree (w_kern w) !! local_path (B "notes.txt"), map_to_list (i_data <$> k_inodes (w_kern w)), stream (k_in (w_kern w)) 3)) <$>
    run (download_client_handle_server_message 30 3 MSG_RESPONSE (Some announcement) 4097) (W calm downloading) =
  Some ((1, B "DOWNLOAD_SUCCESS notes.txt 5"), Some (NReg 1), [(1%positive, B "hello")], frame MSG_BROADCAST (B "next")).
Proof. by vm_compute. Qed.
