(* ===== verification/Threads.v ===== *)
(** * Two threads

    The interleaved execution of a main thread and of the thread it creates,
    one call at a time.  A thread waits at a mutex that is held, at a condition
    variable until it is notified (or, as POSIX allows, for no reason), and at
    [pthread_join] until the other thread has ended.  errno is each thread's
    own. *)

From S2P Require Import Prelude CLib Posix Wp.

Record thread (S A : Type) := mk_thread { t_prog : prog S A; t_errno : Z; t_asleep : bool }.
Arguments mk_thread {S A}. Arguments t_prog {S A}. Arguments t_errno {S A}. Arguments t_asleep {S A}.

(** A thread at its start. *)
Definition new_thread {S A} (p : prog S A) : thread S A := mk_thread p 0 false.

Definition wake {S A} (t : thread S A) : thread S A := mk_thread (t_prog t) (t_errno t) false.

Definition finished {S A} (t : thread S A) : bool := match t_prog t with Ret _ => true | _ => false end.

(** The next fallible call will fail at once. *)
Definition fault_due (en : env) : bool := match e_script en with Fail _ :: _ => true | _ => false end.

(** The call does not have to wait. *)
Definition enabled {S} (e : sys S) (asleep other_ended : bool) (w : world S) : bool :=
  match e with
  | Mutex_lock m => fault_due (w_env w) || bool_decide (m ∉ k_held (w_kern w))
  | Cond_wake m => negb asleep && bool_decide (m ∉ k_held (w_kern w))
  | Pthread_join _ => fault_due (w_env w) || other_ended
  | _ => true
  end.

(** The thread has just gone to sleep: it has released the mutex. *)
Definition sleeps {S} (e : sys S) (w : world S) : bool :=
  match e with Cond_sleep m => bool_decide (m ∉ k_held (w_kern w)) | _ => false end.

Definition notifies {S} (e : sys S) : bool := match e with Cond_notify => true | _ => false end.

(** One call of a thread; also says whether it notifies the other one. *)
Definition advance {S A} (t : thread S A) (other_ended : bool) (w : world S) : option (thread S A * bool * world S) :=
  match t_prog t with
  | Call e g =>
      if enabled e (t_asleep t) other_ended w then
        let '(r, w') := sem e (W (with_errno (t_errno t) (w_env w)) (w_kern w)) in
        Some (mk_thread (g r) (e_errno (w_env w')) (sleeps e w'), notifies e, w')
      else None
  | _ => None
  end.

Record system (S A A' : Type) := Sys { s_main : thread S A; s_child : option (thread S A'); s_world : world S }.
Arguments Sys {S A A'}. Arguments s_main {S A A'}. Arguments s_child {S A A'}. Arguments s_world {S A A'}.

(** What happens next: a call of one thread, or a wake-up without reason. *)
Inductive event := Main_call | Child_call | Main_wakes | Child_wakes.

Section system.
Context {S A A' : Type} (child : prog S A').
Abbreviation system := (system S A A').

(** [pthread_create] has succeeded. *)
Definition created (w w' : world S) : bool := (length (k_threads (w_kern w)) <? length (k_threads (w_kern w')))%nat.

Definition step_event (ev : event) (s : system) : option system :=
  match ev with
  | Main_call =>
      match advance (s_main s) (match s_child s with Some c => finished c | None => true end) (s_world s) with
      | Some (t, notified, w) =>
          let c := if notified : bool then wake <$> s_child s else s_child s in
          Some (Sys t (match c with None => if created (s_world s) w then Some (new_thread child) else None | Some c => Some c end) w)
      | None => None
      end
  | Child_call =>
      match s_child s with
      | Some c =>
          match advance c (finished (s_main s)) (s_world s) with
          | Some (c, notified, w) => Some (Sys (if notified : bool then wake (s_main s) else s_main s) (Some c) w)
          | None => None
          end
      | None => None
      end
  | Main_wakes => Some (Sys (wake (s_main s)) (s_child s) (s_world s))
  | Child_wakes => Some (Sys (s_main s) (wake <$> s_child s) (s_world s))
  end.

(** An execution follows a sequence of events. *)
Fixpoint follow_events (l : list event) (s : system) : option system :=
  match l with
  | [] => Some s
  | ev :: l => match step_event ev s with Some s' => follow_events l s' | None => None end
  end.

Definition step (s s' : system) : Prop := exists ev, step_event ev s = Some s'.
Definition reachable : system -> system -> Prop := rtc step.

Lemma follow_reachable l s s' : follow_events l s = Some s' -> reachable s s'.
Proof.
  revert s. induction l as [|ev l IH]; intros s; cbn [follow_events]; [intros [= <-]; apply rtc_refl|].
  destruct (step_event ev s) as [s1|] eqn:E; [|done]. intros H. eapply rtc_l; [by exists ev|by apply IH].
Qed.

(** The execution in which the child runs only while the main thread waits. *)
Fixpoint main_first (n : nat) (s : system) : system :=
  match n with
  | O => s
  | Datatypes.S n =>
      match step_event Main_call s with
      | Some s' => main_first n s'
      | None => match step_event Child_call s with Some s' => main_first n s' | None => s end
      end
  end.

Lemma main_first_reachable n s : reachable s (main_first n s).
Proof.
  revert s. induction n as [|n IH]; intros s; cbn [main_first]; [apply rtc_refl|].
  destruct (step_event Main_call s) as [s1|] eqn:E; [eapply rtc_l; [by exists Main_call|by apply IH]|].
  destruct (step_event Child_call s) as [s1|] eqn:E'; [eapply rtc_l; [by exists Child_call|by apply IH]|apply rtc_refl].
Qed.

(** ** What only the main thread changes *)

(** Two threads, of which only the first changes what [obs] shows of the
    state: the second makes no call that could. *)
Context {O : Type} (obs : kern S -> O) (Inv : O -> Prop).

Definition keeps (e : sys S) : Prop := forall w, obs (w_kern (snd (sem e w))) = obs (w_kern w).

(** [p], started where [obs] shows [o], keeps to the invariant whatever the
    rest of the state is at each call, and ends as [Q] says.  (When [p] is out
    of fuel it has not ended: nothing is required.) *)
Fixpoint safe {X} (p : prog S X) (Q : X -> O -> Prop) (o : O) : Prop :=
  Inv o /\
  match p with
  | Ret a => Q a o
  | Call e g => forall w, obs (w_kern w) = o -> safe (g (fst (sem e w))) Q (obs (w_kern (snd (sem e w))))
  | Diverge => True
  end.

Lemma safe_inv {X} (p : prog S X) Q o : safe p Q o -> Inv o.
Proof. destruct p; by intros [? _]. Qed.

Lemma safe_mono {X} (p : prog S X) (Q Q' : X -> O -> Prop) o : (forall a o, Q a o -> Q' a o) -> safe p Q o -> safe p Q' o.
Proof.
  intros HQ. revert o. induction p as [a|e g IH|]; intros o [Hi Hp]; (split; [done|]); [by apply HQ| |done].
  intros w Hw. by apply IH, Hp.
Qed.

Lemma safe_ret {X} (a : X) Q o : Inv o -> Q a o -> safe (mret a) Q o.
Proof. by split. Qed.

Lemma safe_bind {X Y} (p : prog S X) (g : X -> prog S Y) Q o :
  safe p (fun a o => safe (g a) Q o) o -> safe (p ≫= g) Q o.
Proof.
  unfold mbind, prog_mbind. revert o. induction p as [a|e f IH|]; intros o [Hi Hp].
  - exact Hp.
  - split; [done|]. intros w Hw. by apply IH, Hp.
  - by split.
Qed.

Lemma safe_unbind {X Y} (p : prog S X) (g : X -> prog S Y) Q o :
  safe (p ≫= g) Q o -> safe p (fun a o => safe (g a) Q o) o.
Proof.
  unfold mbind, prog_mbind. revert o. induction p as [a|e f IH|]; intros o Hs.
  - split; [by eapply safe_inv|exact Hs].
  - destruct Hs as [Hi Hs]. split; [done|]. intros w Hw. by apply IH, Hs.
  - by destruct Hs.
Qed.

Lemma safe_call {X} (e : sys S) (g : ans e -> prog S X) Q o :
  Inv o -> (forall w, obs (w_kern w) = o -> safe (g (fst (sem e w))) Q (obs (w_kern (snd (sem e w))))) ->
  safe (call e ≫= g) Q o.
Proof. intros Hi Hg. split; [done|]. exact Hg. Qed.

(** A program that only makes calls that keep the observation. *)
Lemma safe_keeps {X Y} (p : prog S X) (g : X -> prog S Y) Q o :
  Inv o -> calls keeps p -> (forall a, safe (g a) Q o) -> safe (p ≫= g) Q o.
Proof.
  intros Hi Hp Hg. apply safe_bind. induction p as [a|e f IH|]; [by split| |by split].
  destruct Hp as [He Hf]. split; [done|]. intros w Hw. rewrite He, Hw. by apply IH.
Qed.

(** Every state of every execution satisfies the invariant. *)
Lemma safe_reachable (s s' : system) Q :
  calls keeps child -> safe (t_prog (s_main s)) Q (obs (w_kern (s_world s))) ->
  (forall c, s_child s = Some c -> calls keeps (t_prog c)) ->
  reachable s s' ->
  safe (t_prog (s_main s')) Q (obs (w_kern (s_world s'))) /\ (forall c, s_child s' = Some c -> calls keeps (t_prog c)).
Proof.
  intros Hchild Hm Hc Hr. induction Hr as [s|s s1 s2 [ev Hev] Hr IH]; [done|]. apply IH; clear IH Hr s2.
  - destruct ev; cbn [step_event] in Hev.
    + unfold advance in Hev. destruct (t_prog (s_main s)) as [a|e g|]; try done. destruct (enabled _ _ _ _); [|done].
      destruct Hm as [_ Hm]. specialize (Hm (W (with_errno (t_errno (s_main s)) (w_env (s_world s))) (w_kern (s_world s))) eq_refl).
      destruct (sem e _) as [r w']. injection Hev as <-. exact Hm.
    + destruct (s_child s) as [c|] eqn:Ec; [|done]. specialize (Hc c eq_refl). unfold advance in Hev.
      destruct (t_prog c) as [a|e g|]; try done. destruct (enabled _ _ _ _); [|done]. destruct Hc as [He _].
      specialize (He (W (with_errno (t_errno c) (w_env (s_world s))) (w_kern (s_world s)))).
      destruct (sem e _) as [r w']. injection Hev as <-. cbn [s_main s_world w_kern snd] in *. rewrite He.
      case_if; exact Hm.
    + injection Hev as <-. exact Hm.
    + injection Hev as <-. exact Hm.
  - intros c2 Hc2. destruct ev; cbn [step_event] in Hev.
    + destruct (advance (s_main s) _ _) as [[[t notified] w]|]; [|done]. injection Hev as <-. cbn [s_child] in Hc2.
      destruct (s_child s) as [c|] eqn:Ec.
      * destruct notified; cbn in Hc2; injection Hc2 as <-; exact (Hc _ eq_refl).
      * assert (Hn : (if notified then wake <$> None else None) = (None : option (thread S A'))) by by destruct notified.
        rewrite Hn in Hc2. destruct (created _ _); [|done]. injection Hc2 as <-. exact Hchild.
    + destruct (s_child s) as [c|] eqn:Ec; [|done]. specialize (Hc c eq_refl). unfold advance in Hev.
      destruct (t_prog c) as [a|e g|]; try done. destruct (enabled _ _ _ _); [|done]. destruct Hc as [_ Hg].
      destruct (sem e _) as [r w']. injection Hev as <-. injection Hc2 as <-. apply Hg.
    + injection Hev as <-. apply Hc. exact Hc2.
    + injection Hev as <-. cbn [s_child] in Hc2. destruct (s_child s) as [c|] eqn:Ec; [|done]. injection Hc2 as <-. exact (Hc _ eq_refl).
Qed.
End system.
