(* ===== verification/UploadClient.v ===== *)
(** * Uploads, at the client

    [src/client/upload_client.c].  Two threads of the client meet here: the
    main thread, which uploads, and the receiver thread, which hands the
    server's responses over to it through [response_type] and
    [response_payload], under [upload_mutex]. *)

From S2P Require Import Prelude CLib Posix Wp Protocol NetworkIO FileManager DownloadClient.

(** ** State *)

Inductive upload_state_t := UPLOAD_IDLE | UPLOAD_WAIT_READY | UPLOAD_WAIT_RESULT.

#[export] Instance upload_state_eq_dec : EqDecision upload_state_t.
Proof. solve_decision. Defined.

(** The static variables of the client process: [client_socket] and
    [client_running] of client/main.c, and those of upload_client.c. *)
Record client := {
  client_socket : Z;
  client_running : bool;
  upload_state : upload_state_t;
  response_available : bool;
  connection_closed : bool;
  response_type : Z;
  response_payload : bytes
}.

Definition client_start : client := {|
  client_socket := -1; client_running := true; upload_state := UPLOAD_IDLE; response_available := false;
  connection_closed := false; response_type := 0; response_payload := [] |}.

Definition set_socket (fd : Z) (c : client) : client := {|
  client_socket := fd; client_running := client_running c; upload_state := upload_state c;
  response_available := response_available c; connection_closed := connection_closed c;
  response_type := response_type c; response_payload := response_payload c |}.

Definition set_running (b : bool) (c : client) : client := {|
  client_socket := client_socket c; client_running := b; upload_state := upload_state c;
  response_available := response_available c; connection_closed := connection_closed c;
  response_type := response_type c; response_payload := response_payload c |}.

Definition set_state (s : upload_state_t) (c : client) : client := {|
  client_socket := client_socket c; client_running := client_running c; upload_state := s;
  response_available := response_available c; connection_closed := connection_closed c;
  response_type := response_type c; response_payload := response_payload c |}.

Definition set_available (b : bool) (c : client) : client := {|
  client_socket := client_socket c; client_running := client_running c; upload_state := upload_state c;
  response_available := b; connection_closed := connection_closed c;
  response_type := response_type c; response_payload := response_payload c |}.

Definition set_closed (b : bool) (c : client) : client := {|
  client_socket := client_socket c; client_running := client_running c; upload_state := upload_state c;
  response_available := response_available c; connection_closed := b;
  response_type := response_type c; response_payload := response_payload c |}.

Definition set_response (type : Z) (payload : bytes) (c : client) : client := {|
  client_socket := client_socket c; client_running := client_running c; upload_state := upload_state c;
  response_available := response_available c; connection_closed := connection_closed c;
  response_type := type; response_payload := payload |}.

(** ** The receiver thread's side *)

(** The messages that belong to an upload in progress. *)
Definition is_upload_message (message_type : Z) (payload : bytes) : bool :=
  if message_type == MSG_ERROR then true
  else if message_type == MSG_RESPONSE then strneq payload (B "UPLOAD_") 7
  else false.

Definition upload_client_handle_server_message (message_type : Z) (payload : option bytes) : prog client Z :=
  match payload with
  | None => mret 0
  | Some payload =>
      r ← call (Mutex_lock Upload_mutex);
      if r != 0 then mret 0 else
      st ← call Get_static;
      if decide (upload_state st = UPLOAD_IDLE) then
        _ ← call (Mutex_unlock Upload_mutex);
        mret 0
      else if negb (is_upload_message message_type payload) then
        _ ← call (Mutex_unlock Upload_mutex);
        mret 0
      else
      _ ← call (Modify (fun st => set_available true
                  (set_response message_type (snd (snprintf (MESSAGE_MAX_SIZE + 1) payload)) st)));
      _ ← call Cond_notify;
      _ ← call (Mutex_unlock Upload_mutex);
      mret 1
  end.

Definition upload_client_notify_connection_closed : prog client unit :=
  r ← call (Mutex_lock Upload_mutex);
  if r != 0 then mret tt else
  _ ← call (Modify (set_closed true));
  _ ← call Cond_notify;
  _ ← call (Mutex_unlock Upload_mutex);
  mret tt.

(** ** The main thread's side *)

Section upload.
(** Fuel of the loops. *)
Variable F : nat.

Definition send_text_frame (socket_fd type : Z) (payload : option bytes) : prog client Z :=
  match payload with
  | None => mret (-1)
  | Some payload =>
      let length := strlen payload in
      if MESSAGE_MAX_SIZE <? length then mret (-1) else
      r ← send_all F socket_fd (message_header type length);
      if r != 0 then mret (-1) else
      if length == 0 then mret 0 else
      send_all F socket_fd payload
  end.

(** The result is -1 when [pthread_cond_wait] failed. *)
Fixpoint wait_loop (fuel : nat) : prog client Z :=
  match fuel with
  | O => Diverge
  | S fuel =>
      st ← call Get_static;
      if negb (response_available st) && negb (connection_closed st) then
        r ← pthread_cond_wait Upload_mutex;
        if r != 0 then mret (-1) else wait_loop fuel
      else mret 0
  end.

(** [None] for the result -1, otherwise the type and the text. *)
Definition wait_for_response (payload_size : Z) : prog client (option (Z * bytes)) :=
  r ← call (Mutex_lock Upload_mutex);
  if r != 0 then mret None else
  r ← wait_loop F;
  if r != 0 then
    _ ← call (Mutex_unlock Upload_mutex);
    mret None
  else
  st ← call Get_static;
  if connection_closed st then
    _ ← call (Mutex_unlock Upload_mutex);
    mret None
  else
  let type := response_type st in
  let payload := copy_result payload_size (response_payload st) in
  _ ← call (Modify (set_available false));
  _ ← call (Mutex_unlock Upload_mutex);
  mret (Some (type, payload)).

(** The bytes of the file: the message for the failure, if any. *)
Fixpoint upload_send_loop (fuel : nat) (socket_fd file_fd remaining : Z) : prog client (option bytes) :=
  match fuel with
  | O => Diverge
  | S fuel =>
      if 0 <? remaining then
        let requested := if FILE_CHUNK_SIZE <? remaining then FILE_CHUNK_SIZE else remaining in
        buffer ← call (Read file_fd requested);
        match buffer with
        | None =>
            errno ← call Errno;
            if errno == EINTR then upload_send_loop fuel socket_fd file_fd remaining else
            _ ← call (Close file_fd);
            _ ← call (Shutdown socket_fd);
            mret (Some (B "LOCAL_FILE_READ_FAILED"))
        | Some [] =>
            _ ← call (Close file_fd);
            _ ← call (Shutdown socket_fd);
            mret (Some (B "LOCAL_FILE_CHANGED_DURING_UPLOAD"))
        | Some buffer =>
            r ← send_all F socket_fd buffer;
            if r != 0 then
              _ ← call (Close file_fd);
              _ ← call (Shutdown socket_fd);
              mret (Some (B "UPLOAD_SEND_FAILED"))
            else upload_send_loop fuel socket_fd file_fd (remaining - zlen buffer)
        end
      else mret None
  end.

(** [pthread_mutex_lock(&upload_mutex); ...; pthread_mutex_unlock(&upload_mutex);]
    whose results the code ignores. *)
Definition locked_modify (f : client -> client) : prog client unit :=
  _ ← call (Mutex_lock Upload_mutex);
  _ ← call (Modify f);
  _ ← call (Mutex_unlock Upload_mutex);
  mret tt.

(** From the accepted metadata on: the exchange with the server.  The result,
    and what is in the buffer [result] (empty where it was not written). *)
Definition upload_exchange (socket_fd file_fd file_size : Z) (metadata : bytes) (result_size : Z) : prog client (Z * bytes) :=
  r ← send_text_frame socket_fd MSG_UPLOAD (Some metadata);
  if r != 0 then
    _ ← call (Close file_fd);
    _ ← call (Shutdown socket_fd);
    mret (-1, [])
  else
  response ← wait_for_response (MESSAGE_MAX_SIZE + 1);
  match response with
  | None =>
      _ ← call (Close file_fd);
      mret (-1, [])
  | Some (server_type, server_response) =>
      if (server_type != MSG_RESPONSE) || negb (streq server_response (B "UPLOAD_READY")) then
        _ ← locked_modify (set_state UPLOAD_IDLE);
        _ ← call (Close file_fd);
        mret (1, copy_result result_size server_response)
      else
      _ ← locked_modify (fun st => set_available false (set_state UPLOAD_WAIT_RESULT st));
      failure ← upload_send_loop F socket_fd file_fd file_size;
      match failure with
      | Some message => mret (-1, copy_result result_size message)
      | None =>
          _ ← call (Close file_fd);
          response ← wait_for_response (MESSAGE_MAX_SIZE + 1);
          match response with
          | None => mret (-1, [])
          | Some (server_type, server_response) =>
              _ ← locked_modify (set_state UPLOAD_IDLE);
              let result := copy_result result_size server_response in
              if (server_type == MSG_RESPONSE) && strneq server_response (B "UPLOAD_SUCCESS") 14
              then mret (0, result) else mret (1, result)
          end
      end
  end.

(** The base name of the path. *)
Definition basename (local_path : bytes) : bytes :=
  match strrchr local_path SLASH with
  | None => local_path
  | Some i => drop (S i) local_path
  end.

Definition upload_client_upload (socket_fd : Z) (local_path : option bytes) (result_size : Z) : prog client (Z * bytes) :=
  match local_path with
  | None => mret (1, [])
  | Some local_path =>
      if result_size == 0 then mret (1, []) else
      file_fd ← call (Open local_path O_RDONLY 0);
      if file_fd <? 0 then mret (1, copy_result result_size (B "LOCAL_FILE_OPEN_FAILED")) else
      let refuse message := _ ← call (Close file_fd); mret (1, copy_result result_size message) in
      information ← call (Fstat file_fd);
      match information with
      | None => refuse (B "LOCAL_FILE_STAT_FAILED")
      | Some information =>
          if negb (S_ISREG information) then refuse (B "NOT_A_REGULAR_FILE") else
          if st_size information <? 0 then refuse (B "INVALID_FILE_SIZE") else
          let file_size := st_size information in
          if FILE_MAX_SIZE <? file_size then refuse (B "FILE_TOO_LARGE") else
          let filename := basename local_path in
          if negb (is_valid_shared_filename (Some filename)) then refuse (B "INVALID_SHARED_FILENAME") else
          match sprintf_fit (MESSAGE_MAX_SIZE + 1) (filename ++ BAR :: dec file_size) with
          | None => refuse (B "UPLOAD_METADATA_FAILED")
          | Some metadata =>
              r ← call (Mutex_lock Upload_mutex);
              if r != 0 then
                _ ← call (Close file_fd);
                mret (-1, [])
              else
              st ← call Get_static;
              if negb (bool_decide (upload_state st = UPLOAD_IDLE)) then
                _ ← call (Mutex_unlock Upload_mutex);
                refuse (B "UPLOAD_ALREADY_ACTIVE")
              else
              _ ← call (Modify (fun st => set_closed false (set_available false (set_state UPLOAD_WAIT_READY st))));
              _ ← call (Mutex_unlock Upload_mutex);
              upload_exchange socket_fd file_fd file_size metadata result_size
          end
      end
  end.
End upload.
