(* ===== verification/ClientMain.v ===== *)
(** * The client's main program

    [src/client/main.c]: the connection and the login, the receiver thread,
    and the loop that reads commands and sends messages. *)

From S2P Require Import Prelude CLib Posix Wp Protocol NetworkIO ClientHandler FileManager DownloadClient UploadClient.

Definition SERVER_PORT : Z := 9000.
Definition SERVER_HOST : bytes := B "127.0.0.1".

(** What is left of a line read by [fgets] after
    [line[strcspn(line, "\n")] = '\0']. *)
Definition chomp (line : bytes) : bytes := take (strcspn_newline (c_str line)) (c_str line).

Section client.
Context `{Libc}.
(** Fuel of the loops. *)
Variable F : nat.

(** ** Console *)

Definition safe_printf (prefix message : option bytes) : prog client unit :=
  r ← call (Mutex_lock Output_mutex);
  if r != 0 then mret tt else
  _ ← (match prefix with Some prefix => call (Puts prefix) | None => mret tt end);
  _ ← (match message with Some message => call (Puts message) | None => mret tt end);
  _ ← call (Mutex_unlock Output_mutex);
  mret tt.

(** [if (pthread_mutex_lock(&output_mutex) == 0) { printf(...); ... }] *)
Definition print_locked (text : bytes) : prog client unit :=
  r ← call (Mutex_lock Output_mutex);
  if r == 0 then
    _ ← call (Puts text);
    _ ← call (Mutex_unlock Output_mutex);
    mret tt
  else mret tt.

(** ** Messages *)

Definition send_message (type : Z) (payload : option bytes) : prog client Z :=
  match payload with
  | None => mret (-1)
  | Some payload =>
      if negb (is_valid_message_type type) then mret (-1) else
      let payload_length := strlen payload in
      if MESSAGE_MAX_SIZE <? payload_length then mret (-1) else
      st ← call Get_static;
      r ← send_all F (client_socket st) (message_header type payload_length);
      if r != 0 then mret (-1) else
      if payload_length == 0 then mret 0 else
      r ← send_all F (client_socket st) payload;
      if r != 0 then mret (-1) else mret 0
  end.

Definition receive_message (payload_size : Z) : prog client received :=
  if payload_size == 0 then mret (Received_failure (-1)) else
  st ← call Get_static;
  '(result, header) ← recv_all F (client_socket st) 8;
  if result != 0 then mret (Received_failure result) else
  let type := of_be32 (take 4 header) in
  let length := of_be32 (drop 4 header) in
  if negb (is_valid_message_type type) then
    _ ← call (Eputs (B "Invalid message type received: " ++ dec type ++ [NEWLINE]));
    mret (Received_failure (-1))
  else if MESSAGE_MAX_SIZE <? length then
    _ ← call (Eputs (B "Received message exceeds maximum size." ++ [NEWLINE]));
    mret (Received_failure (-1))
  else if payload_size <=? length then
    _ ← call (Eputs (B "Receive buffer is too small." ++ [NEWLINE]));
    mret (Received_failure (-1))
  else if 0 <? length then
    '(result, payload) ← recv_all F (client_socket st) length;
    if result != 0 then mret (Received_failure result) else mret (Received type payload)
  else mret (Received type []).

(** ** The connection *)

(** [close(client_socket); client_socket = -1;] *)
Definition drop_socket : prog client unit :=
  st ← call Get_static;
  _ ← call (Close (client_socket st));
  call (Modify (set_socket (-1))).

Definition connect_to_server : prog client Z :=
  fd ← call Socket_stream;
  _ ← call (Modify (set_socket fd));
  if fd <? 0 then
    _ ← perror (B "socket");
    mret (-1)
  else
  r ← call (Inet_pton SERVER_HOST);
  if r != 1 then
    _ ← call (Eputs (B "Invalid server address." ++ [NEWLINE]));
    _ ← drop_socket;
    mret (-1)
  else
  r ← call (Connect fd SERVER_HOST SERVER_PORT);
  if r <? 0 then
    _ ← perror (B "connect");
    _ ← drop_socket;
    mret (-1)
  else mret 0.

Definition cleanup_socket : prog client unit :=
  st ← call Get_static;
  if 0 <=? client_socket st then drop_socket else mret tt.

(** ** The receiver thread *)

(** The [switch] on the type, for one message that is neither for an upload
    nor a download: what is printed after the first newline, the new values of
    [file_list_active] and [file_list_count], and whether the session ends. *)
Definition message_text (message_type : Z) (payload : bytes) (active : bool) (count : Z) : bytes * bool * Z * bool :=
  if message_type == MSG_BROADCAST then (payload ++ [NEWLINE], active, count, false)
  else if message_type == MSG_PRIVATE then (B "[Private] " ++ payload ++ [NEWLINE], active, count, false)
  else if message_type == MSG_RESPONSE then
    if streq payload (B "FILE_LIST_BEGIN") then (B "[Shared Files]" ++ [NEWLINE], true, 0, false)
    else if strneq payload (B "FILE_LIST_END ") 14 then
      (if active && (count == 0) then B "  (none)" ++ [NEWLINE] else [], false, count, false)
    else (B "[Server] " ++ payload ++ [NEWLINE], active, count, streq payload (B "GOODBYE"))
  else if message_type == MSG_ERROR then (B "[Error] " ++ payload ++ [NEWLINE], active, count, false)
  else if message_type == MSG_USERLIST then (B "[Online Users]" ++ [NEWLINE] ++ payload ++ [NEWLINE], active, count, false)
  else if message_type == MSG_FILELIST then
    (match strrchr payload BAR with
     | Some separator =>
         if negb (Nat.eqb separator 0) && negb (bool_decide (drop (S separator) payload = [])) then
           B "  " ++ take separator payload ++ B " (" ++ drop (S separator) payload ++ B " bytes)" ++ [NEWLINE]
         else B "  " ++ payload ++ [NEWLINE]
     | None => B "  " ++ payload ++ [NEWLINE]
     end, active, if active then count + 1 else count, false)
  else (B "[Server message type " ++ dec message_type ++ B "] " ++ payload ++ [NEWLINE], active, count, false).

(** The result of [download_client_handle_server_message], when not 0:
    whether the thread goes on. *)
Definition download_report (download_status : Z) (download_result : bytes) : prog client bool :=
  if download_status == 1 then
    _ ← print_locked ([NEWLINE] ++ B "[Download] " ++ download_result ++ [NEWLINE]);
    mret true
  else if download_status == 2 then
    _ ← print_locked ([NEWLINE] ++ B "[Download Error] " ++ download_result ++ [NEWLINE]);
    mret true
  else
    _ ← upload_client_notify_connection_closed;
    _ ← call (Modify (set_running false));
    st ← call Get_static;
    _ ← call (Shutdown (client_socket st));
    mret false.

Fixpoint receiver_loop (fuel : nat) (file_list_active : bool) (file_list_count : Z) : prog client unit :=
  match fuel with
  | O => Diverge
  | S fuel =>
      st ← call Get_static;
      if negb (client_running st) then mret tt else
      result ← receive_message (MESSAGE_MAX_SIZE + 1);
      match result with
      | Received_failure result =>
          _ ← upload_client_notify_connection_closed;
          if result == 1 then
            _ ← safe_printf (Some [NEWLINE]) (Some (B "Server closed the connection." ++ [NEWLINE]));
            call (Modify (set_running false))
          else
            st ← call Get_static;
            _ ← (if client_running st then safe_printf (Some [NEWLINE]) (Some (B "Connection receive error." ++ [NEWLINE]))
                else mret tt);
            call (Modify (set_running false))
      | Received message_type buffer =>
          let payload := c_str buffer in
          r ← upload_client_handle_server_message message_type (Some payload);
          if r != 0 then receiver_loop fuel file_list_active file_list_count else
          st ← call Get_static;
          '(download_status, download_result) ←
            download_client_handle_server_message F (client_socket st) message_type (Some payload) (MESSAGE_MAX_SIZE + 1);
          if download_status != 0 then
            continue ← download_report download_status download_result;
            if continue : bool then receiver_loop fuel file_list_active file_list_count else mret tt
          else
          r ← call (Mutex_lock Output_mutex);
          if r != 0 then receiver_loop fuel file_list_active file_list_count else
          let '(text, file_list_active, file_list_count, goodbye) := message_text message_type payload file_list_active file_list_count in
          _ ← call (Puts ([NEWLINE] ++ text));
          _ ← (if goodbye : bool then call (Modify (set_running false)) else mret tt);
          _ ← call (Mutex_unlock Output_mutex);
          st ← call Get_static;
          if negb (client_running st) then mret tt else receiver_loop fuel file_list_active file_list_count
      end
  end.

Definition receiver_thread : prog client unit := receiver_loop F false 0.

(** ** Commands *)

(** A message could not be sent. *)
Definition send_failed (text : bytes) : prog client bool :=
  _ ← call (Eputs (text ++ [NEWLINE]));
  _ ← call (Modify (set_running false));
  st ← call Get_static;
  _ ← call (Shutdown (client_socket st));
  mret false.

(** Sends the message; says whether the loop goes on. *)
Definition send_or_stop (type : Z) (payload failure : bytes) : prog client bool :=
  r ← send_message type (Some payload);
  if r != 0 then send_failed failure else mret true.

Definition usage (text : bytes) : prog client bool :=
  _ ← safe_printf None (Some (text ++ [NEWLINE]));
  mret true.

Definition upload_command (local_path : bytes) : prog client bool :=
  st ← call Get_static;
  '(upload_status, upload_result) ← upload_client_upload F (client_socket st) (Some local_path) (MESSAGE_MAX_SIZE + 1);
  _ ← print_locked ([NEWLINE] ++
        (if upload_status == 0 then B "[Upload] " ++ upload_result ++ [NEWLINE]
         else if upload_status == 1 then B "[Upload Error] " ++ upload_result ++ [NEWLINE]
         else B "[Upload Error] Connection lost during upload." ++ [NEWLINE]));
  if upload_status <? 0 then
    _ ← call (Modify (set_running false));
    st ← call Get_static;
    _ ← call (Shutdown (client_socket st));
    mret false
  else mret true.

Definition private_command (username payload : bytes) : prog client bool :=
  let bad := usage (B "Usage: /msg <user> <message>") in
  if negb (strneq payload (B "/msg ") 5) then bad else
  let request := drop 5 payload in
  match strchr request SPACE with
  | None => bad
  | Some separator =>
      if Nat.eqb separator 0 || bool_decide (drop (S separator) request = []) then bad else
      if USERNAME_MAX_SIZE <=? Z.of_nat separator then usage (B "Invalid target username.") else
      let target := take separator request in
      if negb (is_valid_username (Some target)) then usage (B "Invalid target username.") else
      if streq target username then usage (B "You cannot privately message yourself.") else
      send_or_stop MSG_PRIVATE request (B "Failed to send private message.")
  end.

Definition download_command (payload : bytes) : prog client bool :=
  if negb (strneq payload (B "/download ") 10) || bool_decide (drop 10 payload = []) then usage (B "Usage: /download <filename>") else
  let filename := drop 10 payload in
  if negb (is_valid_shared_filename (Some filename)) then usage (B "Invalid shared filename.") else
  send_or_stop MSG_DOWNLOAD filename (B "Failed to send download request.").

(** One line of input, not empty; says whether the loop goes on. *)
Definition command (username payload : bytes) : prog client bool :=
  if streq payload (B "/users") then send_or_stop MSG_LIST_USERS [] (B "Failed to request online users.")
  else if streq payload (B "/files") then send_or_stop MSG_LIST_FILES [] (B "Failed to request shared files.")
  else if strneq payload (B "/upload") 7 then
    if negb (strneq payload (B "/upload ") 8) || bool_decide (drop 8 payload = []) then usage (B "Usage: /upload <local-path>")
    else upload_command (drop 8 payload)
  else if strneq payload (B "/download") 9 then download_command payload
  else if strneq payload (B "/msg") 4 then private_command username payload
  else if streq payload (B "/quit") then
    _ ← send_or_stop MSG_DISCONNECT [] (B "Failed to send disconnect request.");
    mret false
  else send_or_stop MSG_CHAT payload (B "Failed to send chat message.").

Fixpoint input_loop (fuel : nat) (username : bytes) : prog client unit :=
  match fuel with
  | O => Diverge
  | S fuel =>
      st ← call Get_static;
      if negb (client_running st) then mret tt else
      _ ← print_locked (username ++ B "> ");
      line ← call (Fgets (MESSAGE_MAX_SIZE + 1));
      match line with
      | None =>
          st ← call Get_static;
          if client_running st then _ ← send_message MSG_DISCONNECT (Some []); mret tt else mret tt
      | Some line =>
          let payload := chomp line in
          st ← call Get_static;
          if negb (client_running st) then mret tt else
          if bool_decide (payload = []) then input_loop fuel username else
          continue ← command username payload;
          if continue : bool then input_loop fuel username else mret tt
      end
  end.

(** ** The login *)

(** [None] at the end of the input. *)
Fixpoint read_username (fuel : nat) : prog client (option bytes) :=
  match fuel with
  | O => Diverge
  | S fuel =>
      _ ← call (Puts (B "Username: "));
      line ← call (Fgets USERNAME_MAX_SIZE);
      match line with
      | None => mret None
      | Some line =>
          let username := chomp line in
          if negb (is_valid_username (Some username)) then
            _ ← call (Puts (B "Invalid username. Use letters, digits, and underscore only." ++ [NEWLINE]));
            read_username fuel
          else mret (Some username)
      end
  end.

(** The name under which the client is logged in, if it is. *)
Definition login : prog client (option bytes) :=
  let failed text := _ ← call (Eputs (text ++ [NEWLINE])); _ ← cleanup_socket; mret None in
  result ← receive_message (MESSAGE_MAX_SIZE + 1);
  match result with
  | Received_failure _ => failed (B "Failed to receive login request from server.")
  | Received message_type payload =>
      if (message_type != MSG_RESPONSE) || negb (streq (c_str payload) (B "USERNAME_REQUIRED")) then
        failed (B "Unexpected initial server response: " ++ c_str payload)
      else
      username ← read_username F;
      match username with
      | None => _ ← cleanup_socket; mret None
      | Some username =>
          r ← send_message MSG_LOGIN (Some username);
          if r != 0 then failed (B "Failed to send login request.") else
          result ← receive_message (MESSAGE_MAX_SIZE + 1);
          match result with
          | Received_failure _ => failed (B "Failed to receive login response.")
          | Received message_type payload =>
              if message_type == MSG_ERROR then
                _ ← call (Puts (B "Login rejected: " ++ c_str payload ++ [NEWLINE]));
                _ ← cleanup_socket;
                mret None
              else if (message_type != MSG_RESPONSE) || negb (strneq (c_str payload) (B "LOGIN_SUCCESS") 13) then
                failed (B "Unexpected login response: " ++ c_str payload)
              else mret (Some username)
          end
      end
  end.

(** The end of [main], from the end of the input loop. *)
Definition client_finish (receiver : Z) : prog client Z :=
  _ ← call (Pthread_join receiver);
  _ ← call (Modify (set_running false));
  _ ← cleanup_socket;
  _ ← call (Mutex_destroy Output_mutex);
  _ ← call (Puts (B "Disconnected from server." ++ [NEWLINE]));
  mret EXIT_SUCCESS.

Definition banner (username : bytes) : bytes :=
  B "Login successful as '" ++ username ++ B "'." ++ [NEWLINE] ++
  B "Commands:" ++ [NEWLINE] ++ B "  /users" ++ [NEWLINE] ++ B "  /files" ++ [NEWLINE] ++
  B "  /msg <user> <message>" ++ [NEWLINE] ++ B "  /upload <local-path>" ++ [NEWLINE] ++
  B "  /download <filename>" ++ [NEWLINE] ++ B "  /quit" ++ [NEWLINE].

(** [main] from the established connection on. *)
Definition client_session : prog client Z :=
  _ ← call (Puts (B "Connected to SyncChat server." ++ [NEWLINE]));
  username ← login;
  match username with
  | None => mret EXIT_FAILURE
  | Some username =>
      _ ← call (Puts (banner username));
      _ ← call (Modify (set_running true));
      '(pthread_result, receiver) ← call (Pthread_create 0);
      if pthread_result != 0 then
        _ ← call (Eputs (B "Failed to create receiver thread." ++ [NEWLINE]));
        _ ← cleanup_socket;
        mret EXIT_FAILURE
      else
      _ ← input_loop F username;
      client_finish receiver
  end.

Definition client_main : prog client Z :=
  r ← connect_to_server;
  if r != 0 then mret EXIT_FAILURE else client_session.
End client.
