(* ===== verification/ClientSpeech.v ===== *)
(** * What the client says to the server

    Everything the client sends, in every interleaving of its two threads: its
    stream is a sequence of utterances that the server's own parsers accept,
    and an utterance that breaks off is the last. *)

From S2P Require Import Prelude CLib Posix Wp Protocol NetworkIO Registry Sending Logger ClientHandler FileManager Store Upload.
From S2P Require Import DownloadClient Threads UploadClient ClientMain.

(** ** Utterances *)

Inductive utterance :=
  | Login (username : bytes)
  | Chat (text : bytes)
  | Private (target text : bytes)
  | List_users
  | List_files
  | Download (filename : bytes)
  | Upload (filename : bytes) (size : Z) (data : option bytes)
  | Disconnect.

(** The bytes; the raw data of an upload may follow, or not (when the server
    has refused it). *)
Definition wire (u : utterance) : bytes :=
  match u with
  | Login username => frame MSG_LOGIN username
  | Chat text => frame MSG_CHAT text
  | Private target text => frame MSG_PRIVATE (target ++ SPACE :: text)
  | List_users => frame MSG_LIST_USERS []
  | List_files => frame MSG_LIST_FILES []
  | Download filename => frame MSG_DOWNLOAD filename
  | Upload filename size data => frame MSG_UPLOAD (filename ++ BAR :: dec size) ++ default [] data
  | Disconnect => frame MSG_DISCONNECT []
  end.

(** Each is one that the server takes for what it is. *)
Definition utterance_ok (u : utterance) : Prop :=
  match u with
  | Login username => username_ok username
  | Chat text => 1 <= zlen text <= MESSAGE_MAX_SIZE
  | Private target text => username_ok target /\ text ≠ [] /\ zlen (target ++ SPACE :: text) <= MESSAGE_MAX_SIZE
  | Download filename => filename_ok filename
  | Upload filename size data =>
      parse_upload_metadata (Some (filename ++ BAR :: dec size)) FILE_NAME_MAX_SIZE = Some (filename, size) /\
      match data with Some data => zlen data = size | None => True end
  | List_users | List_files | Disconnect => True
  end.

Definition speech (us : list utterance) : bytes := concat (wire <$> us).

(** The login comes first, and nothing follows the farewell. *)
Definition plain (u : utterance) : Prop := match u with Login _ | Disconnect => False | _ => True end.
Definition is_login (u : utterance) : Prop := match u with Login _ => True | _ => False end.

(** What has been said, and what may come next. *)
Definition logged_in (us : list utterance) : Prop :=
  exists username rest, us = Login username :: rest /\ username_ok username /\ Forall (fun u => plain u /\ utterance_ok u) rest.

Definition may_follow (us : list utterance) (u : utterance) : Prop :=
  utterance_ok u /\ (us = [] /\ is_login u \/ logged_in us /\ ~ is_login u).

(** Complete utterances, and a part of the next one. *)
Definition spoken (out : bytes) : Prop :=
  exists us u part, out = speech us ++ part /\ part `prefix_of` wire u /\ may_follow us u.

Lemma speech_app us us' : speech (us ++ us') = speech us ++ speech us'.
Proof. unfold speech. by rewrite fmap_app, concat_app. Qed.

Lemma speech_snoc us u : speech (us ++ [u]) = speech us ++ wire u.
Proof. rewrite speech_app. unfold speech. cbn. by rewrite app_nil_r. Qed.

Lemma logged_in_snoc us u : logged_in us -> plain u -> utterance_ok u -> logged_in (us ++ [u]).
Proof.
  intros (user & rest & -> & Hu & Hr) Hp Ho. exists user, (rest ++ [u]). split; [done|]. split; [done|].
  apply Forall_app. split; [done|]. by constructor.
Qed.

Lemma logged_in_login user : username_ok user -> logged_in [Login user].
Proof. intros H. by exists user, []. Qed.

Lemma spoken_part us u part : part `prefix_of` wire u -> may_follow us u -> spoken (speech us ++ part).
Proof. intros. by exists us, u, part. Qed.

Lemma spoken_done us u : may_follow us u -> spoken (speech us ++ wire u).
Proof. by apply spoken_part. Qed.

Lemma spoken_pause us : logged_in us -> spoken (speech us).
Proof. intros H. rewrite <- (app_nil_r (speech us)). apply (spoken_part us List_users); [apply prefix_nil|]. split; [done|right; split; [done|by intros ?]]. Qed.

Lemma spoken_nothing : spoken [].
Proof.
  apply (spoken_part [] (Login (B "a"))); [apply prefix_nil|]. split; [|by left].
  by apply is_valid_username_iff.
Qed.

(** ** What is observed *)

Section speech.
Context (F : nat) (sock : Z).

(** The stream that the client sends, and the descriptor it sends on. *)
Definition said (k : kern client) : bytes * Z := (stream (k_out k) sock, client_socket (k_static k)).

Definition Inv (o : bytes * Z) : Prop := spoken o.1.

Abbreviation safe := (safe said Inv).
Abbreviation keeps := (keeps said).

(** The calls that change neither. *)
Definition still (e : sys client) : Prop :=
  match e with
  | Send _ _ | Put_static _ | Accept _ _ | Recvfrom _ _ _ => False
  | Modify f => forall c, client_socket (f c) = client_socket c
  | _ => True
  end.

Lemma still_keeps e : still e -> keeps e.
Proof.
  intros He w. destruct e; try done; try (apply (fallible_obs said); solve_obs); unfold sem, pthread_call.
  all: try (destruct (pop (w_env w)) as [[|n|z] en]; done).
  - unfold said. cbn. f_equal. apply He.
  - destruct (pop (w_env w)) as [[|n|z] en]; [| |done]; by destruct (e_clock en).
  - by destruct (fgets size _) as [[]|].
Qed.

Lemma safe_still {X Y} (p : prog client X) (g : X -> prog client Y) Q o :
  Inv o -> calls still p -> (forall a, safe (g a) Q o) -> safe (p ≫= g) Q o.
Proof. intros Hi Hp Hg. apply safe_keeps; [done| |done]. by eapply calls_mono; [apply still_keeps|]. Qed.

Lemma safe_still_call {Y} e (g : ans e -> prog client Y) Q o :
  Inv o -> still e -> (forall a, safe (g a) Q o) -> safe (call e ≫= g) Q o.
Proof. intros Hi He Hg. apply safe_still; [done|by apply calls_call|done]. Qed.

Lemma safe_get {Y} (g : client -> prog client Y) Q out c :
  Inv (out, c) -> (forall st, client_socket st = c -> safe (g st) Q (out, c)) -> safe (call Get_static ≫= g) Q (out, c).
Proof.
  intros Hi Hg. apply safe_call; [done|]. intros w Hw. change (snd (sem Get_static w)) with w. rewrite Hw. apply Hg.
  by injection Hw as _ <-.
Qed.

(** Sending: a part of the buffer, or nothing. *)
Lemma safe_send {Y} s (g : Z -> prog client Y) Q out c :
  Inv (out, c) -> safe (g (-1)) Q (out, c) ->
  (forall n, (n <= length s)%nat -> safe (g (Z.of_nat n)) Q (out ++ take n s, c)) ->
  safe (call (Send sock s) ≫= g) Q (out, c).
Proof.
  intros Hi Hko Hok. apply safe_call; [done|]. intros w Hw. unfold sem, fallible.
  assert (Hs : forall lim en, safe (g (fst (match send_fd (w_kern w) sock s lim with
      | inl e => (-1, W (with_errno e en) (w_kern w)) | inr (x, k) => (x, W en k) end))) Q
    (said (w_kern (snd (match send_fd (w_kern w) sock s lim with
      | inl e => (-1, W (with_errno e en) (w_kern w)) | inr (x, k) => (x, W en k) end))))).
  { intros lim en. unfold send_fd. destruct (k_fds (w_kern w) !! sock) as [[]|]; cbn [fst snd w_kern]; rewrite ?Hw; try exact Hko.
    unfold zlen. rewrite length_take. replace (said _) with (out ++ take (limit lim (length s)) s, c).
    - rewrite <- take_min_length. apply Hok. lia.
    - injection Hw as <- <-. unfold said. cbn. by rewrite stream_app_eq. }
  destruct (pop (w_env w)) as [[|n|z] en]; [apply (Hs None)|apply (Hs (Some n))|]. cbn [fst snd w_kern]. by rewrite Hw.
Qed.

Lemma safe_send_loop {Y} fuel buf n (g : Z -> prog client Y) Q out c :
  (n <= length buf)%nat ->
  (forall m, (m <= length buf)%nat -> Inv (out ++ take m buf, c)) ->
  safe (g 0) Q (out ++ buf, c) ->
  (forall m, (m <= length buf)%nat -> safe (g (-1)) Q (out ++ take m buf, c)) ->
  safe (send_all_loop fuel sock buf (Z.of_nat n) ≫= g) Q (out ++ take n buf, c).
Proof.
  intros Hn Hi Hok Hko. apply safe_bind. revert n Hn. induction fuel as [|fuel IH]; intros n Hn; [split; [by apply Hi|done]|].
  cbn [send_all_loop]. unfold zlen. case_if.
  2:{ apply safe_ret; [by apply Hi|]. rewrite take_ge by lia. exact Hok. }
  rewrite Nat2Z.id. apply safe_send; [by apply Hi| |].
  - cbn [Z.ltb Z.compare]. apply safe_still_call; [by apply Hi|done|]. intros errno. case_if; [by apply IH|].
    apply safe_ret; [by apply Hi|by apply Hko].
  - intros m Hm. rewrite length_drop in Hm. rewrite (proj2 (Z.ltb_ge _ _)) by lia. rewrite <- app_assoc, take_add_drop.
    case_if.
    + apply safe_ret; [apply Hi; lia|apply Hko; lia].
    + rewrite <- Nat2Z.inj_add. apply IH. lia.
Qed.

Lemma safe_send_all {Y} buf (g : Z -> prog client Y) Q out c :
  (forall m, (m <= length buf)%nat -> Inv (out ++ take m buf, c)) ->
  safe (g 0) Q (out ++ buf, c) ->
  (forall m, (m <= length buf)%nat -> safe (g (-1)) Q (out ++ take m buf, c)) ->
  safe (send_all F sock buf ≫= g) Q (out, c).
Proof.
  intros Hi Hok Hko. unfold send_all. pose proof (safe_send_loop F buf 0 g Q out c ltac:(lia) Hi Hok Hko) as Hs.
  rewrite take_0, app_nil_r in Hs. exact Hs.
Qed.

(** ** Messages *)

Lemma frame_header_prefix m type payload :
  take m (message_header type (strlen payload)) `prefix_of` frame type payload.
Proof. unfold frame. etransitivity; [apply prefix_take|by apply prefix_app_r]. Qed.

Lemma frame_payload_prefix m type payload :
  (message_header type (strlen payload) ++ take m payload) `prefix_of` frame type payload.
Proof. unfold frame. apply prefix_app, prefix_take. Qed.

Section frame.
Context {Y : Type} (g : Z -> prog client Y) (Q : Y -> bytes * Z -> Prop) (us : list utterance) (u : utterance) (c : Z) (type : Z) (payload : bytes).
Hypothesis (Hu : may_follow us u) (Hw : frame type payload `prefix_of` wire u).
Hypothesis (Hok : safe (g 0) Q (speech us ++ frame type payload, c)) (Hko : forall out, spoken out -> safe (g (-1)) Q (out, c)).

Lemma spoken_prefix part : part `prefix_of` frame type payload -> spoken (speech us ++ part).
Proof. intros Hp. apply (spoken_part us u); [by etransitivity|done]. Qed.

(** The header and the payload, with the tests in between. *)
Lemma safe_send_frame (f : Z -> prog client Z) (tail : prog client Z) :
  f 0 = mret 0 -> f (-1) = mret (-1) ->
  (forall Q' o, safe (send_all F sock payload ≫= f) Q' o -> safe tail Q' o) ->
  safe ((r ← send_all F sock (message_header type (strlen payload));
         if r != 0 then mret (-1) else
         if strlen payload == 0 then mret 0 else tail) ≫= g) Q (speech us, c).
Proof.
  intros Hf0 Hf1 Ht. apply safe_bind, safe_send_all.
  - intros m _. apply spoken_prefix, frame_header_prefix.
  - cbn [Z.eqb negb]. case_if.
    + apply safe_ret; [|].
      * apply (spoken_prefix (message_header type (strlen payload))). unfold frame. by apply prefix_app_r.
      * assert (payload = []) as Hp by (apply zlen_zero; exact E). unfold frame in Hok. rewrite Hp, app_nil_r in Hok. by rewrite Hp.
    + apply Ht, safe_send_all.
      * intros m _. rewrite <- app_assoc. apply spoken_prefix, frame_payload_prefix.
      * rewrite Hf0. apply safe_ret; rewrite <- app_assoc; [by apply spoken_prefix|exact Hok].
      * intros m _. rewrite Hf1, <- app_assoc.
        pose proof (spoken_prefix _ (frame_payload_prefix m type payload)) as Hs. apply safe_ret; [exact Hs|by apply Hko].
  - intros m _. cbn [Z.eqb negb]. pose proof (spoken_prefix _ (frame_header_prefix m type payload)) as Hs.
    apply safe_ret; [exact Hs|by apply Hko].
Qed.
End frame.

Lemma safe_send_message {Y} (g : Z -> prog client Y) Q us u type payload :
  may_follow us u -> frame type payload `prefix_of` wire u -> spoken (speech us) ->
  safe (g 0) Q (speech us ++ frame type payload, sock) -> (forall out, spoken out -> safe (g (-1)) Q (out, sock)) ->
  safe (send_message F type (Some payload) ≫= g) Q (speech us, sock).
Proof.
  intros Hu Hw Hs Hok Hko. unfold send_message.
  destruct (negb (is_valid_message_type type)); [by apply safe_bind, safe_ret, Hko|].
  destruct (MESSAGE_MAX_SIZE <? strlen payload); [by apply safe_bind, safe_ret, Hko|].
  apply safe_bind, safe_get; [done|]. intros st ->.
  apply safe_unbind, (safe_send_frame g Q us u sock type payload Hu Hw Hok Hko (fun r => if r != 0 then mret (-1) else mret 0)); [done|done|].
  by intros Q' o Hs'.
Qed.

Lemma safe_send_text_frame {Y} (g : Z -> prog client Y) Q us u type payload :
  may_follow us u -> frame type payload `prefix_of` wire u -> spoken (speech us) ->
  safe (g 0) Q (speech us ++ frame type payload, sock) -> (forall out, spoken out -> safe (g (-1)) Q (out, sock)) ->
  safe (send_text_frame F sock type (Some payload) ≫= g) Q (speech us, sock).
Proof.
  intros Hu Hw Hs Hok Hko. unfold send_text_frame.
  destruct (MESSAGE_MAX_SIZE <? strlen payload); [by apply safe_bind, safe_ret, Hko|].
  apply (safe_send_frame g Q us u sock type payload Hu Hw Hok Hko mret); [done|done|].
  intros Q' o Hs'. apply safe_unbind in Hs'. eapply safe_mono; [|exact Hs']. by intros a o' [_ ?].
Qed.

(** ** Programs that say nothing *)

Lemma still_print_locked text : calls still (print_locked text).
Proof. unfold print_locked. solve_calls. Qed.

Lemma still_safe_printf prefix message : calls still (safe_printf prefix message).
Proof. unfold safe_printf. solve_calls. Qed.

Lemma still_locked_modify f : (forall c, client_socket (f c) = client_socket c) -> calls still (locked_modify f).
Proof. intros Hf. unfold locked_modify. solve_calls; try done. Qed.

Lemma still_wait_loop fuel : calls still (wait_loop fuel).
Proof.
  induction fuel as [|fuel IH]; [done|]. cbn [wait_loop]. unfold pthread_cond_wait. apply calls_bind; [by apply calls_call|].
  intros st. case_if; [|done]. apply calls_bind; [solve_calls|]. intros r. case_if; [done|exact IH].
Qed.

Lemma still_wait size : calls still (wait_for_response F size).
Proof.
  pose proof (still_wait_loop F). unfold wait_for_response. apply calls_bind; [by apply calls_call|]. intros r. case_if; [done|].
  apply calls_bind; [done|]. intros r2. solve_calls; try done.
Qed.

Lemma still_recv_all {X} fd n (g : Z * bytes -> prog client X) : (forall r, calls still (g r)) -> calls still (recv_all F fd n ≫= g).
Proof.
  intros Hg. apply calls_bind; [|done]. unfold recv_all. generalize ([] : bytes). induction F as [|fuel IH]; intros got; [done|].
  cbn [recv_all_loop]. case_if; [|done]. apply calls_bind; [by apply calls_call|]. intros [[|]|]; [done|apply IH|].
  apply calls_bind; [by apply calls_call|]. intros e. case_if; [apply IH|done].
Qed.

Lemma still_receive size : calls still (receive_message F size).
Proof.
  unfold receive_message. case_if; [done|]. apply calls_bind; [by apply calls_call|]. intros st.
  apply still_recv_all. intros [r header]. case_if; [done|]. cbv zeta. do 3 (case_if; [solve_calls|]). case_if; [|done].
  apply still_recv_all. intros [r2 payload]. by case_if.
Qed.

Lemma still_write_all eio fd buffer : calls still (write_all_loop eio F fd buffer 0).
Proof.
  generalize 0. induction F as [|fuel IH]; intros n; [done|]. cbn [write_all_loop]. case_if; [|done].
  apply calls_bind; [by apply calls_call|]. intros r. case_if.
  - apply calls_bind; [by apply calls_call|]. intros e. case_if; [apply IH|done].
  - case_if; [solve_calls|apply IH].
Qed.

Lemma still_download type payload size fd : calls still (download_client_handle_server_message F fd type payload size).
Proof.
  assert (Hd : forall fuel file n failed, calls still (drain_loop F fuel fd file n failed : prog client _)).
  { induction fuel as [|fuel IH]; intros file n failed; [done|]. cbn [drain_loop]. case_if; [|done].
    apply still_recv_all. intros [r buffer]. case_if; [done|]. apply calls_bind; [|intros ?; apply IH].
    case_if; [|done]. apply calls_bind; [apply still_write_all|done]. }
  unfold download_client_handle_server_message. destruct payload as [payload|]; [|done]. do 2 (case_if; [done|]).
  destruct (parse_download_ready _ _); [done|done|]. apply calls_bind.
  - unfold download_prepare, ensure_download_directory. solve_calls.
  - intros [[[final temporary] file] failed]. apply calls_bind; [apply Hd|]. intros [f|]; [unfold download_finish; solve_calls|solve_calls].
Qed.

Lemma still_receiver : calls still (receiver_thread F).
Proof.
  unfold receiver_thread. generalize false as active, 0 as count.
  enough (Hl : forall fuel active count, calls still (receiver_loop F fuel active count)) by (intros; apply Hl).
  induction fuel as [|fuel IH]; intros active count; [done|]. cbn [receiver_loop].
  apply calls_bind; [by apply calls_call|]. intros st. case_if; [done|]. apply calls_bind; [apply still_receive|].
  intros [r|type payload].
  - unfold upload_client_notify_connection_closed, safe_printf. solve_calls; try done.
  - cbv zeta. apply calls_bind; [unfold upload_client_handle_server_message; solve_calls; try done|]. intros r. case_if; [apply IH|].
    apply calls_bind; [by apply calls_call|]. intros st2. apply calls_bind; [apply still_download|]. intros [status result]. case_if.
    + apply calls_bind; [unfold download_report, upload_client_notify_connection_closed, print_locked; solve_calls; try done|].
      intros [|]; [apply IH|done].
    + apply calls_bind; [by apply calls_call|]. intros r2. case_if; [apply IH|].
      destruct (message_text _ _ _ _) as [[[text active'] count'] goodbye]. apply calls_bind; [by apply calls_call|]. intros _.
      apply calls_bind; [solve_calls; try done|]. intros _. apply calls_bind; [by apply calls_call|]. intros _.
      apply calls_bind; [by apply calls_call|]. intros st3. case_if; [done|apply IH].
Qed.

(** ** Uploads *)

(** Everything said is complete, and the session goes on; or it is over. *)
Definition goes_on (o : bytes * Z) : Prop := exists us, logged_in us /\ o = (speech us, sock).
Definition over (o : bytes * Z) : Prop := spoken o.1 /\ o.2 = sock.

Lemma safe_read {Y} fd n (g : option bytes -> prog client Y) Q o :
  Inv o -> safe (g None) Q o -> (forall chunk, zlen chunk <= Z.max 0 n -> safe (g (Some chunk)) Q o) ->
  safe (call (Read fd n) ≫= g) Q o.
Proof.
  intros Hi Hko Hok. apply safe_call; [done|]. intros w Hw. rewrite (still_keeps (Read fd n) I w), Hw.
  assert (Hl : forall lim, match read_fd (w_kern w) fd (Z.to_nat n) lim with
    | inr (Some chunk, _) => zlen chunk <= Z.max 0 n | _ => True end).
  { intros lim. unfold read_fd. destruct (k_fds (w_kern w) !! fd) as [[| | | | |ino off fl|]|]; try done.
    destruct (k_inodes (w_kern w) !! ino); [|done]. unfold zlen. rewrite length_take. unfold limit. destruct lim; lia. }
  unfold sem, fallible.
  destruct (pop (w_env w)) as [[|m|z] en]; [specialize (Hl None)|specialize (Hl (Some m))|exact Hko].
  - destruct (read_fd _ _ _ None) as [e|[[chunk|] k']]; [exact Hko|by apply Hok|exact Hko].
  - destruct (read_fd _ _ _ (Some m)) as [e|[[chunk|] k']]; [exact Hko|by apply Hok|exact Hko].
Qed.

Section exchange.
Context (us : list utterance) (name : bytes) (size : Z).
Hypothesis (Hus : logged_in us) (Hname : filename_ok name) (Hsize : 0 <= size <= FILE_MAX_SIZE).

Let metadata := name ++ BAR :: dec size.
Let base := speech us ++ frame MSG_UPLOAD metadata.

Lemma upload_follows data : match data with Some d => zlen d = size | None => True end -> may_follow us (Upload name size data).
Proof. intros Hd. split; [split; [by apply parse_upload_print|done]|]. right. split; [done|by intros ?]. Qed.

(** Before the first byte of the file. *)
Lemma base_said : base = speech (us ++ [Upload name size None]).
Proof. unfold base. rewrite speech_snoc. cbn. by rewrite app_nil_r. Qed.

Lemma said_logged_in data : match data with Some d => zlen d = size | None => True end -> logged_in (us ++ [Upload name size data]).
Proof. intros Hd. apply logged_in_snoc; [done|done|]. apply (upload_follows data Hd). Qed.

Lemma base_spoken : spoken base.
Proof. rewrite base_said. by apply spoken_pause, said_logged_in. Qed.

Lemma data_spoken d : zlen d <= size -> spoken (base ++ d).
Proof.
  intros Hd. unfold base. rewrite <- app_assoc.
  apply (spoken_part us (Upload name size (Some (d ++ replicate (Z.to_nat size - length d) NUL)))).
  - cbn [wire default]. apply prefix_app. by apply prefix_app_r.
  - apply upload_follows. unfold zlen in *. rewrite length_app, length_replicate. lia.
Qed.

Lemma safe_upload_send_loop {Y} fuel fd remaining d (g : option bytes -> prog client Y) Q :
  0 <= remaining -> zlen d + remaining = size ->
  (forall d, zlen d = size -> safe (g None) Q (base ++ d, sock)) ->
  (forall message out, spoken out -> safe (g (Some message)) Q (out, sock)) ->
  safe (upload_send_loop F fuel sock fd remaining ≫= g) Q (base ++ d, sock).
Proof.
  intros H0 Hlen Hok Hko. apply safe_bind. revert remaining d H0 Hlen.
  induction fuel as [|fuel IH]; intros remaining d H0 Hlen; (assert (Hi : spoken (base ++ d)) by (apply data_spoken; lia)).
  { split; [exact Hi|done]. }
  cbn [upload_send_loop]. case_if; [|apply safe_ret; [exact Hi|apply Hok; lia]].
  set (requested := if FILE_CHUNK_SIZE <? remaining then FILE_CHUNK_SIZE else remaining).
  assert (Hreq : 0 < requested <= remaining) by (unfold requested, FILE_CHUNK_SIZE in *; case_if; lia).
  assert (Hend : forall message out, spoken out -> safe (_ ← call (Close fd); _ ← call (Shutdown sock); mret (Some message))
    (fun a o => safe (g a) Q o) (out, sock)).
  { intros message out Hs. apply safe_still_call; [exact Hs|done|]. intros _. apply safe_still_call; [exact Hs|done|]. intros _.
    by apply safe_ret, Hko. }
  apply safe_read; [exact Hi| |].
  - apply safe_still_call; [exact Hi|done|]. intros errno. case_if; [by apply IH|by apply Hend].
  - intros chunk Hchunk. destruct chunk as [|b chunk]; [by apply Hend|]. set (s := b :: chunk) in *.
    assert (Hs : forall m, spoken ((base ++ d) ++ take m s)).
    { intros m. rewrite <- app_assoc. apply data_spoken. rewrite zlen_app. unfold zlen in *. rewrite length_take. lia. }
    apply safe_send_all; [intros m _; apply Hs| |].
    + cbn [Z.eqb negb]. rewrite <- app_assoc. apply IH; [lia|]. rewrite zlen_app. lia.
    + intros m _. cbn [Z.eqb negb]. apply Hend, Hs.
Qed.

(** The exchange says the metadata, then the data when the server is ready. *)
Lemma safe_upload_exchange {Y} fd result_size (g : Z * bytes -> prog client Y) Q :
  (forall r text o, r = 0 \/ r = 1 -> goes_on o -> safe (g (r, text)) Q o) ->
  (forall text o, over o -> safe (g (-1, text)) Q o) ->
  safe (upload_exchange F sock fd size metadata result_size ≫= g) Q (speech us, sock).
Proof.
  intros Hok Hko. unfold upload_exchange.
  assert (Hend : forall text out, spoken out -> safe (mret (-1, text)) (fun a o => safe (g a) Q o) (out, sock)).
  { intros text out Hs. apply safe_ret; [exact Hs|]. by apply Hko. }
  apply safe_bind, (safe_send_text_frame _ _ us (Upload name size None)); [by apply upload_follows|
    cbn; by rewrite app_nil_r|by apply spoken_pause| |].
  2:{ intros out Hs. cbn [Z.eqb negb]. apply safe_still_call; [exact Hs|done|]. intros _. apply safe_still_call; [exact Hs|done|]. intros _.
      by apply Hend. }
  cbn [Z.eqb negb]. fold base. pose proof base_spoken as Hb. pose proof (still_wait (MESSAGE_MAX_SIZE + 1)) as Hwait.
  apply safe_still; [exact Hb|exact Hwait|]. intros [[server_type response]|].
  2:{ apply safe_still_call; [exact Hb|done|]. intros _. by apply Hend. }
  case_if.
  { apply safe_still; [exact Hb|by apply still_locked_modify|]. intros _. apply safe_still_call; [exact Hb|done|]. intros _.
    apply safe_ret; [exact Hb|]. apply Hok; [by right|]. exists (us ++ [Upload name size None]).
    split; [by apply said_logged_in|]. by rewrite base_said. }
  apply safe_still; [exact Hb|by apply still_locked_modify|]. intros _.
  rewrite <- (app_nil_r base). apply safe_upload_send_loop; [lia|done| |].
  2:{ intros message out Hs. by apply Hend. }
  intros d Hd. assert (Hs : spoken (base ++ d)) by (apply data_spoken; lia).
  apply safe_still_call; [exact Hs|done|]. intros _. apply safe_still; [exact Hs|exact Hwait|]. intros [[type2 response2]|]; [|by apply Hend].
  apply safe_still; [exact Hs|by apply still_locked_modify|]. intros _. cbv zeta.
  assert (Hgo : goes_on (base ++ d, sock)).
  { exists (us ++ [Upload name size (Some d)]). split; [by apply said_logged_in|]. rewrite speech_snoc. unfold base. cbn. by rewrite <- app_assoc. }
  case_if; (apply safe_ret; [exact Hs|]); apply Hok; auto.
Qed.
End exchange.

Lemma safe_upload {Y} path result_size (g : Z * bytes -> prog client Y) Q us :
  logged_in us ->
  (forall r text o, r = 0 \/ r = 1 -> goes_on o -> safe (g (r, text)) Q o) ->
  (forall text o, over o -> safe (g (-1, text)) Q o) ->
  safe (upload_client_upload F sock path result_size ≫= g) Q (speech us, sock).
Proof.
  intros Hus Hok Hko. pose proof (spoken_pause us Hus) as Hs. apply safe_bind. unfold upload_client_upload.
  assert (Hrefuse : forall text, safe (mret (1, text)) (fun a o => safe (g a) Q o) (speech us, sock)).
  { intros text. apply safe_ret; [exact Hs|]. apply Hok; [by right|]. by exists us. }
  destruct path as [path|]; [|apply Hrefuse]. case_if; [apply Hrefuse|].
  apply safe_still_call; [exact Hs|done|]. intros fd. case_if; [apply Hrefuse|]. cbv zeta.
  assert (Hr : forall text, safe (_ ← call (Close fd); mret (1, text)) (fun a o => safe (g a) Q o) (speech us, sock)).
  { intros text. apply safe_still_call; [exact Hs|done|]. intros _. apply Hrefuse. }
  apply safe_still_call; [exact Hs|done|]. intros [i|]; [|apply Hr].
  case_if; [apply Hr|]. case_if; [apply Hr|]. case_if; [apply Hr|]. case_if; [apply Hr|].
  match goal with H : is_valid_shared_filename _ = true |- _ => apply is_valid_shared_filename_iff in H as Hname end.
  destruct (sprintf_fit _ _) as [metadata|] eqn:Em; [|apply Hr]. apply sprintf_fit_Some in Em as [-> _].
  apply safe_still_call; [exact Hs|done|]. intros r. case_if.
  { apply safe_still_call; [exact Hs|done|]. intros _. apply safe_ret; [exact Hs|]. by apply Hko. }
  apply safe_still_call; [exact Hs|done|]. intros st. case_if.
  { apply safe_still_call; [exact Hs|done|]. intros _. apply Hr. }
  apply safe_still_call; [exact Hs|done|]. intros _. apply safe_still_call; [exact Hs|done|]. intros _.
  apply safe_unbind, safe_upload_exchange; [done|done|lia|done|done].
Qed.

(** ** Commands *)

Definition continues (b : bool) (o : bytes * Z) : Prop := if b then goes_on o else over o.

Lemma goes_on_over o : goes_on o -> over o.
Proof. intros (us & Hus & ->). split; [by apply spoken_pause|done]. Qed.

Lemma continues_over b o : continues b o -> over o.
Proof. destruct b; [apply goes_on_over|done]. Qed.

Lemma over_inv o : over o -> Inv o.
Proof. by intros [? _]. Qed.

Section command.
Context {Y : Type} (g : bool -> prog client Y) (Q : Y -> bytes * Z -> Prop) (us : list utterance).
Hypothesis (Hus : logged_in us).

Lemma safe_send_or_stop type payload failure u :
  wire u = frame type payload -> ~ is_login u -> (zlen payload <= MESSAGE_MAX_SIZE -> utterance_ok u) ->
  (utterance_ok u -> safe (g true) Q (speech us ++ wire u, sock)) -> (forall o, over o -> safe (g false) Q o) ->
  safe (send_or_stop F type payload failure ≫= g) Q (speech us, sock).
Proof.
  intros Hw Hl Hu Hok Hko. pose proof (spoken_pause us Hus) as Hs. unfold send_or_stop. apply safe_bind.
  assert (Hfail : forall out, spoken out -> safe (send_failed failure) (fun a o => safe (g a) Q o) (out, sock)).
  { intros out Ho. unfold send_failed. do 3 (apply safe_still_call; [exact Ho|done|]; intros ?). apply safe_still_call; [exact Ho|done|].
    intros _. apply safe_ret; [exact Ho|]. by apply Hko. }
  destruct (Z.le_gt_cases (zlen payload) MESSAGE_MAX_SIZE) as [Hlen|Hlen].
  - assert (Hf : may_follow us u) by (split; [by apply Hu|right; split; [exact Hus|exact Hl]]).
    apply (safe_send_message _ _ us u); [done|by rewrite Hw|done| |intros; by apply Hfail].
    cbn [Z.eqb negb]. rewrite <- Hw. apply safe_ret; [by apply spoken_done|by apply Hok, Hu].
  - apply safe_bind. unfold send_message. destruct (negb _); [apply safe_ret; [exact Hs|by apply Hfail]|].
    rewrite (proj2 (Z.ltb_lt _ _)) by exact Hlen. apply safe_ret; [exact Hs|by apply Hfail].
Qed.
End command.

Section commands.
Context {Y : Type} (g : bool -> prog client Y) (Q : Y -> bytes * Z -> Prop) (us : list utterance).
Hypothesis (Hus : logged_in us) (Hg : forall b o, continues b o -> safe (g b) Q o).

Lemma safe_say type text failure u :
  wire u = frame type text -> plain u -> (zlen text <= MESSAGE_MAX_SIZE -> utterance_ok u) ->
  safe (send_or_stop F type text failure ≫= g) Q (speech us, sock).
Proof.
  intros Hw Hp Hu. apply (safe_send_or_stop _ _ us Hus type text failure u); [done|by destruct u; try intros []|done| |].
  - intros Ho. apply Hg. exists (us ++ [u]). split; [by apply logged_in_snoc|]. by rewrite speech_snoc.
  - intros o Ho'. by apply Hg.
Qed.

Lemma safe_usage text : safe (usage text ≫= g) Q (speech us, sock).
Proof.
  pose proof (spoken_pause us Hus) as Hs. apply safe_bind. unfold usage. apply safe_still; [exact Hs|apply still_safe_printf|]. intros _.
  apply safe_ret; [exact Hs|]. apply Hg. by exists us.
Qed.

Lemma safe_private username payload : safe (private_command F username payload ≫= g) Q (speech us, sock).
Proof.
  unfold private_command. case_if; [apply safe_usage|]. set (request := drop 5 payload).
  destruct (strchr request SPACE) as [i|] eqn:Ei; [|apply safe_usage].
  apply strchr_Some in Ei as (Erequest & _ & Hi).
  do 4 (case_if; [apply safe_usage|]). rename select (drop _ _ ≠ []) into Htext.
  rename select (is_valid_username _ = true) into Hname. apply is_valid_username_iff in Hname.
  apply (safe_say MSG_PRIVATE request _ (Private (take i request) (drop (S i) request))); [cbn; by rewrite <- Erequest|done|].
  cbn. rewrite <- Erequest. auto.
Qed.

Lemma safe_download payload : safe (download_command F payload ≫= g) Q (speech us, sock).
Proof.
  unfold download_command. case_if; [apply safe_usage|]. cbv zeta. case_if; [apply safe_usage|].
  rename select (is_valid_shared_filename _ = true) into Hname. apply is_valid_shared_filename_iff in Hname.
  by apply (safe_say MSG_DOWNLOAD _ _ (Download (drop 10 payload))).
Qed.

Lemma safe_upload_command path : safe (upload_command F path ≫= g) Q (speech us, sock).
Proof.
  pose proof (spoken_pause us Hus) as Hs. unfold upload_command. apply safe_bind, safe_get; [exact Hs|]. intros st ->.
  apply safe_upload; [done| |].
  - intros r text o Hr Ho. pose proof (over_inv _ (goes_on_over _ Ho)) as Hi.
    apply safe_still; [exact Hi|apply still_print_locked|]. intros _.
    replace (r <? 0) with false by (destruct Hr as [-> | ->]; done). apply safe_ret; [exact Hi|]. by apply Hg.
  - intros text [out c] [Hi [= ->]]. apply safe_still; [exact Hi|apply still_print_locked|]. intros _. cbn [Z.ltb Z.compare].
    do 2 (apply safe_still_call; [exact Hi|done|]; intros ?). apply safe_still_call; [exact Hi|done|]. intros _.
    apply safe_ret; [exact Hi|]. by apply Hg.
Qed.

(** Whatever the line is, the client says one complete thing, or nothing, or
    the session is over. *)
Lemma safe_command username payload : payload ≠ [] -> safe (command F username payload ≫= g) Q (speech us, sock).
Proof.
  intros Hne. unfold command.
  case_if; [by apply (safe_say _ _ _ List_users)|]. case_if; [by apply (safe_say _ _ _ List_files)|].
  case_if; [case_if; [apply safe_usage|apply safe_upload_command]|].
  case_if; [apply safe_download|]. case_if; [apply safe_private|].
  case_if; [|apply (safe_say _ _ _ (Chat payload)); [done|done|]; intros ?; cbn; destruct payload; [done|unfold zlen in *; cbn [length] in *; lia]].
  apply safe_bind, (safe_send_or_stop _ _ us Hus _ _ _ Disconnect); [done|intros []|done| |].
  - intros _. assert (Ho : spoken (speech us ++ wire Disconnect)) by (apply spoken_done; split; [done|right; split; [exact Hus|by intros []]]).
    apply safe_ret; [exact Ho|]. by apply Hg.
  - intros [out c] [Ho Hc]. apply safe_ret; [exact Ho|]. by apply Hg.
Qed.
End commands.
(** ** The session *)

Lemma safe_input_loop {Y} fuel username (g : unit -> prog client Y) Q us :
  logged_in us -> (forall o, over o -> safe (g tt) Q o) -> safe (input_loop F fuel username ≫= g) Q (speech us, sock).
Proof.
  intros Hus Hg. apply safe_bind. revert us Hus. induction fuel as [|fuel IH]; intros us Hus; pose proof (spoken_pause us Hus) as Hs; [by split|].
  assert (Hstop : safe (mret tt) (fun a o => safe (g a) Q o) (speech us, sock)).
  { apply safe_ret; [exact Hs|]. apply Hg, goes_on_over. by exists us. }
  cbn [input_loop]. apply safe_still_call; [exact Hs|done|]. intros st. case_if; [done|].
  apply safe_still; [exact Hs|apply still_print_locked|]. intros _. apply safe_still_call; [exact Hs|done|]. intros [line|].
  - apply safe_still_call; [exact Hs|done|]. intros st'. case_if; [done|]. case_if; [by apply IH|].
    apply (safe_command _ _ us Hus); [|done]. intros [] o Ho.
    + destruct Ho as (us' & Hus' & ->). by apply IH.
    + apply safe_ret; [apply Ho|by apply Hg].
  - apply safe_still_call; [exact Hs|done|]. intros st'. case_if; [|done].
    apply (safe_send_message _ _ us Disconnect MSG_DISCONNECT []); [split; [done|right; split; [exact Hus|intros []]]|done|done| |].
    + assert (Ho : spoken (speech us ++ wire Disconnect)) by (apply spoken_done; split; [done|right; split; [exact Hus|by intros []]]).
      apply safe_ret; [exact Ho|]. by apply Hg.
    + intros out Ho. apply safe_ret; [exact Ho|]. by apply Hg.
Qed.

Lemma safe_cleanup {Y} (g : unit -> prog client Y) Q o :
  Inv o -> (forall o', Inv o' -> safe (g tt) Q o') -> safe (cleanup_socket ≫= g) Q o.
Proof.
  intros Hi Hg. unfold cleanup_socket. apply safe_bind, safe_still_call; [done|done|]. intros st. case_if; [|by apply safe_ret; [|apply Hg]].
  unfold drop_socket. apply safe_still_call; [done|done|]. intros st'. apply safe_still_call; [done|done|]. intros _.
  apply safe_unbind, safe_call; [done|]. intros w Hw. cbn. apply Hg. cbv [Inv said] in *. by rewrite <- Hw in Hi.
Qed.

Lemma safe_read_username {Y} fuel (g : option bytes -> prog client Y) Q o :
  Inv o -> safe (g None) Q o -> (forall username, username_ok username -> safe (g (Some username)) Q o) ->
  safe (read_username fuel ≫= g) Q o.
Proof.
  intros Hi Hnone Hsome. apply safe_bind. induction fuel as [|fuel IH]; [by split|]. cbn [read_username].
  apply safe_still_call; [done|done|]. intros _. apply safe_still_call; [done|done|]. intros [line|]; [|by apply safe_ret].
  cbv zeta. case_if.
  - by apply safe_still_call.
  - rename select (is_valid_username _ = true) into Hname. apply is_valid_username_iff in Hname. apply safe_ret; [done|by apply Hsome].
Qed.

Lemma safe_login {Y} (g : option bytes -> prog client Y) Q :
  (forall o, Inv o -> safe (g None) Q o) -> (forall username o, goes_on o -> safe (g (Some username)) Q o) ->
  safe (login F ≫= g) Q ([], sock).
Proof.
  intros Hnone Hsome. assert (Hs : Inv ([], sock)) by exact spoken_nothing. apply safe_bind. unfold login.
  assert (Hclean : forall o, Inv o -> safe (_ ← cleanup_socket; mret None) (fun a o => safe (g a) Q o) o).
  { intros o Hi. apply safe_cleanup; [done|]. intros o' Hi'. apply safe_ret; [done|]. by apply Hnone. }
  assert (Hfailed : forall text o, Inv o ->
    safe (_ ← call (Eputs (text ++ [NEWLINE])); _ ← cleanup_socket; mret None) (fun a o => safe (g a) Q o) o).
  { intros text o Hi. apply safe_still_call; [done|done|]. intros _. by apply Hclean. }
  cbv zeta. apply safe_still; [done|apply still_receive|]. intros [result|type payload]; [by apply Hfailed|]. case_if; [by apply Hfailed|].
  apply safe_read_username; [done|by apply Hclean|]. intros username Hname.
  assert (Hf : may_follow [] (Login username)) by (split; [done|by left]).
  apply (safe_send_message _ _ [] (Login username)); [done|done|exact spoken_nothing| |intros out Ho; by apply Hfailed].
  cbn [Z.eqb negb]. pose proof (logged_in_login _ Hname) as Hus.
  assert (Ho : Inv (speech [] ++ frame MSG_LOGIN username, sock)) by apply (spoken_done [] _ Hf).
  apply safe_still; [done|apply still_receive|]. intros [result|type' payload']; [by apply Hfailed|].
  case_if; [apply safe_still_call; [done|done|]; intros _; by apply Hclean|]. case_if; [by apply Hfailed|].
  apply safe_ret; [done|]. apply Hsome. exists [Login username]. split; [done|]. unfold speech. cbn. by rewrite app_nil_r.
Qed.

Lemma safe_session : safe (client_session F) (fun _ _ => True) ([], sock).
Proof.
  assert (Hs : Inv ([], sock)) by exact spoken_nothing. unfold client_session.
  apply safe_still_call; [done|done|]. intros _.
  assert (Hret : forall (z : Z) o, Inv o -> safe (mret z) (fun (_ : Z) _ => True) o) by (intros; by apply safe_ret).
  apply safe_login; [intros o'; apply Hret|]. intros username o (us & Hus & ->). pose proof (spoken_pause us Hus) as Ho.
  apply safe_still_call; [done|done|]. intros _. apply safe_still_call; [done|done|]. intros _.
  apply safe_still_call; [done|done|]. intros [result receiver]. case_if.
  - apply safe_still_call; [done|done|]. intros _. apply safe_cleanup; [done|]. intros o. apply Hret.
  - apply (safe_input_loop _ _ _ _ us Hus). intros o Hover. pose proof (over_inv _ Hover) as Hi. unfold client_finish.
    apply safe_still_call; [done|done|]. intros _. apply safe_still_call; [done|done|]. intros _.
    apply safe_cleanup; [done|]. intros o' Hi'. apply safe_still_call; [done|done|]. intros _. apply safe_still_call; [done|done|]. intros _.
    by apply Hret.
Qed.
End speech.

(** ** The theorem *)


(** A chat, an upload and the farewell. *)
Definition at_keyboard : kern client :=
  mk_kern (set_socket 3 client_start) ∅ {[ [B "notes.txt"] := NReg 1%positive ]} {[ 1%positive := mk_inode (B "hello") MODE_0644 ]}
    {[ 0 := FdOther; 1 := FdOther; 2 := FdOther; 3 := FdSocket ]} []
    {[ 3 := frame MSG_RESPONSE (B "USERNAME_REQUIRED") ++ frame MSG_RESPONSE (B "LOGIN_SUCCESS") ++
            frame MSG_RESPONSE (B "UPLOAD_READY") ++ frame MSG_RESPONSE (B "UPLOAD_SUCCESS notes.txt 5") ++
            frame MSG_RESPONSE (B "GOODBYE") ]}
    ∅ ∅ (B "alice" ++ [NEWLINE] ++ B "hi all" ++ [NEWLINE] ++ B "/upload notes.txt" ++ [NEWLINE] ++ B "/quit" ++ [NEWLINE]) [] [] 1 1 [].

Definition evening : system client Z unit :=
  main_first (receiver_thread 10) 2000 (Sys (new_thread (client_session 10)) None (W calm at_keyboard)).


(** What was said, computed; both threads have ended. *)
Example evening_speech :
  (stream (k_out (w_kern (s_world evening))) 3, finished (s_main evening), finished <$> s_child evening) =
  (speech [Login (B "alice"); Chat (B "hi all"); Upload (B "notes.txt") 5 (Some (B "hello")); Disconnect], true, Some true).
Proof. by vm_compute. Qed.
