(* ===== verification/Conversation.v ===== *)
(** * Both ends of the connection

    The client and the server together: what one sends arrives at the other,
    through the whole code of both. *)

From S2P Require Import Prelude CLib Posix Wp Protocol NetworkIO ClientManager Registry Sending PerfTimer FileLock Logger.
From S2P Require Import FileManager Store Upload Download ClientHandler Receive Session Dialogue.
From S2P Require Import DownloadClient UploadClient ClientMain.

(** ** The client receives *)

Section client.
Context (F : nat) (sock : Z).

(** The client takes one frame off the stream, or fails for a reason. *)
Lemma wp_client_receive size Q en (k : kern client) :
  let st := stream (k_in k) sock in
  client_socket (k_static k) = sock -> k_fds k !! sock = Some FdSocket -> fuel_ok F en -> 0 < size ->
  (forall en' t p, env_le en' en -> acceptable size t p -> frame t p `prefix_of` st ->
     Q (Received t p) (W en' (received_in sock (8 + length p) k))) ->
  (forall en' r n err, env_le en' en -> (n <= length st)%nat ->
     (r = 1 /\ n = length st /\ (forall t p, acceptable size t p -> ~ frame t p `prefix_of` st) \/
      r = -1 /\ n = 8%nat /\ bad_header size st \/ (r = 1 \/ r = -1) /\ env_lt en' en) ->
     Q (Received_failure r) (W en' (with_stderr err (received_in sock n k)))) ->
  wp (ClientMain.receive_message F size) Q (W en k).
Proof.
  intros st Hsock Hfd HF Hsize Hok Hko. unfold ClientMain.receive_message. rewrite (proj2 (Z.eqb_neq _ _)) by lia.
  apply wp_get. rewrite Hsock.
  apply (wp_receive_frame F
    (fun type => _ ← call (Eputs (B "Invalid message type received: " ++ dec type ++ [NEWLINE])); mret (Received_failure (-1)))
    (fun _ => _ ← call (Eputs (B "Received message exceeds maximum size." ++ [NEWLINE])); mret (Received_failure (-1)))
    (_ ← call (Eputs (B "Receive buffer is too small." ++ [NEWLINE])); mret (Received_failure (-1)))); [done|done| |done|].
  - intros en1 z Hle Hb. pose proof Hb as [Hn _].
    split_and!; apply wp_eputs, wp_ret, Hko; auto.
  - intros en1 r n Hle Hn Hr. rewrite <- (with_stderr_id (received_in sock n k)). apply Hko; [done|done|]. tauto.
Qed.

(** What the client needs to receive without trouble. *)
Record attentive (en : env) (k : kern client) : Prop := {
  at_socket : client_socket (k_static k) = sock;
  at_open : k_fds k !! sock = Some FdSocket;
  at_fuel : fuel_ok F en;
  at_faultless : faultless en
}.

Lemma calm_receive t p rest Q en k :
  attentive en k -> sendable t p -> stream (k_in k) sock = frame t p ++ rest ->
  (forall en', env_le en' en -> Q (Received t p) (W en' (received_in sock (8 + length p) k))) ->
  wp (ClientMain.receive_message F (MESSAGE_MAX_SIZE + 1)) Q (W en k).
Proof.
  intros [Hs Hfd HF Hf] [Ht Hl] Hst HQ. unfold strlen in Hl.
  assert (Ha : acceptable (MESSAGE_MAX_SIZE + 1) t p) by (split_and!; [done|done|lia]).
  assert (Hpre : frame t p `prefix_of` stream (k_in k) sock) by (rewrite Hst; by eexists).
  apply wp_client_receive; [done..| |].
  - intros en' t' p' Hle Ha' Hp'. destruct (frame_prefix_unique _ _ _ _ _ _ Ha Ha' Hpre Hp') as [-> ->]. by apply HQ.
  - intros en' r n err Hle Hn [(_ & _ & Hno)|[(_ & _ & Hb)|[_ Hlt']]]; [by destruct (Hno t p Ha)|by destruct (frame_not_bad _ _ _ _ Ha Hpre)|].
    by destruct (faultless_not_lt _ _ Hf Hlt').
Qed.

Lemma calm_hangup Q en k :
  attentive en k -> stream (k_in k) sock = [] ->
  (forall en' err, env_le en' en -> Q (Received_failure 1) (W en' (with_stderr err (received_in sock 0 k)))) ->
  wp (ClientMain.receive_message F (MESSAGE_MAX_SIZE + 1)) Q (W en k).
Proof.
  intros [Hs Hfd HF Hf] Hst HQ. apply wp_client_receive; [done..| |]; rewrite Hst.
  - intros en' t p Hle (Ht & Hl & _) Hp. apply frame_split in Hp as (_ & _ & _ & Hlen); [|done|unfold MESSAGE_MAX_SIZE in *; lia].
    simpl in Hlen. lia.
  - intros en' r n err Hle Hn [(-> & -> & _)|[(_ & _ & Hb & _)|[_ Hlt]]]; [by apply HQ|simpl in Hb; lia|].
    by destruct (faultless_not_lt _ _ Hf Hlt).
Qed.
End client.

(** ** What the receiver thread shows *)

Definition frames (ms : list (Z * bytes)) : bytes := concat ((fun m => frame m.1 m.2) <$> ms).

(** A list of files begins with this message and ends with one of these. *)
Definition list_begins (m : Z * bytes) : Prop := m = (MSG_RESPONSE, B "FILE_LIST_BEGIN").
Definition list_ends (m : Z * bytes) : Prop := m.1 = MSG_RESPONSE /\ B "FILE_LIST_END " `prefix_of` m.2.

#[export] Instance list_begins_dec m : Decision (list_begins m).
Proof. unfold list_begins. apply _. Defined.
#[export] Instance list_ends_dec m : Decision (list_ends m).
Proof. unfold list_ends. apply _. Defined.

(** The number of entries so far of the list that is under way after these
    messages, the latest one first. *)
Fixpoint listing (past : list (Z * bytes)) : option Z :=
  match past with
  | [] => None
  | m :: past =>
      if decide (list_begins m) then Some 0 else if decide (list_ends m) then None
      else if decide (m.1 = MSG_FILELIST) then Z.succ <$> listing past else listing past
  end.

(** The string before and after the last [c]. *)
Fixpoint cut_last (c : byte) (s : bytes) : option (bytes * bytes) :=
  match s with
  | [] => None
  | b :: s =>
      match cut_last c s with
      | Some (x, y) => Some (b :: x, y)
      | None => if decide (b = c) then Some ([], s) else None
      end
  end.

Definition label (type : Z) : bytes :=
  if decide (type = MSG_BROADCAST) then [] else if decide (type = MSG_PRIVATE) then B "[Private] "
  else if decide (type = MSG_RESPONSE) then B "[Server] " else if decide (type = MSG_ERROR) then B "[Error] "
  else if decide (type = MSG_USERLIST) then B "[Online Users]" ++ [NEWLINE]
  else B "[Server message type " ++ dec type ++ B "] ".

(** The name and the size of a listed file, or the text as it is. *)
Definition file_entry (text : bytes) : bytes :=
  match cut_last BAR text with
  | Some (name, size) => if decide (name = [] \/ size = []) then text else name ++ B " (" ++ size ++ B " bytes)"
  | None => text
  end.

(** What a user reads of a message, after these: its whole text behind a label
    for its type; but the messages of a list of files make up a list. *)
Definition printed (past : list (Z * bytes)) (m : Z * bytes) : bytes :=
  if decide (list_begins m) then B "[Shared Files]" ++ [NEWLINE]
  else if decide (list_ends m) then (if decide (listing past = Some 0) then B "  (none)" ++ [NEWLINE] else [])
  else if decide (m.1 = MSG_FILELIST) then B "  " ++ file_entry m.2 ++ [NEWLINE]
  else label m.1 ++ m.2 ++ [NEWLINE].

Definition goodbye : Z * bytes := (MSG_RESPONSE, B "GOODBYE").

(** What is printed for these messages, after those, and then for the end of
    the connection, unless the server has said good-bye before. *)
Fixpoint shown (past ms : list (Z * bytes)) : bytes :=
  match ms with
  | [] => [NEWLINE] ++ B "Server closed the connection." ++ [NEWLINE]
  | (t, p) :: ms =>
      let m := (t, c_str p) in
      [NEWLINE] ++ printed past m ++ (if decide (m = goodbye) then [] else shown (m :: past) ms)
  end.

Lemma cut_last_strrchr c s : cut_last c s = (fun i => (take i s, drop (S i) s)) <$> strrchr s c.
Proof.
  induction s as [|b s IH]; [done|]. cbn [cut_last strrchr]. rewrite IH. destruct (strrchr s c) as [i|]; [done|]. cbn [fmap option_fmap option_map].
  destruct (decide (b = c)); done.
Qed.

Lemma strrchr_bound s c i : strrchr s c = Some i -> (i < length s)%nat.
Proof.
  revert i. induction s as [|b s IH]; intros i; [done|]. cbn [strrchr length]. destruct (strrchr s c) as [n|]; [intros [= <-]; specialize (IH n eq_refl); lia|].
  case_decide; [|done]. intros [= <-]. lia.
Qed.

(** The code of the client prints the entry of a file like that. *)
Lemma file_entry_text p :
  match strrchr p BAR with
  | Some separator =>
      if negb (Nat.eqb separator 0) && negb (bool_decide (drop (S separator) p = [])) then
        B "  " ++ take separator p ++ B " (" ++ drop (S separator) p ++ B " bytes)" ++ [NEWLINE]
      else B "  " ++ p ++ [NEWLINE]
  | None => B "  " ++ p ++ [NEWLINE]
  end = B "  " ++ file_entry p ++ [NEWLINE].
Proof.
  unfold file_entry. rewrite cut_last_strrchr. destruct (strrchr p BAR) as [i|] eqn:E; [|done]. cbn [fmap option_fmap option_map].
  apply strrchr_bound in E. assert (Hz : Nat.eqb i 0 = bool_decide (take i p = [])).
  { destruct (Nat.eqb_spec i 0) as [->|Hne]; [done|]. symmetry. apply bool_decide_eq_false. intros Ht. apply (f_equal length) in Ht. rewrite length_take in Ht. cbn in Ht. lia. }
  rewrite Hz. case_decide as Hd; repeat case_bool_decide; cbn [negb andb]; try (exfalso; tauto); [done..|]. by rewrite <- !app_assoc.
Qed.

Lemma not_response t p : t ≠ MSG_RESPONSE -> ~ list_begins (t, p) /\ ~ list_ends (t, p) /\ (t, p) ≠ goodbye.
Proof. intros Hne. split_and!; [by intros [=]|by intros [? _]|by intros [=]]. Qed.

(** What the receiver thread knows of the list that is under way. *)
Definition in_list (past : list (Z * bytes)) (active : bool) (count : Z) : Prop := listing past = if active then Some count else None.

(** The code of the client prints what a user is to read. *)
Lemma message_text_printed t p past active count :
  in_list past active count ->
  exists active' count', message_text t p active count = (printed past (t, p), active', count', bool_decide ((t, p) = goodbye)) /\
    in_list ((t, p) :: past) active' count'.
Proof.
  unfold in_list. intros Hst. unfold message_text, printed. cbn [listing fst snd]. destruct (decide (t = MSG_RESPONSE)) as [->|Hne].
  - change (MSG_RESPONSE == MSG_BROADCAST) with false. change (MSG_RESPONSE == MSG_PRIVATE) with false. change (MSG_RESPONSE == MSG_RESPONSE) with true.
    cbv iota. unfold streq. case_decide as Hb.
    + injection Hb as ->. by eexists _, _.
    + rewrite (bool_decide_eq_false_2 (p = _)) by (intros ->; by apply Hb).
      assert (He : strneq p (B "FILE_LIST_END ") 14 = true <-> list_ends (MSG_RESPONSE, p)).
      { rewrite strneq_true. unfold list_ends. cbn [fst snd]. split.
        - intros Ht. split; [done|]. exists (drop 14 p). rewrite <- (take_drop 14 p) at 1. by rewrite Ht.
        - intros [_ [q ->]]. done. }
      case_decide as Hl.
      * rewrite (proj2 He Hl). exists false, count. split; [|done]. f_equal; [do 2 f_equal|].
        -- rewrite Hst. destruct active; [|done]. cbn [andb]. case_decide as Hc; destruct (Z.eqb_spec count 0); congruence.
        -- symmetry. apply bool_decide_eq_false. intros [= ->]. destruct Hl as [_ [q Hq]]. done.
      * destruct (strneq p _ 14) eqn:E; [by destruct Hl; apply He|]. exists active, count. split; [|exact Hst]. f_equal. unfold goodbye. do 2 case_bool_decide; congruence.
  - destruct (not_response t p Hne) as (H1 & H2 & H3). rewrite !(decide_False (P := list_begins _)), !(decide_False (P := list_ends _)) by done.
    rewrite (bool_decide_eq_false_2 (_ = goodbye)) by done. rewrite (proj2 (Z.eqb_neq _ _) Hne). unfold label.
    destruct (Z.eqb_spec t MSG_BROADCAST) as [->|N1]; [by eexists _, _|]. destruct (Z.eqb_spec t MSG_PRIVATE) as [->|N2]; [by eexists _, _|].
    destruct (Z.eqb_spec t MSG_ERROR) as [->|N3]; [by eexists _, _|]. destruct (Z.eqb_spec t MSG_USERLIST) as [->|N4]; [by eexists _, _|].
    rewrite !(decide_False (P := t = MSG_BROADCAST)), !(decide_False (P := t = MSG_PRIVATE)), !(decide_False (P := t = MSG_RESPONSE)),
      !(decide_False (P := t = MSG_ERROR)), !(decide_False (P := t = MSG_USERLIST)) by done.
    destruct (Z.eqb_spec t MSG_FILELIST) as [->|N5].
    + rewrite file_entry_text. eexists _, _. split; [done|]. rewrite decide_True by done. rewrite Hst. by destruct active.
    + rewrite !(decide_False (P := t = MSG_FILELIST)) by done. eexists _, _. split; [|exact Hst]. by rewrite <- !app_assoc.
Qed.

(** A message that the protocol allows, other than the announcement of a download. *)
Definition ordinary (m : Z * bytes) : Prop :=
  sendable m.1 m.2 /\ (m.1 = MSG_RESPONSE -> parse_download_ready (c_str m.2) FILE_NAME_MAX_SIZE = Not_ready).

Section receiver.
Context (F : nat) (sock : Z).
Abbreviation attentive := (attentive F sock).

Lemma calm_lock {A} m (g : Z -> prog client A) Q en k :
  faultless en -> wp (g 0) Q (W en (with_held ({[m]} ∪ k_held k) k)) -> wp (call (Mutex_lock m) ≫= g) Q (W en k).
Proof. intros Hf. by apply (wp_pthread_faultless m). Qed.

Lemma calm_unlock {A} m (g : Z -> prog client A) Q en k :
  faultless en -> wp (g 0) Q (W en (with_held (k_held k ∖ {[m]}) k)) -> wp (call (Mutex_unlock m) ≫= g) Q (W en k).
Proof. intros Hf. by apply (wp_pthread_faultless m). Qed.

(** No upload waits for a message. *)
Lemma calm_not_for_upload {A} t p (g : Z -> prog client A) Q en k :
  faultless en -> upload_state (k_static k) = UPLOAD_IDLE ->
  (forall h, wp (g 0) Q (W en (with_held h k))) ->
  wp (upload_client_handle_server_message t (Some p) ≫= g) Q (W en k).
Proof.
  intros Hf Hi Hg. apply wp_bind, calm_lock; [done|]. change (0 != 0) with false. cbv iota. apply wp_get. rewrite decide_True by done.
  apply calm_unlock; [done|]. apply wp_ret. rewrite with_held_held. apply Hg.
Qed.

(** The process, and what it has printed. *)
Record listening (en : env) (k : kern client) : Prop := {
  ls_attentive : attentive en k;
  ls_running : client_running (k_static k) = true;
  ls_idle : upload_state (k_static k) = UPLOAD_IDLE
}.

Definition heard (text : bytes) (k k' : kern client) : Prop :=
  k_stdout k' = k_stdout k ++ text /\ k_tree k' = k_tree k /\ k_inodes k' = k_inodes k /\ client_running (k_static k') = false.

(** The server has closed the connection. *)
Lemma calm_end fuel past active count en k :
  (0 < fuel)%nat -> listening en k -> stream (k_in k) sock = [] ->
  wp (receiver_loop F fuel active count) (fun _ w => heard (shown past []) k (w_kern w)) (W en k).
Proof.
  intros Hfuel [Ha Hr Hi] Hst. destruct fuel as [|fuel]; [lia|]. cbn [receiver_loop].
  apply wp_get. rewrite Hr. cbn [negb]. apply wp_bind, (calm_hangup F sock); [done|done|]. intros en1 err Hle1.
  pose proof (faultless_le _ _ Hle1 (at_faultless _ _ _ _ Ha)) as Hf1.
  apply wp_bind. unfold upload_client_notify_connection_closed. apply calm_lock; [done|]. change (0 != 0) with false. cbv iota.
  apply wp_modify, (wp_call Cond_notify), calm_unlock; [done|]. apply wp_ret. cbn [Z.eqb Pos.eqb].
  apply wp_bind. unfold safe_printf. apply calm_lock; [done|]. change (0 != 0) with false. cbv iota.
  apply wp_puts, wp_puts, calm_unlock; [done|]. apply wp_ret, wp_of_bind, wp_modify, wp_ret. split; [|done]. cbn. by rewrite <- app_assoc.
Qed.

(** The download handler leaves an ordinary message alone. *)
Lemma calm_not_announced {A} t p (g : Z * bytes -> prog client A) Q en k :
  ordinary (t, p) -> wp (g (0, [])) Q (W en k) ->
  wp (download_client_handle_server_message F sock t (Some (c_str p)) (MESSAGE_MAX_SIZE + 1) ≫= g) Q (W en k).
Proof.
  intros [_ Hn] Hg. apply wp_bind. unfold download_client_handle_server_message. change (MESSAGE_MAX_SIZE + 1 == 0) with false. cbv iota.
  destruct (Z.eqb_spec t MSG_RESPONSE) as [->|_]; cbn [negb]; [|by apply wp_ret]. cbn [fst snd] in Hn. rewrite Hn by done. by apply wp_ret.
Qed.

Lemma length_frames_cons m ms : frames (m :: ms) = frame m.1 m.2 ++ frames ms.
Proof. done. Qed.

(** An ordinary message has been taken off the stream and printed. *)
Lemma calm_loop ms : forall fuel past active count en k,
  (length ms < fuel)%nat -> in_list past active count -> listening en k -> Forall ordinary ms -> stream (k_in k) sock = frames ms ->
  wp (receiver_loop F fuel active count) (fun _ w => heard (shown past ms) k (w_kern w)) (W en k).
Proof.
  induction ms as [|[t p] ms IH]; intros fuel past active count en k Hfuel Hlist Hl Hms Hst; [by apply calm_end|].
  destruct fuel as [|fuel]; [simpl in Hfuel; lia|]. apply Forall_cons in Hms as [Hm Hms]. pose proof Hl as [Ha Hr Hi].
  cbn [receiver_loop]. apply wp_get. rewrite Hr. cbn [negb]. apply wp_bind, (calm_receive F sock t p (frames ms)); [done|apply Hm|done|].
  intros en1 Hle1. pose proof (faultless_le _ _ Hle1 (at_faultless _ _ _ _ Ha)) as Hf1. cbv zeta.
  apply calm_not_for_upload; [done|done|]. intros h. change (0 != 0) with false. cbv iota. apply wp_get.
  cbn [k_static with_held received_in with_in]. rewrite (at_socket _ _ _ _ Ha). apply calm_not_announced; [done|]. change (0 != 0) with false. cbv iota.
  apply calm_lock; [done|]. change (0 != 0) with false. cbv iota. cbn [shown].
  destruct (message_text_printed t (c_str p) past active count Hlist) as (active1 & count1 & -> & Hlist1). apply wp_puts.
  case_bool_decide as Hbye; [rewrite decide_True by done|rewrite decide_False by done].
  - apply wp_modify, calm_unlock; [done|]. apply wp_get. cbn. apply wp_ret. split; [|done].
    cbn. by rewrite app_nil_r.
  - apply wp_bind, wp_ret, calm_unlock; [done|]. apply wp_get. cbn [k_static with_held with_stdout received_in with_in].
    rewrite Hr. cbn [negb]. eapply wp_mono.
    + apply (IH fuel ((t, c_str p) :: past)); [simpl in Hfuel; lia|done| |done|].
      * split; [|done|done]. destruct Ha as [Hs Hfd HF Hf]. split; [done|done|by eapply fuel_ok_le|done].
      * change (stream (drop_stream sock (8 + length p) (k_in k)) sock = frames ms). rewrite stream_drop_eq, Hst. cbn [frames fmap]. apply drop_app_length'. by rewrite length_frame.
    + intros _ w (Ho & Ht & Hn & Hrun). split; [|done]. rewrite Ho. cbn. by rewrite <- !app_assoc.
Qed.

(** ** Downloads *)

Definition announce (name : bytes) (size : Z) : bytes := B "DOWNLOAD_READY " ++ name ++ B "|" ++ dec size.

Lemma parse_announce name size :
  filename_ok name -> 0 <= size <= FILE_MAX_SIZE -> parse_download_ready (announce name size) FILE_NAME_MAX_SIZE = Ready name size.
Proof.
  intros Hn Hs. rewrite parse_download_ready_eq. unfold announce.
  change 15%nat with (length (B "DOWNLOAD_READY ")). rewrite strneq_prefix, drop_app_length.
  change (B "|" ++ dec size) with (BAR :: dec size). by rewrite parse_upload_print.
Qed.

(** The announced file is saved, and its bytes are off the stream. *)
Lemma calm_saved name size Q en k :
  listening en k -> stream_fuel F en -> - 2 ^ 31 <= k_pid k < 2 ^ 31 -> filename_ok name -> 0 <= size <= FILE_MAX_SIZE ->
  savable name k -> size <= zlen (incoming sock k) ->
  (forall en' k' ino mode, env_le en' en -> listening en' k' -> stream (k_in k') sock = drop (Z.to_nat size) (incoming sock k) ->
     k_stdout k' = k_stdout k -> k_tree k' !! local_path name = Some (NReg ino) ->
     k_inodes k' !! ino = Some (mk_inode (take (Z.to_nat size) (incoming sock k)) mode) ->
     Q (1, success_text name size) (W en' k')) ->
  wp (download_client_handle_server_message F sock MSG_RESPONSE (Some (announce name size)) (MESSAGE_MAX_SIZE + 1)) Q (W en k).
Proof.
  intros [[Hs Hfd HF Hf] Hr Hi] HF' Hpid Hname Hsize Hsave Hlen HQ.
  eapply wp_mono; [apply (wp_handle_ready F sock name size k en); try done; by apply parse_announce|].
  intros [r text] [en' k'] [Hle (t & m & l & n & Hk & Hl & Hkept & Htmp & Hcase)]. cbn [fst snd w_env w_kern] in *.
  assert (Hno : ~ env_lt en' en) by (intros Hlt; by destruct (faultless_not_lt _ _ Hf Hlt)).
  destruct Hcase as [(-> & -> & _ & (_ & ino & mode & _ & Ht & Hm) & ->)|[(_ & _ & _ & _ & [?|?])|(_ & _ & _ & _ & [?|?])]]; try done; [|lia].
  subst k'. apply (HQ en' _ ino mode); try done.
  - split; [split; [done|done|by eapply fuel_ok_le|by eapply faultless_le]|done|done].
  - apply stream_drop_eq.
Qed.

Lemma calm_download name data ms fuel past active count en k :
  (length ms + 1 < fuel)%nat -> in_list past active count -> listening en k -> stream_fuel F en -> - 2 ^ 31 <= k_pid k < 2 ^ 31 -> filename_ok name ->
  zlen data <= FILE_MAX_SIZE -> savable name k -> Forall ordinary ms ->
  stream (k_in k) sock = frame MSG_RESPONSE (announce name (zlen data)) ++ data ++ frames ms ->
  wp (receiver_loop F fuel active count) (fun _ w => exists ino mode,
    k_stdout (w_kern w) = k_stdout k ++ [NEWLINE] ++ B "[Download] " ++ success_text name (zlen data) ++ [NEWLINE] ++ shown past ms /\
    k_tree (w_kern w) !! local_path name = Some (NReg ino) /\ k_inodes (w_kern w) !! ino = Some (mk_inode data mode)) (W en k).
Proof.
  intros Hfuel Hlist Hl HF Hpid Hname Hsize Hsave Hms Hst. destruct fuel as [|fuel]; [lia|]. pose proof Hl as [Ha Hr Hi].
  assert (Hz : 0 <= zlen data) by (unfold zlen; lia).
  assert (Hsend : sendable MSG_RESPONSE (announce name (zlen data))).
  { split; [done|]. unfold strlen, announce. pose proof (ready_frame_sendable {| d_socket := 0; d_username := []; d_filename := name; d_lock := 0 |} Hname (mk_inode data 0) Hsize) as Hb.
    cbn [i_data d_filename] in Hb. unfold MESSAGE_MAX_SIZE. lia. }
  cbn [receiver_loop]. apply wp_get. rewrite Hr. cbn [negb]. apply wp_bind, (calm_receive F sock MSG_RESPONSE (announce name (zlen data)) (data ++ frames ms)); [done..|].
  intros en1 Hle1. pose proof (faultless_le _ _ Hle1 (at_faultless _ _ _ _ Ha)) as Hf1. cbv zeta.
  rewrite (c_str_id (announce _ _)).
  2:{ apply cstring_app. split; [by apply (bool_decide_unpack (cstring _))|]. apply cstring_app. split; [by apply filename_ok_no_slash|].
      apply cstring_app. split; [by apply (bool_decide_unpack (cstring _))|]. by apply dec_cstring. }
  apply calm_not_for_upload; [done|done|]. intros h. change (0 != 0) with false. cbv iota. apply wp_get.
  cbn [k_static with_held received_in with_in]. rewrite (at_socket _ _ _ _ Ha). apply wp_bind.
  set (k1 := with_held h (received_in sock (8 + length (announce name (zlen data))) k)).
  assert (Hin : incoming sock k1 = data ++ frames ms).
  { unfold incoming. change (stream (drop_stream sock (8 + length (announce name (zlen data))) (k_in k)) sock = data ++ frames ms).
    rewrite stream_drop_eq, Hst. apply drop_app_length'. by rewrite length_frame. }
  apply (calm_saved name (zlen data)); try done; rewrite ?Hin.
  - split; [|done|done]. destruct Ha as [Hs Hfd HFk Hf]. split; [done|done|by eapply fuel_ok_le|done].
  - unfold stream_fuel in *. env_lia.
  - rewrite zlen_app. unfold zlen. lia.
  - intros en2 k2 ino mode Hle2 Hl2 Hst2 Hout Ht Hm. unfold zlen in Hst2, Hm. rewrite Nat2Z.id in Hst2, Hm.
    rewrite drop_app_length in Hst2. rewrite take_app_length in Hm. cbn [Z.eqb Pos.eqb negb].
    pose proof (at_faultless _ _ _ _ (ls_attentive _ _ Hl2)) as Hf2.
    apply wp_bind. unfold download_report. cbn [Z.eqb Pos.eqb]. apply wp_bind. unfold print_locked. apply calm_lock; [done|]. cbn [Z.eqb].
    apply wp_puts, calm_unlock; [done|]. apply wp_ret, wp_ret. eapply wp_mono; [apply (calm_loop ms fuel past); [lia|done| |done|done]|].
    + destruct Hl2 as [[A B C D] R I]. by split.
    + intros _ w (Ho & Htree & Hino & _). exists ino, mode. rewrite Ho, Htree, Hino. split; [|done].
      cbn [k_stdout with_held with_stdout]. rewrite Hout. by rewrite <- !(app_assoc (k_stdout k)), <- !app_assoc.
Qed.
End receiver.

(** C27. Between transfers - no call fails, no upload is under way, and the server
    announces no download - the receiver thread prints every message that the
    server has sent, once and in the order of sending, as a user is to read it
    (a label for its type and its whole text; the messages of a list of files
    as a list), up to the server's good-bye or the end of the connection; then
    it stops the client. *)
Theorem receiver_prints_the_messages F sock ms en (k : kern client) :
  listening F sock en k -> (length ms < F)%nat -> Forall ordinary ms -> stream (k_in k) sock = frames ms ->
  runs (receiver_thread F) (W en k) (fun _ '(W _ k') => heard (shown [] ms) k k').
Proof.
  intros Hl HF Hms Hst. apply wp_runs. eapply wp_mono; [by apply (calm_loop F sock ms F [])|]. by intros _ [en' k'] Hh.
Qed.

Definition audience : kern client :=
  with_static (set_socket 3 client_start) (with_fds {[ 3 := FdSocket ]} (with_in
    {[ 3 := frames [(MSG_BROADCAST, B "bob: hi"); (MSG_RESPONSE, B "FILE_LIST_BEGIN"); (MSG_FILELIST, B "notes.txt|5");
                    (MSG_RESPONSE, B "FILE_LIST_END 1")] ]} (idle client_start))).

Lemma receiver_prints_the_messages_witness :
  runs (receiver_thread 9) (W calm audience) (fun _ '(W _ k') =>
    heard (shown [] [(MSG_BROADCAST, B "bob: hi"); (MSG_RESPONSE, B "FILE_LIST_BEGIN"); (MSG_FILELIST, B "notes.txt|5");
                  (MSG_RESPONSE, B "FILE_LIST_END 1")]) audience k').
Proof.
  apply (receiver_prints_the_messages 9 3); [|by simpl; lia| |reflexivity].
  - split; [split; [reflexivity|reflexivity|unfold fuel_ok; simpl; lia|reflexivity]|reflexivity|reflexivity].
  - repeat (apply Forall_cons; split; [split; [split; [reflexivity|by vm_compute]|intros _; by vm_compute]|]). by apply Forall_nil.
Defined.

(** What that is, computed. *)
Example audience_shown :
  shown [] [(MSG_BROADCAST, B "bob: hi"); (MSG_RESPONSE, B "FILE_LIST_BEGIN"); (MSG_FILELIST, B "notes.txt|5"); (MSG_RESPONSE, B "FILE_LIST_END 1")] =
  [NEWLINE] ++ B "bob: hi" ++ [NEWLINE; NEWLINE] ++ B "[Shared Files]" ++ [NEWLINE; NEWLINE] ++ B "  notes.txt (5 bytes)" ++ [NEWLINE; NEWLINE] ++
  [NEWLINE] ++ B "Server closed the connection." ++ [NEWLINE].
Proof. by vm_compute. Qed.

(** C15. A download, through both programs: the server, asked for a regular file of
    its store, sends something from which the client's receiver thread makes
    a local file with exactly the same bytes; it reports the success, and goes
    on with the messages that follow. *)
Theorem a_download_arrives `{Libc} F sock user name ino i en (k : kern server) :
  sockets_open k -> registered (k_static k) sock -> stream_fuel F en -> 0 <= sock -> faultless en ->
  filename_ok name -> download_ready name k ->
  k_tree k !! entry_path name = Some (NReg ino) -> k_inodes k !! ino = Some i -> zlen (i_data i) <= FILE_MAX_SIZE ->
  runs (file_manager_handle_download F sock (Some user) (Some name)) (W en k) (fun _ '(W _ k') =>
    exists sent, stream (k_out k') sock = stream (k_out k) sock ++ sent /\
    forall Fc c enc (kc : kern client) ms,
      listening Fc c enc kc -> stream_fuel Fc enc -> (length ms + 1 < Fc)%nat -> - 2 ^ 31 <= k_pid kc < 2 ^ 31 ->
      savable name kc -> Forall ordinary ms -> stream (k_in kc) c = sent ++ frames ms ->
      runs (receiver_thread Fc) (W enc kc) (fun _ '(W _ kc') => exists ino' mode,
        k_tree kc' !! local_path name = Some (NReg ino') /\ k_inodes kc' !! ino' = Some (mk_inode (i_data i) mode) /\
        k_stdout kc' = k_stdout kc ++ [NEWLINE] ++ B "[Download] " ++ success_text name (zlen (i_data i)) ++ [NEWLINE] ++ shown [] ms)).
Proof.
  intros Hso Hreg HF H0 Hf Hname Hready Hentry Hino Hsize. apply wp_runs.
  eapply wp_mono; [apply (calm_handle_download F sock user name k en); try done; intros ino0; rewrite Hentry; intros [= <-]; by exists i|].
  intros r [en' k'] [_ Hst]. exists (frame MSG_RESPONSE (announce name (zlen (i_data i))) ++ i_data i). split.
  { cbn in Hst. rewrite Hst. unfold download_answer. rewrite Hentry, Hino. by rewrite (proj2 (Z.ltb_ge _ _)) by done. }
  intros Fc c enc kc ms Hl HFc Hms Hpid Hsave Hord Hin. apply wp_runs.
  eapply wp_mono; [by apply (calm_download Fc c name (i_data i) ms Fc []); try done; rewrite Hin, <- app_assoc|].
  intros _ [enc' kc'] (ino' & mode & Ho & Ht & Hm). by exists ino', mode.
Qed.

Lemma a_download_arrives_witness :
  runs (file_manager_handle_download (H := plain_libc) (Z.to_nat 7000) 5 (Some (B "alice")) (Some (B "notes.txt"))) (W calm download_room) (fun _ '(W _ k') =>
    exists sent, stream (k_out k') 5 = stream (k_out download_room) 5 ++ sent /\
    forall Fc c enc (kc : kern client) ms,
      listening Fc c enc kc -> stream_fuel Fc enc -> (length ms + 1 < Fc)%nat -> - 2 ^ 31 <= k_pid kc < 2 ^ 31 ->
      savable (B "notes.txt") kc -> Forall ordinary ms -> stream (k_in kc) c = sent ++ frames ms ->
      runs (receiver_thread Fc) (W enc kc) (fun _ '(W _ kc') => exists ino' mode,
        k_tree kc' !! local_path (B "notes.txt") = Some (NReg ino') /\ k_inodes kc' !! ino' = Some (mk_inode (B "hello world") mode) /\
        k_stdout kc' = k_stdout kc ++ [NEWLINE] ++ B "[Download] " ++ success_text (B "notes.txt") 11 ++ [NEWLINE] ++ shown [] ms)).
Proof.
  apply (a_download_arrives (H := plain_libc) (Z.to_nat 7000) 5 (B "alice") (B "notes.txt") 1%positive (mk_inode (B "hello world") 0));
    [apply room_sockets|by apply registeredb_true|by vm_compute|done|done|by apply is_valid_shared_filename_iff|apply download_room_ready|
     reflexivity|reflexivity|by vm_compute].
Defined.

(** Both programs, computed: the store's file at the server becomes a local
    file of the client. *)
Definition downloader (input : bytes) : kern client :=
  with_static (set_socket 3 client_start) (with_fds {[ 3 := FdSocket ]} (with_in {[ 3 := input ]} (idle client_start))).

Example download_arrives_computed :
  ('(_, w) ← run (file_manager_handle_download (H := plain_libc) 30 5 (Some (B "alice")) (Some (B "notes.txt"))) (W calm download_room);
  '(_, wc) ← run (receiver_thread 30) (W calm (downloader (stream (k_out (w_kern w)) 5)));
  mret (k_tree (w_kern wc) !! local_path (B "notes.txt"), map_to_list (i_data <$> k_inodes (w_kern wc)))) =
  Some (Some (NReg 1), [(1%positive, B "hello world")]).
Proof. by vm_compute. Qed.

(** ** Chatting *)

(** What a user can type as a chat message. *)
Definition chat_line (text : bytes) : Prop :=
  text ≠ [] /\ zlen text < MESSAGE_MAX_SIZE /\ cstring text /\ NEWLINE ∉ text /\ forall s, text ≠ SLASH :: s.

Lemma read_line_text n text rest :
  NEWLINE ∉ text -> (length text < n)%nat -> read_line n (text ++ NEWLINE :: rest) = (text ++ [NEWLINE], rest).
Proof.
  revert n. induction text as [|b text IH]; intros [|n] Hn Hl; cbn [length] in Hl; try lia; cbn [read_line app].
  - by rewrite decide_True.
  - apply not_elem_of_cons in Hn as [Hb Hn]. rewrite decide_False by done. by rewrite IH by (done || lia).
Qed.

Lemma fgets_line text rest :
  chat_line text -> fgets (MESSAGE_MAX_SIZE + 1) (text ++ NEWLINE :: rest) = Some (text ++ [NEWLINE], rest).
Proof.
  intros (Hne & Hl & _ & Hn & _). unfold fgets. destruct text as [|b text]; [done|]. cbn [app].
  change (b :: text ++ NEWLINE :: rest) with ((b :: text) ++ NEWLINE :: rest). f_equal. apply read_line_text; [done|].
  unfold zlen, MESSAGE_MAX_SIZE in *. lia.
Qed.

Lemma chomp_line text : cstring text -> NEWLINE ∉ text -> chomp (text ++ [NEWLINE]) = text.
Proof.
  intros Hc Hn. unfold chomp. rewrite c_str_id by (apply cstring_app; split; [done|by apply (bool_decide_unpack (cstring _))]).
  unfold strcspn_newline. rewrite span_stop; [by apply take_app_length| |apply bool_decide_eq_false; intros Hx; by apply Hx].
  apply Forall_forall. intros b Hb. apply bool_decide_eq_true. by intros ->.
Qed.

Section speaker.
Context (F : nat) (sock : Z).
Abbreviation attentive := (attentive F sock).

Lemma wp_fgets {A} size input (g : option bytes -> prog client A) Q en k :
  k_stdin k = input ->
  match fgets size input with
  | None => wp (g None) Q (W en k)
  | Some (line, rest) => wp (g (Some line)) Q (W en (with_stdin rest k))
  end -> wp (call (Fgets size) ≫= g) Q (W en k).
Proof. intros <- Hg. apply (wp_call (Fgets size)). unfold sem. cbn [w_kern w_env]. destruct (fgets size (k_stdin k)) as [[line rest]|]; exact Hg. Qed.

Lemma calm_client_send type payload Q en k :
  attentive en k -> sendable type payload -> Q 0 (W en (sent_out sock (frame type payload) k)) ->
  wp (ClientMain.send_message F type (Some payload)) Q (W en k).
Proof.
  intros [Hs Hfd HF Hf] [Ht Hl] HQ. unfold ClientMain.send_message. rewrite Ht. cbn [negb].
  rewrite (proj2 (Z.ltb_ge _ _)) by done. apply wp_get. rewrite Hs.
  assert (HF1 : (1 < F)%nat) by (unfold fuel_ok in HF; lia).
  apply wp_bind, wp_send_all_calm; [done|done|done|]. change (0 != 0) with false. cbv iota.
  destruct (Z.eqb_spec (strlen payload) 0) as [Hz|_].
  - apply wp_ret. destruct payload as [|b payload]; [|unfold strlen, zlen in Hz; simpl in Hz; lia]. exact HQ.
  - apply wp_bind, wp_send_all_calm; [done|done|done|]. change (0 != 0) with false. cbv iota. apply wp_ret. by rewrite sent_out_app.
Qed.

(** A line that is not a command is sent as it is. *)
Lemma calm_chat_line name text Q en k :
  attentive en k -> chat_line text -> Q true (W en (sent_out sock (frame MSG_CHAT text) k)) ->
  wp (command F name text) Q (W en k).
Proof.
  intros Ha (Hne & Hl & _ & _ & Hslash) HQ. unfold command.
  assert (Hno : forall s, streq text (SLASH :: s) = false) by (intros s; apply bool_decide_eq_false, Hslash).
  assert (Hnot : forall s n, strneq text (SLASH :: s) (S n) = false).
  { intros s n. apply bool_decide_eq_false. destruct text as [|b text]; [done|]. cbn. intros [= -> _]. by destruct (Hslash text). }
  rewrite (Hno (B "users") : streq text (B "/users") = false), (Hno (B "files") : streq text (B "/files") = false).
  rewrite (Hnot (B "upload") 6%nat : strneq text (B "/upload") 7 = false), (Hnot (B "download") 8%nat : strneq text (B "/download") 9 = false).
  rewrite (Hnot (B "msg") 3%nat : strneq text (B "/msg") 4 = false), (Hno (B "quit") : streq text (B "/quit") = false).
  unfold send_or_stop. apply wp_bind, calm_client_send; [done|split; [done|unfold strlen; lia]|]. by apply wp_ret.
Qed.

(** The end of the input sends the farewell. *)
Lemma calm_input_loop name texts : forall fuel en k,
  (length texts < fuel)%nat -> attentive en k -> client_running (k_static k) = true -> Forall chat_line texts ->
  k_stdin k = concat ((fun text => text ++ [NEWLINE]) <$> texts) ->
  wp (input_loop F fuel name) (fun _ w =>
    stream (k_out (w_kern w)) sock = stream (k_out k) sock ++ frames ((fun text => (MSG_CHAT, text)) <$> texts) ++ frame MSG_DISCONNECT []) (W en k).
Proof.
  induction texts as [|text texts IH]; intros fuel en k Hfuel Ha Hr Htexts Hin; (destruct fuel as [|fuel]; [simpl in Hfuel; lia|]);
    pose proof (at_faultless _ _ _ _ Ha) as Hf; cbn [input_loop]; apply wp_get; rewrite Hr; cbn [negb];
    apply wp_bind; unfold print_locked; (apply calm_lock; [done|]); cbn [Z.eqb]; (apply wp_puts, calm_unlock; [done|]); apply wp_ret.
  - eapply wp_fgets; [exact Hin|]. cbn [fmap list_fmap concat fgets]. apply wp_get. cbn [k_static with_held with_stdout]. rewrite Hr. apply wp_bind, calm_client_send; [by destruct Ha|by split|].
    apply wp_ret. apply stream_app_eq.
  - apply Forall_cons in Htexts as [Htext Htexts].
    eapply wp_fgets; [exact Hin|]. cbn [fmap list_fmap concat].
    rewrite <- app_assoc. cbn [app]. rewrite fgets_line by done. cbv zeta. rewrite chomp_line by apply Htext.
    apply wp_get. cbn [k_static with_held with_stdout with_stdin]. rewrite Hr. cbn [negb]. rewrite bool_decide_eq_false_2 by apply Htext.
    apply wp_bind, calm_chat_line; [by destruct Ha|done|]. eapply wp_mono; [apply IH; [simpl in Hfuel; lia|by destruct Ha|done|done|done]|].
    intros ? w Hw. rewrite Hw.
    change (stream (app_stream sock (frame MSG_CHAT text) (k_out k)) sock ++ frames ((fun text => (MSG_CHAT, text)) <$> texts) ++ frame MSG_DISCONNECT [] =
      stream (k_out k) sock ++ (frame MSG_CHAT text ++ frames ((fun text => (MSG_CHAT, text)) <$> texts)) ++ frame MSG_DISCONNECT []).
    by rewrite stream_app_eq, <- !app_assoc.
Qed.
End speaker.

Section chatting.
Context `{Libc} (F : nat) (sock : Z) (name : bytes).
Abbreviation calmly := (calmly F sock).

Definition chats (texts : list bytes) : list (Z * bytes) := (fun text => (MSG_CHAT, text)) <$> texts.
Definition broadcasts (texts : list bytes) : list (Z * bytes) := (fun text => (MSG_BROADCAST, signed name text)) <$> texts.

Lemma calmly_received en en' k n : env_le en' en -> calmly en k -> calmly en' (received_in sock n k).
Proof.
  intros Hle [[A B' C D G] Hu Hf]. split; [split; try done|done|by eapply faultless_le]. unfold stream_fuel in *. env_lia.
Qed.

Lemma calmly_open en k : calmly en k -> k_fds k !! sock = Some FdSocket /\ fuel_ok F en /\ faultless en.
Proof. intros [[A B' C D G] Hu Hf]. split_and!; [destruct C as (i & e & Hi & He & <-); by eapply B'|by apply stream_fuel_ok|done]. Qed.

(** The farewell is answered to the client alone. *)
Lemma calm_disconnect id en k :
  calmly en k ->
  wp (dispatch F sock id name MSG_DISCONNECT []) (fun b w => b = false /\ forall fd, fd ≠ sock -> stream (k_out (w_kern w)) fd = stream (k_out k) fd) (W en k).
Proof.
  intros Hc. unfold dispatch. change (MSG_DISCONNECT == MSG_CHAT) with false. change (MSG_DISCONNECT == MSG_PRIVATE) with false.
  change (MSG_DISCONNECT == MSG_LIST_USERS) with false. change (MSG_DISCONNECT == MSG_DISCONNECT) with true. cbv iota.
  apply wp_bind. eapply wp_mono; [apply tells_puts|]. intros _ [en1 k1] [S1 L1]. pose proof (calmly_said F sock _ _ _ _ _ S1 L1 Hc) as Hc1.
  apply wp_bind. eapply wp_mono; [apply tells_log|]. intros _ [en2 k2] [S2 L2]. pose proof (calmly_said F sock _ _ _ _ _ S2 L2 Hc1) as Hc2.
  apply wp_bind. eapply wp_mono; [by apply (tells_reply F sock)|]. intros _ [en3 k3] [[_ O3] _]. apply wp_ret. split; [done|]. intros fd Hfd.
  cbn [w_kern] in *. destruct S1 as [_ O1], S2 as [_ O2]. rewrite O3, O2, O1. unfold only. rewrite decide_False by done. by rewrite !app_nil_r.
Qed.

(** The server passes the lines on, in their order, to every other client. *)
Lemma calm_relay id texts : forall fuel en k,
  (length texts < fuel)%nat -> calmly en k -> Forall (fun text => cstring text /\ transmissible name text) texts ->
  stream (k_in k) sock = frames (chats texts) ++ frame MSG_DISCONNECT [] ->
  wp (client_loop F fuel sock id name) (fun _ w => forall fd, fd ∈ others (k_static k) sock ->
    stream (k_out (w_kern w)) fd = stream (k_out k) fd ++ frames (broadcasts texts)) (W en k).
Proof.
  induction texts as [|text texts IH]; intros fuel en k Hfuel Hc Htexts Hin; (destruct fuel as [|fuel]; [simpl in Hfuel; lia|]);
    destruct (calmly_open _ _ Hc) as (Ho & HF & Hf); cbn [client_loop].
  - apply (calm_receive_message F sock MSG_DISCONNECT []); [done..|by split_and!|rewrite Hin; done|]. intros en1 Hle1.
    apply wp_bind. eapply wp_mono; [apply calm_disconnect; by eapply calmly_received|]. intros b w [-> Hout]. apply wp_ret. intros fd Hfd.
    apply elem_of_others in Hfd as [_ Hne]. rewrite Hout by done. by rewrite app_nil_r.
  - apply Forall_cons in Htexts as [[Hcs Ht] Htexts]. pose proof Ht as [Hne Hl].
    assert (Hacc : acceptable (MESSAGE_MAX_SIZE + 1) MSG_CHAT text).
    { assert (zlen text <= zlen (signed name text)) by (unfold signed, zlen; rewrite !length_app; lia). split_and!; [done|lia|lia]. }
    apply (calm_receive_message F sock MSG_CHAT text); [done..| |].
    { rewrite Hin. exists (frames (chats texts) ++ frame MSG_DISCONNECT []). by rewrite app_assoc. }
    intros en1 Hle1. pose proof (calmly_received _ _ _ (8 + length text) Hle1 Hc) as Hc1. rewrite c_str_id by done.
    apply wp_bind. change (dispatch F sock id name MSG_CHAT text) with (_ ← handle_chat F sock id name text; mret true). apply wp_bind.
    pose proof (calm_chat F sock id name text en1 _ Hc1) as Hchat. rewrite decide_True in Hchat by done.
    eapply wp_mono; [exact Hchat|]. intros _ [en2 k2] [S2 L2]. cbn [w_env w_kern] in *. apply wp_ret.
    pose proof (calmly_said F sock _ _ _ _ _ S2 L2 Hc1) as Hc2. destruct S2 as [E2 O2].
    assert (Hin2 : stream (k_in k2) sock = frames (chats texts) ++ frame MSG_DISCONNECT []).
    { rewrite E2. change (stream (drop_stream sock (8 + length text) (k_in k)) sock = frames (chats texts) ++ frame MSG_DISCONNECT []).
      rewrite stream_drop_eq, Hin. change (frames (chats (text :: texts))) with (frame MSG_CHAT text ++ frames (chats texts)).
      rewrite <- app_assoc. apply drop_app_length'. by rewrite length_frame. }
    assert (Hst2 : k_static k2 = k_static k) by (by rewrite E2).
    eapply wp_mono; [apply (IH fuel en2 k2); [simpl in Hfuel; lia|done|done|done]|]. intros ? w Hw fd Hfd.
    rewrite Hw by (by rewrite Hst2). rewrite O2. unfold chat_answer, also, each, only. cbn [k_static received_in with_in].
    rewrite decide_True by done. apply elem_of_others in Hfd as [_ Hfd]. rewrite decide_False by done. rewrite app_nil_r.
    change (frames (broadcasts (text :: texts))) with (frame MSG_BROADCAST (signed name text) ++ frames (broadcasts texts)).
    by rewrite <- app_assoc.
Qed.
End chatting.

(** What a client prints for messages signed with a name. *)
Lemma shown_broadcasts name texts past :
  Forall (fun text => cstring (signed name text)) texts ->
  shown past (broadcasts name texts) =
    concat ((fun text => [NEWLINE] ++ signed name text ++ [NEWLINE]) <$> texts) ++ [NEWLINE] ++ B "Server closed the connection." ++ [NEWLINE].
Proof.
  intros Hall. revert past. induction Hall as [|text texts Hc _ IH]; intros past; [done|].
  change (broadcasts name (text :: texts)) with ((MSG_BROADCAST, signed name text) :: broadcasts name texts). cbn [shown].
  destruct (not_response MSG_BROADCAST (c_str (signed name text))) as (H1 & H2 & H3); [done|].
  unfold printed. rewrite !decide_False by done. rewrite c_str_id by done. rewrite IH. cbn [fst snd].
  change (label MSG_BROADCAST) with (@nil byte).
  cbn [fmap list_fmap concat]. by rewrite <- !app_assoc.
Qed.

(** C14. A conversation, through both programs: the lines that a user types (none
    of them a command, each short enough to be signed) leave the client's input
    loop as something from which the server's loop for this client makes, for
    every other client, something that this client's receiver thread prints
    as exactly these lines, in their order, signed with the user's name. *)
Theorem what_is_typed_is_seen `{Libc} F sock name texts en (k : kern client) :
  attentive F sock en k -> client_running (k_static k) = true -> (length texts < F)%nat -> username_ok name ->
  Forall (fun text => chat_line text /\ transmissible name text) texts ->
  k_stdin k = concat ((fun text => text ++ [NEWLINE]) <$> texts) ->
  runs (input_loop F F name) (W en k) (fun _ '(W _ k') =>
    exists sent, stream (k_out k') sock = stream (k_out k) sock ++ sent /\
    forall Fs c id ens (ks : kern server),
      calmly Fs c ens ks -> (length texts < Fs)%nat -> stream (k_in ks) c = sent ->
      runs (client_loop Fs Fs c id name) (W ens ks) (fun _ '(W _ ks') => forall fd, fd ∈ others (k_static ks) c ->
        exists relayed, stream (k_out ks') fd = stream (k_out ks) fd ++ relayed /\
        forall Fr b enr (kr : kern client),
          listening Fr b enr kr -> (length texts < Fr)%nat -> stream (k_in kr) b = relayed ->
          runs (receiver_thread Fr) (W enr kr) (fun _ '(W _ kr') =>
            k_stdout kr' = k_stdout kr ++ concat ((fun text => [NEWLINE] ++ signed name text ++ [NEWLINE]) <$> texts)
              ++ [NEWLINE] ++ B "Server closed the connection." ++ [NEWLINE]))).
Proof.
  intros Ha Hr HF Hname Htexts Hin. apply Forall_and in Htexts as [Hlines Hshort].
  assert (Hcs : Forall cstring texts) by (eapply Forall_impl; [exact Hlines|]; intros text Hl; apply Hl).
  apply wp_runs. eapply wp_mono; [by apply (calm_input_loop F sock name texts)|]. intros _ [en' k'] Hsent. cbn [w_kern] in Hsent.
  eexists. split; [exact Hsent|]. intros Fs c id ens ks Hc HFs Hins. apply wp_runs.
  eapply wp_mono; [apply (calm_relay Fs c name id texts); [done|done|by apply Forall_and|done]|]. intros _ [ens' ks'] Hout fd Hfd.
  eexists. split; [by apply Hout|]. intros Fr b enr kr Hl HFr Hinr. apply wp_runs.
  eapply wp_mono; [apply (calm_loop Fr b (broadcasts name texts) Fr []); [unfold broadcasts; by rewrite length_fmap|done|done| |done]|].
  - apply Forall_fmap. eapply Forall_impl; [exact Hshort|]. intros text [_ Hlen]. split; [by split|done].
  - intros _ [enr' kr'] [Ho _]. cbn [w_kern] in Ho. rewrite Ho. f_equal. apply shown_broadcasts.
    eapply Forall_impl; [exact Hcs|]. intros text Ht. unfold signed. apply cstring_app. split; [by apply username_ok_chars|].
    apply cstring_app. split; [by apply (bool_decide_unpack (cstring (B ": ")))|done].
Qed.

Definition morning : list bytes := [B "good morning"; B "anyone there?"].

Definition typist : kern client :=
  with_stdin (B "good morning" ++ [NEWLINE] ++ B "anyone there?" ++ [NEWLINE])
    (with_static (set_socket 3 client_start) (with_fds {[ 3 := FdSocket ]} (idle client_start))).

Lemma what_is_typed_is_seen_witness :
  runs (input_loop 9 9 (B "alice")) (W calm typist) (fun _ '(W _ k') =>
    exists sent, stream (k_out k') 3 = stream (k_out typist) 3 ++ sent /\
    forall Fs c id ens (ks : kern server),
      calmly Fs c ens ks -> (length morning < Fs)%nat -> stream (k_in ks) c = sent ->
      runs (client_loop (H := plain_libc) Fs Fs c id (B "alice")) (W ens ks) (fun _ '(W _ ks') => forall fd, fd ∈ others (k_static ks) c ->
        exists relayed, stream (k_out ks') fd = stream (k_out ks) fd ++ relayed /\
        forall Fr b enr (kr : kern client),
          listening Fr b enr kr -> (length morning < Fr)%nat -> stream (k_in kr) b = relayed ->
          runs (receiver_thread Fr) (W enr kr) (fun _ '(W _ kr') =>
            k_stdout kr' = k_stdout kr ++ concat ((fun text => [NEWLINE] ++ signed (B "alice") text ++ [NEWLINE]) <$> morning)
              ++ [NEWLINE] ++ B "Server closed the connection." ++ [NEWLINE]))).
Proof.
  apply (what_is_typed_is_seen (H := plain_libc) 9 3 (B "alice") morning calm typist).
  - split; [reflexivity|reflexivity|unfold fuel_ok; simpl; lia|reflexivity].
  - reflexivity.
  - simpl; lia.
  - by apply is_valid_username_iff.
  - repeat (apply Forall_cons; split; [split; [split_and!; [done|by vm_compute|by apply (bool_decide_unpack (cstring _))|
      by apply (bool_decide_unpack (NEWLINE ∉ _))|by intros s]|by split; [|by vm_compute]]|]). by apply Forall_nil.
  - reflexivity.
Defined.

(** The three programs, computed: the bytes typed at one client, relayed by the
    server to socket 6, and printed by the other client. *)
Example morning_computed :
  ('(_, wa) ← run (input_loop 9 9 (B "alice")) (W calm typist);
   '(_, ws) ← run (client_loop (H := plain_libc) 9 9 5 1 (B "alice")) (W calm (with_in {[ 5 := stream (k_out (w_kern wa)) 3 ]} room));
   '(_, wb) ← run (receiver_thread 9) (W calm (downloader (stream (k_out (w_kern ws)) 6)));
   mret (k_stdout (w_kern wb))) =
  Some ([NEWLINE] ++ B "alice: good morning" ++ [NEWLINE; NEWLINE] ++ B "alice: anyone there?" ++ [NEWLINE; NEWLINE] ++
        B "Server closed the connection." ++ [NEWLINE]).
Proof. by vm_compute. Qed.
