(* ===== verification/ClientHang.v ===== *)
(** * A lost wake-up in the client

    When the connection ends just before an upload begins, the client waits
    for ever: [upload_client_upload] clears the flag by which the receiver
    thread, which has ended, had told it so. *)

From S2P Require Import Prelude CLib Posix Wp Protocol NetworkIO.
From S2P Require Import DownloadClient Threads UploadClient ClientMain ClientSpeech.

(** [p] does nothing but wait, as long as the state is [st] and no call fails:
    it goes to sleep, wakes up without reason, looks, and goes back to sleep,
    until its fuel for that is used up. *)
Fixpoint only_waits {A} (n : nat) (st : client) (p : prog client A) : bool :=
  match n with
  | O => false
  | S n =>
      match p with
      | Diverge => true
      | Ret _ => false
      | Call e g =>
          match e in sys _ return (ans e -> prog client A) -> bool with
          | Get_static => fun g => only_waits n st (g st)
          | Cond_sleep _ => fun g => only_waits n st (g 0)
          | Cond_wake _ => fun g => only_waits n st (g tt)
          | _ => fun _ => false
          end g
      end
  end.

(** The receiver thread has ended, no call will fail any more, and the main
    thread only waits. *)
Record hung (s : system client Z unit) : Prop := {
  hu_child : exists c, s_child s = Some c /\ finished c = true;
  hu_faultless : e_script (w_env (s_world s)) = [];
  hu_waits : exists n, only_waits n (k_static (w_kern (s_world s))) (t_prog (s_main s)) = true
}.

Lemma hung_unfinished s : hung s -> finished (s_main s) = false.
Proof. intros [_ _ [n Hn]]. unfold finished. destruct (t_prog (s_main s)); [by destruct n|done..]. Qed.

Lemma hung_step child s s' : hung s -> step child s s' -> hung s'.
Proof.
  intros [(c & Hc & Hfin) Hscript [n Hn]] [ev Hev]. destruct ev; cbn [step_event] in Hev.
  - unfold advance in Hev. destruct s as [t [c'|] [en k]]; [|done]. cbn [s_main s_child s_world w_env w_kern] in *. injection Hc as ->.
    destruct (t_prog t) as [a|e g|]; [by destruct n| |done]. destruct n as [|n]; [done|].
    destruct (enabled _ _ _ _); [|done]. cbn [only_waits] in Hn.
    destruct e; try done; unfold sem, pthread_call, pop in Hev; cbn [w_env w_kern with_errno e_script] in Hev; rewrite ?Hscript in Hev;
      injection Hev as <-; (split; [by exists c|done|by exists n]).
  - rewrite Hc in Hev. unfold advance in Hev. unfold finished in Hfin. by destruct (t_prog c).
  - injection Hev as <-. split; cbn; [by exists c|done|by exists n].
  - injection Hev as <-. split; cbn; [|done|by exists n]. rewrite Hc. by exists (wake c).
Qed.

(** Nothing ends the waiting, whatever the two threads do next. *)
Lemma hung_forever child s s' : hung s -> reachable child s s' -> hung s'.
Proof. intros Hs Hr. induction Hr as [s|s1 s2 s3 Hstep _ IH]; [done|]. by apply IH, (hung_step child s1). Qed.

(** The loop waits with any fuel, whatever comes after it. *)
Lemma wait_loop_waits {A} n st (g : Z -> prog client A) :
  response_available st = false -> connection_closed st = false -> only_waits (3 * n + 1) st (wait_loop n ≫= g) = true.
Proof.
  intros Ha Hc. induction n as [|n IH]; [done|]. replace (3 * S n + 1)%nat with (S (S (S (3 * n + 1)))) by lia.
  change (only_waits (S (S (3 * n + 1))) st
    ((if negb (response_available st) && negb (connection_closed st) then
        r ← pthread_cond_wait Upload_mutex;
        if r != 0 then mret (-1) else wait_loop n
      else mret 0) ≫= g) = true). by rewrite Ha, Hc.
Qed.

(** ** The schedule *)

(** The user logs in and types an upload; the server closes the connection. *)
Definition before_upload : kern client :=
  mk_kern (set_socket 3 client_start) ∅ {[ [B "notes.txt"] := NReg 1%positive ]} {[ 1%positive := mk_inode (B "hello") MODE_0644 ]}
    {[ 0 := FdOther; 1 := FdOther; 2 := FdOther; 3 := FdSocket ]} []
    {[ 3 := frame MSG_RESPONSE (B "USERNAME_REQUIRED") ++ frame MSG_RESPONSE (B "LOGIN_SUCCESS") ]}
    ∅ ∅ (B "alice" ++ [NEWLINE] ++ B "/upload notes.txt" ++ [NEWLINE]) [] [] 1 1 [].

Definition at_start : system client Z unit := Sys (new_thread (client_session 10)) None (W calm before_upload).

(** [n] steps of one thread, or fewer if it can go no further. *)
Fixpoint steps_of (ev : event) (n : nat) (s : system client Z unit) : system client Z unit :=
  match n with
  | O => s
  | S n => match step_event (receiver_thread 10) ev s with Some s' => steps_of ev n s' | None => s end
  end.

Lemma steps_of_reachable ev n s : reachable (receiver_thread 10) s (steps_of ev n s).
Proof.
  revert s. induction n as [|n IH]; intros s; cbn [steps_of]; [apply rtc_refl|].
  destruct (step_event _ ev s) as [s'|] eqn:E; [|apply rtc_refl]. eapply rtc_l; [by exists ev|apply IH].
Qed.

(** The main thread has read the line, and seen that the client is running;
    the receiver thread finds the connection closed, says so, and ends; the
    main thread goes on with the upload. *)
Definition at_rest : system client Z unit := steps_of Main_call 100 (steps_of Child_call 100 (steps_of Main_call 22 at_start)).

Lemma at_rest_hung : hung at_rest.
Proof.
  split; [|by vm_compute|exists 100%nat; by vm_compute].
  assert (Hf : (if s_child at_rest is Some c then finished c else false) = true) by by vm_compute.
  destruct (s_child at_rest) as [c|]; [by exists c|done].
Qed.

(** C28. The client can hang: there is an execution, without any failed call, in
    which the receiver thread has seen the end of the connection, told the
    other thread through [connection_closed], and ended, and after which the
    main thread never ends, whatever happens (even if it is woken up without
    reason), because [upload_client_upload] has reset the flag and waits for a
    response that nobody will hand over. *)
Theorem client_can_hang :
  exists s1, reachable (receiver_thread 10) at_start s1 /\
    k_stdout (w_kern (s_world s1)) = k_stdout (w_kern (s_world (steps_of Main_call 22 at_start))) ++
      [NEWLINE] ++ B "Server closed the connection." ++ [NEWLINE] /\
    forall s2, reachable (receiver_thread 10) s1 s2 -> hung s2 /\ finished (s_main s2) = false.
Proof.
  exists at_rest. split; [|split].
  - unfold at_rest, reachable. do 2 (etransitivity; [|apply steps_of_reachable]). apply steps_of_reachable.
  - by vm_compute.
  - intros s2 Hr. assert (Hs : hung s2) by (eapply hung_forever; [apply at_rest_hung|exact Hr]). split; [done|by apply hung_unfinished].
Qed.
