(* ===== verification/Discipline.v ===== *)
(** * Disciplines

    An account is kept of a thread while it runs.  Before each call the
    account says whether the thread may make it ([allowed]); the answer tells
    something about the process ([expects]), whose state others change as
    well; and the account goes on ([moves]).  A program that [follows] the
    discipline makes allowed calls only. *)

From S2P Require Import Prelude CLib Posix Wp.

Section discipline.
Context {S X Σ : Type}.
Variables (allowed : Σ -> sys S -> Prop) (expects : Σ -> X -> forall e : sys S, ans e -> Prop).
Variable moves : Σ -> X -> forall e : sys S, ans e -> Σ -> Prop.

(** The program makes allowed calls only, and ends in [Q]. *)
Fixpoint follows {A} (σ : Σ) (p : prog S A) (Q : A -> Σ -> Prop) : Prop :=
  match p with
  | Ret a => Q a σ
  | Call e g => allowed σ e /\ forall s r, expects σ s e r -> exists σ', moves σ s e r σ' /\ follows σ' (g r) Q
  | Diverge => True
  end.

Lemma follows_mono {A} (p : prog S A) σ (Q Q' : A -> Σ -> Prop) :
  (forall a σ, Q a σ -> Q' a σ) -> follows σ p Q -> follows σ p Q'.
Proof.
  intros HQ. revert σ. induction p as [a|e g IH|]; intros σ; [apply HQ| |done].
  intros [Ha Hg]. split; [done|]. intros s r Hr. destruct (Hg s r Hr) as (σ' & Hm & Hg'). exists σ'. eauto.
Qed.

Lemma follows_bind {A B} (p : prog S A) (f : A -> prog S B) σ Q :
  follows σ p (fun a σ => follows σ (f a) Q) -> follows σ (p ≫= f) Q.
Proof.
  unfold mbind, prog_mbind. revert σ. induction p as [a|e g IH|]; intros σ; [done| |done].
  intros [Ha Hg]. split; [done|]. intros s r Hr. destruct (Hg s r Hr) as (σ' & Hm & Hg'). exists σ'. split; [done|by apply IH].
Qed.

Lemma follows_ret {A} (a : A) σ (Q : A -> Σ -> Prop) : Q a σ -> follows σ (mret a) Q.
Proof. done. Qed.

(** The program ends as its last part does. *)
Lemma follows_last {A} (p : prog S A) σ Q : follows σ (p ≫= mret) Q -> follows σ p Q.
Proof.
  unfold mbind, prog_mbind. revert σ. induction p as [a|e g IH|]; intros σ; [done| |done]. intros [Ha Hg]. split; [done|].
  intros s r Hr. destruct (Hg s r Hr) as (σ' & Hm & Hg'). exists σ'. split; [done|by apply IH].
Qed.

(** Calls that are always allowed and leave the account as it is. *)
Definition free_call (σ : Σ) (e : sys S) : Prop := allowed σ e /\ forall s r, expects σ s e r -> moves σ s e r σ.

Lemma follows_calls {A B} (P : sys S -> Prop) (p : prog S B) (g : B -> prog S A) σ Q :
  (forall e, P e -> free_call σ e) -> calls P p -> (forall a, follows σ (g a) Q) -> follows σ (p ≫= g) Q.
Proof.
  intros HP Hp Hg. apply follows_bind. induction p as [a|e f IH|]; [apply Hg| |done]. destruct Hp as [He Hf].
  destruct (HP e He) as [Ha Hm]. split; [done|]. intros s r Hr. exists σ. split; [by apply Hm|by apply IH].
Qed.

Lemma follows_calls_last {A} (P : sys S -> Prop) (p : prog S A) σ (Q : A -> Σ -> Prop) :
  (forall e, P e -> free_call σ e) -> calls P p -> (forall a, Q a σ) -> follows σ p Q.
Proof. intros HP Hp HQ. apply follows_last. by apply (follows_calls P). Qed.
End discipline.
