(* ===== verification/Crowd.v ===== *)
(** * The threads of the server, together

    Any number of threads, each serving one socket, interleaved one call at a
    time over the process that they share, and a program logic for them.  The
    logic keeps account of the mutexes that a thread holds, of what it does to
    the registry while it holds the registry's mutex, and of what it has
    written to the one stream that it may write to. *)

From S2P Require Import Prelude CLib Posix Wp Protocol NetworkIO ClientManager Registry RegistrySpec Sending Threads Discipline.

(** ** The system *)

Record pool := Pool { p_threads : list (Z * thread server unit); p_world : world server }.

(** [F_OFD_SETLKW] waits for the locks of other open file descriptions. *)
Definition lock_conflict (k : kern server) (fd : Z) (l : lock_type) : bool :=
  match k_fds k !! fd, l with
  | _, F_UNLCK => false
  | Some (FdFile ino _ _), _ =>
      existsb (fun x => bool_decide (x.1.1 = ino) && (x.1.2 != fd) && negb (compatible l x.2)) (k_locks k)
  | _, _ => false
  end.

(** The call does not have to wait for another thread of the server.  It may
    have to wait for a client: a [recv] until he speaks, a [send] until he
    reads (network_io.c, [send_all]).  What holds of every interleaving holds
    whenever such a call returns; what is said of progress counts them as
    waiting ([waits_for_client], [waits_for_reader] of CrowdRegistry.v). *)
Definition ready (e : sys server) (asleep : bool) (w : world server) : bool :=
  enabled e asleep true w &&
  match e with Fcntl_setlk fd l => fault_due (w_env w) || negb (lock_conflict (w_kern w) fd l) | _ => true end.

Lemma ready_enabled e asleep w : ready e asleep w = true -> enabled e asleep true w = true.
Proof. by intros [? _]%andb_true_iff. Qed.

(** Thread [i] makes the call [e], which answers [r]. *)
Definition turn (i : nat) (e : sys server) (r : ans e) (p p' : pool) : Prop :=
  exists fd t g w', p_threads p !! i = Some (fd, t) /\ t_prog t = Call e g /\ ready e (t_asleep t) (p_world p) = true /\
    sem e (W (with_errno (t_errno t) (w_env (p_world p))) (w_kern (p_world p))) = (r, w') /\
    p' = Pool (<[i := (fd, mk_thread (g r) (e_errno (w_env w')) (sleeps e w'))]> (p_threads p)) w'.

(** No call on a mutex fails; no call of [send] does, and every [read] of a
    file delivers something (the end of the file, where the code expects more
    of it, is a failure). *)
Definition mutex_works (e : sys server) : ans e -> Prop :=
  match e with Mutex_lock _ | Mutex_unlock _ => fun r => r = 0 | _ => fun _ => True end.
Definition transfer_works (e : sys server) : ans e -> Prop :=
  match e with
  | Send _ s => fun r => 0 < r \/ r = 0 /\ s = []
  | Read _ _ => fun r => exists x data, r = Some (x :: data)
  | _ => fun _ => True
  end.

(** One call of one of the threads; with [calm] no mutex fails, with [clear]
    no [send] and no [read] does. *)
Definition pool_step (calm clear : bool) (p p' : pool) : Prop :=
  exists i e r, (calm = true -> mutex_works e r) /\ (clear = true -> transfer_works e r) /\ turn i e r p p'.

Definition pool_reachable (calm clear : bool) : pool -> pool -> Prop := rtc (pool_step calm clear).

Definition works (calm clear : bool) (e : sys server) : ans e -> bool :=
  match e with
  | Mutex_lock _ | Mutex_unlock _ => fun r => negb calm || (r == 0)
  | Send _ s => fun r => negb clear || ((0 <? r) || ((r == 0) && bool_decide (s = [])))
  | Read _ _ => fun r => negb clear || match r with Some (_ :: _) => true | _ => false end
  | _ => fun _ => true
  end.

(** The next call of thread [i], executed. *)
Definition take_turn (calm clear : bool) (i : nat) (p : pool) : option pool :=
  match p_threads p !! i with
  | Some (fd, t) =>
      match t_prog t with
      | Call e g =>
          if ready e (t_asleep t) (p_world p) then
            let '(r, w') := sem e (W (with_errno (t_errno t) (w_env (p_world p))) (w_kern (p_world p))) in
            if works calm clear e r then
              Some (Pool (<[i := (fd, mk_thread (g r) (e_errno (w_env w')) (sleeps e w'))]> (p_threads p)) w')
            else None
          else None
      | _ => None
      end
  | None => None
  end.

Lemma works_spec calm clear e r :
  works calm clear e r = true -> (calm = true -> mutex_works e r) /\ (clear = true -> transfer_works e r).
Proof.
  destruct e; try done; cbn [works mutex_works transfer_works]; intros Hw; (split; [|done]) || (split; [done|]); intros ->; cbn [negb orb] in Hw.
  - by apply Z.eqb_eq.
  - by apply Z.eqb_eq.
  - apply orb_true_iff in Hw as [?|[? ?]%andb_true_iff]; [left; by apply Z.ltb_lt|right]. split; [by apply Z.eqb_eq|by eapply bool_decide_eq_true_1].
  - destruct r as [[|x data]|]; try done. by exists x, data.
Qed.

Lemma take_turn_step calm clear i p p' : take_turn calm clear i p = Some p' -> pool_step calm clear p p'.
Proof.
  unfold take_turn. destruct (p_threads p !! i) as [[fd t]|] eqn:Ei; [|done]. destruct (t_prog t) as [a|e g|] eqn:Ep; try done.
  destruct (ready _ _ _) eqn:Er; [|done]. destruct (sem _ _) as [r w'] eqn:Es. destruct (works calm clear e r) eqn:Ew; [|done]. intros [= <-].
  destruct (works_spec _ _ _ _ Ew). exists i, e, r. split_and!; [done|done|]. exists fd, t, g, w'. by split_and!.
Qed.

(** At most [n] calls of thread [i]: fewer when it has to wait. *)
Fixpoint take_turns (calm clear : bool) (i n : nat) (p : pool) : pool :=
  match n with
  | O => p
  | S n => match take_turn calm clear i p with Some p' => take_turns calm clear i n p' | None => p end
  end.

(** A schedule: so many calls of this thread, then so many of that one. *)
Definition schedule (calm clear : bool) (l : list (nat * nat)) (p : pool) : pool :=
  fold_left (fun p x => take_turns calm clear x.1 x.2 p) l p.

Lemma take_turns_reachable calm clear i n p : pool_reachable calm clear p (take_turns calm clear i n p).
Proof.
  revert p. induction n as [|n IH]; intros p; [apply rtc_refl|]. cbn [take_turns]. destruct (take_turn calm clear i p) as [p'|] eqn:E; [|apply rtc_refl].
  eapply rtc_l; [by eapply take_turn_step|apply IH].
Qed.

Lemma schedule_reachable calm clear l p : pool_reachable calm clear p (schedule calm clear l p).
Proof. revert p. induction l as [|x l IH]; intros p; [apply rtc_refl|]. etransitivity; [apply take_turns_reachable|apply IH]. Qed.

Lemma reachable_weaken calm clear p p' : pool_reachable true true p p' -> pool_reachable calm clear p p'.
Proof. apply rtc_subrel. intros q q' (i & e & r & Hm & Hs & Ht). exists i, e, r. split_and!; auto. Qed.

(** The thread has returned. *)
Definition ended (t : thread server unit) : Prop := exists a, t_prog t = Ret a.
(** The thread has used up its fuel: the model does not say what it does next. *)
Definition spent (t : thread server unit) : Prop := t_prog t = Diverge.

(** ** Slots *)

Lemma entry_active s a : 0 <= a -> active (entry s a) = true -> exists e, clients s !! Z.to_nat a = Some e /\ entry s a = e.
Proof.
  intros _ H. unfold entry in *. destruct (clients s !! Z.to_nat a) as [e|] eqn:E.
  - exists e. split; [done|by apply list_lookup_total_correct].
  - rewrite list_lookup_total_alt, E in H. done.
Qed.

Lemma entry_registered s a : 0 <= a -> active (entry s a) = true -> registered s (socket_fd (entry s a)).
Proof. intros H0 H. destruct (entry_active s a H0 H) as (e & He & ->). exists (Z.to_nat a), e. split_and!; [done| |done]. rewrite <- H. f_equal. symmetry. by apply list_lookup_total_correct. Qed.

Lemma entry_socket_inj s a b :
  registry_ok s -> 0 <= a -> 0 <= b -> active (entry s a) = true -> active (entry s b) = true ->
  socket_fd (entry s a) = socket_fd (entry s b) -> a = b.
Proof.
  intros Hok Ha Hb Hea Heb E. destruct (entry_active _ _ Ha Hea) as (e & He & Hea'), (entry_active _ _ Hb Heb) as (e' & He' & Heb').
  rewrite Hea', Heb' in *. pose proof (reg_sockets s Hok _ _ _ _ He He' Hea Heb E). lia.
Qed.

Lemma entry_set_ne s a i e : Z.to_nat a ≠ Z.to_nat i -> entry (set_entry i e s) a = entry s a.
Proof. intros Hne. unfold entry, set_entry, with_clients. cbn [clients]. by rewrite list_lookup_total_insert_ne. Qed.

(** ** The calls of no consequence *)

(** These touch neither the registry, nor a mutex, nor what is written to a
    client, nor do they supply what is to be written. *)
Definition still (e : sys server) : Prop :=
  match e with
  | Put_static _ | Mutex_lock _ | Mutex_unlock _ | Modify _ | Cond_sleep _ | Cond_wake _ | Accept _ _ | Recvfrom _ _ _
  | Send _ _ | Read _ _ | Pthread_create _ | Pthread_join _ => False
  | _ => True
  end.

(** ** What is written to a client *)

(** What a thread writes to a stream while it is the one to write to it: a
    frame, or the announcement of a file with all of its bytes. *)
Inductive segment : bytes -> Prop :=
  | segment_frame type payload : sendable type payload -> segment (frame type payload)
  | segment_file name size data :
      zlen data = size -> segment (frame MSG_RESPONSE (B "DOWNLOAD_READY " ++ name ++ B "|" ++ dec size) ++ data).

Definition framed (out : bytes) : Prop := exists l, Forall segment l /\ out = concat l.

Lemma framed_nil : framed [].
Proof. by exists []. Qed.

Lemma framed_app a b : framed a -> framed b -> framed (a ++ b).
Proof. intros (l & Hl & ->) (l' & Hl' & ->). exists (l ++ l'). split; [by apply Forall_app|]. by rewrite concat_app. Qed.

Lemma framed_segment a : segment a -> framed a.
Proof. intros Ha. exists [a]. split; [by constructor|]. cbn [concat]. by rewrite app_nil_r. Qed.

(** ** What a thread has done *)

(** The client of the thread is not registered yet, registered, removed. *)
Inductive status := Fresh | Member | Gone.

#[export] Instance status_eq_dec : EqDecision status.
Proof. solve_decision. Defined.

(** [h_table]: the thread holds the registry's mutex, since the registry was
    the first of the pair, which is now the second; [h_slots]: it holds the
    send mutexes of these slots, for these sockets; [h_out]: what it has
    written to the stream it may write to; [h_flawed]: one of its calls on a
    mutex has failed; [h_cut]: one of its calls of [send] has failed, or a
    [read] has not delivered anything. *)
Record hold := Hold {
  h_state : status; h_table : option (server * server); h_slots : gmap Z Z; h_out : bytes; h_flawed : bool; h_cut : bool }.

Definition free_hold : hold := Hold Fresh None ∅ [] false false.

Definition with_table (t : option (server * server)) (σ : hold) : hold := Hold (h_state σ) t (h_slots σ) (h_out σ) (h_flawed σ) (h_cut σ).
Definition with_slots (m : gmap Z Z) (out : bytes) (σ : hold) : hold := Hold (h_state σ) (h_table σ) m out (h_flawed σ) (h_cut σ).
Definition with_cut (out : bytes) (c : bool) (σ : hold) : hold := Hold (h_state σ) (h_table σ) (h_slots σ) out (h_flawed σ) c.
Definition flaw (σ : hold) : hold := Hold (h_state σ) (h_table σ) (h_slots σ) (h_out σ) true (h_cut σ).

Definition holds (σ : hold) (m : mutex) : Prop :=
  match m with
  | Clients_mutex => is_Some (h_table σ)
  | Send_mutex i => is_Some (h_slots σ !! i)
  | _ => False
  end.

(** It holds no mutex. *)
Definition bare (σ : hold) : Prop := h_table σ = None /\ h_slots σ = ∅.

Section logic.
(** The socket of the thread. *)
Variable fd : Z.

(** The thread may write to the stream [f]. *)
Definition writes (σ : hold) (f : Z) : Prop := (exists i, h_slots σ !! i = Some f) \/ f = fd /\ h_state σ = Fresh.

(** What a critical section of the thread may do to the registry. *)
Inductive change : status -> server -> server -> status -> Prop :=
  | change_none st s : change st s s st
  | change_add i e0 thread name s :
      clients s !! i = Some e0 -> active e0 = false -> username_ok name -> users s !! name = None ->
      change Fresh s (add_state (Z.of_nat i) fd thread name s) Member
  | change_remove st i e0 s :
      clients s !! i = Some e0 -> active e0 = true -> socket_fd e0 = fd ->
      change st s (remove_state (Z.of_nat i) s) Gone.

(** Slots in use change under their own mutex only. *)
Definition under_slots (σ : hold) (b c : server) : Prop :=
  forall a, 0 <= a -> active (entry b a) = true -> entry c a = entry b a \/ is_Some (h_slots σ !! a).

(** What the thread may rely on when it gets the registry. *)
Definition visible (st : status) (s : server) : Prop :=
  registry_ok s /\ (st = Fresh -> 0 <= fd /\ ~ registered s fd /\ next_client_id s < 2 ^ 31 - 1) /\ (st = Member -> registered s fd).

(** The calls that have nothing to do with all this. *)
Definition neutral (e : sys server) : Prop :=
  match e with
  | Put_static _ | Mutex_lock _ | Mutex_unlock _ | Modify _ | Cond_sleep _ | Cond_wake _ | Accept _ _ | Recvfrom _ _ _
  | Send _ _ | Recv _ _ | Read _ _ | Fcntl_setlk _ _ | Pthread_create _ | Pthread_join _ => False
  | _ => True
  end.

(** The calls a thread may make.  The mutex of the registry comes before any
    other, and is followed by that of one slot at most; no input and no file
    is waited for under a mutex, and nothing is sent under the registry's. *)
Definition allowed (σ : hold) (e : sys server) : Prop :=
  match e with
  | Put_static _ | Mutex_unlock Clients_mutex => is_Some (h_table σ)
  | Mutex_lock Clients_mutex => h_flawed σ = true \/ bare σ
  | Mutex_lock (Send_mutex _) => is_Some (h_table σ) /\ (h_flawed σ = true \/ h_slots σ = ∅)
  | Mutex_unlock (Send_mutex i) => is_Some (h_slots σ !! i)
  | Send f _ => h_flawed σ = true \/ h_table σ = None /\ writes σ f
  | Recv _ _ | Fcntl_setlk _ _ => h_flawed σ = true \/ bare σ
  | Mutex_lock _ | Mutex_unlock _ | Modify _ | Cond_sleep _ | Cond_wake _ | Accept _ _ | Recvfrom _ _ _
  | Pthread_create _ | Pthread_join _ => False
  | _ => True
  end.

(** What the answer tells, when [s] is the registry at the time. *)
Definition expects (σ : hold) (s : server) (e : sys server) : ans e -> Prop :=
  match e with
  | Get_static => fun r => r = s /\ forall b c, h_table σ = Some (b, c) -> s = c
  | Mutex_lock Clients_mutex => fun r => r = 0 -> h_table σ = None /\ visible (h_state σ) s
  | Mutex_lock (Send_mutex i) => fun r => (forall b c, h_table σ = Some (b, c) -> s = c) /\ (r = 0 -> h_slots σ !! i = None)
  | Read _ n => fun r => forall data, r = Some data -> (length data <= Z.to_nat n)%nat
  | Send _ data => fun r => r = -1 \/ exists n, (n <= length data)%nat /\ r = Z.of_nat n
  | _ => fun _ => True
  end.

(** How the account goes on. *)
Definition moves (σ : hold) (s : server) (e : sys server) : ans e -> hold -> Prop :=
  match e with
  | Put_static s' => fun _ σ' => exists b c, h_table σ = Some (b, c) /\ σ' = with_table (Some (b, s')) σ
  | Mutex_lock Clients_mutex => fun r σ' => σ' = if r == 0 then with_table (Some (s, s)) σ else flaw σ
  | Mutex_lock (Send_mutex i) => fun r σ' =>
      if r == 0 then
        (h_flawed σ = true \/ h_table σ = Some (s, s) /\ h_slots σ = ∅ /\ h_state σ ≠ Fresh /\ h_out σ = [] /\
           0 <= i /\ active (entry s i) = true) /\
        σ' = with_slots (<[i := socket_fd (entry s i)]> (h_slots σ)) (h_out σ) σ
      else σ' = flaw σ
  | Mutex_unlock Clients_mutex => fun r σ' =>
      if r == 0 then exists b c st' out',
        h_table σ = Some (b, c) /\ change (h_state σ) b c st' /\ under_slots σ b c /\
        (out' = h_out σ /\ (h_state σ = Fresh -> st' = Fresh) \/
         out' = [] /\ (h_flawed σ = true \/ h_cut σ = true \/ framed (h_out σ))) /\
        σ' = Hold st' None (h_slots σ) out' (h_flawed σ) (h_cut σ)
      else σ' = flaw σ
  | Mutex_unlock (Send_mutex i) => fun r σ' =>
      if r == 0 then
        (h_flawed σ = true \/ h_cut σ = true \/ framed (h_out σ)) /\ σ' = with_slots (delete i (h_slots σ)) [] σ
      else σ' = flaw σ
  | Send _ data => fun r σ' =>
      σ' = if 0 <=? r then with_cut (h_out σ ++ take (Z.to_nat r) data) (h_cut σ || ((r == 0) && negb (bool_decide (data = [])))) σ
           else with_cut (h_out σ) true σ
  | Read _ _ => fun r σ' => σ' = match r with Some (_ :: _) => σ | _ => with_cut (h_out σ) true σ end
  | _ => fun _ σ' => σ' = σ
  end.

(** The program makes allowed calls only, and ends in [Q]. *)
Definition guarded {A} : hold -> prog server A -> (A -> hold -> Prop) -> Prop := follows allowed expects moves.

Lemma guarded_mono {A} (p : prog server A) σ (Q Q' : A -> hold -> Prop) :
  (forall a σ, Q a σ -> Q' a σ) -> guarded σ p Q -> guarded σ p Q'.
Proof. apply follows_mono. Qed.

Lemma guarded_bind {A B} (p : prog server A) (f : A -> prog server B) σ Q :
  guarded σ p (fun a σ => guarded σ (f a) Q) -> guarded σ (p ≫= f) Q.
Proof. apply follows_bind. Qed.

(** ** The rules *)

Section rules.
Context {A : Type}.
Implicit Types (σ : hold) (Q : A -> hold -> Prop).

Lemma guarded_ret a σ Q : Q a σ -> guarded σ (mret a) Q.
Proof. done. Qed.

Lemma neutral_free σ e : neutral e -> free_call allowed expects moves σ e.
Proof. by destruct e. Qed.

Lemma still_free σ e : h_flawed σ = true \/ bare σ -> still e -> free_call allowed expects moves σ e.
Proof. by destruct e. Qed.

Lemma guarded_neutral {B} (p : prog server B) (g : B -> prog server A) σ Q :
  calls neutral p -> (forall a, guarded σ (g a) Q) -> guarded σ (p ≫= g) Q.
Proof. apply follows_calls, neutral_free. Qed.

Lemma guarded_neutral_last (p : prog server A) σ Q : calls neutral p -> (forall a, Q a σ) -> guarded σ p Q.
Proof. apply follows_calls_last, neutral_free. Qed.

(** A part of the program that holds nothing, and only waits for input and for files. *)
Lemma guarded_still {B} (p : prog server B) (g : B -> prog server A) σ Q :
  h_flawed σ = true \/ bare σ -> calls still p -> (forall a, guarded σ (g a) Q) -> guarded σ (p ≫= g) Q.
Proof. intros Hb. apply follows_calls. intros e. by apply still_free. Qed.

Lemma guarded_still_last (p : prog server A) σ Q :
  h_flawed σ = true \/ bare σ -> calls still p -> (forall a, Q a σ) -> guarded σ p Q.
Proof. intros Hb. apply follows_calls_last. intros e. by apply still_free. Qed.

Lemma guarded_get b c (g : server -> prog server A) σ Q :
  h_table σ = Some (b, c) -> guarded σ (g c) Q -> guarded σ (call Get_static ≫= g) Q.
Proof. intros Hb Hg. split; [done|]. intros s r [-> Hs]. exists σ. split; [done|]. by rewrite (Hs _ _ Hb). Qed.

Lemma guarded_put s b c (g : unit -> prog server A) σ Q :
  h_table σ = Some (b, c) -> guarded (with_table (Some (b, s)) σ) (g tt) Q -> guarded σ (call (Put_static s) ≫= g) Q.
Proof.
  intros Hb Hg. split; [cbn [allowed]; rewrite Hb; by eexists|]. intros s0 [] _.
  exists (with_table (Some (b, s)) σ). split; [by exists b, c|done].
Qed.

Lemma guarded_lock_table (g : Z -> prog server A) σ Q :
  h_flawed σ = true \/ bare σ ->
  (forall z, z ≠ 0 -> guarded (flaw σ) (g z) Q) ->
  (forall b, h_table σ = None -> visible (h_state σ) b -> guarded (with_table (Some (b, b)) σ) (g 0) Q) ->
  guarded σ (call (Mutex_lock Clients_mutex) ≫= g) Q.
Proof.
  intros Ha Hko Hok. split; [done|]. intros s r Hr. cbn [expects] in Hr. eexists. split; [reflexivity|].
  destruct (Z.eqb_spec r 0) as [->|Hz]; [|by apply Hko]. destruct (Hr eq_refl). by apply Hok.
Qed.

Lemma guarded_lock_slot i b c (g : Z -> prog server A) σ Q :
  h_table σ = Some (b, c) -> h_flawed σ = true \/ h_slots σ = ∅ ->
  h_flawed σ = true \/ b = c /\ h_slots σ = ∅ /\ h_state σ ≠ Fresh /\ h_out σ = [] /\ 0 <= i /\ active (entry c i) = true ->
  (forall z, z ≠ 0 -> guarded (flaw σ) (g z) Q) ->
  (h_slots σ !! i = None -> guarded (with_slots (<[i := socket_fd (entry c i)]> (h_slots σ)) (h_out σ) σ) (g 0) Q) ->
  guarded σ (call (Mutex_lock (Send_mutex i)) ≫= g) Q.
Proof.
  intros Hb Ha Hc Hko Hok. split; [split; [rewrite Hb; by eexists|done]|]. intros s r [Hs Hr]. rewrite (Hs _ _ Hb).
  destruct (Z.eqb_spec r 0) as [->|Hz].
  - eexists. split; [split; [|reflexivity]|by apply Hok, Hr]. destruct Hc as [?|(-> & ?)]; auto.
  - exists (flaw σ). split; [|by apply Hko]. cbn [moves]. by rewrite (proj2 (Z.eqb_neq r 0) Hz).
Qed.

Lemma guarded_unlock_table st' out' b c (g : Z -> prog server A) σ Q :
  h_table σ = Some (b, c) -> change (h_state σ) b c st' -> under_slots σ b c ->
  (out' = h_out σ /\ (h_state σ = Fresh -> st' = Fresh) \/
   out' = [] /\ (h_flawed σ = true \/ h_cut σ = true \/ framed (h_out σ))) ->
  (forall z, z ≠ 0 -> guarded (flaw σ) (g z) Q) ->
  guarded (Hold st' None (h_slots σ) out' (h_flawed σ) (h_cut σ)) (g 0) Q ->
  guarded σ (call (Mutex_unlock Clients_mutex) ≫= g) Q.
Proof.
  intros Hb Hc Hu Ho Hko Hok. split; [cbn [allowed]; rewrite Hb; by eexists|]. intros s r _.
  destruct (Z.eqb_spec r 0) as [->|Hz].
  - eexists. split; [by exists b, c, st', out'|done].
  - exists (flaw σ). split; [|by apply Hko]. cbn [moves]. by rewrite (proj2 (Z.eqb_neq r 0) Hz).
Qed.

(** The common case: the registry has not been changed. *)
Lemma guarded_unlock_same b (g : Z -> prog server A) σ Q :
  h_table σ = Some (b, b) -> (forall z, z ≠ 0 -> guarded (flaw σ) (g z) Q) -> guarded (with_table None σ) (g 0) Q ->
  guarded σ (call (Mutex_unlock Clients_mutex) ≫= g) Q.
Proof.
  intros Hb Hko Hok. apply (guarded_unlock_table (h_state σ) (h_out σ) b b); try done; [apply change_none|by left|by left].
Qed.

Lemma guarded_unlock_slot i (g : Z -> prog server A) σ Q :
  is_Some (h_slots σ !! i) -> h_flawed σ = true \/ h_cut σ = true \/ framed (h_out σ) ->
  (forall z, z ≠ 0 -> guarded (flaw σ) (g z) Q) ->
  guarded (with_slots (delete i (h_slots σ)) [] σ) (g 0) Q ->
  guarded σ (call (Mutex_unlock (Send_mutex i)) ≫= g) Q.
Proof.
  intros Hi Ho Hko Hok. split; [done|]. intros s r _. destruct (Z.eqb_spec r 0) as [->|Hz].
  - eexists. split; [by split|done].
  - exists (flaw σ). split; [|by apply Hko]. cbn [moves]. by rewrite (proj2 (Z.eqb_neq r 0) Hz).
Qed.

Lemma guarded_call_send f data (g : Z -> prog server A) σ Q :
  h_flawed σ = true \/ h_table σ = None /\ writes σ f ->
  guarded (with_cut (h_out σ) true σ) (g (-1)) Q ->
  (forall n, (n <= length data)%nat ->
     guarded (with_cut (h_out σ ++ take n data) (h_cut σ || ((Z.of_nat n == 0) && negb (bool_decide (data = [])))) σ) (g (Z.of_nat n)) Q) ->
  guarded σ (call (Send f data) ≫= g) Q.
Proof.
  intros Ha Hko Hok. split; [done|]. intros s r [->|(n & Hn & ->)]; (eexists; split; [reflexivity|]); [exact Hko|].
  rewrite (proj2 (Z.leb_le _ _)) by lia. rewrite Nat2Z.id. by apply Hok.
Qed.

Lemma guarded_recv f n (g : option bytes -> prog server A) σ Q :
  h_flawed σ = true \/ bare σ -> (forall r, guarded σ (g r) Q) -> guarded σ (call (Recv f n) ≫= g) Q.
Proof. intros Ha Hg. split; [done|]. intros s r _. exists σ. split; [done|apply Hg]. Qed.

Lemma guarded_read f n (g : option bytes -> prog server A) σ Q :
  guarded (with_cut (h_out σ) true σ) (g None) Q -> guarded (with_cut (h_out σ) true σ) (g (Some [])) Q ->
  (forall data, data ≠ [] -> (length data <= Z.to_nat n)%nat -> guarded σ (g (Some data)) Q) ->
  guarded σ (call (Read f n) ≫= g) Q.
Proof.
  intros Hko Hend Hok. split; [done|].
  intros s [[|x data]|] Hr; (eexists; split; [reflexivity|]); [exact Hend|by apply Hok, Hr|exact Hko].
Qed.

Lemma guarded_setlk f l (g : Z -> prog server A) σ Q :
  h_flawed σ = true \/ bare σ -> (forall r, guarded σ (g r) Q) -> guarded σ (call (Fcntl_setlk f l) ≫= g) Q.
Proof. intros Ha Hg. split; [done|]. intros s r _. exists σ. split; [done|apply Hg]. Qed.
End rules.
End logic.
