(* ===== verification/CrowdRegistry.v ===== *)
(** * The registry among many threads

    The first invariant of the interleaved threads: at most one thread holds
    a mutex, the registry is sound whenever its mutex is free, and it is the
    outcome of critical sections that happened one after the other. *)

From S2P Require Import Prelude CLib Posix Wp Protocol NetworkIO ClientManager Registry RegistrySpec Sending Threads Crowd.

(** ** What the calls leave alone *)

Lemma still_preserves e : still e -> forall w, (fun k : kern server => (k_static k, k_held k, k_out k)) (w_kern (snd (sem e w))) = (k_static (w_kern w), k_held (w_kern w), k_out (w_kern w)).
Proof.
  intros He w. destruct e; try done; try (apply (fallible_obs (fun k => (k_static k, k_held k, k_out k))); solve_obs); unfold sem, pthread_call.
  all: try (destruct (pop (w_env w)) as [[|n|z] en]; done).
  - destruct (pop (w_env w)) as [[|n|z] en]; [| |done]; by destruct (e_clock en).
  - by destruct (fgets size _) as [[]|].
Qed.

(** A pthread call fails, or takes effect. *)
Lemma pthread_cases (w : world server) f z w' :
  pthread_call w f = (z, w') ->
  z ≠ 0 /\ w_kern w' = w_kern w \/ z = 0 /\ w_kern w' = f (w_kern w) /\ fault_due (w_env w) = false.
Proof.
  unfold pthread_call, pop, fault_due. destruct w as [[[|o sc] errno dg ck cn] k]; cbn [e_script w_env w_kern].
  - intros [= <- <-]. by right.
  - destruct o; intros [= <- <-]; auto.
Qed.

(** [send] writes a prefix of the data, or nothing. *)
Lemma send_cases (w : world server) f data r w' :
  sem (Send f data) w = (r, w') ->
  k_static (w_kern w') = k_static (w_kern w) /\ k_held (w_kern w') = k_held (w_kern w) /\
  (r = -1 /\ k_out (w_kern w') = k_out (w_kern w) \/
   exists n, (n <= length data)%nat /\ r = Z.of_nat n /\ k_out (w_kern w') = app_stream f (take n data) (k_out (w_kern w))).
Proof.
  assert (Hf : forall lim (k : kern server), match send_fd k f data lim with
    | inl _ => True
    | inr (x, k') => exists n, (n <= length data)%nat /\ x = Z.of_nat n /\ k' = with_out (app_stream f (take n data) (k_out k)) k end).
  { intros lim k. unfold send_fd. destruct (k_fds k !! f) as [[]|]; try done.
    exists (Nat.min (limit lim (length data)) (length data)). split_and!; [lia| |].
    - unfold zlen. by rewrite length_take.
    - by rewrite <- (take_take data), firstn_all. }
  unfold sem, fallible. destruct (pop (w_env w)) as [o en].
  destruct o as [|n|z]; [specialize (Hf None (w_kern w))|specialize (Hf (Some n) (w_kern w))|intros [= <- <-]; auto].
  all: destruct (send_fd _ _ _ _) as [err|[x k']]; intros [= <- <-]; [by auto|destruct Hf as (m & ? & -> & ->)].
  all: split_and!; [done|done|right; exists m; by split_and!].
Qed.

(** What else supplies the stream: [read] changes nothing of all this. *)
Lemma read_preserves f n w : (fun k : kern server => (k_static k, k_held k, k_out k)) (w_kern (snd (sem (Read f n) w))) = (k_static (w_kern w), k_held (w_kern w), k_out (w_kern w)).
Proof. apply (fallible_obs (fun k => (k_static k, k_held k, k_out k))). solve_obs. Qed.

(** [read] delivers no more than it was asked for. *)
Lemma read_bound (w : world server) f n data w' : sem (Read f n) w = (Some data, w') -> (length data <= Z.to_nat n)%nat.
Proof.
  assert (Hf : forall lim (k : kern server), match read_fd k f (Z.to_nat n) lim with
    | inr (Some d, _) => (length d <= Z.to_nat n)%nat | _ => True end).
  { intros lim k. unfold read_fd. destruct (k_fds k !! f) as [[]|]; try done. destruct (k_inodes k !! _); [|done].
    rewrite length_take. unfold limit. destruct lim; lia. }
  unfold sem, fallible. destruct (pop (w_env w)) as [o en].
  destruct o as [|m|z]; [specialize (Hf None (w_kern w))|specialize (Hf (Some m) (w_kern w))|done].
  all: destruct (read_fd _ _ _ _) as [err|[x k']]; intros [= -> _]; done.
Qed.

(** ** The sockets of the threads, and how far they have got *)

Abbreviation accounts := (list (Z * status)).

Definition fresh_count (l : accounts) : Z := zlen (filter (fun x => x.2 = Fresh) l).

Lemma fresh_count_insert l i fd st st' :
  l !! i = Some (fd, st) ->
  fresh_count (<[i := (fd, st')]> l) = fresh_count l - (if decide (st = Fresh) then 1 else 0) + (if decide (st' = Fresh) then 1 else 0).
Proof.
  unfold fresh_count. revert i. induction l as [|[x b] l IH]; intros [|i]; try done.
  - intros [= -> ->]. change (<[0%nat := (fd, st')]> ((fd, st) :: l)) with ((fd, st') :: l).
    rewrite !filter_cons. cbn [snd]. repeat case_decide; rewrite ?zlen_cons; lia.
  - intros Hi. change (l !! i = Some (fd, st)) in Hi. specialize (IH i Hi).
    change (<[S i := (fd, st')]> ((x, b) :: l)) with ((x, b) :: <[i := (fd, st')]> l).
    rewrite !(filter_cons _ (x, b)). destruct (decide ((x, b).2 = Fresh)); rewrite ?zlen_cons, IH; lia.
Qed.

Section registry.
(** The registry at the beginning. *)
Context (s0 : server).

Record sound (l : accounts) (b : server) : Prop := {
  so_ok : registry_ok b;
  so_fresh : forall fd, (fd, Fresh) ∈ l -> 0 <= fd /\ ~ registered b fd;
  so_member : forall fd, (fd, Member) ∈ l -> registered b fd;
  so_strangers : forall fd st, (fd, st) ∈ l -> ~ registered s0 fd;
  so_users : forall fd, registered b fd <-> registered s0 fd \/ (fd, Member) ∈ l;
  so_ids : next_client_id b + fresh_count l < 2 ^ 31
}.

Lemma sound_visible l b fd st : sound l b -> (fd, st) ∈ l -> visible fd st b.
Proof.
  intros [Hok Hfr Hme Hstr Hus Hid] Hin. split; [done|]. split; [|intros ->; auto]. intros ->. destruct (Hfr _ Hin). split_and!; [done|done|].
  assert (Hl : (fd, Fresh) ∈ filter (fun x => x.2 = Fresh) l) by by apply list_elem_of_filter.
  unfold fresh_count in Hid. destruct (filter _ l) as [|x f]; [by apply not_elem_of_nil in Hl|]. rewrite zlen_cons in Hid. pose proof (zlen_nonneg f). lia.
Qed.

(** A critical section keeps the registry sound. *)
Lemma sound_change l i fd st b s st' :
  NoDup l.*1 -> l !! i = Some (fd, st) -> change fd st b s st' -> sound l b -> sound (<[i := (fd, st')]> l) s.
Proof.
  intros Hnd Hi Hc Hs. pose proof Hs as [Hok Hfr Hme Hstr Hus Hid].
  assert (Hin : (fd, st) ∈ l) by by eapply list_elem_of_lookup_2.
  assert (Hlt : (i < length l)%nat) by by eapply lookup_lt_Some.
  assert (Hother : forall f st1, (f, st1) ∈ l -> f ≠ fd -> (f, st1) ∈ <[i := (fd, st')]> l).
  { intros f st1 Hf Hne. apply list_elem_of_lookup in Hf as [n Hn]. apply list_elem_of_lookup. exists n.
    rewrite list_lookup_insert_ne; [done|]. intros ->. congruence. }
  assert (Hback : forall f st1, (f, st1) ∈ <[i := (fd, st')]> l -> f = fd /\ st1 = st' \/ f ≠ fd /\ (f, st1) ∈ l).
  { intros f st1 Hf. apply list_elem_of_lookup in Hf as [n Hn]. apply list_lookup_insert_Some in Hn as [(-> & [= <- <-] & _)|[Hne Hn]]; [by left|right].
    split; [|by eapply list_elem_of_lookup_2]. intros ->. apply Hne. eapply (NoDup_lookup l.*1); [done|by rewrite list_lookup_fmap, Hi|by rewrite list_lookup_fmap, Hn]. }
  assert (Hhere : (fd, st') ∈ <[i := (fd, st')]> l) by (apply list_elem_of_lookup; exists i; by apply list_lookup_insert_eq).
  assert (Hstr' : forall f st1, (f, st1) ∈ <[i := (fd, st')]> l -> ~ registered s0 f).
  { intros f st1 Hf. destruct (Hback _ _ Hf) as [[-> ->]|[_ ?]]; by eapply Hstr. }
  destruct (sound_visible _ _ _ _ Hs Hin) as (_ & Hn & _).
  destruct Hc as [st b|j e0 thread name b Hj Hact Hname Hnew|st j e0 b Hj Hact Hfd].
  - by rewrite list_insert_id.
  - destruct (Hn eq_refl) as (H0 & Hun & Hnext).
    assert (Hreg : forall f, registered (add_state (Z.of_nat j) fd thread name b) f <-> f = fd \/ registered b f).
    { intros f. apply (add_state_registered b j e0); done || lia. }
    split.
    + apply (add_state_ok b j e0); try done; lia.
    + intros f Hf. destruct (Hback _ _ Hf) as [[_ ?]|[Hne Hf']]; [done|]. rewrite Hreg. destruct (Hfr _ Hf'). split; [done|]. by intros [?|?].
    + intros f Hf. rewrite Hreg. destruct (Hback _ _ Hf) as [[-> _]|[_ ?]]; auto.
    + done.
    + intros f. rewrite Hreg. split.
      * intros [->|Hf]; [by right|]. apply Hus in Hf as [?|Hf]; [by left|right]. apply Hother; [done|]. intros ->. apply Hun, Hus. by right.
      * intros [Hf|Hf]; [right; apply Hus; by left|]. destruct (Hback _ _ Hf) as [[-> _]|[_ ?]]; [by left|right; apply Hus; by right].
    + rewrite add_state_next by (done || lia). rewrite (fresh_count_insert _ _ _ _ _ Hi). repeat case_decide; try done. lia.
  - assert (Hreg : forall f, registered (remove_state (Z.of_nat j) b) f <-> registered b f /\ f ≠ fd).
    { intros f. rewrite (remove_state_registered b j e0) by done. by rewrite Hfd. }
    assert (Hst : st ≠ Fresh). { intros ->. destruct (Hn eq_refl) as (_ & Hun & _). apply Hun. by exists j, e0. }
    split.
    + by apply (remove_state_ok b j e0).
    + intros f Hf. destruct (Hback _ _ Hf) as [[_ ?]|[Hne Hf']]; [done|]. rewrite Hreg. destruct (Hfr _ Hf'). split; [done|]. by intros [? ?].
    + intros f Hf. rewrite Hreg. destruct (Hback _ _ Hf) as [[_ ?]|[? ?]]; [done|]. auto.
    + done.
    + intros f. rewrite Hreg. split.
      * intros [Hf Hne]. apply Hus in Hf as [?|Hf]; [by left|right; by apply Hother].
      * intros [Hf|Hf]; [split; [apply Hus; by left|intros ->; by eapply Hstr]|].
        destruct (Hback _ _ Hf) as [[_ ?]|[? ?]]; [done|]. split; [apply Hus; by right|done].
    + change (next_client_id (remove_state (Z.of_nat j) b)) with (next_client_id b). rewrite (fresh_count_insert _ _ _ _ _ Hi).
      repeat case_decide; try done. lia.
Qed.
End registry.

(** The registry is the result of critical sections, one after the other. *)
Definition section_step (s s' : server) : Prop := exists fd st st', change fd st s s' st'.
Definition history : server -> server -> Prop := rtc section_step.

(** How a thread ends: it holds nothing, its client is not registered, and
    what it sent is complete. *)
Definition finishes {A} : A -> hold -> Prop := fun _ σ =>
  h_flawed σ = true \/ bare σ /\ h_state σ ≠ Member /\ (h_cut σ = true \/ framed (h_out σ)).

Definition registry_mutex (m : mutex) : Prop := match m with Clients_mutex | Send_mutex _ => True | _ => False end.

Lemma holds_dec σ m : holds σ m \/ ~ holds σ m.
Proof.
  destruct m as [|j| |]; cbn [holds]; [destruct (h_table σ)|destruct (h_slots σ !! j)|..]; eauto; right; try done; by intros [? ?].
Qed.

Lemma holds_table σ x : h_table σ = Some x -> holds σ Clients_mutex.
Proof. intros E. cbn [holds]. by rewrite E. Qed.

Lemma holds_registry σ m : holds σ m -> registry_mutex m.
Proof. by destruct m. Qed.

Lemma lookup_fst {A B} (l : list (A * B)) i a b : l !! i = Some (a, b) -> l.*1 !! i = Some a.
Proof. intros E. by rewrite list_lookup_fmap, E. Qed.

Section invariant.
(** What is known of the rest of the code of a thread, from its account; the
    registry at the beginning; and whether mutexes may fail. *)
Context {G : Z -> hold -> prog server unit -> Prop} (s0 : server) (calm : bool).

Definition accounts_of (ts : list (Z * thread server unit)) (σs : list hold) : accounts := zip ts.*1 (h_state <$> σs).

(** [B] is the registry as the last critical section left it. *)
Record inv_with (p : pool) (σs : list hold) (B : server) : Prop := {
  iv_length : length σs = length (p_threads p);
  iv_sockets : NoDup (p_threads p).*1;
  iv_guarded : forall i fd t σ, p_threads p !! i = Some (fd, t) -> σs !! i = Some σ -> G fd σ (t_prog t);
  iv_exclusive : forall i j σ σ' m, σs !! i = Some σ -> σs !! j = Some σ' -> holds σ m -> holds σ' m -> i = j;
  iv_held : forall m, registry_mutex m -> m ∈ k_held (w_kern (p_world p)) <-> exists i σ, σs !! i = Some σ /\ holds σ m;
  iv_table : forall i σ b c, σs !! i = Some σ -> h_table σ = Some (b, c) -> b = B /\ k_static (w_kern (p_world p)) = c;
  iv_free : (forall i σ, σs !! i = Some σ -> h_table σ = None) -> k_static (w_kern (p_world p)) = B;
  iv_sound : sound s0 (accounts_of (p_threads p) σs) B;
  iv_history : history s0 B;
  iv_calm : calm = true -> forall i σ, σs !! i = Some σ -> h_flawed σ = false
}.
Abbreviation inv := inv_with.

Lemma accounts_at ts σs i fd t σ : ts !! i = Some (fd, t) -> σs !! i = Some σ -> accounts_of ts σs !! i = Some (fd, h_state σ).
Proof. intros Hi Hσ. apply lookup_zip_with_Some. exists fd, (h_state σ). rewrite (lookup_fst _ _ _ _ Hi), list_lookup_fmap, Hσ. by split_and!. Qed.

Lemma accounts_insert ts σs i fd t σ' : ts !! i = Some (fd, t) -> accounts_of ts (<[i := σ']> σs) = <[i := (fd, h_state σ')]> (accounts_of ts σs).
Proof.
  intros Hi. unfold accounts_of. rewrite list_fmap_insert. rewrite <- (list_insert_id ts.*1 i fd) at 1 by by eapply lookup_fst.
  symmetry. apply (insert_zip_with pair).
Qed.

(** What is the same for a thread [j] when the thread [i] goes on. *)
Lemma update_cases {A} (l : list A) i (x' : A) j x :
  <[i := x']> l !! j = Some x -> j = i /\ x = x' \/ j ≠ i /\ l !! j = Some x.
Proof. intros Hj. apply list_lookup_insert_Some in Hj as [(-> & <- & _)|[? ?]]; [by left|right; split; [congruence|done]]. Qed.

(** The thread [i] goes on, and holds [σ'] instead of [σ]. *)
Lemma inv_update p σs B i fd t t' σ σ' w' B' :
  inv p σs B -> p_threads p !! i = Some (fd, t) -> σs !! i = Some σ ->
  G fd σ' (t_prog t') ->
  (forall m, holds σ' m -> holds σ m \/ m ∉ k_held (w_kern (p_world p))) ->
  (forall m, registry_mutex m -> m ∈ k_held (w_kern w') <-> holds σ' m \/ m ∈ k_held (w_kern (p_world p)) /\ ~ holds σ m) ->
  (forall b c, h_table σ' = Some (b, c) -> b = B' /\ k_static (w_kern w') = c) ->
  (h_table σ' = None -> (forall j σj, j ≠ i -> σs !! j = Some σj -> h_table σj = None) -> k_static (w_kern w') = B') ->
  (forall j σj b c, j ≠ i -> σs !! j = Some σj -> h_table σj = Some (b, c) ->
     k_static (w_kern w') = k_static (w_kern (p_world p)) /\ B' = B) ->
  sound s0 (<[i := (fd, h_state σ')]> (accounts_of (p_threads p) σs)) B' -> history s0 B' ->
  (calm = true -> h_flawed σ = false -> h_flawed σ' = false) ->
  inv (Pool (<[i := (fd, t')]> (p_threads p)) w') (<[i := σ']> σs) B'.
Proof.
  intros Hinv Hi Hσ Hg Hnew Hheld Htab Hfree Hoth Hsound Hhist Hcalm. pose proof Hinv as [Hlen Hnd Hgu Hex Hhe Hta Hfr Hso Hhi Hca].
  assert (Hlt : (i < length σs)%nat) by by eapply lookup_lt_Some.
  assert (Hfds : (<[i := (fd, t')]> (p_threads p)).*1 = (p_threads p).*1).
  { rewrite list_fmap_insert. apply list_insert_id. by rewrite list_lookup_fmap, Hi. }
  assert (Hat : <[i := σ']> σs !! i = Some σ') by by apply list_lookup_insert_eq.
  split; cbn [p_threads p_world].
  - by rewrite !length_insert.
  - by rewrite Hfds.
  - intros j fdj tj σj Hj Hσj. destruct (update_cases _ _ _ _ _ Hσj) as [[-> ->]|[Hne Hσj']].
    + rewrite list_lookup_insert_eq in Hj by by eapply lookup_lt_Some. by injection Hj as <- <-.
    + rewrite list_lookup_insert_ne in Hj by done. by eapply Hgu.
  - intros j j' σj σj' m Hj Hj' Hh Hh'. destruct (update_cases _ _ _ _ _ Hj) as [[-> ->]|[Hne Hj1]], (update_cases _ _ _ _ _ Hj') as [[-> ->]|[Hne' Hj1']]; [done| | |by eapply Hex].
    + destruct (Hnew _ Hh) as [?|Hno]; [by eapply Hex|]. exfalso. apply Hno, Hhe; [by eapply holds_registry|]. by eauto.
    + destruct (Hnew _ Hh') as [?|Hno]; [by eapply Hex|]. exfalso. apply Hno, Hhe; [by eapply holds_registry|]. by eauto.
  - intros m Hm. rewrite Hheld by done. split.
    + intros [Hh|[Hin Hno]]; [by exists i, σ'|]. apply Hhe in Hin as (j & σj & Hj & Hh); [|done].
      exists j, σj. split; [|done]. rewrite list_lookup_insert_ne; [done|]. intros ->. congruence.
    + intros (j & σj & Hj & Hh). destruct (update_cases _ _ _ _ _ Hj) as [[-> ->]|[Hne Hj1]]; [by left|].
      right. split; [apply Hhe; [done|]; by eauto|]. intros Hh'. apply Hne. by eapply Hex.
  - intros j σj b c Hj Hb. destruct (update_cases _ _ _ _ _ Hj) as [[-> ->]|[Hne Hj1]]; [by apply Htab|].
    destruct (Hoth _ _ _ _ Hne Hj1 Hb) as [-> ->]. by eapply Hta.
  - intros Hnone. apply Hfree; [by apply (Hnone i)|]. intros j σj Hne Hj. apply (Hnone j). by rewrite list_lookup_insert_ne.
  - replace (accounts_of _ _) with (<[i := (fd, h_state σ')]> (accounts_of (p_threads p) σs)); [done|].
    unfold accounts_of at 2. rewrite Hfds. symmetry. by eapply accounts_insert.
  - done.
  - intros Hc j σj Hj. destruct (update_cases _ _ _ _ _ Hj) as [[-> ->]|[Hne Hj1]]; [|by eapply Hca]. apply Hcalm; [done|by eapply Hca].
Qed.

(** A mutex that is held is held by this thread, or not by it. *)
Lemma held_iff p σs B i σ :
  inv p σs B -> σs !! i = Some σ ->
  forall m, registry_mutex m -> (m ∈ k_held (w_kern (p_world p)) <-> holds σ m \/ m ∈ k_held (w_kern (p_world p)) /\ ~ holds σ m).
Proof.
  intros Hinv Hσ m Hm. split; [|intros [?|[? _]]; [apply (iv_held _ _ _ Hinv); [done|by eauto]|done]].
  intros Hin. destruct (holds_dec σ m); auto.
Qed.

(** The registry, as the last critical section left it, does not change. *)
Lemma inv_own p σs B i fd t t' σ σ' w' :
  inv p σs B -> p_threads p !! i = Some (fd, t) -> σs !! i = Some σ -> G fd σ' (t_prog t') ->
  h_state σ' = h_state σ ->
  (h_table σ' = h_table σ /\ k_static (w_kern w') = k_static (w_kern (p_world p)) \/
   (exists b c, h_table σ = Some (b, c) /\ h_table σ' = Some (b, k_static (w_kern w'))) \/
   (forall j σj, σs !! j = Some σj -> h_table σj = None) /\ h_table σ' = Some (B, k_static (w_kern w'))) ->
  (forall m, holds σ' m -> holds σ m \/ m ∉ k_held (w_kern (p_world p))) ->
  (forall m, registry_mutex m -> m ∈ k_held (w_kern w') <-> holds σ' m \/ m ∈ k_held (w_kern (p_world p)) /\ ~ holds σ m) ->
  (calm = true -> h_flawed σ = false -> h_flawed σ' = false) ->
  inv (Pool (<[i := (fd, t')]> (p_threads p)) w') (<[i := σ']> σs) B.
Proof.
  intros Hinv Hi Hσ Hg Hst Htab Hnew Hheld Hcalm. pose proof Hinv as [Hlen Hnd Hgu Hex Hhe Hta Hfr Hso Hhi Hca].
  apply (inv_update p σs B i fd t t' σ); try done.
  - intros b c Hb. destruct Htab as [[E ->]|[(b0 & c0 & Hb0 & E)|[_ E]]]; rewrite E in Hb; [by eapply Hta| |by injection Hb as <- <-].
    injection Hb as <- <-. split; [by eapply Hta|done].
  - intros Hnone Hoth. destruct Htab as [[E ->]|[(b0 & c0 & _ & E)|[_ E]]]; [|congruence..].
    apply Hfr. intros j σj Hj. destruct (decide (j = i)) as [->|Hne]; [congruence|by eapply Hoth].
  - intros j σj b c Hne Hj Hb. split; [|done]. destruct Htab as [[_ ?]|[(b0 & c0 & Hb0 & _)|[Hnone _]]]; [done| |by rewrite (Hnone _ _ Hj) in Hb].
    exfalso. apply Hne. by eapply (Hex j i σj σ Clients_mutex); [done|done|eapply holds_table..].
  - rewrite Hst, list_insert_id; [done|by eapply accounts_at].
Qed.

(** Nor does the thread take or release a mutex. *)
Lemma inv_same p σs B i fd t t' σ σ' w' :
  inv p σs B -> p_threads p !! i = Some (fd, t) -> σs !! i = Some σ -> G fd σ' (t_prog t') ->
  h_state σ' = h_state σ -> h_slots σ' = h_slots σ ->
  (h_table σ' = h_table σ /\ k_static (w_kern w') = k_static (w_kern (p_world p)) \/
   exists b c, h_table σ = Some (b, c) /\ h_table σ' = Some (b, k_static (w_kern w'))) ->
  k_held (w_kern w') = k_held (w_kern (p_world p)) ->
  (calm = true -> h_flawed σ = false -> h_flawed σ' = false) ->
  inv (Pool (<[i := (fd, t')]> (p_threads p)) w') (<[i := σ']> σs) B.
Proof.
  intros Hinv Hi Hσ Hg Hst Hsl Htab Hh Hc.
  assert (Hsame : forall m, holds σ' m <-> holds σ m).
  { intros [|j| |]; cbn [holds]; try done; [|by rewrite Hsl]. destruct Htab as [[-> _]|(b & c & -> & ->)]; [done|by split]. }
  apply (inv_own p σs B i fd t t' σ); try done; [destruct Htab; auto|intros m Hm; left; by apply Hsame|].
  intros m Hm. rewrite Hh, Hsame. by eapply held_iff.
Qed.

(** ** What the answers tell *)

Definition current_of (p : pool) : server := k_static (w_kern (p_world p)).

Lemma not_held_none p σs B : inv p σs B -> Clients_mutex ∉ k_held (w_kern (p_world p)) -> forall i σ, σs !! i = Some σ -> h_table σ = None.
Proof.
  intros Hinv Hno i σ Hσ. destruct (h_table σ) eqn:E; [|done]. exfalso. apply Hno, (iv_held _ _ _ Hinv); [done|].
  exists i, σ. split; [done|by eapply holds_table].
Qed.

Lemma answer_expected p σs B i fd t σ e r w' :
  inv p σs B -> p_threads p !! i = Some (fd, t) -> σs !! i = Some σ -> enabled e (t_asleep t) true (p_world p) = true ->
  sem e (W (with_errno (t_errno t) (w_env (p_world p))) (w_kern (p_world p))) = (r, w') -> expects fd σ (current_of p) e r.
Proof.
  intros Hinv Hi Hσ Hre Hs. pose proof Hinv as [Hlen Hnd Hgu Hex Hhe Hta Hfr Hso Hhi Hca].
  assert (Hcur : forall b c, h_table σ = Some (b, c) -> current_of p = c) by (intros b c Hb; by eapply Hta).
  destruct e; try done; cbn [expects].
  - injection Hs as <- <-. by split.
  - assert (Hfree : r = 0 -> m ∉ k_held (w_kern (p_world p))).
    { intros ->. destruct (pthread_cases _ _ _ _ Hs) as [[? _]|(_ & _ & Hdue)]; [done|]. change (fault_due (w_env (p_world p)) = false) in Hdue.
      unfold enabled in Hre. rewrite Hdue in Hre. by apply bool_decide_eq_true in Hre. }
    destruct m as [|j| |]; try done.
    + intros Hr. specialize (Hfree Hr). pose proof (not_held_none _ _ _ Hinv Hfree) as Hnone. split; [by eapply Hnone|].
      unfold current_of. rewrite (Hfr Hnone). eapply sound_visible; [done|]. eapply list_elem_of_lookup_2. by eapply accounts_at.
    + split; [done|]. intros Hr. specialize (Hfree Hr). destruct (h_slots σ !! j) eqn:E; [|done]. exfalso. apply Hfree, Hhe; [done|].
      exists i, σ. split; [done|]. cbn [holds]. rewrite E. by eexists.
  - destruct (send_cases _ _ _ _ _ Hs) as (_ & _ & [[? _]|(n & ? & ? & _)]); [by left|right; by exists n].
  - intros data ->. by eapply read_bound.
Qed.

(** ** One turn *)

(** The registry as the last critical section leaves it. *)
Definition base_after (σ : hold) (B B' : server) (e : sys server) : ans e -> Prop :=
  match e with
  | Mutex_unlock Clients_mutex => fun r => if r == 0 then h_table σ = Some (B, B') else B' = B
  | _ => fun _ => B' = B
  end.

Lemma still_moves fd σ s e r σ' : still e -> moves fd σ s e r σ' -> σ' = σ.
Proof. by destruct e. Qed.

Lemma inv_turn_with p σs B (i : nat) fd (t : thread server unit) (e : sys server) (g : ans e -> prog server unit) (r : ans e) w' σ σ' :
  inv p σs B -> p_threads p !! i = Some (fd, t) -> t_prog t = Call e g -> σs !! i = Some σ -> enabled e (t_asleep t) true (p_world p) = true ->
  sem e (W (with_errno (t_errno t) (w_env (p_world p))) (w_kern (p_world p))) = (r, w') ->
  (calm = true -> mutex_works e r) -> allowed fd σ e -> moves fd σ (current_of p) e r σ' -> G fd σ' (g r) ->
  exists B', base_after σ B B' e r /\
    inv (Pool (<[i := (fd, mk_thread (g r) (e_errno (w_env w')) (sleeps e w'))]> (p_threads p)) w') (<[i := σ']> σs) B'.
Proof.
  intros Hinv Hi Hp Hσ Hre Hs Hcalm Hal Hm Hg'. pose proof Hinv as [Hlen Hnd Hgu Hex Hhe Hta Hfr Hso Hhi Hca].
  assert (Hstill : still e -> inv (Pool (<[i := (fd, mk_thread (g r) (e_errno (w_env w')) (sleeps e w'))]> (p_threads p)) w') (<[i := σ']> σs) B).
  { intros Hst. pose proof (still_moves _ _ _ _ _ _ Hst Hm) as ->. pose proof (still_preserves e Hst (W (with_errno (t_errno t) (w_env (p_world p))) (w_kern (p_world p)))) as Hk.
    rewrite Hs in Hk. injection Hk as Hk1 Hk2 _. by apply (inv_same p σs B i fd t _ σ); auto. }
  destruct e; try (exists B; split; [done|by apply Hstill]); try done; cbn [moves] in Hm.
  - (* Put_static *) destruct Hm as (b & c & Hb & ->). injection Hs as <- <-. exists B. split; [done|].
    apply (inv_same p σs B i fd t _ σ); try done. right. by exists b, c.
  - (* Mutex_lock *) destruct (pthread_cases _ _ _ _ Hs) as [[Hz Hk]|(-> & Hk & Hdue)].
    + assert (σ' = flaw σ) as ->. { destruct m; try done; cbn [moves] in Hm; by rewrite (proj2 (Z.eqb_neq _ _) Hz) in Hm. }
      exists B. split; [done|]. apply (inv_same p σs B i fd t _ σ); try done; [left; by rewrite Hk|by rewrite Hk|].
      intros Hc. by destruct (Hz (Hcalm Hc)).
    + assert (Hfree : m ∉ k_held (w_kern (p_world p))).
      { change (fault_due (w_env (p_world p)) = false) in Hdue. unfold enabled in Hre. rewrite Hdue in Hre.
        by apply bool_decide_eq_true in Hre. }
      exists B. split; [done|].
      assert (Hmore : h_state σ' = h_state σ /\ h_flawed σ' = h_flawed σ /\ (forall m', holds σ' m' <-> m' = m \/ holds σ m')).
      { destruct m as [|j| |]; try done; cbn [moves Z.eqb] in Hm.
        - subst σ'. split_and!; [done|done|]. intros [|j'| |]; cbn [holds with_table h_table h_slots]; [|split; [by right|by intros [?|?]]..].
          split; [by left|by eexists].
        - destruct Hm as [_ ->]. split_and!; [done|done|]. intros [|j'| |]; cbn [holds with_slots h_table h_slots];
            [split; [by right|by intros [?|?]]| |split; [by right|by intros [?|?]]..].
          rewrite lookup_insert_is_Some. split; [intros [->|[? ?]]; auto|]. intros [[= ->]|?]; [by left|].
          destruct (decide (j = j')); auto. }
      destruct Hmore as (Hst & Hfl & Hmore).
      apply (inv_own p σs B i fd t _ σ); try done.
      * destruct m as [|j| |]; try done; cbn [moves Z.eqb] in Hm; [|destruct Hm as [_ ->]; left; by rewrite Hk].
        subst σ'. right. right. pose proof (not_held_none _ _ _ Hinv Hfree) as Hnone. split; [done|].
        cbn [with_table h_table]. rewrite Hk. change (k_static (w_kern (p_world p))) with (current_of p). by rewrite <- (Hfr Hnone).
      * intros m' Hm'. apply Hmore in Hm' as [->|?]; auto.
      * intros m' Hm'. rewrite Hk. cbn [k_held with_held]. rewrite elem_of_union, elem_of_singleton, Hmore.
        destruct (held_iff p σs B i σ Hinv Hσ m' Hm') as [H1 H2]. naive_solver.
      * by rewrite Hfl.
  - (* Mutex_unlock *) destruct (pthread_cases _ _ _ _ Hs) as [[Hz Hk]|(-> & Hk & _)].
    + assert (σ' = flaw σ) as ->. { destruct m; try done; cbn [moves] in Hm; by rewrite (proj2 (Z.eqb_neq _ _) Hz) in Hm. }
      exists B. split.
      { destruct m; try done. cbn [base_after]. by rewrite (proj2 (Z.eqb_neq _ _) Hz). }
      apply (inv_same p σs B i fd t _ σ); try done; [left; by rewrite Hk|by rewrite Hk|].
      intros Hc. by destruct (Hz (Hcalm Hc)).
    + assert (Hmine : holds σ m) by by destruct m.
      assert (Hless : h_flawed σ' = h_flawed σ /\ (forall m', holds σ' m' <-> m' ≠ m /\ holds σ m')).
      { destruct m as [|j| |]; try done; cbn [moves Z.eqb] in Hm.
        - destruct Hm as (b & c & st' & out' & _ & _ & _ & _ & ->). split; [done|]. intros [|j'| |]; cbn [holds h_table h_slots]; [|by split; [|intros [_ ?]]..].
          split; [by intros [? ?]|by intros [? _]].
        - destruct Hm as [_ ->]. split; [done|]. intros [|j'| |]; cbn [holds with_slots h_table h_slots]; [by split; [|intros [_ ?]]| |by split; [|intros [_ ?]]..].
          rewrite lookup_delete_is_Some. split; intros [Hne ?]; (split; [congruence|done]). }
      destruct Hless as [Hfl Hless].
      assert (Hnew : forall m', holds σ' m' -> holds σ m' \/ m' ∉ k_held (w_kern (p_world p))) by (intros m' Hm'; left; by apply Hless).
      assert (Hheld : forall m', registry_mutex m' -> m' ∈ k_held (w_kern w') <-> holds σ' m' \/ m' ∈ k_held (w_kern (p_world p)) /\ ~ holds σ m').
      { intros m' Hm'. rewrite Hk. cbn [k_held with_held]. rewrite elem_of_difference, elem_of_singleton, Hless.
        pose proof (held_iff p σs B i σ Hinv Hσ m' Hm') as Hiff. split; [intros [Hin Hne]; apply Hiff in Hin; tauto|].
        intros [[Hne Hh]|[Hin Hno]]; (split; [by apply Hiff; auto|]); [done|by intros ->]. }
      destruct m as [|j| |]; try done; cbn [moves Z.eqb] in Hm.
      * destruct Hm as (b & c & st' & out' & Hb & Hch & Hun & Hout & ->). destruct (Hta _ _ _ _ Hσ Hb) as [-> Hc].
        assert (Honly : forall j σj, j ≠ i -> σs !! j = Some σj -> h_table σj = None).
        { intros j σj Hne Hj. destruct (h_table σj) eqn:E; [|done]. exfalso. apply Hne.
          apply (Hex j i σj σ Clients_mutex); [done|done|by eapply holds_table..]. }
        exists c. split; [done|].
        apply (inv_update p σs B i fd t _ σ); try done.
        -- intros _ _. by rewrite Hk.
        -- intros j σj b' c' Hne Hj Hb'. by rewrite (Honly _ _ Hne Hj) in Hb'.
        -- eapply sound_change; [| |exact Hch|exact Hso].
           ++ unfold accounts_of. rewrite fst_zip; [done|]. by rewrite !length_fmap, Hlen.
           ++ by eapply accounts_at.
        -- eapply rtc_r; [exact Hhi|]. by exists fd, (h_state σ), st'.
      * exists B. split; [done|]. apply (inv_own p σs B i fd t _ σ); try done.
        -- by destruct Hm as [_ ->].
        -- left. destruct Hm as [_ ->]. by rewrite Hk.
        -- by rewrite Hfl.
  - (* Send *) destruct (send_cases _ _ _ _ _ Hs) as (Hk1 & Hk2 & _). exists B. split; [done|].
    assert (h_state σ' = h_state σ /\ h_slots σ' = h_slots σ /\ h_table σ' = h_table σ /\ h_flawed σ' = h_flawed σ) as (? & ? & ? & Hfl).
    { subst σ'. by destruct (0 <=? r). }
    apply (inv_same p σs B i fd t _ σ); try done; [by left|by rewrite Hfl].
  - (* Read *) pose proof (read_preserves fd0 length (W (with_errno (t_errno t) (w_env (p_world p))) (w_kern (p_world p)))) as Hk.
    rewrite Hs in Hk. injection Hk as Hk1 Hk2 _. exists B. split; [done|].
    assert (h_state σ' = h_state σ /\ h_slots σ' = h_slots σ /\ h_table σ' = h_table σ /\ h_flawed σ' = h_flawed σ) as (? & ? & ? & Hfl).
    { subst σ'. by destruct r as [[|x data]|]. }
    apply (inv_same p σs B i fd t _ σ); try done; [by left|by rewrite Hfl].
Qed.
End invariant.

(** The rest of the code keeps to the discipline. *)
Abbreviation inv := (@inv_with (fun fd σ p => guarded fd σ p finishes)).

Lemma inv_turn s0 calm p σs B (i : nat) fd (t : thread server unit) (e : sys server) (g : ans e -> prog server unit) (r : ans e) w' σ :
  inv s0 calm p σs B -> p_threads p !! i = Some (fd, t) -> t_prog t = Call e g -> σs !! i = Some σ -> enabled e (t_asleep t) true (p_world p) = true ->
  sem e (W (with_errno (t_errno t) (w_env (p_world p))) (w_kern (p_world p))) = (r, w') ->
  (calm = true -> mutex_works e r) ->
  exists σ' B', allowed fd σ e /\ moves fd σ (current_of p) e r σ' /\ base_after σ B B' e r /\
    inv s0 calm (Pool (<[i := (fd, mk_thread (g r) (e_errno (w_env w')) (sleeps e w'))]> (p_threads p)) w') (<[i := σ']> σs) B'.
Proof.
  intros Hinv Hi Hp Hσ Hre Hs Hcalm. pose proof (iv_guarded _ _ _ _ _ Hinv _ _ _ _ Hi Hσ) as Hg. rewrite Hp in Hg. destruct Hg as [Hal Hg].
  destruct (Hg _ _ (answer_expected _ _ _ _ _ _ _ _ _ _ _ _ Hinv Hi Hσ Hre Hs)) as (σ' & Hm & Hg').
  edestruct (inv_turn_with (G := fun fd σ p => guarded fd σ p finishes) s0 calm p σs B i fd t e g r w' σ σ') as (B' & Hb & Hinv'); try done. by exists σ', B'.
Qed.

(** ** Reachable states *)

Lemma fresh_count_replicate (fds : list Z) n : fresh_count (zip fds (replicate n Fresh)) <= Z.of_nat n.
Proof.
  unfold fresh_count, zlen. apply inj_le. etransitivity; [apply length_filter|]. rewrite length_zip_with, length_replicate. lia.
Qed.

Lemma inv_initial calm ts en (k : kern server) :
  NoDup ts.*1 -> (forall i fd t, ts !! i = Some (fd, t) -> guarded fd free_hold (t_prog t) finishes) ->
  (forall m, registry_mutex m -> m ∉ k_held k) -> registry_ok (k_static k) ->
  Forall (fun fd => 0 <= fd /\ ~ registered (k_static k) fd) ts.*1 -> next_client_id (k_static k) + zlen ts < 2 ^ 31 ->
  inv (k_static k) calm (Pool ts (W en k)) (replicate (length ts) free_hold) (k_static k).
Proof.
  intros Hnd Hg Hh Hok Hfds Hid.
  assert (Hfree : forall i σ, replicate (length ts) free_hold !! i = Some σ -> σ = free_hold) by (intros i σ Hσ; by apply lookup_replicate in Hσ as [-> _]).
  assert (Hmem : forall fd st, (fd, st) ∈ accounts_of ts (replicate (length ts) free_hold) -> fd ∈ ts.*1 /\ st = Fresh).
  { intros fd st Hin. unfold accounts_of in Hin. rewrite fmap_replicate in Hin. apply list_elem_of_lookup in Hin as [n Hn].
    apply lookup_zip_with_Some in Hn as (x & y & [= <- <-] & Hx & Hy). apply lookup_replicate in Hy as [-> _]. split; [by eapply list_elem_of_lookup_2|done]. }
  rewrite Forall_forall in Hfds.
  split; cbn [p_threads p_world w_kern]; try done.
  - apply length_replicate.
  - intros i fd t σ Hi Hσ. rewrite (Hfree _ _ Hσ). by eapply Hg.
  - intros i j σ σ' m Hi Hj Hm _. rewrite (Hfree _ _ Hi) in Hm. destruct m; try done; by destruct Hm.
  - intros m Hm. split; [intros Hin; by destruct (Hh m Hm)|]. intros (i & σ & Hi & Hσ). rewrite (Hfree _ _ Hi) in Hσ. destruct m; try done; by destruct Hσ.
  - intros i σ b c Hi Hb. by rewrite (Hfree _ _ Hi) in Hb.
  - split.
    + done.
    + intros fd Hin. apply Hmem in Hin as [Hin _]. by apply Hfds.
    + intros fd Hin. by apply Hmem in Hin as [_ ?].
    + intros fd st Hin. apply Hmem in Hin as [Hin _]. by apply Hfds.
    + intros fd. split; [by left|]. intros [?|Hin]; [done|]. by apply Hmem in Hin as [_ ?].
    + unfold accounts_of. rewrite fmap_replicate. pose proof (fresh_count_replicate ts.*1 (length ts)). unfold zlen in *. cbn [h_state free_hold] in *. lia.
  - intros _ i σ Hi. by rewrite (Hfree _ _ Hi).
Qed.

Lemma inv_reachable s0 calm clear p p' σs B :
  inv s0 calm p σs B -> pool_reachable calm clear p p' -> exists σs' B', inv s0 calm p' σs' B'.
Proof.
  intros Hinv Hr. revert σs B Hinv. induction Hr as [p|p p1 p2 Hstep Hr IH]; intros σs B Hinv; [by exists σs, B|].
  destruct Hstep as (i & e & r & Hm & _ & fd & t & g & w' & Hi & Hp & Hre & Hs & ->).
  assert (exists σ, σs !! i = Some σ) as [σ Hσ].
  { apply lookup_lt_is_Some. rewrite (iv_length _ _ _ _ _ Hinv). by eapply lookup_lt_Some. }
  apply ready_enabled in Hre.
  destruct (inv_turn s0 calm p σs B i fd t e g r w' σ) as (σ' & B' & _ & _ & _ & Hinv'); try done. by eapply IH.
Qed.

(** Between two critical sections, the registry is sound. *)
Lemma inv_between s0 calm p σs B :
  inv s0 calm p σs B -> Clients_mutex ∉ k_held (w_kern (p_world p)) ->
  current_of p = B /\ registry_ok (current_of p) /\ history s0 (current_of p).
Proof.
  intros Hinv Hno. assert (current_of p = B) as ->. { apply (iv_free _ _ _ _ _ Hinv). by eapply not_held_none. }
  split_and!; [done|by apply (so_ok s0 _ _ (iv_sound _ _ _ _ _ Hinv))|by apply (iv_history _ _ _ _ _ Hinv)].
Qed.

(** ** Waiting *)

(** The thread waits for its client to say something. *)
Definition waits_for_client (t : thread server unit) : Prop := exists f n g, t_prog t = Call (Recv f n) g.

(** It waits for the lock of a file. *)
Definition waits_for_file (w : world server) (t : thread server unit) : Prop :=
  exists f l g, t_prog t = Call (Fcntl_setlk f l) g /\ lock_conflict (w_kern w) f l = true.

Section waiting.
(** The sockets whose clients do not read: [send] may wait for them. *)
Context (deaf : Z -> bool).

(** It is in [send] to such a client. *)
Definition waits_for_reader (t : thread server unit) : Prop := exists f data g, t_prog t = Call (Send f data) g /\ deaf f = true.

(** The thread can make its next call, and depends on no client for it. *)
Definition can_go (w : world server) (t : thread server unit) : bool :=
  match t_prog t with
  | Call e g => ready e (t_asleep t) w && match e with Recv _ _ => false | Send f _ => negb (deaf f) | _ => true end
  | _ => false
  end.

Lemma can_go_turn p i fd t : p_threads p !! i = Some (fd, t) -> can_go (p_world p) t = true -> exists p', take_turn false false i p = Some p'.
Proof.
  unfold can_go, take_turn. intros ->. destruct (t_prog t) as [a|e g|]; try done. intros [-> _]%andb_true_iff. destruct (sem _ _) as [r w'].
  assert (works false false e r = true) as -> by by destruct e. by eexists.
Qed.

Lemma can_go_free w t : can_go w t = true -> ~ waits_for_client t /\ ~ waits_for_reader t.
Proof.
  unfold can_go. intros Hgo. split; [intros (f & n & g & E)|intros (f & data & g & E & Hd)]; rewrite E in Hgo.
  - by rewrite andb_false_r in Hgo.
  - by rewrite Hd, andb_false_r in Hgo.
Qed.

(** A thread that may call waits for nothing but a mutex, a file or a client. *)
Lemma allowed_ready fd σ e asleep w :
  allowed fd σ e ->
  ready e asleep w && match e with Recv _ _ => false | Send f _ => negb (deaf f) | _ => true end = true \/
  (exists f n, e = Recv f n) \/
  (exists m, e = Mutex_lock m /\ registry_mutex m /\ m ∈ k_held (w_kern w)) \/
  (exists f l, e = Fcntl_setlk f l /\ lock_conflict (w_kern w) f l = true) \/
  (exists f data, e = Send f data /\ deaf f = true).
Proof.
  intros Ha. destruct e; try (by left); try done.
  - destruct (decide (m ∈ k_held (w_kern w))) as [Hin|Hno].
    + right. right. left. exists m. split_and!; [done|by destruct m|done].
    + left. unfold ready, enabled. rewrite (bool_decide_true _ Hno). by rewrite orb_true_r.
  - destruct (deaf fd0) eqn:E; [right; right; right; right; by exists fd0, buffer|by left].
  - right. left. by eauto.
  - destruct (lock_conflict (w_kern w) fd0 l) eqn:E; [right; right; right; left; by exists fd0, l|]. left. unfold ready, enabled. rewrite E. by rewrite orb_true_r.
Qed.
End waiting.

Lemma inv_thread s0 calm p σs B i fd t :
  inv s0 calm p σs B -> p_threads p !! i = Some (fd, t) -> exists σ, σs !! i = Some σ /\ guarded fd σ (t_prog t) finishes.
Proof.
  intros Hinv Hi. assert (exists σ, σs !! i = Some σ) as [σ Hσ].
  { apply lookup_lt_is_Some. rewrite (iv_length _ _ _ _ _ Hinv). by eapply lookup_lt_Some. }
  exists σ. split; [done|by eapply (iv_guarded _ _ _ _ _ Hinv)].
Qed.

(** Whoever holds a mutex has a next call, which it is allowed to make. *)
Lemma holder_calls s0 p σs B m :
  inv s0 true p σs B -> registry_mutex m -> m ∈ k_held (w_kern (p_world p)) -> (forall x, x ∈ p_threads p -> ~ spent x.2) ->
  exists i fd t e g σ, p_threads p !! i = Some (fd, t) /\ t_prog t = Call e g /\ σs !! i = Some σ /\ holds σ m /\
    allowed fd σ e /\ h_flawed σ = false.
Proof.
  intros Hinv Hm Hin Hsp. apply (iv_held _ _ _ _ _ Hinv m Hm) in Hin as (i & σ & Hσ & Hh).
  assert (exists x, p_threads p !! i = Some x) as [[fd t] Hi].
  { apply lookup_lt_is_Some. rewrite <- (iv_length _ _ _ _ _ Hinv). by eapply lookup_lt_Some. }
  pose proof (iv_guarded _ _ _ _ _ Hinv _ _ _ _ Hi Hσ) as Hg. pose proof (iv_calm _ _ _ _ _ Hinv eq_refl _ _ Hσ) as Hfl.
  destruct (t_prog t) as [a|e g|] eqn:Ep.
  - exfalso. destruct Hg as [Hg|[[Ht Hs] _]]; [congruence|]. destruct m; try done; cbn [holds] in Hh; [rewrite Ht in Hh|rewrite Hs in Hh]; by destruct Hh.
  - exists i, fd, t, e, g, σ. destruct Hg as [Ha _]. by split_and!.
  - exfalso. apply (Hsp (fd, t)); [by eapply list_elem_of_lookup_2|done].
Qed.

Section no_deadlock.
Context (deaf : Z -> bool).

(** Some thread can go on, or one is held up in [send], under a send mutex, by
    a client that does not read. *)
Definition goes_on (p : pool) : Prop := exists x, x ∈ p_threads p /\ can_go deaf (p_world p) x.2 = true.
Definition held_up (p : pool) : Prop :=
  exists x slot, x ∈ p_threads p /\ waits_for_reader deaf x.2 /\ Send_mutex slot ∈ k_held (w_kern (p_world p)).

(** The holder of a send mutex waits for nothing but the reader of what it
    sends; the holder of the registry for the holder of a send mutex. *)
Lemma slot_holder_goes s0 p σs B i :
  inv s0 true p σs B -> Send_mutex i ∈ k_held (w_kern (p_world p)) -> (forall x, x ∈ p_threads p -> ~ spent x.2) ->
  goes_on p \/ held_up p.
Proof.
  intros Hinv Hin Hsp. destruct (holder_calls s0 p σs B (Send_mutex i) Hinv I Hin Hsp) as (j & fd & t & e & g & σ & Hj & Hp & Hσ & Hh & Ha & Hfl).
  assert (Hx : (fd, t) ∈ p_threads p) by by eapply list_elem_of_lookup_2.
  assert (Hs : h_slots σ ≠ ∅). { intros E. cbn [holds] in Hh. rewrite E in Hh. by destruct Hh. }
  destruct (allowed_ready deaf fd σ e (t_asleep t) (p_world p) Ha) as [?|[(f & n & ->)|[(m & -> & Hm & _)|[(f & l & -> & _)|(f & data & -> & Hd)]]]].
  - left. exists (fd, t). split; [done|]. unfold can_go. cbn [snd]. by rewrite Hp.
  - exfalso. cbn [allowed] in Ha. destruct Ha as [?|[_ ?]]; congruence.
  - exfalso. destruct m; try done; cbn [allowed] in Ha; [destruct Ha as [?|[_ ?]]; congruence|destruct Ha as [_ [?|?]]; congruence].
  - exfalso. cbn [allowed] in Ha. destruct Ha as [?|[_ ?]]; congruence.
  - right. exists (fd, t), i. split_and!; [done|by exists f, data, g|done].
Qed.

Lemma holder_goes s0 p σs B m :
  inv s0 true p σs B -> registry_mutex m -> m ∈ k_held (w_kern (p_world p)) -> (forall x, x ∈ p_threads p -> ~ spent x.2) ->
  goes_on p \/ held_up p.
Proof.
  intros Hinv Hm Hin Hsp. destruct m as [|i| |]; try done; [|by eapply slot_holder_goes].
  destruct (holder_calls s0 p σs B Clients_mutex Hinv I Hin Hsp) as (j & fd & t & e & g & σ & Hj & Hp & Hσ & [bc Hh] & Ha & Hfl).
  destruct (allowed_ready deaf fd σ e (t_asleep t) (p_world p) Ha) as [?|[(f & n & ->)|[(m & -> & Hm' & Hin')|[(f & l & -> & _)|(f & data & -> & _)]]]].
  - left. exists (fd, t). split; [by eapply list_elem_of_lookup_2|]. unfold can_go. cbn [snd]. by rewrite Hp.
  - cbn [allowed] in Ha. destruct Ha as [?|[? _]]; congruence.
  - destruct m as [|i| |]; try done; [|by eapply slot_holder_goes]. cbn [allowed] in Ha. destruct Ha as [?|[? _]]; congruence.
  - cbn [allowed] in Ha. destruct Ha as [?|[? _]]; congruence.
  - cbn [allowed] in Ha. destruct Ha as [?|[? _]]; congruence.
Qed.

(** The thread has nothing to do but to wait, and nobody waits for it. *)
Definition idles (w : world server) (x : Z * thread server unit) : Prop :=
  ended x.2 \/ waits_for_file w x.2 \/ waits_for_client x.2 \/ exists data g, t_prog x.2 = Call (Send x.1 data) g /\ deaf x.1 = true.

(** No thread waits for a mutex for ever. *)
Lemma inv_no_deadlock s0 p σs B :
  inv s0 true p σs B -> (forall x, x ∈ p_threads p -> ~ spent x.2) ->
  goes_on p \/ held_up p \/ forall x, x ∈ p_threads p -> idles (p_world p) x.
Proof.
  intros Hinv Hsp.
  assert (Hone : forall x, x ∈ p_threads p -> (goes_on p \/ held_up p) \/ idles (p_world p) x).
  { intros [fd t] Hin. pose proof Hin as Hin'. apply list_elem_of_lookup in Hin' as [i Hi].
    destruct (inv_thread _ _ _ _ _ _ _ _ Hinv Hi) as (σ & Hσ & Hg). pose proof (iv_calm _ _ _ _ _ Hinv eq_refl _ _ Hσ) as Hfl.
    destruct (t_prog t) as [a|e g|] eqn:Ep; [right; left; by exists a| |by destruct (Hsp _ Hin)].
    destruct Hg as [Ha _].
    destruct (allowed_ready deaf fd σ e (t_asleep t) (p_world p) Ha) as [Hr|[(f & n & ->)|[(m & -> & Hm & Hm')|[(f & l & -> & Hc)|(f & data & -> & Hd)]]]].
    - left. left. exists (fd, t). split; [done|]. unfold can_go. cbn [snd]. by rewrite Ep.
    - right. right. right. left. by exists f, n, g.
    - left. by eapply holder_goes.
    - right. right. left. by exists f, l, g.
    - cbn [allowed] in Ha. destruct Ha as [?|[_ [[slot Hslot]|[-> _]]]]; [congruence| |right; right; right; right; by exists data, g].
      left. right. exists (fd, t), slot. split_and!; [done|by exists f, data, g|]. apply (iv_held _ _ _ _ _ Hinv); [done|].
      exists i, σ. split; [done|]. cbn [holds]. by eexists. }
  assert (Hall : forall l : list (Z * thread server unit), (forall x, x ∈ l -> x ∈ p_threads p) -> (goes_on p \/ held_up p) \/ forall x, x ∈ l -> idles (p_world p) x).
  { induction l as [|x l IH]; intros Hl; [right; intros x Hx; by apply not_elem_of_nil in Hx|].
    destruct (Hone x) as [?|Hx]; [apply Hl, list_elem_of_here|by left|].
    destruct IH as [?|IH]; [intros y Hy; by apply Hl, list_elem_of_further|by left|right]. intros y [->|Hy]%elem_of_cons; [done|by apply IH]. }
  destruct (Hall (p_threads p)) as [[?|?]|?]; auto.
Qed.
End no_deadlock.

(** A wait for the client or for a file, or a transfer to a client. *)
Definition io (e : sys server) : Prop := match e with Send _ _ | Recv _ _ | Fcntl_setlk _ _ => True | _ => False end.

(** The mutex of the registry is not held during any of these. *)
Lemma inv_io_outside s0 p σs B :
  inv s0 true p σs B -> (forall x, x ∈ p_threads p -> ~ spent x.2) -> Clients_mutex ∈ k_held (w_kern (p_world p)) ->
  exists x e g, x ∈ p_threads p /\ t_prog x.2 = Call e g /\ ~ io e.
Proof.
  intros Hinv Hsp Hin. destruct (holder_calls s0 p σs B Clients_mutex Hinv I Hin Hsp) as (j & fd & t & e & g & σ & Hj & Hp & Hσ & [bc Hh] & Ha & Hfl).
  exists (fd, t), e, g. split_and!; [by eapply list_elem_of_lookup_2|done|]. intros Hio.
  destruct e; try done; cbn [allowed] in Ha; (destruct Ha as [?|[? _]]; [congruence|]); unfold bare in *; intuition congruence.
Qed.

(** When every thread has returned, the registry lists whom it listed before. *)
Lemma inv_all_gone s0 p σs B :
  inv s0 true p σs B -> (forall x, x ∈ p_threads p -> ended x.2) ->
  (forall m, registry_mutex m -> m ∉ k_held (w_kern (p_world p))) /\ forall fd, registered (current_of p) fd <-> registered s0 fd.
Proof.
  intros Hinv Hend.
  assert (Hfin : forall i σ, σs !! i = Some σ -> bare σ /\ h_state σ ≠ Member).
  { intros i σ Hσ. assert (exists x, p_threads p !! i = Some x) as [[fd t] Hi].
    { apply lookup_lt_is_Some. rewrite <- (iv_length _ _ _ _ _ Hinv). by eapply lookup_lt_Some. }
    pose proof (iv_guarded _ _ _ _ _ Hinv _ _ _ _ Hi Hσ) as Hg. pose proof (iv_calm _ _ _ _ _ Hinv eq_refl _ _ Hσ) as Hfl.
    destruct (Hend (fd, t)) as [a Ha]; [by eapply list_elem_of_lookup_2|]. cbn [snd] in Ha. rewrite Ha in Hg. destruct Hg as [Hg|(? & ? & _)]; [congruence|done]. }
  assert (Hno : forall m, registry_mutex m -> m ∉ k_held (w_kern (p_world p))).
  { intros m Hm Hin. apply (iv_held _ _ _ _ _ Hinv m Hm) in Hin as (i & σ & Hσ & Hh). destruct (Hfin _ _ Hσ) as [[Ht Hs] _].
    destruct m; try done; cbn [holds] in Hh; [rewrite Ht in Hh|rewrite Hs in Hh]; by destruct Hh. }
  split; [done|]. intros fd. destruct (inv_between _ _ _ _ _ Hinv (Hno Clients_mutex I)) as [-> _].
  rewrite (so_users _ _ _ (iv_sound _ _ _ _ _ Hinv)). split; [|by left]. intros [?|Hin]; [done|]. exfalso.
  apply list_elem_of_lookup in Hin as [n Hn]. apply lookup_zip_with_Some in Hn as (x & y & [= <- <-] & _ & Hy).
  rewrite list_lookup_fmap in Hy. destruct (σs !! n) as [σ|] eqn:E; [|done]. injection Hy as Hy. by destruct (Hfin _ _ E).
Qed.
