(* ===== verification/CrowdStreams.v ===== *)
(** * The streams of the clients, among many threads

    The second invariant of the interleaved threads, in executions in which
    no call on a mutex and no [send] fails: at any time one thread at most may
    write to the stream of a client, and what the others find there, when
    they get their turn, is a sequence of whole segments. *)

From S2P Require Import Prelude CLib Posix Wp Protocol NetworkIO ClientManager Registry RegistrySpec Sending Threads Crowd CrowdRegistry.

(** What a critical section does to a slot in use, and to its thread. *)
Lemma change_slot fd st b c st' a :
  change fd st b c st' -> 0 <= a -> active (entry b a) = true ->
  active (entry c a) = true /\ socket_fd (entry c a) = socket_fd (entry b a) \/ st' = Gone /\ socket_fd (entry b a) = fd.
Proof.
  intros Hc H0 Hact. destruct (entry_active _ _ H0 Hact) as (e & He & Hee). destruct Hc as [st s|i e0 thread name s Hi Hin _ _|st i e0 s Hi Hin Hfd].
  - by left.
  - left. assert (Z.to_nat a ≠ i) by (intros <-; congruence). unfold add_state.
    change (entry (with_next_id ?n ?x) a) with (entry x a). by rewrite entry_set_ne by by rewrite Nat2Z.id.
  - destruct (decide (Z.to_nat a = i)) as [<-|Hne]; [right; split; [done|congruence]|left]. unfold remove_state. by rewrite entry_set_ne by by rewrite Nat2Z.id.
Qed.

Lemma change_fresh fd st b c st' : change fd st b c st' -> (st' = Fresh -> st = Fresh) /\ (st = Gone -> st' = Gone).
Proof. by destruct 1. Qed.

Section slots.
(** The registry at the beginning. *)
Context {G : Z -> hold -> prog server unit -> Prop} {s0 : server}.
Abbreviation inv := (@inv_with G s0 true).

(** The threads, with what they hold. *)
Definition thread_at (p : pool) (σs : list hold) (i : nat) (fd : Z) (σ : hold) : Prop :=
  (exists t, p_threads p !! i = Some (fd, t)) /\ σs !! i = Some σ.

(** The slot whose mutex a thread holds is that of the socket it writes to. *)
Definition slot_ok (B : server) (fd : Z) (σ : hold) : Prop :=
  forall a f, h_slots σ !! a = Some f -> 0 <= a /\ (active (entry B a) = true /\ socket_fd (entry B a) = f \/ h_state σ = Gone /\ f = fd).

Definition slots_ok (p : pool) (σs : list hold) (B : server) : Prop := forall i fd σ, thread_at p σs i fd σ -> slot_ok B fd σ.

Lemma thread_account p σs i fd σ : thread_at p σs i fd σ -> (fd, h_state σ) ∈ accounts_of (p_threads p) σs.
Proof. intros [[t Hi] Hσ]. eapply list_elem_of_lookup_2. by eapply accounts_at. Qed.

Lemma thread_unique p σs B i j fd σ σ' : inv p σs B -> thread_at p σs i fd σ -> thread_at p σs j fd σ' -> i = j.
Proof. intros Hinv [[t Hi] _] [[t' Hj] _]. eapply NoDup_lookup; [by apply (iv_sockets _ _ _ _ _ Hinv)|by eapply lookup_fst|by eapply lookup_fst]. Qed.

(** A client is registered while its thread says so. *)
Lemma member_registered p σs B i fd σ : inv p σs B -> thread_at p σs i fd σ -> registered B fd -> h_state σ = Member.
Proof.
  intros Hinv Ht Hr. pose proof (iv_sound _ _ _ _ _ Hinv) as Hso. apply (so_users _ _ _ Hso) in Hr as [Hr|Hr].
  - exfalso. eapply (so_strangers _ _ _ Hso); [by eapply thread_account|done].
  - apply list_elem_of_lookup in Hr as [n Hn]. apply lookup_zip_with_Some in Hn as (x & y & [= <- <-] & Hx & Hy).
    destruct Ht as [[t Hi] Hσ]. assert (n = i) as ->. { eapply NoDup_lookup; [by apply (iv_sockets _ _ _ _ _ Hinv)|done|by eapply lookup_fst]. }
    rewrite list_lookup_fmap, Hσ in Hy. by injection Hy.
Qed.

(** Two threads do not write to the same stream. *)
Lemma writes_unique p σs B i j fd fd' σ σ' f :
  inv p σs B -> slots_ok p σs B -> thread_at p σs i fd σ -> thread_at p σs j fd' σ' -> writes fd σ f -> writes fd' σ' f -> i = j.
Proof.
  intros Hinv Hsl Hi Hj Hw Hw'.
  assert (Hcase : forall i fd σ, thread_at p σs i fd σ -> writes fd σ f ->
    (exists a, h_slots σ !! a = Some f /\ 0 <= a /\ active (entry B a) = true /\ socket_fd (entry B a) = f) \/ f = fd /\ h_state σ ≠ Member).
  { intros i1 fd1 σ1 Ht1 [[a Ha]|[-> ?]]; [|right; split; [done|congruence]].
    destruct (Hsl _ _ _ Ht1 _ _ Ha) as [H0 [[? ?]|[? ->]]]; [left; by exists a|right; split; [done|congruence]]. }
  assert (Hmix : forall i fd σ a, thread_at p σs i fd σ -> 0 <= a -> active (entry B a) = true -> socket_fd (entry B a) = fd -> h_state σ = Member).
  { intros i1 fd1 σ1 a Ht1 H0 Ha <-. eapply member_registered; [done|done|by apply entry_registered]. }
  destruct (Hcase _ _ _ Hi Hw) as [(a & Ha & H0 & Hact & Hsock)|[-> Hne]], (Hcase _ _ _ Hj Hw') as [(b & Hb & H0' & Hact' & Hsock')|[Hf' Hne']].
  - assert (a = b) as <-. { apply (entry_socket_inj B); try done; [by apply (so_ok _ _ _ (iv_sound _ _ _ _ _ Hinv))|congruence]. }
    destruct Hi as [_ Hi], Hj as [_ Hj]. apply (iv_exclusive _ _ _ _ _ Hinv i j σ σ' (Send_mutex a)); try done; cbn [holds]; by eexists.
  - exfalso. apply Hne'. eapply Hmix; [done| |done|]; [done|congruence].
  - exfalso. apply Hne. by eapply Hmix.
  - subst fd'. by eapply thread_unique.
Qed.

Lemma thread_cases p σs i fd t' σ' w' j fdj σj :
  (exists t, p_threads p !! i = Some (fd, t)) ->
  thread_at (Pool (<[i := (fd, t')]> (p_threads p)) w') (<[i := σ']> σs) j fdj σj ->
  j = i /\ fdj = fd /\ σj = σ' \/ j ≠ i /\ thread_at p σs j fdj σj.
Proof.
  intros [t Hi] [[tj Hj] Hσj]. cbn [p_threads] in Hj. destruct (update_cases _ _ _ _ _ Hσj) as [[-> ->]|[Hne Hσj']].
  - rewrite list_lookup_insert_eq in Hj by by eapply lookup_lt_Some. injection Hj as <- _. by left.
  - rewrite list_lookup_insert_ne in Hj by done. right. split; [done|]. split; [by exists tj|done].
Qed.

Lemma slots_update p σs B i fd t t' σ σ' w' B' :
  slots_ok p σs B -> p_threads p !! i = Some (fd, t) -> σs !! i = Some σ ->
  slot_ok B' fd σ' -> (forall j fdj σj, j ≠ i -> thread_at p σs j fdj σj -> slot_ok B' fdj σj) ->
  slots_ok (Pool (<[i := (fd, t')]> (p_threads p)) w') (<[i := σ']> σs) B'.
Proof.
  intros Hsl Hi Hσ Hslot Hoth j fdj σj Hj.
  destruct (thread_cases _ _ _ _ _ _ _ _ _ _ (ex_intro _ t Hi) Hj) as [(-> & -> & ->)|[Hne Hj']]; [done|by eapply Hoth].
Qed.

Lemma slots_turn p σs B i fd t t' (e : sys server) (r : ans e) w' σ σ' B' :
  inv p σs B -> slots_ok p σs B -> p_threads p !! i = Some (fd, t) -> σs !! i = Some σ ->
  allowed fd σ e -> mutex_works e r -> moves fd σ (current_of p) e r σ' -> base_after σ B B' e r ->
  slots_ok (Pool (<[i := (fd, t')]> (p_threads p)) w') (<[i := σ']> σs) B'.
Proof.
  intros Hinv Hslo Hi Hσ Hal Hmw Hm Hb. pose proof (iv_calm _ _ _ _ _ Hinv eq_refl _ _ Hσ) as Hfl.
  assert (Ht : thread_at p σs i fd σ) by (split; [by exists t|done]).
  assert (Hsame : h_state σ' = h_state σ -> h_slots σ' = h_slots σ -> B' = B -> slots_ok (Pool (<[i := (fd, t')]> (p_threads p)) w') (<[i := σ']> σs) B').
  { intros Hst Hsl ->. apply (slots_update p σs B i fd t t' σ); try done; [unfold slot_ok; rewrite Hst, Hsl; by eapply Hslo|]. intros j fdj σj _ Hj. by eapply Hslo. }
  assert (Hstill : still e -> slots_ok (Pool (<[i := (fd, t')]> (p_threads p)) w') (<[i := σ']> σs) B').
  { intros Hst. pose proof (still_moves _ _ _ _ _ _ Hst Hm) as ->. apply Hsame; [done|done|by destruct e]. }
  destruct e; try (by apply Hstill); try done; cbn [moves] in Hm.
  - destruct Hm as (b & c & _ & ->). by apply Hsame.
  - cbn [mutex_works] in Hmw. subst r. destruct m as [|a| |]; try done; cbn [moves Z.eqb] in Hm; [subst σ'; by apply Hsame|].
    cbn [base_after] in Hb. subst B'. destruct Hm as [[?|(Htab & Hsl & _ & _ & H0 & Hact)] ->]; [congruence|].
    destruct (iv_table _ _ _ _ _ Hinv _ _ _ _ Hσ Htab) as [HB _]. rewrite HB in *. apply (slots_update p σs B i fd t t' σ); try done.
    + intros a' f Ha'. cbn [with_slots h_slots] in Ha'. rewrite Hsl, insert_empty in Ha'. apply lookup_singleton_Some in Ha' as [<- <-]. auto.
    + intros j fdj σj _ Hj. by eapply Hslo.
  - cbn [mutex_works] in Hmw. subst r. destruct m as [|a| |]; try done; cbn [base_after Z.eqb] in Hb; cbn [moves Z.eqb] in Hm.
    + destruct Hm as (b & c & st' & out' & Htab & Hch & Hun & _ & ->). rewrite Htab in Hb. injection Hb as -> ->.
      destruct (change_fresh _ _ _ _ _ Hch) as [_ Hgone]. apply (slots_update p σs B i fd t t' σ); try done.
      * intros a f Ha. destruct (Hslo _ _ _ Ht _ _ Ha) as [H0 [[Hact <-]|[Hg ->]]]; (split; [done|]); [|right; by auto].
        destruct (change_slot _ _ _ _ _ _ Hch H0 Hact) as [?|[? ?]]; auto.
      * intros j fdj σj Hne Hj a f Ha. destruct (Hslo _ _ _ Hj _ _ Ha) as [H0 [[Hact Hf]|?]]; (split; [done|]); [left|by right].
        destruct (Hun a H0 Hact) as [->|[x Hx]]; [done|]. exfalso. apply Hne. destruct Hj as [_ Hj].
        apply (iv_exclusive _ _ _ _ _ Hinv j i σj σ (Send_mutex a)); try done; cbn [holds]; by eexists.
    + subst B'. destruct Hm as [_ ->]. apply (slots_update p σs B i fd t t' σ); try done.
      * intros b f Hb'. cbn [with_slots h_slots] in Hb'. apply lookup_delete_Some in Hb' as [_ Hb']. by apply (Hslo _ _ _ Ht).
      * intros j fdj σj _ Hj. by eapply Hslo.
  - cbn [base_after] in Hb. subst B'. apply Hsame; [| |done]; subst σ'; by destruct (0 <=? r).
  - cbn [base_after] in Hb. subst B'. apply Hsame; [| |done]; subst σ'; by destruct r as [[|x data]|].
Qed.

End slots.

Section streams.
(** The registry and the streams at the beginning. *)
Context (s0 : server) (out0 : gmap Z bytes).
Abbreviation inv := (inv s0 true).

(** Whole segments have been written to [f], then [out]. *)
Definition emitted (p : pool) (f : Z) (out : bytes) : Prop :=
  exists before, framed before /\ stream (k_out (w_kern (p_world p))) f = stream out0 f ++ before ++ out.

Record streams (p : pool) (σs : list hold) (B : server) : Prop := {
  st_slots : slots_ok p σs B;
  st_one : forall i σ, σs !! i = Some σ -> h_slots σ = ∅ \/ h_state σ ≠ Fresh /\ exists a f, h_slots σ = {[a := f]};
  st_uncut : forall i σ, σs !! i = Some σ -> h_cut σ = false;
  st_written : forall i fd σ f, thread_at p σs i fd σ -> writes fd σ f -> emitted p f (h_out σ);
  st_quiet : forall f, (forall i fd σ, thread_at p σs i fd σ -> ~ writes fd σ f) -> emitted p f []
}.

Lemma emitted_eq p p' f out :
  stream (k_out (w_kern (p_world p'))) f = stream (k_out (w_kern (p_world p))) f -> emitted p f out -> emitted p' f out.
Proof. intros E (b & Hb & H). exists b. split; [done|congruence]. Qed.

Lemma emitted_flush p f out : emitted p f out -> framed out -> emitted p f [].
Proof. intros (b & Hb & H) Ho. exists (b ++ out). split; [by apply framed_app|]. by rewrite H, app_nil_r. Qed.

Lemma writes_dec fd σ f : (h_slots σ = ∅ \/ h_state σ ≠ Fresh /\ exists a g, h_slots σ = {[a := g]}) -> writes fd σ f \/ ~ writes fd σ f.
Proof.
  unfold writes. intros [E|(_ & a & g & E)]; rewrite E; (destruct (decide (f = fd /\ h_state σ = Fresh)); [auto|]).
  - right. intros [[a Ha]|?]; [by rewrite lookup_empty in Ha|done].
  - destruct (decide (f = g)) as [->|Hne]; [left; left; exists a; by rewrite lookup_singleton_eq|].
    right. intros [[b Hb]|?]; [|done]. apply lookup_singleton_Some in Hb as [_ ->]. done.
Qed.

(** The thread [i] goes on. *)
Lemma streams_update p σs B i fd t t' σ σ' w' B' :
  inv p σs B -> streams p σs B -> p_threads p !! i = Some (fd, t) -> σs !! i = Some σ ->
  let p' := Pool (<[i := (fd, t')]> (p_threads p)) w' in
  slots_ok p' (<[i := σ']> σs) B' ->
  (h_slots σ' = ∅ \/ h_state σ' ≠ Fresh /\ exists a f, h_slots σ' = {[a := f]}) -> h_cut σ' = false ->
  (forall f, writes fd σ' f -> emitted p' f (h_out σ')) ->
  (forall f, ~ writes fd σ' f -> writes fd σ f -> emitted p' f []) ->
  (forall f, ~ writes fd σ f -> stream (k_out (w_kern w')) f = stream (k_out (w_kern (p_world p))) f) ->
  streams p' (<[i := σ']> σs) B'.
Proof.
  intros Hinv [Hsl Hone Hunc Hwr Hqu] Hi Hσ p'; subst p'; intros Hslots Hone' Hcut Hw Hend Hsame.
  assert (Ht : thread_at p σs i fd σ) by (split; [by exists t|done]).
  split; [done| | | |].
  - intros j σj Hj. destruct (update_cases _ _ _ _ _ Hj) as [[-> ->]|[Hne Hj']]; [done|by eapply Hone].
  - intros j σj Hj. destruct (update_cases _ _ _ _ _ Hj) as [[-> ->]|[Hne Hj']]; [done|by eapply Hunc].
  - intros j fdj σj f Hj Hwf. destruct (thread_cases _ _ _ _ _ _ _ _ _ _ (ex_intro _ t Hi) Hj) as [(-> & -> & ->)|[Hne Hj']]; [by apply Hw|].
    apply (emitted_eq p); [|by eapply Hwr]. apply Hsame. intros Hwi. apply Hne. by eapply writes_unique.
  - intros f Hnone. assert (Hno : ~ writes fd σ' f).
    { apply (Hnone i). split; [eexists; by apply list_lookup_insert_eq, lookup_lt_Some with (fd, t)|by apply list_lookup_insert_eq, lookup_lt_Some with σ]. }
    destruct (writes_dec fd σ f (Hone _ _ Hσ)) as [Hwf|Hnf]; [by apply Hend|]. apply (emitted_eq p); [by apply Hsame|]. apply Hqu. intros j fdj σj Hj.
    destruct (decide (j = i)) as [->|Hne].
    + destruct Hj as [[tj Hj] Hσj]. by simplify_eq.
    + apply (Hnone j). destruct Hj as [[tj Hj] Hσj]. split; [exists tj|]; cbn [p_threads]; by rewrite list_lookup_insert_ne.
Qed.

(** The registry stays, and the thread may write to the same stream. *)
Lemma streams_same p σs B i fd t t' σ σ' w' :
  inv p σs B -> streams p σs B -> p_threads p !! i = Some (fd, t) -> σs !! i = Some σ ->
  h_state σ' = h_state σ -> h_slots σ' = h_slots σ -> h_cut σ' = false ->
  (h_out σ' = h_out σ /\ k_out (w_kern w') = k_out (w_kern (p_world p)) \/
   exists f data, writes fd σ f /\ h_out σ' = h_out σ ++ data /\ k_out (w_kern w') = app_stream f data (k_out (w_kern (p_world p)))) ->
  streams (Pool (<[i := (fd, t')]> (p_threads p)) w') (<[i := σ']> σs) B.
Proof.
  intros Hinv Hstr Hi Hσ Hst Hsl Hcut Hout. pose proof Hstr as [Hslo Hone Hunc Hwr Hqu].
  assert (Ht : thread_at p σs i fd σ) by (split; [by exists t|done]).
  assert (Hiff : forall f, writes fd σ' f <-> writes fd σ f) by (intros f; unfold writes; by rewrite Hst, Hsl).
  apply (streams_update p σs B i fd t t' σ); try done.
  - apply (slots_update p σs B i fd t t' σ); try done; [unfold slot_ok; rewrite Hst, Hsl; by eapply Hslo|]. intros j fdj σj _ Hj. by eapply Hslo.
  - rewrite Hst, Hsl. by eapply Hone.
  - intros f Hf. apply Hiff in Hf. destruct (Hwr _ _ _ _ Ht Hf) as (b & Hb & E). exists b. split; [done|]. cbn [p_world].
    destruct Hout as [[-> ->]|(f' & data & Hf' & -> & ->)]; [done|].
    assert (f' = f) as ->.
    { destruct (Hone _ _ Hσ) as [E'|(Hne & a & g & E')], Hf as [[a1 H1]|[H1 H2]], Hf' as [[a2 H2']|[H2' H3']]; rewrite ?E' in *; simplify_map_eq; done. }
    rewrite stream_app_eq, E. by rewrite <- !(assoc_L (++)).
  - intros f Hn Hy. by destruct Hn; apply Hiff.
  - intros f Hf. destruct Hout as [[_ ->]|(f' & data & Hf' & _ & ->)]; [done|]. rewrite stream_app_ne; [done|]. by intros ->.
Qed.

(** ** One turn *)

Lemma streams_turn p σs B i fd (t : thread server unit) (e : sys server) (g : ans e -> prog server unit) (r : ans e) w' σ σ' B' :
  inv p σs B -> streams p σs B -> p_threads p !! i = Some (fd, t) -> σs !! i = Some σ ->
  sem e (W (with_errno (t_errno t) (w_env (p_world p))) (w_kern (p_world p))) = (r, w') ->
  mutex_works e r -> transfer_works e r -> allowed fd σ e -> moves fd σ (current_of p) e r σ' -> base_after σ B B' e r ->
  let p' := Pool (<[i := (fd, mk_thread (g r) (e_errno (w_env w')) (sleeps e w'))]> (p_threads p)) w' in
  inv p' (<[i := σ']> σs) B' -> streams p' (<[i := σ']> σs) B'.
Proof.
  intros Hinv Hstr Hi Hσ Hs Hmw Hsw Hal Hm Hb p' Hinv'. pose proof Hstr as [Hslo Hone Hunc Hwr Hqu].
  assert (Ht : thread_at p σs i fd σ) by (split; [by exists t|done]).
  pose proof (Hunc _ _ Hσ) as Hcut. pose proof (iv_calm _ _ _ _ _ Hinv eq_refl _ _ Hσ) as Hfl.
  assert (Hsl' : slots_ok p' (<[i := σ']> σs) B') by (by eapply slots_turn).
  assert (Hstill : still e -> streams p' (<[i := σ']> σs) B').
  { intros Hst. pose proof (still_moves _ _ _ _ _ _ Hst Hm) as ->. pose proof (still_preserves e Hst (W (with_errno (t_errno t) (w_env (p_world p))) (w_kern (p_world p)))) as Hk.
    rewrite Hs in Hk. injection Hk as _ _ Hk. assert (B' = B) as -> by by destruct e. apply (streams_same p σs B i fd t _ σ); try done. by left. }
  destruct e; try (by apply Hstill); try done; cbn [moves] in Hm.
  - (* Put_static *) destruct Hm as (b & c & Hbc & ->). cbn in Hb. subst B'. injection Hs as <- <-. apply (streams_same p σs B i fd t _ σ); try done. by left.
  - (* Mutex_lock *) cbn [mutex_works] in Hmw. subst r. destruct (pthread_cases _ _ _ _ Hs) as [[? _]|(_ & Hk & _)]; [done|].
    assert (Hout : k_out (w_kern w') = k_out (w_kern (p_world p))) by by rewrite Hk.
    destruct m as [|a| |]; try done; cbn [base_after] in Hb; subst B'; cbn [moves Z.eqb] in Hm.
    + subst σ'. apply (streams_same p σs B i fd t _ σ); try done. by left.
    + destruct Hm as [[?|(Htab & Hsl & Hst & Ho & H0 & Hact)] ->]; [congruence|].
      destruct (iv_table _ _ _ _ _ Hinv _ _ _ _ Hσ Htab) as [HB _]. rewrite HB in *. set (f := socket_fd (entry B a)) in *.
      set (σ' := with_slots _ _ _) in *.
      assert (Hwf : forall f', writes fd σ' f' <-> f' = f).
      { intros f'. unfold writes. cbn [σ' with_slots h_slots h_state]. rewrite Hsl, insert_empty. split.
        - intros [[a' Ha']|[_ ?]]; [|done]. by apply lookup_singleton_Some in Ha' as [_ <-].
        - intros ->. left. exists a. by rewrite lookup_singleton_eq. }
      assert (Hat' : thread_at p' (<[i := σ']> σs) i fd σ').
      { split; [eexists; by apply list_lookup_insert_eq, lookup_lt_Some with (fd, t)|by apply list_lookup_insert_eq, lookup_lt_Some with σ]. }
      apply (streams_update p σs B i fd t _ σ); try done.
      * right. split; [done|]. exists a, f. cbn [σ' with_slots h_slots]. by rewrite Hsl, insert_empty.
      * intros f' Hf'. apply Hwf in Hf' as ->. cbn [σ' with_slots h_out]. rewrite Ho. apply (emitted_eq p); [cbn [p_world]; by rewrite Hout|].
        apply Hqu. intros j fdj σj Hj Hwj. destruct (decide (j = i)) as [->|Hne].
        -- destruct Hj as [[tj Hj] Hσj]. simplify_eq. destruct Hwj as [[a' Ha']|[_ ?]]; [|done]. by rewrite Hsl, lookup_empty in Ha'.
        -- apply Hne. eapply (writes_unique p' _ B j i fdj fd σj σ' f); try done; [|by apply Hwf].
           destruct Hj as [[tj Hj] Hσj]. split; [exists tj|]; cbn [p' p_threads]; by rewrite list_lookup_insert_ne.
      * intros f' _ [[a' Ha']|[_ ?]]; [|done]. by rewrite Hsl, lookup_empty in Ha'.
      * intros f' _. by rewrite Hout.
  - (* Mutex_unlock *) cbn [mutex_works] in Hmw. subst r. destruct (pthread_cases _ _ _ _ Hs) as [[? _]|(_ & Hk & _)]; [done|].
    assert (Hout : k_out (w_kern w') = k_out (w_kern (p_world p))) by by rewrite Hk.
    destruct m as [|a| |]; try done; cbn [base_after Z.eqb] in Hb; cbn [moves Z.eqb] in Hm.
    + destruct Hm as (b & c & st' & out' & Htab & Hch & Hun & Hoc & ->). rewrite Htab in Hb. injection Hb as -> ->.
      set (σ' := Hold _ _ _ _ _ _) in *. destruct (change_fresh _ _ _ _ _ Hch) as [Hfresh Hgone].
      assert (Hwf : forall f, writes fd σ' f -> writes fd σ f) by (intros f [?|[? ?]]; [by left|right; auto]).
      apply (streams_update p σs B i fd t _ σ); try done.
      * destruct (Hone _ _ Hσ) as [?|[Hst ?]]; [by left|right]. split; [intros E; by apply Hst, Hfresh|done].
      * intros f Hf. apply (emitted_eq p); [cbn [p_world]; by rewrite Hout|]. cbn [σ' h_out].
        destruct Hoc as [[-> _]|[-> Hfr]]; [by eapply Hwr, Hwf|]. eapply emitted_flush; [by eapply Hwr, Hwf|].
        destruct Hfr as [?|[?|?]]; [congruence|congruence|done].
      * intros f Hnf Hf. apply (emitted_eq p); [cbn [p_world]; by rewrite Hout|]. destruct Hoc as [[_ Hst]|[_ Hfr]].
        -- exfalso. apply Hnf. destruct Hf as [?|[? ?]]; [by left|right]. by auto.
        -- eapply emitted_flush; [by eapply Hwr|]. destruct Hfr as [?|[?|?]]; [congruence|congruence|done].
      * intros f _. by rewrite Hout.
    + subst B'. destruct Hm as [Hfr ->]. destruct (Hone _ _ Hσ) as [E|(Hst & a' & g' & E)].
      { cbn [allowed] in Hal. rewrite E in Hal. by destruct Hal. }
      assert (a' = a) as ->. { cbn [allowed] in Hal. rewrite E in Hal. destruct Hal as [x Hx]. by apply lookup_singleton_Some in Hx as [? _]. }
      set (σ' := with_slots _ _ _) in *.
      assert (Hemp : h_slots σ' = ∅). { cbn [σ' with_slots h_slots]. by rewrite E, delete_singleton_eq. }
      assert (Hnw : forall f, ~ writes fd σ' f). { intros f [[b Hb']|[_ ?]]; [by rewrite Hemp, lookup_empty in Hb'|done]. }
      apply (streams_update p σs B i fd t _ σ); try done.
      * by left.
      * intros f Hf. by destruct (Hnw f).
      * intros f _ Hf. apply (emitted_eq p); [cbn [p_world]; by rewrite Hout|]. eapply emitted_flush; [by eapply Hwr|].
        destruct Hfr as [?|[?|?]]; [congruence|congruence|done].
      * intros f _. by rewrite Hout.
  - (* Send *) destruct (send_cases _ _ _ _ _ Hs) as (_ & _ & Hcase). cbn [base_after] in Hb. subst B'. cbn [transfer_works] in Hsw.
    destruct Hcase as [[-> Hk]|(n & Hn & -> & Hk)].
    + destruct Hsw as [?|[? _]]; lia.
    + cbn [allowed] in Hal. destruct Hal as [?|[_ Hw]]; [congruence|]. rewrite (proj2 (Z.leb_le _ _)) in Hm by lia. rewrite Nat2Z.id, Hcut in Hm.
      apply (streams_same p σs B i fd t _ σ); try done; try by subst σ'.
      * subst σ'. cbn [with_cut h_cut orb]. destruct Hsw as [Hn0|[Hn0 ->]]; [|by rewrite bool_decide_true, andb_false_r].
        by rewrite (proj2 (Z.eqb_neq _ _)) by lia.
      * right. exists fd0, (take n buffer). split_and!; [done|by subst σ'|done].
  - (* Read *) pose proof (read_preserves fd0 length (W (with_errno (t_errno t) (w_env (p_world p))) (w_kern (p_world p)))) as Hk.
    rewrite Hs in Hk. injection Hk as _ _ Hk. cbn [base_after] in Hb. subst B'. cbn [transfer_works] in Hsw. destruct Hsw as (x & data & ->).
    subst σ'. apply (streams_same p σs B i fd t _ σ); try done. by left.
Qed.

(** ** Reachable states *)

Lemma streams_reachable p p' σs B :
  inv p σs B -> streams p σs B -> pool_reachable true true p p' -> exists σs' B', inv p' σs' B' /\ streams p' σs' B'.
Proof.
  intros Hinv Hstr Hr. revert σs B Hinv Hstr. induction Hr as [p|p p1 p2 Hstep Hr IH]; intros σs B Hinv Hstr; [by exists σs, B|].
  destruct Hstep as (i & e & r & Hm & Hs & fd & t & g & w' & Hi & Hp & Hre & Hsem & ->).
  destruct (inv_thread _ _ _ _ _ _ _ _ Hinv Hi) as (σ & Hσ & _).
  apply ready_enabled in Hre.
  destruct (inv_turn s0 true p σs B i fd t e g r w' σ) as (σ' & B' & Ha & Hmv & Hb & Hinv'); try done.
  eapply IH; [exact Hinv'|]. eapply streams_turn; eauto.
Qed.

Lemma streams_initial p :
  k_out (w_kern (p_world p)) = out0 -> inv p (replicate (length (p_threads p)) free_hold) s0 ->
  streams p (replicate (length (p_threads p)) free_hold) s0.
Proof.
  intros Hout Hinv.
  assert (Hfree : forall i σ, replicate (length (p_threads p)) free_hold !! i = Some σ -> σ = free_hold) by (intros i σ Hσ; by apply lookup_replicate in Hσ as [-> _]).
  assert (Hem : forall f, emitted p f []) by (intros f; exists []; split; [apply framed_nil|by rewrite Hout, app_nil_r]).
  split.
  - intros i fd σ [_ Hσ] a f Ha. by rewrite (Hfree _ _ Hσ) in Ha.
  - intros i σ Hσ. left. by rewrite (Hfree _ _ Hσ).
  - intros i σ Hσ. by rewrite (Hfree _ _ Hσ).
  - intros i fd σ f [_ Hσ] _. rewrite (Hfree _ _ Hσ). apply Hem.
  - intros f _. apply Hem.
Qed.

(** Whole segments only in the stream of a client that nobody is writing to. *)
Lemma streams_of_members p σs B a :
  inv p σs B -> streams p σs B -> 0 <= a -> active (entry (current_of p) a) = true ->
  Clients_mutex ∉ k_held (w_kern (p_world p)) -> Send_mutex a ∉ k_held (w_kern (p_world p)) ->
  emitted p (socket_fd (entry (current_of p) a)) [].
Proof.
  intros Hinv Hstr H0 Hact Hc Hs. destruct (inv_between _ _ _ _ _ Hinv Hc) as (HB & Hok & _). rewrite HB in *.
  apply (st_quiet _ _ _ Hstr). intros i fd σ Ht Hw.
  assert (Hmem : fd = socket_fd (entry B a) -> h_state σ = Member).
  { intros ->. eapply member_registered; [done|done|by apply entry_registered]. }
  destruct Hw as [[b Hb]|[E ?]]; [|rewrite Hmem in *; [done|by symmetry]].
  destruct (st_slots _ _ _ Hstr _ _ _ Ht _ _ Hb) as [Hb0 [[Hactb Hsock]|[? E]]]; [|rewrite Hmem in *; [done|by symmetry]].
  assert (b = a) as -> by by apply (entry_socket_inj B). apply Hs, (iv_held _ _ _ _ _ Hinv); [done|].
  exists i, σ. split; [by destruct Ht|]. cbn [holds]. by eexists.
Qed.

(** And everywhere, when every thread has returned. *)
Lemma streams_ended p σs B f :
  inv p σs B -> streams p σs B -> (forall x, x ∈ p_threads p -> ended x.2) -> emitted p f [].
Proof.
  intros Hinv Hstr Hend.
  assert (Hfin : forall i fd σ, thread_at p σs i fd σ -> h_slots σ = ∅ /\ framed (h_out σ)).
  { intros i fd σ [[t Hi] Hσ]. pose proof (iv_guarded _ _ _ _ _ Hinv _ _ _ _ Hi Hσ) as Hg. pose proof (iv_calm _ _ _ _ _ Hinv eq_refl _ _ Hσ) as Hfl.
    pose proof (st_uncut _ _ _ Hstr _ _ Hσ) as Hcut. destruct (Hend (fd, t)) as [a Ha]; [by eapply list_elem_of_lookup_2|]. cbn [snd] in Ha. rewrite Ha in Hg.
    destruct Hg as [Hg|([_ ?] & _ & [?|?])]; [congruence|congruence|done]. }
  destruct (decide ((f, Fresh) ∈ accounts_of (p_threads p) σs)) as [Hin|Hno].
  - apply list_elem_of_lookup in Hin as [i Hi]. apply lookup_zip_with_Some in Hi as (x & y & [= <- <-] & Hx & Hy).
    rewrite list_lookup_fmap in Hx. rewrite list_lookup_fmap in Hy. destruct (p_threads p !! i) as [[fd t]|] eqn:Ei; [|done]. destruct (σs !! i) as [σ|] eqn:Eσ; [|done].
    injection Hx as Hx. injection Hy as Hy. cbn [fst] in Hx. subst f.
    assert (Ht : thread_at p σs i fd σ) by (split; [by exists t|done]). destruct (Hfin _ _ _ Ht) as [_ Hf].
    eapply emitted_flush; [eapply (st_written _ _ _ Hstr); [exact Ht|by right]|done].
  - apply (st_quiet _ _ _ Hstr). intros i fd σ Ht Hw. destruct (Hfin _ _ _ Ht) as [Hs _].
    destruct Hw as [[b Hb]|[-> Hst]]; [by rewrite Hs, lookup_empty in Hb|]. apply Hno. rewrite <- Hst. by eapply thread_account.
Qed.
End streams.
