(* ===== verification/CrowdManager.v ===== *)
(** * The operations of the registry, among many threads

    Every operation of client_manager.c keeps to the discipline of the
    program logic: the proofs follow the code, once per operation. *)

From S2P Require Import Prelude CLib Posix Wp Protocol NetworkIO ClientManager Registry RegistrySpec Sending Threads Crowd.

(** The thread of a registered client, between two operations. *)
Definition member (σ : hold) : Prop := h_flawed σ = true \/ bare σ /\ h_state σ = Member /\ h_out σ = [].

(** A client that is not registered yet. *)
Definition fresh (σ : hold) : Prop :=
  h_flawed σ = false /\ bare σ /\ h_state σ = Fresh /\ (h_cut σ = true \/ framed (h_out σ)).

(** The client is not registered. *)
Definition unknown (σ : hold) : Prop := h_flawed σ = true \/ fresh σ.

Lemma unknown_bare σ : unknown σ -> h_flawed σ = true \/ bare σ.
Proof. intros [?|(_ & ? & _)]; auto. Qed.

Lemma member_bare σ : member σ -> h_flawed σ = true \/ bare σ.
Proof. intros [?|[? _]]; auto. Qed.

Lemma fresh_bare σ : fresh σ -> h_flawed σ = true \/ bare σ.
Proof. intros (_ & ? & _); auto. Qed.

Lemma member_flaw σ : member (flaw σ).
Proof. by left. Qed.

#[export] Hint Resolve member_bare fresh_bare unknown_bare member_flaw : crowd.

(** A slot that a lookup has found. *)
Lemma found_active p s :
  0 <= find_slot (fun e => active e && p e) 0 (clients s) ->
  active (entry s (find_slot (fun e => active e && p e) 0 (clients s))) = true /\
  p (entry s (find_slot (fun e => active e && p e) 0 (clients s))) = true.
Proof.
  intros Hs. destruct (find_slot_cases (fun e => active e && p e) (clients s)) as [[E _]|(j & e & E & Hj & Hp)]; [lia|].
  rewrite E. unfold entry. rewrite Nat2Z.id. rewrite (list_lookup_total_correct _ _ _ Hj). by apply andb_true_iff.
Qed.

Section manager.
Variables (fd : Z) (F : nat).
Abbreviation guarded := (guarded fd).
Abbreviation writes := (writes fd).

(** ** Sending *)

Lemma guarded_send_all_loop fuel f data total σ (Q : Z -> hold -> Prop) :
  h_flawed σ = true \/ h_table σ = None /\ writes σ f -> 0 <= total <= zlen data ->
  (forall out c, c = true \/ c = h_cut σ /\ out = h_out σ ++ drop (Z.to_nat total) data -> Q 0 (with_cut out c σ)) ->
  (forall out, Q (-1) (with_cut out true σ)) ->
  guarded σ (send_all_loop fuel f data total) Q.
Proof.
  revert total σ. induction fuel as [|fuel IH]; intros total σ Hw Ht Hok Hko; [done|]. cbn [send_all_loop].
  destruct (Z.ltb_spec total (zlen data)) as [Hlt|Hge].
  - apply guarded_call_send; [done| |].
    + cbn [Z.ltb Z.compare]. apply guarded_neutral; [done|]. intros err. destruct (err == EINTR); [|apply guarded_ret, Hko].
      apply IH; [done|done| |]; [intros out c Hc; apply Hok|intros out; apply Hko]. cbn [with_cut h_cut] in Hc. destruct Hc as [?|[? _]]; auto.
    + intros n Hn. rewrite length_drop in Hn. rewrite (proj2 (Z.ltb_ge _ _)) by lia.
      destruct (Z.eqb_spec (Z.of_nat n) 0) as [Hz|Hz].
      * apply guarded_ret. replace n with 0%nat by lia. rewrite bool_decide_false, orb_true_r; [apply Hko|].
        intros E. apply (f_equal length) in E. rewrite length_drop in E. unfold zlen in Hlt. cbn in E. lia.
      * cbn [andb]. rewrite orb_false_r. apply IH; [done|unfold zlen in *; lia| |]; [intros out c Hc; apply Hok|intros out; apply Hko].
        cbn [with_cut h_cut h_out] in Hc. destruct Hc as [?|[? ->]]; [auto|right]. split; [done|].
        rewrite <- (assoc_L (++)). f_equal. rewrite Z2Nat.inj_add by lia. rewrite Nat2Z.id, <- drop_drop. by rewrite take_drop.
  - apply guarded_ret. destruct σ as [st t m out fl c]. apply (Hok out c). right. split; [done|].
    rewrite drop_ge by (unfold zlen in *; lia). by rewrite app_nil_r.
Qed.

Lemma guarded_send_all f data σ (Q : Z -> hold -> Prop) :
  h_flawed σ = true \/ h_table σ = None /\ writes σ f ->
  (forall out c, c = true \/ c = h_cut σ /\ out = h_out σ ++ data -> Q 0 (with_cut out c σ)) ->
  (forall out, Q (-1) (with_cut out true σ)) ->
  guarded σ (send_all F f data) Q.
Proof. intros Hw Hok Hko. apply guarded_send_all_loop; [done|pose proof (zlen_nonneg data); lia|exact Hok|exact Hko]. Qed.

(** The frame is sent, or nothing, or a call of [send] has failed. *)
Definition tried (type : Z) (payload : bytes) (σ : hold) (r : Z) (out : bytes) (c : bool) : Prop :=
  r = -1 /\ out = h_out σ /\ c = h_cut σ \/
  sendable type payload /\ (c = true \/ c = h_cut σ /\ r = 0 /\ out = h_out σ ++ frame type payload).

Lemma tried_framed type payload σ r out c : tried type payload σ r out c -> h_cut σ = true \/ framed (h_out σ) -> c = true \/ framed out.
Proof.
  intros [(_ & -> & ->)|[Hs [?|(-> & _ & ->)]]] [?|Hf]; auto. right. apply framed_app; [done|]. by apply framed_segment, segment_frame.
Qed.

(** The frame as two calls of [send_all]. *)
Lemma guarded_two_sends {A} f type payload σ (last p : prog server A) (g : Z -> prog server A) Q :
  sendable type payload -> h_flawed σ = true \/ h_table σ = None /\ writes σ f ->
  (forall r out c, tried type payload σ r out c -> guarded (with_cut out c σ) (g r) Q) ->
  p = (r ← send_all F f (message_header type (strlen payload));
       if r != 0 then g (-1) else if strlen payload == 0 then g 0 else last) ->
  (forall σ, guarded σ (send_all F f payload ≫= g) Q -> guarded σ last Q) ->
  guarded σ p Q.
Proof.
  intros Hs Hw HQ -> Hlast. destruct σ as [st t m out fl c]. set (h := message_header type (strlen payload)).
  apply guarded_bind, guarded_send_all; [done| |intros out1; apply (HQ (-1) out1 true); right; split; [done|by left]].
  intros out1 c1 H1. cbn [Z.eqb negb]. destruct (Z.eqb_spec (strlen payload) 0) as [Hz|_].
  { apply (HQ 0 out1 c1). right. split; [done|]. destruct H1 as [?|[-> ->]]; [by left|right]. split_and!; [done|done|].
    change (frame type payload) with (h ++ payload). rewrite (zlen_zero payload Hz). by rewrite app_nil_r. }
  apply Hlast, guarded_bind, guarded_send_all; [done| |intros out2; apply (HQ (-1) out2 true); right; split; [done|by left]].
  intros out2 c2 H2. apply (HQ 0 out2 c2). right. split; [done|]. destruct H2 as [?|[-> ->]]; [by left|].
  destruct H1 as [?|[-> ->]]; [by left|right]. split_and!; [done|done|]. unfold frame. cbn [with_cut h_out]. by rewrite <- (assoc_L (++)).
Qed.

Lemma guarded_send_message_raw f type payload σ (Q : Z -> hold -> Prop) :
  h_flawed σ = true \/ h_table σ = None /\ writes σ f ->
  (forall r out c, tried type payload σ r out c -> Q r (with_cut out c σ)) ->
  guarded σ (send_message_raw F f type (Some payload)) Q.
Proof.
  intros Hw HQ. unfold send_message_raw.
  assert (Hno : Q (-1) σ) by (destruct σ as [st t m out fl c]; apply (HQ (-1) out c); by left).
  destruct (is_valid_message_type type) eqn:Et; cbn [negb]; [|by apply guarded_ret].
  destruct (Z.ltb_spec MESSAGE_MAX_SIZE (strlen payload)) as [?|Hle]; [by apply guarded_ret|].
  eapply (guarded_two_sends f type payload σ _ _ (fun r => if r != 0 then mret (-1) else mret 0)); [done|done| |done|done].
  intros r out c Ht. case_if; apply guarded_ret, HQ.
  - destruct Ht as [(_ & -> & ->)|[Hs [->|(_ & -> & _)]]]; [by left| |done]. right. split; [done|by left].
  - assert (r = 0) as -> by lia. done.
Qed.

(** ** The stages of an operation on behalf of a registered client *)

(** It has the registry [b]. *)
Definition looking (b : server) (σ : hold) : Prop :=
  h_table σ = Some (b, b) /\ (h_flawed σ = true \/ h_slots σ = ∅ /\ h_state σ = Member /\ h_out σ = []).

(** It has the slot [i], whose socket is [f]. *)
Definition with_slot (i f : Z) (σ : hold) : Prop :=
  h_slots σ !! i = Some f /\ (h_flawed σ = true \/ h_slots σ = {[i := f]} /\ h_state σ = Member).

(** It has both, and has sent nothing yet. *)
Definition looking_at (b : server) (i f : Z) (σ : hold) : Prop :=
  h_table σ = Some (b, b) /\ with_slot i f σ /\ (h_flawed σ = true \/ h_out σ = []).

(** It has the slot only, and has sent [out]. *)
Definition sending (i f : Z) (out : bytes) (σ : hold) : Prop :=
  with_slot i f σ /\ (h_flawed σ = true \/ h_table σ = None /\ (h_cut σ = true \/ h_out σ = out)).

Section stages.
Context {A : Type} (Q : A -> hold -> Prop).
Implicit Types (σ : hold) (b : server) (g : Z -> prog server A).

Lemma stage_lock σ g :
  member σ -> (forall z σ', z ≠ 0 -> member σ' -> guarded σ' (g z) Q) ->
  (forall b σ', registry_ok b -> looking b σ' -> guarded σ' (g 0) Q) ->
  guarded σ (call (Mutex_lock Clients_mutex) ≫= g) Q.
Proof.
  intros Hm Hko Hok. apply guarded_lock_table; [auto with crowd|intros z Hz; by apply Hko; [|left]|].
  intros b Ht [Hreg _]. apply (Hok b); [done|]. split; [done|]. destruct Hm as [?|([_ ?] & ? & ?)]; [by left|by right].
Qed.

Lemma stage_get b σ (g : server -> prog server A) : h_table σ = Some (b, b) -> guarded σ (g b) Q -> guarded σ (call Get_static ≫= g) Q.
Proof. intros Ht Hg. by eapply guarded_get. Qed.

Lemma stage_unlock b σ g :
  looking b σ -> (forall z σ', member σ' -> guarded σ' (g z) Q) -> guarded σ (call (Mutex_unlock Clients_mutex) ≫= g) Q.
Proof.
  intros [Ht Hm] Hg. apply (guarded_unlock_same _ b); [done|intros z _; apply Hg; by left|]. apply Hg.
  destruct Hm as [?|(? & ? & ?)]; [by left|by right].
Qed.

Lemma stage_lock_slot b i σ g :
  looking b σ -> 0 <= i -> active (entry b i) = true ->
  (forall z σ', z ≠ 0 -> looking b σ' -> h_flawed σ' = true -> guarded σ' (g z) Q) ->
  (forall σ', looking_at b i (socket_fd (entry b i)) σ' -> guarded σ' (g 0) Q) ->
  guarded σ (call (Mutex_lock (Send_mutex i)) ≫= g) Q.
Proof.
  intros [Ht Hm] Hi Hact Hko Hok. apply (guarded_lock_slot _ i b b); [done| | |intros z Hz; apply Hko; [done|split; [done|by left]|done]|].
  - destruct Hm as [?|(? & ? & ?)]; auto.
  - destruct Hm as [?|(? & Hst & ?)]; [by left|right]. split_and!; try done. by rewrite Hst.
  - intros _. apply Hok. split; [done|]. cbn [with_slots h_slots h_flawed h_state h_out]. split; [split; [by apply lookup_insert_eq|]|].
    + destruct Hm as [?|(-> & ? & ?)]; [by left|right]. by rewrite insert_empty.
    + destruct Hm as [?|(_ & ? & ?)]; auto.
Qed.

Lemma stage_unlock_table b i f σ g :
  looking_at b i f σ -> (forall z σ', sending i f [] σ' -> guarded σ' (g z) Q) -> guarded σ (call (Mutex_unlock Clients_mutex) ≫= g) Q.
Proof.
  intros (Ht & [Hi Hs] & Ho) Hg. apply (guarded_unlock_same _ b); [done| |].
  - intros z _. apply Hg. split; [split; [done|by left]|by left].
  - apply Hg. split; [by split|]. destruct Ho as [?|?]; auto.
Qed.

(** The result of the deletion is that nothing is held. *)
Lemma slot_deleted i f σ : with_slot i f σ -> h_flawed σ = true \/ delete i (h_slots σ) = ∅ /\ h_state σ = Member.
Proof. intros [_ [?|[-> ?]]]; [by left|right]. by rewrite delete_singleton_eq. Qed.

Lemma stage_unlock_slot i f out σ g :
  sending i f out σ -> framed out -> (forall z σ', member σ' -> guarded σ' (g z) Q) -> guarded σ (call (Mutex_unlock (Send_mutex i)) ≫= g) Q.
Proof.
  intros [Hs Ho] Hf Hg. apply guarded_unlock_slot; [destruct Hs as [-> _]; by eexists| |intros z _; apply Hg; by left|].
  - destruct Ho as [?|[_ [?| ->]]]; auto.
  - apply Hg. destruct (slot_deleted _ _ _ Hs) as [?|[? ?]]; [by left|]. destruct Ho as [?|[? _]]; [by left|right]. by split_and!.
Qed.

Lemma stage_unlock_slot_first b i f σ g :
  looking_at b i f σ -> (forall z σ', looking b σ' -> guarded σ' (g z) Q) -> guarded σ (call (Mutex_unlock (Send_mutex i)) ≫= g) Q.
Proof.
  intros (Ht & Hs & Ho) Hg. apply guarded_unlock_slot; [destruct Hs as [-> _]; by eexists| |intros z _; apply Hg; split; [done|by left]|].
  - destruct Ho as [?| ->]; [by left|]. right. right. apply framed_nil.
  - apply Hg. split; [done|]. destruct (slot_deleted _ _ _ Hs) as [?|[? ?]]; [by left|by right].
Qed.
End stages.

Lemma sending_writes i f out σ : sending i f out σ -> h_flawed σ = true \/ h_table σ = None /\ writes σ f.
Proof. intros [[? _] [?|[? _]]]; [by left|right]. split; [done|]. left. by exists i. Qed.

Lemma stage_send_raw {A} i f type payload out σ (g : Z -> prog server A) Q :
  sending i f out σ ->
  (forall r σ' out', r ≠ 0 /\ out' = out \/ sendable type payload /\ out' = out ++ frame type payload -> sending i f out' σ' -> guarded σ' (g r) Q) ->
  guarded σ (send_message_raw F f type (Some payload) ≫= g) Q.
Proof.
  intros Hs Hg. apply guarded_bind, guarded_send_message_raw; [by eapply sending_writes|]. intros r out1 c Ht. destruct Hs as [Hw Ho].
  destruct Ht as [(-> & -> & ->)|[Hs Ht]].
  - apply (Hg _ _ out); [by left|]. by split.
  - apply (Hg _ _ (out ++ frame type payload)); [by right|]. split; [done|]. destruct Ho as [?|[? Ho]]; [by left|right]. split; [done|].
    cbn [with_cut h_cut h_out]. destruct Ht as [?|(-> & _ & ->)]; [by left|]. destruct Ho as [?| ->]; auto.
Qed.

(** ** The operations *)

(** Ends an operation in which nothing is held any more. *)
Ltac at_rest := intros; first [apply guarded_ret; assumption | case_if; apply guarded_ret; assumption].

(** Takes the registry, or gives up. *)
Ltac take_registry b H Hreg :=
  let z := fresh "z" in let Hz := fresh "Hz" in let σ := fresh "σ" in
  apply stage_lock; [assumption|intros z ? Hz ?; rewrite (proj2 (Z.eqb_neq _ _) Hz); at_rest|];
  intros b σ Hreg H; cbn [Z.eqb negb]; apply (stage_get _ b); [by apply H|].

(** Gives the registry back, and ends. *)
Ltac give_back b := apply (stage_unlock _ b); [assumption|at_rest].

(** From the slot that has been found, to the end. *)
Lemma guarded_send_in_slot b i type payload σ :
  looking b σ -> 0 <= i -> active (entry b i) = true ->
  guarded σ
    (r ← call (Mutex_lock (Send_mutex i));
     if r != 0 then
       _ ← call (Mutex_unlock Clients_mutex);
       mret (-1)
     else
     st ← call Get_static;
     r ← call (Mutex_unlock Clients_mutex);
     if r != 0 then
       _ ← call (Mutex_unlock (Send_mutex i));
       mret (-1)
     else
     result ← send_message_raw F (socket_fd (entry st i)) type payload;
     _ ← call (Mutex_unlock (Send_mutex i));
     mret result) (fun _ => member).
Proof.
  intros Hl Hi Hact. apply (stage_lock_slot _ b); [done|done|done| |].
  { intros z σ2 Hz H2 _. rewrite (proj2 (Z.eqb_neq _ _) Hz). give_back b. }
  intros σ2 H2. cbn [Z.eqb negb]. apply (stage_get _ b); [by apply H2|].
  apply (stage_unlock_table _ b i (socket_fd (entry b i))); [done|]. intros z σ3 H3.
  case_if; [by apply (stage_unlock_slot _ i _ _ _ _ H3 framed_nil); at_rest|].
  destruct payload as [payload|]; [|by apply (stage_unlock_slot _ i _ _ _ _ H3 framed_nil); at_rest].
  eapply stage_send_raw; [exact H3|]. intros r σ4 out Hout H4.
  eapply stage_unlock_slot; [exact H4| |at_rest]. destruct Hout as [[_ ->]|[Hs ->]]; [apply framed_nil|by apply framed_segment, segment_frame].
Qed.

Lemma guarded_to_target i id type payload σ : member σ -> guarded σ (send_to_target F i id type payload) (fun _ => member).
Proof.
  intros Hm. unfold send_to_target. case_if; [by apply guarded_ret|]. take_registry b Hl Hreg. case_if; [give_back b|].
  by apply (guarded_send_in_slot b).
Qed.

Lemma guarded_send f type payload σ : member σ -> guarded σ (client_manager_send F f type payload) (fun _ => member).
Proof.
  intros Hm. unfold client_manager_send. destruct payload as [payload|]; [|by apply guarded_ret]. do 2 (case_if; [by apply guarded_ret|]).
  take_registry b Hl Hreg. unfold find_socket_slot. case_if; [give_back b|].
  apply (guarded_send_in_slot b _ _ (Some payload)); [done|done|by apply found_active].
Qed.

Lemma guarded_send_to_username name type payload σ :
  member σ -> guarded σ (client_manager_send_to_username F name type payload) (fun _ => member).
Proof.
  intros Hm. unfold client_manager_send_to_username. destruct name as [name|], payload as [payload|]; try by apply guarded_ret.
  do 2 (case_if; [by apply guarded_ret|]). take_registry b Hl Hreg. case_if; [give_back b|].
  apply (stage_unlock _ b); [done|]. intros z σ2 H2. case_if; [by apply guarded_ret|]. by apply guarded_to_target.
Qed.

Lemma guarded_broadcast_loop targets type payload n σ : member σ -> guarded σ (broadcast_loop F targets type payload n) (fun _ => member).
Proof.
  revert n σ. induction targets as [|[i id] targets IH]; intros n σ Hm; cbn [broadcast_loop]; [by apply guarded_ret|].
  apply guarded_bind. eapply guarded_mono; [|by apply guarded_to_target]. intros r σ1 H1.
  case_if; [by apply IH|]. case_if; [|by apply IH]. apply guarded_neutral; [done|intros _; by apply IH].
Qed.

Lemma guarded_broadcast sender type payload σ : member σ -> guarded σ (client_manager_broadcast F sender type payload) (fun _ => member).
Proof.
  intros Hm. unfold client_manager_broadcast. destruct payload as [payload|]; [|by apply guarded_ret]. do 2 (case_if; [by apply guarded_ret|]).
  take_registry b Hl Hreg. apply (stage_unlock _ b); [done|]. intros z σ2 H2. case_if; [by apply guarded_ret|].
  apply guarded_bind. eapply guarded_mono; [|by apply guarded_broadcast_loop]. by at_rest.
Qed.

Lemma guarded_userlist size σ : member σ -> guarded σ (client_manager_build_userlist size) (fun _ => member).
Proof.
  intros Hm. unfold client_manager_build_userlist. case_if; [by apply guarded_ret|]. take_registry b Hl Hreg.
  destruct (userlist_loop _ _ _ _) as [[buffer n]|]; give_back b.
Qed.

(** ** Streaming a file *)

(** All but [remaining] bytes of the announced file have been sent. *)
Definition file_part (name : bytes) (size remaining : Z) (out : bytes) : Prop :=
  exists data, zlen data + remaining = size /\ out = frame MSG_RESPONSE (B "DOWNLOAD_READY " ++ name ++ B "|" ++ dec size) ++ data.

Lemma file_part_framed name size out : file_part name size 0 out -> framed out.
Proof. intros (data & Hd & ->). apply framed_segment, segment_file. lia. Qed.

(** Something has gone wrong with what was sent. *)
Lemma sending_cut i f out out' σ : sending i f out σ -> sending i f out' (with_cut (h_out σ) true σ).
Proof. intros [Hw Ho]. split; [done|]. destruct Ho as [?|[? _]]; [by left|right]. split; [done|by left]. Qed.

Lemma guarded_file_stream_loop fuel i f file name size remaining out σ :
  sending i f out σ -> 0 <= remaining -> file_part name size remaining out ->
  guarded σ (file_stream_loop F fuel i f file remaining) (fun _ => member).
Proof.
  revert remaining out σ. induction fuel as [|fuel IH]; intros remaining out σ Hs H0 Hp; [done|]. cbn [file_stream_loop].
  assert (Hend : forall σ, sending i f [] σ -> guarded σ (_ ← call (Mutex_unlock (Send_mutex i)); mret (-1)) (fun _ => member)).
  { intros σ' Hs'. eapply stage_unlock_slot; [exact Hs'|apply framed_nil|at_rest]. }
  case_if; [|assert (remaining = 0) as -> by lia; eapply stage_unlock_slot; [exact Hs|by eapply file_part_framed|at_rest]].
  set (requested := if FILE_CHUNK_SIZE <? remaining then FILE_CHUNK_SIZE else remaining).
  assert (Hreq : 0 <= requested <= remaining) by (unfold requested; case_if; unfold FILE_CHUNK_SIZE in *; lia).
  apply guarded_read; [|by eapply Hend, sending_cut|].
  - apply guarded_neutral; [done|]. intros err. case_if; [eapply IH; [by eapply sending_cut|done|done]|by eapply Hend, sending_cut].
  - intros data Hne Hd. destruct data as [|x data]; [done|]. set (buffer := x :: data) in *.
    assert (Hlen : 0 <= remaining - zlen buffer) by (unfold zlen; lia).
    apply guarded_bind, guarded_send_all; [by eapply sending_writes| |].
    + intros out' c Hc. cbn [Z.eqb negb]. destruct Hs as [Hw Ho].
      apply (IH _ (out ++ buffer)); [|done|].
      * split; [done|]. destruct Ho as [?|[? Ho]]; [by left|right]. split; [done|]. cbn [with_cut h_cut h_out].
        destruct Hc as [?|[-> ->]]; [by left|]. destruct Ho as [?| ->]; auto.
      * destruct Hp as (d & Hd' & ->). exists (d ++ buffer). split; [|by rewrite <- (assoc_L (++))]. rewrite zlen_app. lia.
    + intros out'. cbn [Z.eqb negb]. destruct Hs as [Hw Ho]. apply Hend. split; [done|]. destruct Ho as [?|[? _]]; [by left|right]. split; [done|by left].
Qed.

(** [metadata] announces the file. *)
Lemma guarded_send_file_stream f name size file metadata σ :
  member σ -> metadata = B "DOWNLOAD_READY " ++ name ++ B "|" ++ dec size ->
  0 <= size -> guarded σ (client_manager_send_file_stream F f MSG_RESPONSE (Some metadata) file size) (fun _ => member).
Proof.
  intros Hm Hmd H0. unfold client_manager_send_file_stream. case_if; [by apply guarded_ret|].
  take_registry b Hl Hreg. unfold find_socket_slot. case_if; [give_back b|].
  match goal with H : 0 <= find_slot _ _ _ |- _ => rename H into Hi end. destruct (found_active _ _ Hi) as [Hact Hsock].
  set (i := find_slot _ _ _) in *. cbn [Z.eqb] in Hsock. apply Z.eqb_eq in Hsock.
  apply (stage_lock_slot _ b); [done|done|done| |].
  { intros z σ2 Hz Hla _. rewrite (proj2 (Z.eqb_neq _ _) Hz). give_back b. }
  intros σ2 Hla. cbn [Z.eqb negb]. apply (stage_get _ b); [by apply Hla|]. rewrite Hsock in Hla. case_if.
  { eapply stage_unlock_slot_first; [exact Hla|]. intros z σ3 Hs3. give_back b. }
  apply (stage_unlock_table _ b i f); [done|]. intros z σ3 Hs3.
  case_if; [by apply (stage_unlock_slot _ i _ _ _ _ Hs3 framed_nil); at_rest|].
  eapply stage_send_raw; [exact Hs3|]. intros r σ4 out Hout Hs4. case_if.
  - eapply stage_unlock_slot; [exact Hs4| |at_rest]. destruct Hout as [[_ ->]|[Hs ->]]; [apply framed_nil|by apply framed_segment, segment_frame].
  - destruct Hout as [[? _]|[_ ->]]; [done|]. apply (guarded_file_stream_loop _ _ _ _ name size _ _ _ ) with (1 := Hs4); [done|].
    exists []. split; [done|]. by rewrite Hmd, app_nil_r.
Qed.

(** ** Looking only *)

Lemma guarded_count σ : member σ -> guarded σ client_manager_count (fun _ => member).
Proof. intros Hm. unfold client_manager_count. take_registry b Hl Hreg. give_back b. Qed.

Lemma guarded_contains f σ : member σ -> guarded σ (client_manager_contains f) (fun _ => member).
Proof. intros Hm. unfold client_manager_contains. take_registry b Hl Hreg. give_back b. Qed.

Lemma guarded_username_exists name σ : member σ -> guarded σ (client_manager_username_exists name) (fun _ => member).
Proof.
  intros Hm. unfold client_manager_username_exists. destruct name as [name|]; [|by apply guarded_ret]. case_if; [by apply guarded_ret|].
  take_registry b Hl Hreg. give_back b.
Qed.

Lemma guarded_get_username f size σ : member σ -> guarded σ (client_manager_get_username f size) (fun _ => member).
Proof.
  intros Hm. unfold client_manager_get_username. case_if; [by apply guarded_ret|]. take_registry b Hl Hreg. case_if; give_back b.
Qed.

(** ** Registration and removal *)

(** After an attempt to register the client of the thread. *)
Definition added (r : Z) (σ : hold) : Prop := r < 0 /\ unknown σ \/ 0 < r /\ member σ.

(** After its removal. *)
Definition departed (σ : hold) : Prop := h_flawed σ = true \/ bare σ /\ h_state σ ≠ Member /\ h_out σ = [].

Lemma guarded_add thread name σ : fresh σ -> guarded σ (client_manager_add fd thread name) added.
Proof.
  intros Hf. pose proof Hf as (Hfl & [Htab Hsl] & Hst & Hout).
  assert (Hend : forall r, r < 0 -> guarded σ (mret r) added) by (intros r Hr; apply guarded_ret; left; split; [done|by right]).
  assert (Hback : forall r b, r < 0 -> guarded (with_table (Some (b, b)) σ) (_ ← call (Mutex_unlock Clients_mutex); mret r) added).
  { intros r b Hr. apply (guarded_unlock_same _ b); [done|intros z _; left; split; [done|by left]|]. left. split; [done|right]. by split_and!. }
  unfold client_manager_add. destruct name as [name|]; [|by apply Hend]. case_if; [by apply Hend|].
  apply guarded_lock_table; [auto with crowd| |].
  { intros z Hz. rewrite (proj2 (Z.eqb_neq _ _) Hz). apply guarded_ret. left. split; [done|by left]. }
  intros b _ (Hreg & Hvis & _). destruct (Hvis Hst) as (H0 & Hun & Hid). cbn [Z.eqb negb]. eapply guarded_get; [done|].
  destruct (username_slot_spec b name Hreg) as [[-> Hnew]|(j & e & -> & _)]; [|rewrite (proj2 (Z.leb_le _ _)) by lia; by apply Hback].
  cbn [Z.leb Z.compare]. destruct (free_slot_spec b Hreg) as [[-> _]|(i & e & -> & Hi & Hfree)]; [by apply Hback|].
  rewrite (proj2 (Z.ltb_ge _ _)) by lia. change (with_next_id _ _) with (add_state (Z.of_nat i) fd thread name b).
  set (b' := add_state _ _ _ _ _). eapply guarded_put; [done|]. eapply guarded_get; [done|].
  assert (Hent : client_id (entry b' (Z.of_nat i)) = next_client_id b).
  { unfold entry, b', add_state, set_entry, with_next_id, with_clients. cbn [clients]. rewrite Nat2Z.id.
    rewrite list_lookup_total_insert_eq by by eapply lookup_lt_Some. done. }
  rewrite Hent. pose proof (reg_next b Hreg) as Hpos.
  eapply (guarded_unlock_table _ Member []); [done| | |right; split; [done|by right]|intros z Hz; rewrite (proj2 (Z.eqb_neq _ _) Hz); apply guarded_ret; left; split; [done|by left]|].
  - cbn [with_table h_state]. rewrite Hst. apply (change_add fd i e); [done|done|by apply is_valid_username_iff|done].
  - intros a Ha Hact. left. unfold b', add_state. change (entry (with_next_id ?n ?x) a) with (entry x a). rewrite entry_set_ne; [done|].
    rewrite Nat2Z.id. intros <-. unfold entry in Hact. by rewrite (list_lookup_total_correct _ _ _ Hi), Hfree in Hact.
  - cbn [Z.eqb negb]. apply guarded_ret. right. split; [|by right]. unfold i32. rewrite Z.mod_small; lia.
Qed.

Lemma guarded_remove σ : member σ -> guarded σ (client_manager_remove fd) (fun _ => departed).
Proof.
  intros Hm. unfold client_manager_remove. apply guarded_lock_table; [auto with crowd| |].
  { intros z Hz. rewrite (proj2 (Z.eqb_neq _ _) Hz). apply guarded_ret. by left. }
  intros b Ht (Hreg & _ & Hmem). cbn [Z.eqb negb].
  set (σ1 := with_table _ σ). assert (Hl : looking b σ1). { split; [done|]. destruct Hm as [?|([_ ?] & ? & ?)]; [by left|by right]. }
  apply (stage_get _ b); [done|]. case_if.
  { apply (guarded_unlock_same _ b); [done|intros z _; by left|]. apply guarded_ret. destruct Hm as [?|(_ & Hst & _)]; [by left|exfalso].
    destruct (socket_slot_registered b fd (Hmem Hst)) as (i & e & Hi & _). lia. }
  unfold find_socket_slot in *. match goal with H : 0 <= find_slot _ _ _ |- _ => rename H into Hi end.
  destruct (found_active _ _ Hi) as [Hact Hsock]. set (i := find_slot _ _ _) in *. cbn beta in Hsock. apply Z.eqb_eq in Hsock.
  apply (stage_lock_slot _ b); [done|done|done| |].
  { intros z σ2 Hz Hl2 Hfl. rewrite (proj2 (Z.eqb_neq _ _) Hz). apply (guarded_unlock_same _ b); [by apply Hl2|intros z' _|]; apply guarded_ret; by left. }
  intros σ2 (Htab & [Hslot Hs] & Hout). cbn [Z.eqb negb]. apply (stage_get _ b); [done|]. eapply guarded_put; [done|].
  change (set_entry i _ b) with (remove_state i b).
  eapply (guarded_unlock_table _ Gone []); [done| | |right; split; [done|]| |].
  - destruct (entry_active b i Hi Hact) as (e & He & Hee). rewrite <- (Z2Nat.id i Hi) at 2. rewrite Hee in *. by apply (change_remove fd _ (Z.to_nat i) e).
  - intros a Ha _. destruct (decide (a = i)) as [->|Hne]; [right; cbn [with_table h_slots]; rewrite Hslot; by eexists|left].
    unfold remove_state. apply entry_set_ne. lia.
  - destruct Hout as [?|Ho]; [by left|]. right. right. cbn [with_table h_out]. rewrite Ho. apply framed_nil.
  - intros z Hz. rewrite (proj2 (Z.eqb_neq _ _) Hz). apply guarded_unlock_slot; [cbn [flaw with_table h_slots]; rewrite Hslot; by eexists|by left|intros z' _|]; apply guarded_ret; by left.
  - cbn [Z.eqb negb]. apply guarded_unlock_slot; [cbn [h_slots with_table]; rewrite Hslot; by eexists|right; right; apply framed_nil|intros z' _; apply guarded_ret; by left|].
    apply guarded_ret. destruct Hs as [?|[Hs _]]; [by left|right]. split_and!; [|done|done]. split; [done|]. cbn [with_slots with_table h_slots]. by rewrite Hs, delete_singleton_eq.
Qed.

(** The last look at the registry. *)
Lemma departed_counts σ : departed σ -> guarded σ client_manager_count (fun _ => departed).
Proof.
  intros Hd. unfold client_manager_count. apply guarded_lock_table; [destruct Hd as [?|[? _]]; auto| |].
  { intros z Hz. rewrite (proj2 (Z.eqb_neq _ _) Hz). apply guarded_ret. by left. }
  intros b Ht _. cbn [Z.eqb negb]. eapply guarded_get; [done|].
  apply (guarded_unlock_same _ b); [done|intros z _; by left|]. apply guarded_ret.
  destruct Hd as [?|([_ ?] & ? & ?)]; [by left|right]. by split_and!.
Qed.
End manager.
