(* ===== verification/CrowdServer.v ===== *)
(** * The transfers of a client, among the other threads

    file_manager.c, and what the server uses besides, keep to the discipline
    of the program logic, for any client, any input and any failure. *)

From S2P Require Import Prelude CLib Posix Wp Protocol NetworkIO ClientManager Registry RegistrySpec Sending PerfTimer FileLock Logger FileManager Store Threads Crowd CrowdManager.

(** ** The parts that only use files, clocks, the terminal and the logger *)

Create HintDb still.

(** Walks through the code, with the lemmas about its parts. *)
Ltac solve_still :=
  repeat first
    [ apply calls_ret
    | solve [auto with still]
    | apply calls_call; exact I
    | apply calls_bind; [|intros ?]
    | match goal with |- calls _ (match ?x with _ => _ end) => destruct x end ].

Lemma still_log lvl src text : calls still (log lvl src text).
Proof. unfold log, logger_client_log. solve_still. Qed.
#[export] Hint Resolve still_log : still.

Lemma still_receiving F f n : calls still (recv_all F f n).
Proof. unfold recv_all. generalize (@nil byte). induction F as [|F IH]; intros acc; [done|]. cbn [recv_all_loop]. solve_still. Qed.
#[export] Hint Resolve still_receiving : still.

Lemma still_write_all_file F f data : calls still (write_all_file F f data).
Proof. unfold write_all_file. generalize 0. induction F as [|F IH]; intros n; [done|]. cbn [write_all_loop]. solve_still. Qed.
#[export] Hint Resolve still_write_all_file : still.

Lemma still_lock_loop F f mode : calls still (lock_loop F f mode).
Proof. induction F as [|F IH]; [done|]. cbn [lock_loop]. solve_still. Qed.

Lemma still_unlock_loop F f : calls still (unlock_loop F f).
Proof. induction F as [|F IH]; [done|]. cbn [unlock_loop]. solve_still. Qed.
#[export] Hint Resolve still_lock_loop still_unlock_loop : still.

Lemma still_acquire F name mode : calls still (file_lock_acquire F name mode).
Proof. unfold file_lock_acquire, ensure_lock_directory, open_lock_directory, lock_in_directory, lock_opened_file. solve_still. Qed.

Lemma still_release F f : calls still (file_lock_release F f).
Proof. unfold file_lock_release. solve_still. Qed.
#[export] Hint Resolve still_acquire still_release : still.

Lemma still_timer_start timer : calls still (performance_timer_start timer).
Proof. unfold performance_timer_start. solve_still. Qed.

Lemma still_timer_stop timer : calls still (performance_timer_stop timer).
Proof. unfold performance_timer_stop. solve_still. Qed.
#[export] Hint Resolve still_timer_start still_timer_stop : still.

(** ** Following the code of an operation *)

Create HintDb serve.
#[export] Hint Resolve guarded_send guarded_send_to_username guarded_broadcast guarded_userlist guarded_count : serve.

(** Follows the code: a part of no consequence, an operation of the
    registry, a branch, or the end. *)
Ltac serve_step :=
  first
    [ apply guarded_ret; first [assumption | by left]
    | match goal with |- Crowd.guarded _ _ (mbind _ _) _ => apply guarded_still; [solve [auto with crowd]|solve [solve_still]|intros ?] end
    | apply guarded_still_last; [solve [auto with crowd]|solve [solve_still]|intros ?; assumption]
    | solve [auto with serve]
    | match goal with |- Crowd.guarded _ _ (mbind _ _) _ => apply guarded_bind; eapply guarded_mono; [|solve [auto with serve]]; intros ? ? ? end
    | match goal with
      | |- Crowd.guarded _ _ (match ?x with _ => _ end) _ => destruct x eqn:?
      | |- Crowd.guarded ?fd ?σ (mbind _ (match _ with _ => _ end)) _ =>
          apply guarded_bind; eapply (guarded_mono fd _ σ (fun _ => member)); [intros ? ? ?|]
      end ].
Ltac serve := cbv zeta; repeat serve_step.

Section server.
Context `{Libc}.
Variables (fd : Z) (F : nat).
Abbreviation guarded := (guarded fd).

Lemma still_log_errno lvl src text : calls still (log_errno lvl src text).
Proof. unfold log_errno. solve_still. Qed.
Hint Resolve still_log_errno : still.

Lemma still_ensure_storage : calls still ensure_storage_directory.
Proof. unfold ensure_storage_directory. solve_still. Qed.

Lemma still_open_storage : calls still open_storage_directory.
Proof. unfold open_storage_directory. solve_still. Qed.

Lemma still_temp_name f n : calls still (build_upload_temp_name f n).
Proof. unfold build_upload_temp_name. solve_still. Qed.

Lemma still_start_timer what user file : calls still (start_transfer_timer what user file).
Proof. unfold start_transfer_timer. solve_still. Qed.
Hint Resolve still_ensure_storage still_open_storage still_temp_name still_start_timer : still.

Lemma still_upload_cleanup u s f t timer r : calls still (upload_cleanup F u s f t timer r).
Proof. unfold upload_cleanup, upload_abort_report, upload_remove_temporary. solve_still. Qed.

Lemma still_upload_report u timer : calls still (upload_report u timer).
Proof. unfold upload_report. solve_still. Qed.

Lemma still_upload_receive u file remaining failed : calls still (upload_receive_loop F F u file remaining failed).
Proof.
  generalize F at 2 as fuel. intros fuel. revert remaining failed. induction fuel as [|fuel IH]; intros remaining failed; [done|].
  cbn [upload_receive_loop]. solve_still.
Qed.

Lemma still_download_cleanup d s f r : calls still (download_cleanup F d s f r).
Proof. unfold download_cleanup. solve_still. Qed.

Lemma still_download_report d timer size r : calls still (download_report d timer size r).
Proof. unfold download_report. solve_still. Qed.
Hint Resolve still_upload_cleanup still_upload_report still_upload_receive still_download_cleanup still_download_report : still.

(** ** The operations on behalf of a registered client *)

Lemma guarded_send_error f text σ : member σ -> guarded σ (send_error F f text) (fun _ => member).
Proof. intros Hm. unfold send_error. serve. Qed.
Hint Resolve guarded_send_error : serve.

Lemma guarded_publish u s t σ : member σ -> guarded σ (upload_publish F u s t) (fun _ => member).
Proof. intros Hm. unfold upload_publish. serve. Qed.
Hint Resolve guarded_publish : serve.

Lemma guarded_transfer u s t f σ : member σ -> guarded σ (upload_transfer F u s t f) (fun _ => member).
Proof. intros Hm. unfold upload_transfer. serve. Qed.
Hint Resolve guarded_transfer : serve.

Lemma guarded_upload_prepare u σ : member σ -> guarded σ (upload_prepare F u) (fun _ => member).
Proof. intros Hm. unfold upload_prepare. serve. Qed.
Hint Resolve guarded_upload_prepare : serve.

Lemma guarded_handle_upload f user metadata σ : member σ -> guarded σ (file_manager_handle_upload F f user metadata) (fun _ => member).
Proof. intros Hm. unfold file_manager_handle_upload. serve. Qed.
Hint Resolve guarded_handle_upload : serve.

(** ** Downloads *)

Lemma guarded_download_stream d s f size σ : member σ -> 0 <= size -> guarded σ (download_stream F d s f size) (fun _ => member).
Proof.
  intros Hm H0. unfold download_stream. destruct (sprintf_fit _ _) as [response|] eqn:E; [|serve].
  apply sprintf_fit_Some in E as [E _]. apply guarded_still; [auto with crowd|solve_still|intros timer].
  apply guarded_bind. eapply guarded_mono; [|by eapply guarded_send_file_stream]. intros r σ1 H1. serve.
Qed.

Lemma guarded_download_check d s f σ : member σ -> guarded σ (download_check F d s f) (fun _ => member).
Proof.
  intros Hm. unfold download_check. serve. apply guarded_download_stream; [done|lia].
Qed.
Hint Resolve guarded_download_check : serve.

Lemma guarded_download_open d σ : member σ -> guarded σ (download_open F d) (fun _ => member).
Proof. intros Hm. unfold download_open. serve. Qed.
Hint Resolve guarded_download_open : serve.

Lemma guarded_handle_download f user name σ : member σ -> guarded σ (file_manager_handle_download F f user name) (fun _ => member).
Proof. intros Hm. unfold file_manager_handle_download. serve. Qed.
Hint Resolve guarded_handle_download : serve.

(** ** The file list *)

Lemma guarded_list_loop fuel f directory n σ : member σ -> guarded σ (list_loop F fuel f directory n) (fun _ => member).
Proof. revert n σ. induction fuel as [|fuel IH]; intros n σ Hm; [done|]. cbn [list_loop]. serve. Qed.
Hint Resolve guarded_list_loop : serve.

Lemma guarded_list_entries f user directory σ : member σ -> guarded σ (list_entries F f user directory) (fun _ => member).
Proof. intros Hm. unfold list_entries. serve. Qed.
Hint Resolve guarded_list_entries : serve.

Lemma guarded_handle_list f user σ : member σ -> guarded σ (file_manager_handle_list F f user) (fun _ => member).
Proof. intros Hm. unfold file_manager_handle_list. serve. Qed.
Hint Resolve guarded_handle_list : serve.
End server.

#[export] Hint Resolve still_log_errno still_ensure_storage still_open_storage : still.
#[export] Hint Resolve guarded_handle_upload guarded_handle_download guarded_handle_list : serve.
