(* ===== verification/CrowdHandler.v ===== *)
(** * The thread of a client, among the others

    client_handler.c keeps to the discipline of the program logic, for any
    client, any input and any failure; so what the invariants of the
    interleaved threads promise holds of the server. *)

From S2P Require Import Prelude CLib Posix Wp Protocol NetworkIO ClientManager Registry RegistrySpec Sending PerfTimer FileLock Logger FileManager ClientHandler Threads Discipline Crowd CrowdRegistry CrowdStreams CrowdManager CrowdServer.

Section handler.
Context `{Libc}.
Variables (fd : Z) (F : nat).
Abbreviation guarded := (guarded fd).

(** ** The thread of a client *)

Lemma unknown_finishes {A} (a : A) σ : unknown σ -> finishes a σ.
Proof. intros [?|(_ & ? & Hst & ?)]; [by left|right]. split_and!; [done|by rewrite Hst|done]. Qed.

Lemma departed_finishes {A} (a : A) σ : departed σ -> finishes a σ.
Proof. intros [?|(? & ? & Ho)]; [by left|right]. split_and!; [done|done|right; rewrite Ho; apply framed_nil]. Qed.

Lemma guarded_send_message type payload σ (Q : Z -> hold -> Prop) :
  h_flawed σ = true \/ bare σ /\ h_state σ = Fresh ->
  (forall r out c, (h_cut σ = true \/ framed (h_out σ) -> c = true \/ framed out) -> Q r (with_cut out c σ)) ->
  guarded σ (send_message F fd type payload) Q.
Proof.
  intros Hu HQ. unfold send_message.
  assert (Hno : Q (-1) σ) by (destruct σ as [st t m out fl c]; by apply (HQ (-1) out c)).
  destruct payload as [payload|]; [|by apply guarded_ret].
  destruct (is_valid_message_type type) eqn:Et; cbn [negb]; [|by apply guarded_ret].
  destruct (Z.ltb_spec MESSAGE_MAX_SIZE (strlen payload)) as [?|Hle]; [by apply guarded_ret|].
  eapply (guarded_two_sends fd F fd type payload σ _ _ mret); [by split| | |done|intros σ'; apply follows_last].
  - destruct Hu as [?|[[? _] ?]]; [by left|right]. split; [done|by right].
  - intros r out c Ht. apply guarded_ret, HQ. by apply (tried_framed type payload σ r).
Qed.

Lemma fresh_sends type payload σ : fresh σ -> guarded σ (send_message F fd type payload) (fun _ => fresh).
Proof.
  intros (Hfl & Hb & Hst & Ho). apply guarded_send_message; [right; by split|]. intros r out c Hc. split_and!; auto.
Qed.

Lemma unknown_sends type payload σ : unknown σ -> guarded σ (send_message F fd type payload) (fun _ => unknown).
Proof.
  intros [Hfl|Hf]; [|eapply guarded_mono; [|by apply fresh_sends]; by right]. apply guarded_send_message; [by left|]. intros r out c _. by left.
Qed.


Lemma still_receive_message f n : calls still (receive_message F f n).
Proof. unfold receive_message. solve_still. Qed.
Hint Resolve still_receive_message : still.

(** After [perform_login]. *)
Definition logged (r : Z * bytes) (σ : hold) : Prop := r.1 <= 0 /\ finishes r σ \/ 0 < r.1 /\ member σ.

Lemma unknown_logged r σ : r.1 <= 0 -> unknown σ -> logged r σ.
Proof. intros Hr Hu. left. split; [done|by apply unknown_finishes]. Qed.

Lemma departed_logged r σ : r.1 <= 0 -> departed σ -> logged r σ.
Proof. intros Hr Hu. left. split; [done|by apply departed_finishes]. Qed.

(** Applies the lemma about the next operation. *)
Ltac after lem r σ' H := apply guarded_bind; eapply guarded_mono; [|by apply lem]; cbv beta; intros r σ' H.

(** Goes over a part of no consequence. *)
Ltac pass := apply guarded_still; [solve [auto with crowd]|solve [solve_still]|intros ?].

Lemma guarded_perform_login σ : fresh σ -> guarded σ (perform_login F fd USERNAME_MAX_SIZE) logged.
Proof.
  intros Hf. assert (Hu : unknown σ) by by right.
  assert (Hno : forall z name σ, z <= 0 -> unknown σ -> guarded σ (mret (z, name)) logged) by (intros; apply guarded_ret; by apply unknown_logged).
  assert (Hgone : forall name σ, member σ -> guarded σ (_ ← client_manager_remove fd; mret (-1, name)) logged).
  { intros name σ' Hm. after guarded_remove r σ1 H1. apply guarded_ret. by apply departed_logged. }
  unfold perform_login. change (USERNAME_MAX_SIZE <? USERNAME_MAX_SIZE) with false. cbv iota.
  after fresh_sends r σ1 H1. assert (Hu1 : unknown σ1) by by right. case_if; [pass; by apply Hno|].
  pass. destruct a as [r1|message_type payload]; [pass; by apply Hno|].
  do 2 (case_if; [after unknown_sends r2 σ2 H2; pass; by apply Hno|]). cbv zeta. pass.
  after guarded_add cid σ2 H2. destruct H2 as [[Hr H2]|[Hr H2]].
  - repeat case_if; try lia; (after unknown_sends r3 σ3 H3; pass; by apply Hno).
  - rewrite (proj2 (Z.eqb_neq _ _)), (proj2 (Z.ltb_ge _ _)) by lia. destruct (sprintf_fit _ _) as [response|]; [|by apply Hgone].
    after guarded_send r3 σ3 H3. case_if; [pass; by apply Hgone|]. pass. apply guarded_ret. by right.
Qed.

(** ** The messages of a client *)

Lemma guarded_reply type text σ : member σ -> guarded σ (reply F fd type text) (fun _ => member).
Proof. intros Hm. unfold reply. serve. Qed.
Hint Resolve guarded_reply : serve.

Lemma guarded_chat id name text σ : member σ -> guarded σ (handle_chat F fd id name text) (fun _ => member).
Proof. intros Hm. unfold handle_chat. serve. Qed.

Lemma guarded_private id name text σ : member σ -> guarded σ (handle_private F fd id name text) (fun _ => member).
Proof. intros Hm. unfold handle_private. serve. Qed.

Lemma guarded_list_users name σ : member σ -> guarded σ (handle_list_users F fd name) (fun _ => member).
Proof. intros Hm. unfold handle_list_users. serve. Qed.
Hint Resolve guarded_chat guarded_private guarded_list_users : serve.

Lemma guarded_dispatch id name type text σ : member σ -> guarded σ (dispatch F fd id name type text) (fun _ => member).
Proof. intros Hm. unfold dispatch. serve. Qed.
Hint Resolve guarded_dispatch : serve.

Lemma guarded_client_loop fuel id name σ : member σ -> guarded σ (client_loop F fuel fd id name) (fun _ => member).
Proof.
  revert σ. induction fuel as [|fuel IH]; intros σ Hm; [done|]. cbn [client_loop]. serve.
Qed.

Lemma guarded_connection_end id name σ : member σ -> guarded σ (connection_end fd id name) finishes.
Proof.
  intros Hm. unfold connection_end. after guarded_remove r σ1 H1.
  assert (Hb1 : h_flawed σ1 = true \/ bare σ1) by (destruct H1 as [?|[? _]]; auto). pass.
  after departed_counts n σ2 H2. assert (Hb2 : h_flawed σ2 = true \/ bare σ2) by (destruct H2 as [?|[? _]]; auto).
  apply guarded_still_last; [done|solve_still|intros ?; by apply departed_finishes].
Qed.

(** The thread keeps to the discipline. *)
Lemma guarded_client_handler : guarded free_hold (client_handler F (Some fd)) finishes.
Proof.
  assert (Hf : fresh free_hold) by (split_and!; [done|done|done|right; apply framed_nil]). unfold client_handler.
  pass. pass. pass. after guarded_perform_login r σ1 H1. destruct r as [cid name]. destruct H1 as [[Hle H1]|[Hlt H1]]; cbn [fst] in *.
  - rewrite (proj2 (Z.leb_le _ _)) by done. apply guarded_still_last; [destruct H1 as [?|[? _]]; auto|solve_still|intros ?; exact H1].
  - rewrite (proj2 (Z.leb_gt _ _)) by done. pass. after guarded_client_loop u σ2 H2. by apply guarded_connection_end.
Qed.
End handler.
