(* ===== verification/Service.v ===== *)
(** * The service of one client, and its mutexes

    What is left of a client when its thread ends: nothing in the registry,
    unless a call on a mutex has failed.  Session.v follows the thread through
    its own calls; here the invariant of the interleaved threads, for this
    thread alone, says what the registry and its mutexes are in the end. *)

From S2P Require Import Prelude CLib Posix Wp Protocol NetworkIO ClientManager Registry RegistrySpec Sending PerfTimer FileLock Logger FileManager Store ClientHandler Session Threads Discipline Crowd CrowdRegistry CrowdHandler.

(** No call on a mutex fails in the run of [p] from [w]. *)
Fixpoint mutexes_work {A} (p : prog server A) (w : world server) : bool :=
  match p with
  | Call e g => let '(r, w') := sem e w in works true false e r && mutexes_work (g r) w'
  | _ => true
  end.

(** One thread has its own [errno] only. *)
Lemma own_errno (w : world server) : W (with_errno (e_errno (w_env w)) (w_env w)) (w_kern w) = w.
Proof. by destruct w as [[] k]. Qed.

Section alone.
Context (s0 : server) (fd : Z).

(** The process of this thread alone. *)
Definition alone (q : prog server unit) (asleep : bool) (w : world server) : pool :=
  Pool [(fd, mk_thread q (e_errno (w_env w)) asleep)] w.

(** It never waits for a mutex. *)
Lemma alone_enabled q asleep w σ B e :
  inv s0 true (alone q asleep w) [σ] B -> allowed fd σ e -> enabled e asleep true w = true.
Proof.
  intros Hinv Ha. pose proof (iv_calm _ _ _ _ _ Hinv eq_refl 0%nat σ eq_refl) as Hfl.
  destruct e; try done; cbn [enabled].
  rewrite bool_decide_true; [by rewrite orb_true_r|]. intros Hin.
  assert (Hr : registry_mutex m) by by destruct m. apply (iv_held _ _ _ _ _ Hinv m Hr) in Hin as (i & σ' & Hi & Hh).
  destruct i as [|i]; [injection Hi as <-|done].
  destruct m as [|j| |]; try done; cbn [allowed] in Ha; cbn [holds] in Hh.
  - destruct Ha as [?|[Ht _]]; [congruence|]. rewrite Ht in Hh. by destruct Hh.
  - destruct Ha as [_ [?|Hs]]; [congruence|]. rewrite Hs in Hh. by destruct Hh.
Qed.

(** The run of the thread, as turns of the pool. *)
Lemma alone_run q : forall asleep w σ B a w',
  inv s0 true (alone q asleep w) [σ] B -> mutexes_work q w = true -> run q w = Some (a, w') ->
  exists σ' B' asleep', inv s0 true (alone (Ret a) asleep' w') [σ'] B'.
Proof.
  induction q as [b|e g IH|]; intros asleep w σ B a w' Hinv Hw Hrun; [| |done].
  - injection Hrun as -> ->. by exists σ, B, asleep.
  - cbn [run mutexes_work] in *. destruct (sem e w) as [r w1] eqn:Es. apply andb_true_iff in Hw as [Hw Hw'].
    pose proof (iv_guarded _ _ _ _ _ Hinv 0%nat _ _ σ eq_refl eq_refl) as [Ha _].
    destruct (inv_turn s0 true (alone (Call e g) asleep w) [σ] B 0 fd (mk_thread (Call e g) (e_errno (w_env w)) asleep) e g r w1 σ)
      as (σ' & B' & _ & _ & _ & Hinv'); try done.
    + by eapply alone_enabled.
    + cbn [t_errno alone p_world]. by rewrite own_errno.
    + apply (works_spec true false e r Hw).
    + exact (IH r _ _ _ _ _ _ Hinv' Hw' Hrun).
Qed.
End alone.

Lemma alone_initial fd q en (k : kern server) :
  guarded fd free_hold q finishes -> registry_ok (k_static k) -> 0 <= fd /\ ~ registered (k_static k) fd -> unlocked (k_held k) ->
  next_client_id (k_static k) < 2 ^ 31 - 1 ->
  inv (k_static k) true (alone fd q false (W en k)) [free_hold] (k_static k).
Proof.
  intros Hq Hok Hfd [Hc Hs] Hid. apply (inv_initial true [(fd, mk_thread q (e_errno en) false)] en k).
  - apply NoDup_singleton.
  - intros i f t Hi. destruct i as [|i]; [injection Hi as <- <-|done]. exact Hq.
  - intros [|i| |] Hm; [done|apply Hs|done|done].
  - done.
  - by apply Forall_singleton.
  - change (zlen _) with 1. lia.
Qed.

Section service.
Context `{Libc} (F : nat) (sock : Z).

(** The thread leaves the registry as it was, and its mutexes free. *)
Lemma service_leaves en (k : kern server) a w' :
  registry_ok (k_static k) -> ~ registered (k_static k) sock -> 0 <= sock -> unlocked (k_held k) ->
  next_client_id (k_static k) < 2 ^ 31 - 1 -> mutexes_work (client_handler F (Some sock)) (W en k) = true ->
  run (client_handler F (Some sock)) (W en k) = Some (a, w') ->
  unlocked (k_held (w_kern w')) /\ forall fd, registered (k_static (w_kern w')) fd <-> registered (k_static k) fd.
Proof.
  intros Hok Hnew H0 [Hc Hs] Hid Hw Hrun.
  pose proof (alone_initial sock _ en k (guarded_client_handler sock F) Hok (conj H0 Hnew) (conj Hc Hs) Hid) as Hinv.
  destruct (alone_run (k_static k) sock _ _ _ _ _ _ _ Hinv Hw Hrun) as (σ & B & asleep & Hend).
  destruct (inv_all_gone _ _ _ _ Hend) as [Hno Hreg].
  { intros x Hx. apply list_elem_of_singleton in Hx as ->. by exists a. }
  split; [|done]. split; [by apply Hno|intros i; by apply Hno].
Qed.

(** C11. The thread that serves a client ends, whatever the client sends and
    whatever calls fail.  By then its socket is closed and the table is well
    formed; the users are those it had before and all mutexes of the registry
    are free, unless a call on a mutex has failed: then this client, under a
    name that nobody else had, may still be listed.  Every other client's
    input, descriptor and place are as they were, and it was sent nothing but
    broadcasts and private messages signed with such a name: whole ones, or
    prefixes of them if a call has failed.  No stored file is lost or changed,
    and every new one holds bytes this client sent. *)
Theorem session_is_contained en (k : kern server) :
  accepted F sock en k -> roomy F sock k -> unlocked (k_held k) -> next_client_id (k_static k) < 2 ^ 31 - 1 ->
  runs (client_handler F (Some sock)) (W en k) (fun _ '(W en' k') => session_outcome sock en k en' k' /\
    (mutexes_work (client_handler F (Some sock)) (W en k) = true ->
     users (k_static k') = users (k_static k) /\ unlocked (k_held k'))).
Proof.
  intros Ha Hr Hu Hid. destruct (wp_runs _ _ _ (wp_client_handler F sock en k Ha Hr)) as (a & [en' k'] & Hrun & Ho). cbn [w_env w_kern] in Ho.
  exists a, (W en' k'). split; [done|]. split; [done|]. intros Hw.
  destruct (service_leaves en k a (W en' k') (ac_registry _ _ _ _ Ha) (ac_new _ _ _ _ Ha) (ac_sock _ _ _ _ Ha) Hu Hid Hw Hrun) as [Hfree Hreg].
  split; [|done]. destruct (Session.so_users _ _ _ _ _ Ho) as [?|(_ & user & id & _ & Hl)]; [done|].
  destruct (ac_new _ _ _ _ Ha). apply Hreg. cbn [w_kern].
  assert (Hin : users (k_static k') !! user = Some (sock, id)) by by rewrite Hl, lookup_insert_eq.
  apply users_lookup in Hin as (i & e & ? & ? & _ & ? & _); [by exists i, e|by eapply so_registry].
Qed.
End service.

(** A short [send], and a [recv] that is interrupted. *)
Definition shaky : env := mk_env [Full; Short 2; Full; Fail 4] 0 [] [] [].

(** No mutex fails there. *)
Lemma shaky_mutexes : mutexes_work (client_handler (H := plain_libc) (Z.to_nat 7000) (Some 5)) (W shaky lobby) = true.
Proof. vm_compute. reflexivity. Qed.

Lemma session_is_contained_witness :
  runs (client_handler (H := plain_libc) (Z.to_nat 7000) (Some 5)) (W shaky lobby)
    (fun _ '(W en' k') => session_outcome 5 shaky lobby en' k' /\ users (k_static k') = users (k_static lobby) /\ unlocked (k_held k')).
Proof.
  destruct (session_is_contained (H := plain_libc) (Z.to_nat 7000) 5 shaky lobby) as (a & [en' k'] & Hrun & Ho & Hm);
    [by apply lobby_accepted; vm_compute|split; [apply Nat.ltb_lt|]; by vm_compute|split; set_solver|by vm_compute|].
  exists a, (W en' k'). split; [exact Hrun|]. split; [exact Ho|exact (Hm shaky_mutexes)].
Defined.
