(* ===== verification/Custody.v ===== *)
(** * What a thread has in its keeping

    A second discipline for the threads of the server.  It keeps account of
    the descriptors that a thread has opened and not closed yet, of the
    temporary file of its upload, and of what it has received from its
    client. *)

From S2P Require Import Prelude CLib Posix Wp Protocol NetworkIO ClientManager FileLock Logger FileManager Store Threads Discipline.

(** What an open descriptor is for: the client, a directory, a source of data
    or a lock, or the temporary file that the thread is writing. *)
Inductive use := Socket | Dir (d : path) | Plain | Temporary.

#[export] Instance use_eq_dec : EqDecision use.
Proof. solve_decision. Defined.

(** [o_input]: all it has received; [o_fds]: the descriptors in its keeping;
    [o_temp]: what it has written to the temporary file, if that exists. *)
Record own := Own { o_input : bytes; o_fds : gmap Z use; o_temp : option bytes }.

Definition add_input (s : bytes) (τ : own) : own := Own (o_input τ ++ s) (o_fds τ) (o_temp τ).
Definition with_uses (m : gmap Z use) (τ : own) : own := Own (o_input τ) m (o_temp τ).
Definition with_temp (t : option bytes) (τ : own) : own := Own (o_input τ) (o_fds τ) t.
Definition gain (f : Z) (u : use) (τ : own) : own := with_uses (<[f := u]> (o_fds τ)) τ.
Definition lose (f : Z) (τ : own) : own := with_uses (delete f (o_fds τ)) τ.

Lemma lose_gain f u τ : o_fds τ !! f = None -> lose f (gain f u τ) = τ.
Proof. intros Hf. destruct τ as [inp fds t]. unfold lose, gain, with_uses. cbn in *. by rewrite delete_insert_id. Qed.

(** It is writing no temporary file. *)
Definition not_writing (τ : own) : Prop := forall f, o_fds τ !! f ≠ Some Temporary.

(** The input ends with an upload request for this file, and its data. *)
Definition requested (input name data : bytes) : Prop :=
  exists before payload, input = before ++ message_header MSG_UPLOAD (zlen payload) ++ payload ++ data /\
    parse_upload_metadata (Some (c_str payload)) FILE_NAME_MAX_SIZE = Some (name, zlen data).

(** These calls concern neither descriptors nor files nor input. *)
Definition outside (e : sys server) : Prop :=
  match e with
  | Recv _ _ | Shutdown _ | Open _ _ _ | Openat _ _ _ _ | Close _ | Read _ _ | Write _ _ | Fstat _ | Fstatat_nofollow _ _
  | Mkdir _ _ | Unlink _ | Unlinkat _ _ | Link _ _ | Linkat _ _ _ _ | Fsync _ | Fchmod _ _ | Fdopendir _ | Readdir _
  | Closedir _ | Fcntl_setlk _ _ | Socket_dgram | Sendto _ _ | Socket_stream | Setsockopt _ | Bind _ _ | Bind_path _ _
  | Listen _ _ | Connect _ _ _ | Recvfrom _ _ _ | Accept _ _ => False
  | _ => True
  end.

Section custody.
(** The process, the main thread's identifier, and the socket of the thread;
    [stays] in the part of its code that does not close that socket. *)
Variables (pid self fd : Z) (stays : bool).

(** The name of the temporary file of the thread. *)
Definition temp_name : bytes := B ".upload-" ++ sdec pid ++ B "-" ++ sdec fd ++ B "-" ++ dec self ++ B ".tmp".

Definition creates (fl : Z) : bool := bool_decide (fl = create_flags).

(** A thread uses the descriptors in its keeping, each for its purpose.  It
    makes the two directories, opens files, and locks, without creating
    anything else, creates, fills and removes its own temporary file, and
    publishes it when it is closed and holds what the client has announced. *)
Definition permits (τ : own) (e : sys server) : Prop :=
  match e with
  | Recv f _ => f = fd /\ o_fds τ !! f = Some Socket
  | Open _ fl _ => fl = storage_flags
  | Openat d p fl _ => exists b, o_fds τ !! d = Some (Dir b) /\
      (has fl O_CREAT = false \/
       b = locks_path /\ fl = lock_flags /\ (exists name, filename_ok name /\ p = name ++ B ".lock") \/
       b = storage_path /\ fl = create_flags /\ p = temp_name /\ not_writing τ)
  | Close f | Closedir f => is_Some (o_fds τ !! f) /\ (stays = true -> f ≠ fd)
  | Fstat f | Fsync f | Fcntl_setlk f _ | Sendto f _ => is_Some (o_fds τ !! f)
  | Read f _ => o_fds τ !! f = Some Plain
  | Write f _ | Fchmod f _ => o_fds τ !! f = Some Temporary
  | Fstatat_nofollow d _ | Readdir d | Fdopendir d => exists b, o_fds τ !! d = Some (Dir b)
  | Mkdir p _ => p = FILE_STORAGE_DIRECTORY \/ p = FILE_LOCK_DIRECTORY
  | Unlinkat d p => o_fds τ !! d = Some (Dir storage_path) /\ p = temp_name /\ not_writing τ
  | Linkat d p d' q => o_fds τ !! d = Some (Dir storage_path) /\ d' = d /\ p = temp_name /\ not_writing τ /\ filename_ok q /\
      exists data, o_temp τ = Some data /\ requested (o_input τ) q data
  | Socket_dgram => True
  | _ => outside e
  end.

(** What the answer tells. *)
Definition tells (τ : own) (e : sys server) : ans e -> Prop :=
  match e with
  | Getpid => fun r => r = pid
  | Pthread_self => fun r => r = self
  | Recv _ n => fun r => forall data, r = Some data -> zlen data <= Z.max 0 n
  | Open _ _ _ | Openat _ _ _ _ | Socket_dgram => fun r => r = -1 \/ 0 <= r /\ o_fds τ !! r = None /\ (stays = true -> r ≠ fd)
  | Write _ data => fun r => r = -1 \/ 0 <= r <= zlen data
  | Fdopendir f => fun r => r = -1 \/ r = f
  | _ => fun _ => True
  end.

(** How the account goes on. *)
Definition becomes (τ : own) (e : sys server) : ans e -> own :=
  match e with
  | Recv _ _ => fun r => match r with Some data => add_input data τ | None => τ end
  | Open p _ _ => fun r => if r <? 0 then τ else gain r (Dir (resolve [] p)) τ
  | Openat _ _ fl _ => fun r =>
      if r <? 0 then τ else if creates fl then with_temp (Some []) (gain r Temporary τ) else gain r Plain τ
  | Socket_dgram => fun r => if r <? 0 then τ else gain r Plain τ
  | Close f | Closedir f => fun _ => lose f τ
  | Write _ data => fun r => if r <? 0 then τ else with_temp ((fun d => d ++ take (Z.to_nat r) data) <$> o_temp τ) τ
  | Unlinkat _ _ => fun r => if r == 0 then with_temp None τ else τ
  | _ => fun _ => τ
  end.

(** The program keeps to the discipline, and ends in [Q]. *)
Definition keeps_custody {A} : own -> prog server A -> (A -> own -> Prop) -> Prop :=
  follows permits (fun τ (_ : unit) e r => tells τ e r) (fun τ (_ : unit) e r τ' => τ' = becomes τ e r).

(** ... and leaves everything as it was. *)
Definition unmoved {A} (τ : own) (p : prog server A) : Prop := keeps_custody τ p (fun _ τ' => τ' = τ).

(** ** The rules *)

Section rules.
Context {A : Type}.
Implicit Types (τ : own) (Q : A -> own -> Prop).

Lemma custody_mono (p : prog server A) τ (Q Q' : A -> own -> Prop) :
  (forall a τ, Q a τ -> Q' a τ) -> keeps_custody τ p Q -> keeps_custody τ p Q'.
Proof. apply follows_mono. Qed.

Lemma custody_bind {B} (p : prog server B) (g : B -> prog server A) τ Q :
  keeps_custody τ p (fun a τ => keeps_custody τ (g a) Q) -> keeps_custody τ (p ≫= g) Q.
Proof. apply follows_bind. Qed.

Lemma custody_ret a τ Q : Q a τ -> keeps_custody τ (mret a) Q.
Proof. done. Qed.

Lemma custody_call e (g : ans e -> prog server A) τ Q :
  permits τ e -> (forall r, tells τ e r -> keeps_custody (becomes τ e r) (g r) Q) -> keeps_custody τ (call e ≫= g) Q.
Proof. intros Hp Hg. split; [done|]. intros [] r Hr. eexists. split; [reflexivity|]. by apply Hg. Qed.

Lemma custody_last (p : prog server A) τ Q : keeps_custody τ (p ≫= mret) Q -> keeps_custody τ p Q.
Proof. apply follows_last. Qed.

Lemma custody_unmoved {B} (p : prog server B) (g : B -> prog server A) τ Q :
  unmoved τ p -> (forall a, keeps_custody τ (g a) Q) -> keeps_custody τ (p ≫= g) Q.
Proof. intros Hp Hg. apply custody_bind. eapply follows_mono; [|exact Hp]. intros a τ' ->. apply Hg. Qed.

Lemma custody_unmoved_last (p : prog server A) τ Q : unmoved τ p -> (forall a, Q a τ) -> keeps_custody τ p Q.
Proof. intros Hp HQ. eapply custody_mono; [|exact Hp]. by intros a τ' ->. Qed.

Lemma unmoved_ret (a : A) τ : unmoved τ (mret a).
Proof. done. Qed.

Lemma unmoved_bind {B} (p : prog server B) (g : B -> prog server A) τ :
  unmoved τ p -> (forall a, unmoved τ (g a)) -> unmoved τ (p ≫= g).
Proof. apply custody_unmoved. Qed.

Lemma unmoved_outside (p : prog server A) τ : calls outside p -> unmoved τ p.
Proof.
  intros Hp. apply (follows_calls_last _ _ _ outside); [|done|done]. intros e He. split; [by destruct e|]. intros [] r _. by destruct e.
Qed.
End rules.

Lemma unmoved_call (e : sys server) τ : permits τ e -> (forall r, tells τ e r -> becomes τ e r = τ) -> unmoved τ (call e).
Proof. intros Hp Hb. split; [done|]. intros [] r Hr. eexists. split; [reflexivity|]. by apply Hb. Qed.

(** A part that opens a descriptor, or fails. *)
Definition opens (u : use) (τ : own) : Z -> own -> Prop := fun r τ' =>
  r < 0 /\ τ' = τ \/ 0 <= r /\ o_fds τ !! r = None /\ τ' = gain r u τ.

Lemma custody_opens {A B} (p : prog server A) (g : A -> prog server B) τ Q R :
  keeps_custody τ p R -> (forall a τ', R a τ' -> keeps_custody τ' (g a) Q) -> keeps_custody τ (p ≫= g) Q.
Proof. intros Hp Hg. apply custody_bind. eapply custody_mono; [|exact Hp]. exact Hg. Qed.
End custody.

Create HintDb unmoved.

(** Walks through code that leaves the account as it is. *)
Ltac solve_unmoved :=
  repeat first
    [ apply unmoved_ret
    | solve [auto with unmoved]
    | apply unmoved_call; [first [exact I | left; reflexivity | right; reflexivity | assumption | solve [eauto]]|done]
    | apply unmoved_bind; [|intros ?]
    | match goal with |- unmoved _ _ _ _ _ (match ?x with _ => _ end) => destruct x end ].

(** Walks through code that makes no call of consequence. *)
Ltac solve_outside :=
  intros; apply unmoved_outside; solve_calls.
