(* ===== verification/CustodyServer.v ===== *)
(** * The server keeps to the discipline of custody

    file_lock.c, file_manager.c and client_handler.c, for any client, any
    input and any failure: every descriptor that a thread opens it closes
    itself, once, and it publishes nothing but complete uploads. *)

From S2P Require Import Prelude CLib Posix Wp Protocol NetworkIO ClientManager Registry Sending PerfTimer FileLock Logger FileManager Store Upload ClientHandler Threads Discipline Custody.

(** ** The registry and the clocks *)

Create HintDb outside.

Ltac walk_outside :=
  repeat first
    [ apply calls_ret
    | solve [auto with outside]
    | apply calls_call; exact I
    | apply calls_bind; [|intros ?]
    | match goal with |- calls _ (match ?x with _ => _ end) => destruct x end ].

Section outside.
Variable F : nat.

Lemma outside_send_all f data : calls outside (send_all F f data).
Proof. unfold send_all. generalize 0. induction F as [|n IH]; intros i; [done|]. cbn [send_all_loop]. walk_outside. Qed.
Hint Resolve outside_send_all : outside.

Lemma outside_send_raw f type payload : calls outside (send_message_raw F f type payload).
Proof. unfold send_message_raw. walk_outside. Qed.
Hint Resolve outside_send_raw : outside.

Lemma outside_to_target slot id type payload : calls outside (send_to_target F slot id type payload).
Proof. unfold send_to_target. walk_outside. Qed.
Hint Resolve outside_to_target : outside.

Lemma outside_send f type payload : calls outside (client_manager_send F f type payload).
Proof. unfold client_manager_send. walk_outside. Qed.

Lemma outside_to_username name type payload : calls outside (client_manager_send_to_username F name type payload).
Proof. unfold client_manager_send_to_username. walk_outside. Qed.

Lemma outside_broadcast_loop targets type payload n : calls outside (broadcast_loop F targets type payload n).
Proof. revert n. induction targets as [|[slot id] targets IH]; intros n; cbn [broadcast_loop]; walk_outside. Qed.
Hint Resolve outside_broadcast_loop : outside.

Lemma outside_broadcast f type payload : calls outside (client_manager_broadcast F f type payload).
Proof. unfold client_manager_broadcast. walk_outside. Qed.

Lemma outside_add f thread name : calls outside (client_manager_add f thread name).
Proof. unfold client_manager_add. walk_outside. Qed.

Lemma outside_remove f : calls outside (client_manager_remove f).
Proof. unfold client_manager_remove. walk_outside. Qed.

Lemma outside_count : calls outside client_manager_count.
Proof. unfold client_manager_count. walk_outside. Qed.

Lemma outside_userlist n : calls outside (client_manager_build_userlist n).
Proof. unfold client_manager_build_userlist. walk_outside. Qed.

Lemma outside_timer_start timer : calls outside (performance_timer_start timer).
Proof. unfold performance_timer_start. walk_outside. Qed.

Lemma outside_timer_stop timer : calls outside (performance_timer_stop timer).
Proof. unfold performance_timer_stop. walk_outside. Qed.
End outside.

#[export] Hint Resolve outside_send_all outside_send_raw outside_send outside_to_username outside_broadcast outside_add outside_remove outside_count
  outside_userlist outside_timer_start outside_timer_stop : outside.
#[export] Hint Extern 1 (unmoved _ _ _ _ _ _) => apply unmoved_outside; solve [walk_outside] : unmoved.

Section server.
Context `{Libc}.
Variables (pid self fd : Z) (stays : bool) (F : nat).
Abbreviation keeps_custody := (keeps_custody pid self fd stays).
Abbreviation unmoved := (unmoved pid self fd stays).

(** ** The logger *)

Lemma unmoved_log lvl src text τ : unmoved τ (log lvl src text).
Proof.
  unfold log, logger_client_log. apply unmoved_bind; [|by intros ?]. repeat case_match; try apply unmoved_ret; simplify_eq.
  apply custody_unmoved; [by auto with unmoved|intros z]. cbv zeta. apply custody_call; [done|]. intros r Hr. cbn [tells becomes] in *. case_if.
  - by apply unmoved_ret.
  - destruct Hr as [->|(Hz & Hr & Hne)]; [done|]. change (SUN_PATH_SIZE <=? strlen LOGGER_SOCKET_PATH) with false. cbv iota.
    apply custody_call; [by eexists; apply lookup_insert_eq|]. intros n _. cbn [becomes].
    apply custody_call; [split; [by eexists; apply lookup_insert_eq|done]|]. intros z' _. cbn [becomes]. rewrite lose_gain by done.
    repeat case_if; by apply unmoved_ret.
Qed.
Hint Resolve unmoved_log : unmoved.

Lemma unmoved_log_errno lvl src text τ : unmoved τ (log_errno lvl src text).
Proof. unfold log_errno. solve_unmoved. Qed.
Hint Resolve unmoved_log_errno : unmoved.

Lemma unmoved_send_error f text τ : unmoved τ (send_error F f text).
Proof. unfold send_error. solve_unmoved. Qed.
Hint Resolve unmoved_send_error : unmoved.

(** ** Directories and locks *)

Lemma unmoved_ensure_storage τ : unmoved τ ensure_storage_directory.
Proof. unfold ensure_storage_directory. solve_unmoved. Qed.

Lemma unmoved_ensure_locks τ : unmoved τ ensure_lock_directory.
Proof. unfold ensure_lock_directory. solve_unmoved. Qed.
Hint Resolve unmoved_ensure_storage unmoved_ensure_locks : unmoved.

(** Closing what was opened last. *)
Lemma custody_close_last {A} f u (g : Z -> prog server A) τ Q :
  o_fds τ !! f = None -> (stays = true -> f ≠ fd) -> (forall r, keeps_custody τ (g r) Q) ->
  keeps_custody (gain f u τ) (call (Close f) ≫= g) Q.
Proof.
  intros Hf Hne Hg. apply custody_call; [split; [by eexists; apply lookup_insert_eq|done]|]. intros r _. cbn [becomes]. rewrite lose_gain by done. apply Hg.
Qed.

(** Failing. *)
Lemma custody_fails u τ r : r < 0 -> opens u τ r τ.
Proof. by left. Qed.

Lemma opens_storage τ : keeps_custody τ open_storage_directory (opens (Dir storage_path) τ).
Proof.
  unfold open_storage_directory. apply custody_call; [reflexivity|]. intros r Hr. cbn [tells becomes] in *. rewrite resolve_storage. case_if.
  { apply custody_ret. by left. }
  destruct Hr as [->|(Hz & Hr & Hne)]; [done|]. apply custody_unmoved.
  { apply unmoved_call; [by eexists; apply lookup_insert_eq|done]. }
  intros information. case_if; [|apply custody_ret; by right].
  apply custody_unmoved; [by auto with unmoved|]. intros errno. cbv zeta. apply custody_close_last; [done|done|]. intros z.
  apply custody_unmoved; [by auto with unmoved|]. intros []. apply custody_ret. by left.
Qed.

Lemma opens_lock_loop fuel f mode τ :
  o_fds τ !! f = None -> 0 <= f -> (stays = true -> f ≠ fd) -> keeps_custody (gain f Plain τ) (lock_loop fuel f mode) (opens Plain τ).
Proof.
  intros Hf Hz Hne. induction fuel as [|fuel IH]; [done|]. cbn [lock_loop]. apply custody_unmoved.
  { apply unmoved_call; [by eexists; apply lookup_insert_eq|done]. }
  intros r. case_if; [|apply custody_ret; by right]. apply custody_unmoved; [by auto with unmoved|]. intros errno. case_if; [done|].
  apply custody_close_last; [done|done|]. intros z. apply custody_unmoved; [by auto with unmoved|]. intros []. apply custody_ret. by left.
Qed.

Lemma opens_lock_file f mode τ :
  o_fds τ !! f = None -> 0 <= f -> (stays = true -> f ≠ fd) ->
  keeps_custody (gain f Plain τ) (lock_opened_file F f mode) (opens Plain τ).
Proof.
  intros Hf Hz Hne. unfold lock_opened_file. apply custody_unmoved.
  { apply unmoved_call; [by eexists; apply lookup_insert_eq|done]. }
  intros information. case_if; [|by apply opens_lock_loop].
  apply custody_unmoved; [by auto with unmoved|]. intros errno. cbv zeta. apply custody_close_last; [done|done|]. intros z.
  apply custody_unmoved; [by auto with unmoved|]. intros []. apply custody_ret. by left.
Qed.

Lemma swap_gain d u f u' τ : d ≠ f -> o_fds τ !! d = None -> lose d (gain f u' (gain d u τ)) = gain f u' τ.
Proof.
  intros Hne Hd. destruct τ as [inp fds t]. unfold lose, gain, with_uses. cbn in *. by rewrite delete_insert_ne, delete_insert_id by done.
Qed.

Lemma opens_in_directory d name mode τ :
  o_fds τ !! d = None -> 0 <= d -> (stays = true -> d ≠ fd) -> filename_ok name ->
  keeps_custody (gain d (Dir locks_path) τ) (lock_in_directory F d name mode) (opens Plain τ).
Proof.
  intros Hd Hz Hned Hname. unfold lock_in_directory. destruct (snprintf LOCK_NAME_SIZE (name ++ B ".lock")) as [written lock_name] eqn:Es.
  case_if.
  { apply custody_close_last; [done|done|]. intros z. apply custody_unmoved; [by auto with unmoved|]. intros []. apply custody_ret. by left. }
  assert (lock_name = name ++ B ".lock") as ->.
  { unfold snprintf in Es. injection Es as <- <-. apply take_ge. unfold zlen in *. lia. }
  apply custody_call.
  { exists locks_path. split; [apply lookup_insert_eq|]. right. left. split_and!; [done|done|by exists name]. }
  intros f Hf. cbn [tells becomes] in *. change (creates (O_RDWR ||| O_CREAT ||| O_CLOEXEC ||| O_NOFOLLOW)) with false. cbv iota.
  apply custody_unmoved; [by auto with unmoved|]. intros errno. destruct (Z.ltb_spec f 0) as [Hneg|Hpos].
  - apply custody_close_last; [done|done|]. intros z. rewrite (proj2 (Z.leb_gt _ _)), andb_false_r by done.
    apply custody_unmoved; [by auto with unmoved|]. intros []. apply custody_ret. by left.
  - destruct Hf as [->|(_ & Hf & Hnef)]; [done|]. cbn [gain with_uses o_fds] in Hf. apply lookup_insert_None in Hf as [Hf Hne].
    apply custody_call; [split; [eexists; cbn [gain with_uses o_fds]; by rewrite lookup_insert_ne, lookup_insert_eq|done]|].
    intros z _. cbn [becomes]. rewrite swap_gain by done. case_if.
    + apply custody_close_last; [done|done|]. intros z'. apply custody_ret. by left.
    + by apply opens_lock_file.
Qed.

Lemma opens_lock name mode τ : keeps_custody τ (file_lock_acquire F name mode) (opens Plain τ).
Proof.
  unfold file_lock_acquire. destruct name as [name|]; [|apply custody_unmoved; [by auto with unmoved|intros ?; apply custody_ret; by left]].
  destruct (is_valid_shared_filename (Some name)) eqn:Ev; cbn [negb];
    [|apply custody_unmoved; [by auto with unmoved|intros ?; apply custody_ret; by left]].
  case_if; [apply custody_unmoved; [by auto with unmoved|intros ?; apply custody_ret; by left]|].
  apply custody_unmoved; [by auto with unmoved|]. intros r. case_if; [apply custody_ret; by left|].
  unfold open_lock_directory. apply custody_call; [reflexivity|]. intros d Hd. cbn [tells becomes] in *. rewrite resolve_locks. case_if.
  { apply custody_ret. by left. }
  destruct Hd as [->|(Hz & Hd & Hne)]; [done|]. apply opens_in_directory; [done|done|done|]. by apply is_valid_shared_filename_iff.
Qed.

(** Releasing the lock that was taken first. *)
Lemma custody_release f u τ m :
  0 <= f -> o_fds τ = <[f := u]> m -> m !! f = None -> is_Some (m !! fd) ->
  keeps_custody τ (file_lock_release F f) (fun _ τ' => τ' = with_uses m τ).
Proof.
  intros Hz Hf Hm Hhome. assert (Hne : f ≠ fd) by (intros ->; rewrite Hm in Hhome; by destruct Hhome). unfold file_lock_release. rewrite (proj2 (Z.ltb_ge _ _)) by done.
  assert (Hu : is_Some (o_fds τ !! f)) by (rewrite Hf; eexists; apply lookup_insert_eq).
  apply custody_unmoved.
  { induction F as [|n IH]; [done|]. cbn [unlock_loop]. apply unmoved_bind; [by apply unmoved_call|]. intros r.
    case_if; [|apply unmoved_ret]. apply unmoved_bind; [by auto with unmoved|]. intros errno. case_if; [done|apply unmoved_ret]. }
  intros r. apply custody_unmoved; [by auto with unmoved|]. intros errno. apply custody_call; [done|]. intros z _. cbn [becomes].
  assert (Hl : lose f τ = with_uses m τ) by (unfold lose; by rewrite Hf, delete_insert_id).
  rewrite Hl. repeat case_if; solve [by apply custody_ret|apply custody_unmoved; [by auto with unmoved|intros ?; by apply custody_ret]].
Qed.
(** ** Receiving and storing *)

Lemma custody_recv_all n τ :
  o_fds τ !! fd = Some Socket -> 0 <= n ->
  keeps_custody τ (recv_all F fd n) (fun x τ' => τ' = add_input x.2 τ /\ (x.1 = 0 -> zlen x.2 = n)).
Proof.
  intros Hfd Hn. unfold recv_all. assert (Hτ : τ = add_input [] τ) by (destruct τ; unfold add_input; cbn; by rewrite app_nil_r).
  rewrite Hτ at 1. assert (Hacc : zlen (@nil byte) <= n) by done. revert Hacc. generalize (@nil byte) as acc.
  induction F as [|fuel IH]; intros acc Hacc; [done|]. cbn [recv_all_loop]. case_if; [|apply custody_ret; cbn [fst snd]; split; [done|lia]].
  apply custody_call; [done|]. intros [data|] Hr; cbn [tells becomes] in *.
  - destruct data as [|b data]; [apply custody_ret; cbn [fst snd]; split; [by destruct τ; unfold add_input; cbn; rewrite app_nil_r|done]|].
    specialize (Hr _ eq_refl). replace (add_input (b :: data) (add_input acc τ)) with (add_input (acc ++ b :: data) τ); [apply IH; rewrite zlen_app; lia|].
    unfold add_input. cbn. by rewrite (assoc_L (++)).
  - apply custody_unmoved; [by auto with unmoved|]. intros errno. case_if; [by apply IH|by apply custody_ret].
Qed.

(** A message, or none; the descriptors stay. *)
Definition got (τ : own) (x : received) (τ' : own) : Prop :=
  o_fds τ' = o_fds τ /\
  match x with
  | Received type payload => o_input τ' = o_input τ ++ message_header type (zlen payload) ++ payload
  | Received_failure _ => True
  end.

Lemma custody_receive_message n τ :
  o_fds τ !! fd = Some Socket -> keeps_custody τ (receive_message F fd n) (got τ).
Proof.
  intros Hfd. unfold receive_message. case_if; [by apply custody_ret|].
  eapply custody_opens; [by apply (custody_recv_all 8)|]. intros [result header] τ1 [-> Hr1]. cbn [fst snd] in *. case_if; [by apply custody_ret|].
  assert (Hlen : length header = 8%nat) by (specialize (Hr1 E0); unfold zlen in Hr1; lia).
  repeat (case_if; [solve [apply custody_unmoved; [by apply unmoved_log|intros ?; by apply custody_ret]|by apply custody_ret]|]).
  assert (Hheader : header = message_header (of_be32 (take 4 header)) (of_be32 (drop 4 header))).
  { unfold message_header. rewrite !be32_of_be32; [by rewrite take_drop|rewrite length_drop; lia|rewrite length_take; lia]. }
  pose proof (of_be32_range (drop 4 header) ltac:(rewrite length_drop; lia)). case_if.
  - eapply custody_opens; [by apply custody_recv_all; [|lia]|]. intros [result' payload] τ2 [-> Hr2]. cbn [fst snd] in *.
    case_if; [by apply custody_ret|]. apply custody_ret. split; [done|]. cbv beta iota. rewrite (Hr2 E5), <- Hheader. unfold add_input. cbn [o_input]. by rewrite (assoc_L (++)).
  - apply custody_ret. split; [done|]. cbv beta iota. replace (zlen (@nil byte)) with (of_be32 (drop 4 header)) by (unfold zlen; cbn; lia).
    by rewrite <- Hheader, app_nil_r.
Qed.

Lemma custody_write_all f data d τ :
  o_fds τ !! f = Some Temporary -> o_temp τ = Some d ->
  keeps_custody τ (write_all_file F f data) (fun r τ' => exists n, τ' = with_temp (Some (d ++ take n data)) τ /\ (r = 0 -> take n data = data)).
Proof.
  intros Hf Hd. unfold write_all_file.
  assert (Hτ : τ = with_temp (Some (d ++ take 0 data)) τ) by (destruct τ; unfold with_temp; cbn in *; by rewrite app_nil_r, Hd).
  rewrite Hτ at 1. change (write_all_loop true F f data 0) with (write_all_loop (S := server) true F f data (Z.of_nat 0)). generalize 0%nat as n. induction F as [|fuel IH]; intros n; [done|].
  cbn [write_all_loop]. case_if; [|apply custody_ret; exists n; split; [done|intros _; apply take_ge; unfold zlen in *; lia]].
  apply custody_call; [done|]. intros r Hr. cbn [tells becomes] in *. rewrite Nat2Z.id in *. case_if.
  - apply custody_unmoved; [by auto with unmoved|]. intros errno. case_if; [apply IH|]. apply custody_ret. by exists n.
  - destruct Hr as [->|Hr]; [done|]. cbn [with_temp o_temp fmap option_fmap option_map].
    replace (with_temp (Some ((d ++ take n data) ++ take (Z.to_nat r) (drop n data))) (with_temp (Some (d ++ take n data)) τ))
      with (with_temp (Some (d ++ take (n + Z.to_nat r) data)) τ) by (unfold with_temp; cbn; by rewrite <- take_add_drop, (assoc_L (++))).
    case_if.
    + subst r. rewrite Nat.add_0_r. apply custody_unmoved; [by auto with unmoved|]. intros _. apply custody_ret. by exists n.
    + replace (Z.of_nat n + r) with (Z.of_nat (n + Z.to_nat r)) by lia. apply IH.
Qed.
(** ** Leaving an upload *)

(** The descriptor [f], when it is open, besides those of [m]. *)
Definition part (f : Z) (u : use) (m : gmap Z use) : gmap Z use := if 0 <=? f then <[f := u]> m else m.
Definition apart (f : Z) (m : gmap Z use) : Prop := 0 <= f -> m !! f = None.

(** What a thread has between two requests: its client. *)
Definition at_home : gmap Z use := {[fd := Socket]}.
Definition serving (τ : own) : Prop := o_fds τ = at_home.

(** What it has besides while it serves one: a lock, then the directory. *)
Definition locked (lock : Z) : gmap Z use := <[lock := Plain]> at_home.
Definition opened (lock storage_fd : Z) : gmap Z use := part storage_fd (Dir storage_path) (locked lock).

(** The client is always there. *)
Lemma at_home_client : is_Some (at_home !! fd).
Proof. eexists. apply lookup_singleton_eq. Qed.

Lemma locked_client lock : is_Some (locked lock !! fd).
Proof. unfold locked. apply lookup_insert_is_Some'. right. apply at_home_client. Qed.

Lemma opened_client lock storage_fd : is_Some (opened lock storage_fd !! fd).
Proof. unfold opened, part. case_if; [apply lookup_insert_is_Some'; right|]; apply locked_client. Qed.

Lemma part_closed u m : part (-1) u m = m.
Proof. done. Qed.

Lemma apart_closed m : apart (-1) m.
Proof. unfold apart. lia. Qed.

(** [if (fd >= 0) { if (close(fd) != 0) { log } }] *)
Lemma custody_close_part {A} f u m text (g : unit -> prog server A) τ Q :
  o_fds τ = part f u m -> apart f m -> is_Some (m !! fd) -> keeps_custody (with_uses m τ) (g tt) Q ->
  keeps_custody τ ((if 0 <=? f then
       r ← call (Close f);
       if r != 0 then log LOG_WARN FILE_MANAGER text else mret tt
     else mret tt) ≫= g) Q.
Proof.
  unfold part, apart. intros Hf Ha Hhome Hg. destruct (Z.leb_spec 0 f) as [Hz|Hz].
  - assert (Hne : f ≠ fd) by (intros ->; rewrite Ha in Hhome by done; by destruct Hhome).
    apply custody_bind, custody_call; [cbn [permits]; rewrite Hf; split; [eexists; apply lookup_insert_eq|done]|]. intros r _. cbn [becomes].
    assert (Hl : lose f τ = with_uses m τ) by (unfold lose; by rewrite Hf, delete_insert_id by auto). rewrite Hl.
    apply custody_unmoved_last; [solve_unmoved|]. by intros [].
  - replace τ with (with_uses m τ) by (destruct τ; unfold with_uses; cbn in *; by subst). exact Hg.
Qed.

Lemma opened_storage lock storage_fd : 0 <= storage_fd -> opened lock storage_fd !! storage_fd = Some (Dir storage_path).
Proof. intros Hz. unfold opened, part. rewrite (proj2 (Z.leb_le _ _)) by done. apply lookup_insert_eq. Qed.

Lemma part_lookup f u m g v : part f u m !! g = Some v -> 0 <= f /\ g = f /\ v = u \/ m !! g = Some v.
Proof. unfold part. case_if; [|by right]. intros Hg. apply lookup_insert_Some in Hg as [[<- <-]|[_ ?]]; [left; by split_and!|by right]. Qed.

Lemma locked_lookup lock g v : locked lock !! g = Some v -> v = Plain \/ v = Socket.
Proof. unfold locked, at_home. intros Hg. apply lookup_insert_Some in Hg as [[_ <-]|[_ Hg]]; [by left|]. apply lookup_singleton_Some in Hg as [_ <-]. by right. Qed.

Lemma opened_not_writing lock storage_fd τ : o_fds τ = opened lock storage_fd -> not_writing τ.
Proof. intros Hf f Hw. rewrite Hf in Hw. apply part_lookup in Hw as [(_ & _ & ?)|Hw]; [done|]. by destruct (locked_lookup _ _ _ Hw). Qed.

(** Nothing else: for the report and the removal of the temporary file. *)
Lemma custody_remove_temporary {A} u storage_fd temporary lock (g : unit -> prog server A) τ Q :
  o_fds τ = opened lock storage_fd -> temporary = None \/ temporary = Some (temp_name pid self fd) ->
  (forall t, keeps_custody (with_temp t τ) (g tt) Q) ->
  keeps_custody τ (upload_remove_temporary u storage_fd temporary ≫= g) Q.
Proof.
  intros Hf Ht Hg. assert (Hsame : keeps_custody τ (g tt) Q) by (specialize (Hg (o_temp τ)); by destruct τ).
  unfold upload_remove_temporary. destruct Ht as [->| ->]; [exact Hsame|]. case_if; [|exact Hsame].
  apply custody_bind, custody_call.
  { split_and!; [rewrite Hf; by apply opened_storage|done|by eapply opened_not_writing]. }
  intros r _. cbn [becomes]. apply custody_unmoved; [by auto with unmoved|]. intros errno.
  apply custody_unmoved_last; [solve_unmoved|]. intros []. case_if; [apply Hg|exact Hsame].
Qed.

Lemma custody_upload_cleanup u storage_fd file_fd temporary timer r τ :
  0 <= u_lock u -> apart (u_lock u) at_home -> apart storage_fd (locked (u_lock u)) -> apart file_fd (opened (u_lock u) storage_fd) ->
  o_fds τ = part file_fd Temporary (opened (u_lock u) storage_fd) -> temporary = None \/ temporary = Some (temp_name pid self fd) ->
  keeps_custody τ (upload_cleanup F u storage_fd file_fd temporary timer r) (fun _ => serving).
Proof.
  intros Hl Hal Has Haf Hf Ht. unfold upload_cleanup. apply custody_unmoved.
  { unfold upload_abort_report. solve_unmoved. }
  intros _. eapply custody_close_part; [exact Hf|done|apply opened_client|]. eapply custody_remove_temporary; [done|done|]. intros t.
  eapply custody_close_part; [reflexivity|done|apply locked_client|].
  eapply custody_opens; [eapply custody_release; [done|reflexivity|by apply Hal|apply at_home_client]|]. intros z τ' ->.
  apply custody_unmoved; [solve_unmoved|]. intros []. by apply custody_ret.
Qed.
(** ** Uploads *)

(** The input ends with a request to upload this file, of this size. *)
Definition asked (input name : bytes) (size : Z) : Prop :=
  exists before payload, input = before ++ message_header MSG_UPLOAD (zlen payload) ++ payload /\
    parse_upload_metadata (Some (c_str payload)) FILE_NAME_MAX_SIZE = Some (name, size).

Lemma asked_requested input name size data : asked input name size -> zlen data = size -> requested (input ++ data) name data.
Proof.
  intros (before & payload & -> & Hp) <-. exists before, payload. split; [|done]. by rewrite !(assoc_L (++)).
Qed.

Lemma custody_upload_receive u fuel f remaining failed d τ :
  u_socket u = fd -> o_fds τ !! fd = Some Socket -> o_fds τ !! f = Some Temporary -> o_temp τ = Some d -> 0 <= remaining ->
  keeps_custody τ (upload_receive_loop F fuel u f remaining failed) (fun x τ' => o_fds τ' = o_fds τ /\
    match x with
    | Some failed' => exists data d', zlen data = remaining /\ o_input τ' = o_input τ ++ data /\ o_temp τ' = Some d' /\
        (failed' = false -> failed = false /\ d' = d ++ data)
    | None => True
    end).
Proof.
  intros Hu. revert remaining failed d τ. induction fuel as [|fuel IH]; intros remaining failed d τ Hfd Hf Hd Hr; [done|].
  cbn [upload_receive_loop]. case_if.
  2:{ apply custody_ret. split; [done|]. exists [], d. rewrite !app_nil_r. split_and!; [unfold zlen; cbn; lia|done|done|auto]. }
  cbv zeta. set (chunk := if FILE_CHUNK_SIZE <? remaining then FILE_CHUNK_SIZE else remaining).
  assert (Hchunk : 0 <= chunk <= remaining) by (unfold chunk, FILE_CHUNK_SIZE; case_if; lia).
  rewrite Hu. eapply custody_opens; [by apply custody_recv_all; [|lia]|]. intros [result data] τ1 [-> Hlen]. cbn [fst snd] in *.
  case_if; [apply custody_unmoved; [by apply unmoved_log|intros _; by apply custody_ret]|]. specialize (Hlen E0).
  assert (Hgo : forall failed' d' τ', o_fds τ' = o_fds τ -> o_input τ' = o_input τ ++ data -> o_temp τ' = Some d' ->
    (failed' = false -> failed = false /\ d' = d ++ data) ->
    keeps_custody τ' (upload_receive_loop F fuel u f (remaining - chunk) failed') (fun x τ' => o_fds τ' = o_fds τ /\
      match x with
      | Some failed' => exists data d', zlen data = remaining /\ o_input τ' = o_input τ ++ data /\ o_temp τ' = Some d' /\
          (failed' = false -> failed = false /\ d' = d ++ data)
      | None => True
      end)).
  { intros failed' d' τ' Hf' Hi' Ht' Hw. eapply custody_mono; [|apply (IH _ _ d'); [by rewrite Hf'|by rewrite Hf'|done|lia]].
    intros x τ2 [Hf2 Hx]. split; [congruence|]. destruct x as [failed2|]; [|done]. destruct Hx as (data2 & d2 & Hl2 & Hi2 & Ht2 & Hw2).
    exists (data ++ data2), d2. rewrite zlen_app, Hi2, Hi', <- (assoc_L (++)). split_and!; [lia|done|done|].
    intros E1. destruct (Hw2 E1) as [E2 ->]. destruct (Hw E2) as [-> ->]. by rewrite (assoc_L (++)). }
  destruct failed; cbn [negb]; [by apply (Hgo true d)|]. apply custody_bind.
  eapply custody_opens; [by apply (custody_write_all f data d)|]. intros r τ2 (n & -> & Hn). case_if.
  - apply custody_unmoved; [by apply unmoved_log_errno|]. intros _. apply custody_ret. by apply (Hgo true (d ++ take n data)).
  - apply custody_ret. apply (Hgo false (d ++ data)); [done|done| |done]. cbn [with_temp o_temp]. by rewrite (Hn E1).
Qed.

(** What an upload has opened before the temporary file. *)
Record uploading (u : upload) (storage_fd : Z) : Prop := {
  up_socket : u_socket u = fd;
  up_name : filename_ok (u_filename u);
  up_size : 0 <= u_size u;
  up_lock : 0 <= u_lock u /\ apart (u_lock u) at_home;
  up_storage : apart storage_fd (locked (u_lock u))
}.

Lemma custody_upload_leave u storage_fd temporary timer r τ :
  uploading u storage_fd -> o_fds τ = opened (u_lock u) storage_fd -> temporary = None \/ temporary = Some (temp_name pid self fd) ->
  keeps_custody τ (upload_cleanup F u storage_fd (-1) temporary timer r) (fun _ => serving).
Proof. intros [_ _ _ [Hl Ha] Hs] Hf Ht. apply custody_upload_cleanup; by try apply apart_closed. Qed.

(** The upload is refused. *)
Lemma custody_upload_refuse u storage_fd temporary timer text τ :
  uploading u storage_fd -> o_fds τ = opened (u_lock u) storage_fd -> temporary = None \/ temporary = Some (temp_name pid self fd) ->
  keeps_custody τ (result ← send_error F (u_socket u) text; upload_cleanup F u storage_fd (-1) temporary timer result) (fun _ => serving).
Proof. intros Hu Hf Ht. apply custody_unmoved; [by apply unmoved_send_error|]. intros result. by apply custody_upload_leave. Qed.

Lemma custody_publish u storage_fd data τ :
  uploading u storage_fd -> 0 <= storage_fd -> o_fds τ = opened (u_lock u) storage_fd -> o_temp τ = Some data ->
  requested (o_input τ) (u_filename u) data ->
  keeps_custody τ (upload_publish F u storage_fd (temp_name pid self fd)) (fun _ => serving).
Proof.
  intros Hu Hz Hf Hd Hreq. unfold upload_publish. cbv zeta.
  assert (Hs : o_fds τ !! storage_fd = Some (Dir storage_path)) by (rewrite Hf; by apply opened_storage).
  assert (Hw : not_writing τ) by by eapply opened_not_writing.
  apply custody_call; [split_and!; [done|done|done|done|by apply up_name in Hu|by exists data]|]. intros r _. cbn [becomes]. case_if.
  - apply custody_unmoved; [by auto with unmoved|]. intros errno. case_if.
    + apply custody_upload_refuse; auto.
    + apply custody_unmoved; [by apply unmoved_log|]. intros _. apply custody_upload_refuse; auto.
  - apply custody_call; [done|]. intros z _. cbn [becomes]. set (τ1 := if z == 0 then with_temp None τ else τ).
    assert (Hf1 : o_fds τ1 = opened (u_lock u) storage_fd) by (unfold τ1; by case_if).
    eapply (custody_opens _ _ _ _ _ _ _ _ (fun t τ' => τ' = τ1 /\ (t = None \/ t = Some (temp_name pid self fd)))).
    { destruct (z == 0); [apply custody_ret; auto|]. apply custody_unmoved; [by apply unmoved_log_errno|]. intros _. apply custody_ret. auto. }
    intros temporary τ2 [-> Ht]. destruct (sprintf_fit _ _) as [response|]; [|by apply custody_upload_leave].
    apply custody_unmoved; [by auto with unmoved|]. intros r2.
    case_if; (apply custody_unmoved; [by apply unmoved_log|]; intros _; by apply custody_upload_leave).
Qed.

(** Closing the temporary file. *)
Lemma opened_file_closed u f m τ : o_fds τ = part f u m -> 0 <= f -> apart f m -> lose f τ = with_uses m τ.
Proof. intros Hf Hz Ha. unfold lose. rewrite Hf. unfold part. rewrite (proj2 (Z.leb_le _ _)) by done. by rewrite delete_insert_id by auto. Qed.

Lemma custody_transfer u storage_fd f τ :
  uploading u storage_fd -> 0 <= storage_fd -> 0 <= f -> apart f (opened (u_lock u) storage_fd) ->
  o_fds τ = part f Temporary (opened (u_lock u) storage_fd) -> o_temp τ = Some [] -> asked (o_input τ) (u_filename u) (u_size u) ->
  keeps_custody τ (upload_transfer F u storage_fd (temp_name pid self fd) f) (fun _ => serving).
Proof.
  intros Hu Hz Hzf Haf Hf Ht Hask. pose proof Hu as [Hsock Hname Hsize [Hl Hal] Has].
  assert (Htmp : o_fds τ !! f = Some Temporary). { rewrite Hf. unfold part. rewrite (proj2 (Z.leb_le _ _)) by done. apply lookup_insert_eq. }
  assert (Hfd : o_fds τ !! fd = Some Socket).
  { assert (Hfd : opened (u_lock u) storage_fd !! fd = Some Socket).
    { assert (Hlock : locked (u_lock u) !! fd = Some Socket).
      { unfold locked. rewrite lookup_insert_ne; [apply lookup_singleton_eq|]. intros E. specialize (Hal Hl). unfold at_home in Hal. by rewrite E, lookup_singleton_eq in Hal. }
      unfold opened, part. case_if; [|done]. rewrite lookup_insert_ne; [done|]. intros E'. specialize (Has E). by rewrite E', Hlock in Has. }
    rewrite Hf. unfold part. case_if; [|done]. rewrite lookup_insert_ne; [done|]. intros E'. specialize (Haf E). by rewrite E', Hfd in Haf. }
  unfold upload_transfer. apply custody_unmoved; [by auto with unmoved|]. intros r. case_if; [apply custody_upload_cleanup; auto|].
  apply custody_unmoved; [unfold start_transfer_timer; solve_unmoved|]. intros timer.
  eapply custody_opens; [by apply (custody_upload_receive u F f (u_size u) false [])|]. intros received τ1 [Hf1 Hgot].
  assert (Hf1' : o_fds τ1 = part f Temporary (opened (u_lock u) storage_fd)) by congruence.
  destruct received as [failed|]; [|apply custody_upload_cleanup; auto].
  destruct Hgot as (data & d & Hlen & Hin & Hd & Hok).
  apply custody_unmoved; [unfold upload_report; solve_unmoved|]. intros _.
  assert (Htmp1 : o_fds τ1 !! f = Some Temporary) by congruence.
  eapply (custody_opens _ _ _ _ _ _ _ _ (fun (b : bool) τ' => τ' = τ1 /\ (b = false -> failed = false))).
  { destruct failed; [by apply custody_ret|]. apply custody_unmoved; [apply unmoved_call; [by eexists|done]|]. intros z. by apply custody_ret. }
  intros b1 τ2 [-> Hb1]. eapply (custody_opens _ _ _ _ _ _ _ _ (fun (b : bool) τ' => τ' = τ1 /\ (b = false -> failed = false))).
  { destruct b1; [by apply custody_ret|]. apply custody_unmoved; [by apply unmoved_call|]. intros z. apply custody_ret. auto. }
  intros b2 τ2 [-> Hb2]. apply custody_call; [split; [by eexists|intros _ ->; congruence]|]. intros z _. cbn [becomes].
  rewrite (opened_file_closed Temporary f (opened (u_lock u) storage_fd) τ1) by done.
  destruct b2; cbn [orb]; [apply custody_upload_refuse; auto|]. case_if.
  - apply custody_upload_refuse; auto.
  - destruct (Hok (Hb2 eq_refl)) as [_ ->]. apply (custody_publish u storage_fd data); try done.
    cbn [with_uses o_input]. rewrite Hin. by eapply asked_requested.
Qed.
Lemma part_open f u m : 0 <= f -> part f u m = <[f := u]> m.
Proof. intros Hz. unfold part. by rewrite (proj2 (Z.leb_le _ _)). Qed.

Lemma part_shut f u m : f < 0 -> part f u m = m.
Proof. intros Hz. unfold part. by rewrite (proj2 (Z.leb_gt _ _)). Qed.

(** After [open_storage_directory]. *)
Lemma opens_opened lock storage_fd τ τ' :
  o_fds τ = locked lock -> opens (Dir storage_path) τ storage_fd τ' ->
  o_input τ' = o_input τ /\ o_fds τ' = opened lock storage_fd /\ apart storage_fd (locked lock).
Proof.
  intros Hf [[Hneg ->]|(Hz & Hn & ->)]; unfold opened.
  - rewrite part_shut by done. split_and!; [done|done|]. intros ?. lia.
  - rewrite part_open by done. rewrite Hf in Hn. split_and!; [done|by rewrite <- Hf|by intros _].
Qed.

Lemma custody_temp_name size τ :
  keeps_custody τ (build_upload_temp_name fd size) (fun t τ' => τ' = τ /\ (t = None \/ t = Some (temp_name pid self fd))).
Proof.
  unfold build_upload_temp_name. apply custody_call; [done|]. intros p Hp. cbn [tells becomes] in *. apply custody_call; [done|].
  intros i Hi. cbn [tells becomes] in *. subst p i. destruct (sprintf_fit _ _) as [name|] eqn:E.
  - apply sprintf_fit_Some in E as [-> _]. apply custody_ret. auto.
  - apply custody_unmoved; [by auto with unmoved|]. intros _. apply custody_ret. auto.
Qed.

Lemma custody_upload_prepare u τ :
  u_socket u = fd -> filename_ok (u_filename u) -> 0 <= u_size u -> 0 <= u_lock u -> apart (u_lock u) at_home ->
  o_fds τ = locked (u_lock u) -> asked (o_input τ) (u_filename u) (u_size u) ->
  keeps_custody τ (upload_prepare F u) (fun _ => serving).
Proof.
  intros Hsock Hname Hsize Hl Hal Hf Hask. unfold upload_prepare. eapply custody_opens; [apply opens_storage|].
  intros storage_fd τ1 Ho. destruct (opens_opened _ _ _ _ Hf Ho) as (Hin1 & Hf1 & Has). assert (Hu : uploading u storage_fd) by by split.
  assert (Hrefuse : forall text τ, o_fds τ = opened (u_lock u) storage_fd ->
    keeps_custody τ (result ← send_error F (u_socket u) text; upload_cleanup F u storage_fd (-1) None None result) (fun _ => serving))
    by (intros; apply custody_upload_refuse; auto).
  case_if; [apply custody_unmoved; [by apply unmoved_log_errno|]; intros _; by apply Hrefuse|].
  assert (Hs : o_fds τ1 !! storage_fd = Some (Dir storage_path)) by (rewrite Hf1; by apply opened_storage).
  assert (Hw : not_writing τ1) by by eapply opened_not_writing.
  apply custody_unmoved; [apply unmoved_call; [by eexists|done]|]. intros [information|]; [by apply Hrefuse|].
  apply custody_unmoved; [by auto with unmoved|]. intros errno.
  case_if; [apply custody_unmoved; [by apply unmoved_log_errno|]; intros _; by apply Hrefuse|].
  eapply custody_opens; [rewrite Hsock; apply custody_temp_name|]. intros temporary τ2 [-> Ht].
  destruct temporary as [temporary|]; [|by apply Hrefuse]. destruct Ht as [?|[= ->]]; [done|].
  apply custody_call; [done|]. intros r _. cbn [becomes]. set (τ2 := if r == 0 then with_temp None τ1 else τ1).
  assert (Hf2 : o_fds τ2 = opened (u_lock u) storage_fd) by (unfold τ2; by case_if).
  assert (Hin2 : o_input τ2 = o_input τ) by (unfold τ2; by case_if).
  apply custody_unmoved; [by auto with unmoved|]. intros errno'.
  case_if; [apply custody_unmoved; [by apply unmoved_log_errno|]; intros _; by apply Hrefuse|].
  apply custody_call.
  { exists storage_path. split; [rewrite Hf2; by apply opened_storage|]. right. right. split_and!; [done|done|done|by eapply opened_not_writing]. }
  intros f Hfile. cbn [tells becomes] in *. change (creates _) with true. cbv iota. case_if.
  - apply custody_unmoved; [by apply unmoved_log_errno|]. intros _. by apply Hrefuse.
  - destruct Hfile as [->|(Hz & Hn & _)]; [done|]. rewrite Hf2 in Hn. apply custody_transfer; try done.
    + by intros _.
    + cbn [with_temp gain with_uses o_fds]. by rewrite part_open, Hf2.
    + cbn [with_temp gain with_uses o_input]. by rewrite Hin2.
Qed.

Lemma asked_bounds metadata name size :
  parse_upload_metadata (Some metadata) FILE_NAME_MAX_SIZE = Some (name, size) -> filename_ok name /\ 0 <= size.
Proof. intros Hp. apply parse_upload_iff in Hp as (Hname & _ & text & _ & Hn). split; [done|by eapply numeral_nonneg]. Qed.

(** After [file_lock_acquire]. *)
Lemma opens_locked lock τ τ' :
  0 <= lock -> serving τ -> opens Plain τ lock τ' -> o_input τ' = o_input τ /\ o_fds τ' = locked lock /\ apart lock at_home.
Proof.
  intros Hl Hf [[? _]|(_ & Hn & ->)]; [lia|]. unfold serving in Hf. rewrite Hf in Hn. unfold locked. split_and!; [done|by rewrite <- Hf|by intros _].
Qed.

Lemma custody_handle_upload user metadata τ :
  serving τ -> (forall name size, parse_upload_metadata metadata FILE_NAME_MAX_SIZE = Some (name, size) -> asked (o_input τ) name size) ->
  keeps_custody τ (file_manager_handle_upload F fd user metadata) (fun _ => serving).
Proof.
  intros Hf Hask. unfold file_manager_handle_upload. destruct user as [user|]; [|by apply custody_ret].
  destruct (parse_upload_metadata metadata FILE_NAME_MAX_SIZE) as [[name size]|] eqn:Ep.
  2:{ apply custody_unmoved; [by apply unmoved_log|]. intros _. apply custody_unmoved_last; [apply unmoved_send_error|done]. }
  assert (Hb : filename_ok name /\ 0 <= size) by (destruct metadata; [by eapply asked_bounds|done]). destruct Hb as [Hname Hsize].
  apply custody_unmoved; [apply unmoved_ensure_storage|]. intros r.
  case_if; [apply custody_unmoved; [by apply unmoved_log_errno|]; intros _; apply custody_unmoved_last; [apply unmoved_send_error|done]|].
  eapply custody_opens; [apply opens_lock|]. intros lock τ1 Ho. case_if.
  - apply custody_unmoved; [by apply unmoved_log_errno|]. intros _. apply custody_unmoved_last; [apply unmoved_send_error|]. intros _.
    destruct Ho as [[_ ->]|[? _]]; [done|lia].
  - destruct (opens_locked lock τ τ1) as (Hin & Hf1 & Ha); [lia|done|done|]. apply custody_upload_prepare; try done. rewrite Hin. by apply Hask.
Qed.
(** ** Downloads *)

Lemma unmoved_stream_loop fuel slot f file remaining τ :
  o_fds τ !! file = Some Plain -> unmoved τ (file_stream_loop F fuel slot f file remaining).
Proof.
  intros Hf. revert remaining. induction fuel as [|fuel IH]; intros remaining; [done|]. cbn [file_stream_loop].
  solve_unmoved.
Qed.

Lemma unmoved_file_stream f type metadata file size τ :
  o_fds τ !! file = Some Plain -> unmoved τ (client_manager_send_file_stream F f type metadata file size).
Proof.
  intros Hf. unfold client_manager_send_file_stream. pose proof (fun slot n => unmoved_stream_loop F slot f file n τ Hf). solve_unmoved.
Qed.

(** What a download has opened before the file. *)
Definition downloading (d : download) (storage_fd : Z) : Prop :=
  0 <= d_lock d /\ apart (d_lock d) at_home /\ apart storage_fd (locked (d_lock d)).

Lemma custody_download_cleanup d storage_fd file_fd r τ :
  downloading d storage_fd -> apart file_fd (opened (d_lock d) storage_fd) ->
  o_fds τ = part file_fd Plain (opened (d_lock d) storage_fd) ->
  keeps_custody τ (download_cleanup F d storage_fd file_fd r) (fun _ => serving).
Proof.
  intros (Hl & Hal & Has) Haf Hf. unfold download_cleanup. eapply custody_close_part; [exact Hf|done|apply opened_client|].
  eapply custody_close_part; [reflexivity|done|apply locked_client|].
  eapply custody_opens; [eapply custody_release; [done|reflexivity|by apply Hal|apply at_home_client]|]. intros z τ' ->.
  apply custody_unmoved; [solve_unmoved|]. intros []. by apply custody_ret.
Qed.

Lemma custody_download_open d τ :
  0 <= d_lock d -> apart (d_lock d) at_home -> o_fds τ = locked (d_lock d) -> keeps_custody τ (download_open F d) (fun _ => serving).
Proof.
  intros Hl Hal Hf. unfold download_open. eapply custody_opens; [apply opens_storage|].
  intros storage_fd τ1 Ho. destruct (opens_opened _ _ _ _ Hf Ho) as (_ & Hf1 & Has). assert (Hd : downloading d storage_fd) by by split.
  case_if.
  { apply custody_unmoved; [by apply unmoved_log_errno|]. intros _. apply custody_unmoved; [by apply unmoved_send_error|]. intros result.
    apply custody_download_cleanup; [done|apply apart_closed|done]. }
  apply custody_call.
  { exists storage_path. split; [rewrite Hf1; by apply opened_storage|by left]. }
  intros f Hfile. cbn [tells becomes] in *. change (creates _) with false. cbv iota. case_if.
  { apply custody_unmoved; [by auto with unmoved|]. intros errno. apply custody_unmoved; [solve_unmoved|]. intros result.
    apply custody_download_cleanup; [done| |by rewrite part_shut]. intros ?. lia. }
  destruct Hfile as [->|(Hz & Hn & _)]; [done|]. rewrite Hf1 in Hn. set (τ2 := gain f Plain τ1).
  assert (Hf2 : o_fds τ2 = part f Plain (opened (d_lock d) storage_fd)) by (rewrite part_open by done; by rewrite <- Hf1).
  assert (Hplain : o_fds τ2 !! f = Some Plain) by apply lookup_insert_eq.
  assert (Hend : forall r, keeps_custody τ2 (download_cleanup F d storage_fd f r) (fun _ => serving))
    by (intros r; apply custody_download_cleanup; [done|by intros _|done]).
  assert (Hreject : forall text, keeps_custody τ2 (result ← send_error F (d_socket d) text; download_cleanup F d storage_fd f result) (fun _ => serving))
    by (intros text; apply custody_unmoved; [by apply unmoved_send_error|done]).
  unfold download_check. cbv zeta. apply custody_unmoved; [apply unmoved_call; [by eexists|done]|]. intros [information|]; [|apply Hreject].
  case_if; [apply custody_unmoved; [by apply unmoved_log|]; intros _; apply Hreject|]. repeat (case_if; [apply Hreject|]).
  unfold download_stream. destruct (sprintf_fit _ _) as [response|]; [|apply Hreject].
  apply custody_unmoved; [unfold start_transfer_timer; solve_unmoved|]. intros timer.
  apply custody_unmoved; [by apply unmoved_file_stream|]. intros r. apply custody_unmoved; [unfold download_report; solve_unmoved|]. intros _.
  case_if; (apply custody_unmoved; [by apply unmoved_log|]; intros _; apply Hend).
Qed.

Lemma custody_handle_download user name τ :
  serving τ -> keeps_custody τ (file_manager_handle_download F fd user name) (fun _ => serving).
Proof.
  intros Hf. unfold file_manager_handle_download. destruct user as [user|]; [|by apply custody_ret].
  assert (Hreject : forall text τ, serving τ -> keeps_custody τ (send_error F fd text) (fun _ => serving))
    by (intros; apply custody_unmoved_last; [apply unmoved_send_error|done]).
  destruct name as [name|]; [|apply custody_unmoved; [by apply unmoved_log|]; intros _; by apply Hreject].
  case_if; [apply custody_unmoved; [by apply unmoved_log|]; intros _; by apply Hreject|].
  apply custody_unmoved; [apply unmoved_ensure_storage|]. intros r. case_if; [apply custody_unmoved; [by apply unmoved_log_errno|]; intros _; by apply Hreject|].
  eapply custody_opens; [apply opens_lock|]. intros lock τ1 Ho. case_if.
  - apply custody_unmoved; [by apply unmoved_log_errno|]. intros _. apply Hreject. destruct Ho as [[_ ->]|[? _]]; [done|lia].
  - destruct (opens_locked lock τ τ1) as (_ & Hf1 & Ha); [lia|done|done|]. by apply custody_download_open.
Qed.

(** ** The file list *)

Lemma custody_list_loop fuel f d m n τ :
  o_fds τ = <[d := Dir storage_path]> m -> m !! d = None -> d ≠ fd ->
  keeps_custody τ (list_loop F fuel f d n) (fun x τ' => match x with Some _ => τ' = τ | None => τ' = with_uses m τ end).
Proof.
  intros Hf Hm Hne. assert (Hd : o_fds τ !! d = Some (Dir storage_path)) by (rewrite Hf; apply lookup_insert_eq).
  revert n. induction fuel as [|fuel IH]; intros n; [done|]. cbn [list_loop].
  apply custody_unmoved; [apply unmoved_call; [by eexists|done]|]. intros [name|].
  2:{ apply custody_unmoved; [by auto with unmoved|]. intros errno. by apply custody_ret. }
  case_if; [apply IH|]. apply custody_unmoved; [apply unmoved_call; [by eexists|done]|]. intros [information|]; [|apply IH].
  destruct (list_line _ _) as [line|]; [|apply IH]. apply custody_unmoved; [by auto with unmoved|]. intros r. case_if; [|apply IH].
  apply custody_call; [split; [by eexists|done]|]. intros z _. apply custody_ret. cbn [becomes]. unfold lose. by rewrite Hf, delete_insert_id.
Qed.

Lemma custody_handle_list user τ : serving τ -> keeps_custody τ (file_manager_handle_list F fd user) (fun _ => serving).
Proof.
  intros Hf. unfold file_manager_handle_list. destruct user as [user|]; [|by apply custody_ret].
  assert (Hreject : forall text τ, serving τ -> keeps_custody τ (send_error F fd text) (fun _ => serving))
    by (intros; apply custody_unmoved_last; [apply unmoved_send_error|done]).
  apply custody_unmoved; [apply unmoved_ensure_storage|]. intros r. case_if; [by apply Hreject|].
  eapply custody_opens; [apply opens_storage|]. intros d τ1 Ho. case_if.
  { apply custody_unmoved; [by apply unmoved_log_errno|]. intros _. apply Hreject. destruct Ho as [[_ ->]|[? _]]; [done|lia]. }
  destruct Ho as [[? _]|(Hz & Hn & ->)]; [lia|]. assert (Hd : o_fds (gain d (Dir storage_path) τ) !! d = Some (Dir storage_path)) by apply lookup_insert_eq.
  assert (Hne : d ≠ fd) by (intros ->; unfold serving in Hf; rewrite Hf in Hn; destruct at_home_client; congruence).
  assert (Hback : lose d (gain d (Dir storage_path) τ) = τ) by by apply lose_gain.
  apply custody_call; [by eexists|]. intros dir Hdir. cbn [tells becomes] in *. case_if.
  { apply custody_unmoved; [by auto with unmoved|]. intros errno. apply custody_call; [split; [by eexists|done]|]. intros z _. cbn [becomes]. rewrite Hback.
    apply custody_unmoved; [by auto with unmoved|]. intros _. by apply Hreject. }
  destruct Hdir as [->| ->]; [done|]. unfold list_entries. apply custody_unmoved; [by auto with unmoved|]. intros z. case_if.
  { apply custody_call; [split; [by eexists|done]|]. intros z' _. cbn [becomes]. rewrite Hback. by apply custody_ret. }
  apply custody_unmoved; [by auto with unmoved|]. intros _.
  eapply custody_opens; [by apply (custody_list_loop _ _ _ (o_fds τ))|]. intros [[count failed]|] τ2 ->; [|by apply custody_ret].
  apply custody_call; [split; [by eexists|done]|]. intros z' _. cbn [becomes]. rewrite Hback. cbv zeta. case_if.
  { apply custody_unmoved; [by apply unmoved_log|]. intros _. by apply Hreject. }
  apply custody_unmoved_last; [|done]. solve_unmoved.
Qed.
End server.
