(* ===== verification/CustodyHandler.v ===== *)
(** * The thread of a client keeps to the discipline of custody

    client_handler.c: from its first call to its last, a thread uses what it
    has opened, and in the end it has nothing left. *)

From S2P Require Import Prelude CLib Posix Wp Protocol NetworkIO ClientManager Registry Sending PerfTimer FileLock Logger FileManager Store Upload ClientHandler Threads Discipline Custody CustodyServer.

#[export] Hint Resolve unmoved_log unmoved_log_errno : unmoved.

Section handler.
Context `{Libc}.
Variables (pid self fd : Z) (stays : bool) (F : nat).
Abbreviation keeps_custody := (keeps_custody pid self fd stays).
Abbreviation unmoved := (unmoved pid self fd stays).
Abbreviation serving := (serving fd).

(** At its start a thread has the socket of its client; at its end nothing. *)
Definition arrived : own := Own [] (at_home fd) None.
Definition released {A} : A -> own -> Prop := fun _ τ => o_fds τ = ∅.

Lemma serving_socket τ : serving τ -> o_fds τ !! fd = Some Socket.
Proof. unfold CustodyServer.serving, at_home. intros ->. apply lookup_singleton_eq. Qed.

Lemma serving_same τ τ' : o_fds τ' = o_fds τ -> serving τ -> serving τ'.
Proof. unfold CustodyServer.serving. by intros ->. Qed.

Lemma outside_send_message f type payload : calls outside (send_message F f type payload).
Proof. unfold send_message. walk_outside. Qed.
Hint Resolve outside_send_message : outside.

Lemma custody_login n τ : serving τ -> keeps_custody τ (perform_login F fd n) (fun _ => serving).
Proof.
  intros Hf. unfold perform_login. case_if; [by apply custody_ret|]. apply custody_unmoved; [by auto with unmoved|]. intros r.
  case_if; [apply custody_unmoved_last; [solve_unmoved|done]|].
  eapply custody_opens; [by apply custody_receive_message, serving_socket|]. intros x τ1 [Hf1 _].
  assert (Hf' : serving τ1) by by eapply serving_same. apply custody_unmoved_last; [|done]. destruct x; solve_unmoved.
Qed.

(** ** The messages of a client *)

Lemma outside_reply f type text : calls outside (reply F f type text).
Proof. unfold reply. walk_outside. Qed.
Hint Resolve outside_reply : outside.

Lemma unmoved_chat id name text τ : unmoved τ (handle_chat F fd id name text).
Proof. unfold handle_chat. solve_unmoved. Qed.

Lemma unmoved_private id name text τ : unmoved τ (handle_private F fd id name text).
Proof. unfold handle_private. solve_unmoved. Qed.

Lemma unmoved_list_users name τ : unmoved τ (handle_list_users F fd name).
Proof. unfold handle_list_users. solve_unmoved. Qed.
Hint Resolve unmoved_chat unmoved_private unmoved_list_users : unmoved.

Lemma custody_dispatch id name type payload τ0 τ :
  serving τ -> got τ0 (Received type payload) τ ->
  keeps_custody τ (dispatch F fd id name type (c_str payload)) (fun _ => serving).
Proof.
  intros Hf [_ Hin]. unfold dispatch.
  assert (Hask : forall file size, type = MSG_UPLOAD ->
    parse_upload_metadata (Some (c_str payload)) FILE_NAME_MAX_SIZE = Some (file, size) -> asked (o_input τ) file size).
  { intros file size -> Hp. exists (o_input τ0), payload. by rewrite <- Hin. }
  do 4 (case_if; [apply custody_unmoved_last; [solve_unmoved|done]|]).
  case_if; [eapply custody_opens; [apply custody_handle_upload; [done|by intros; apply Hask]|]; intros r τ1 Hf1; by apply custody_ret|].
  case_if; [eapply custody_opens; [by apply custody_handle_download|]; intros r τ1 Hf1; by apply custody_ret|].
  case_if; [eapply custody_opens; [by apply custody_handle_list|]; intros r τ1 Hf1; by apply custody_ret|].
  apply custody_unmoved_last; [solve_unmoved|done].
Qed.

Lemma custody_client_loop fuel id name τ : serving τ -> keeps_custody τ (client_loop F fuel fd id name) (fun _ => serving).
Proof.
  revert τ. induction fuel as [|fuel IH]; intros τ Hf; [done|]. cbn [client_loop].
  eapply custody_opens; [by apply custody_receive_message, serving_socket|]. intros x τ1 Hgot.
  assert (Hf1 : serving τ1) by (destruct Hgot as [E _]; by eapply serving_same). destruct x as [r|type payload].
  - apply custody_unmoved_last; [solve_unmoved|done].
  - eapply custody_opens; [by eapply custody_dispatch|]. intros [] τ2 Hf2; [by apply IH|by apply custody_ret].
Qed.

(** The socket is the last thing to be closed. *)
Lemma custody_close_socket {A} (g : Z -> prog server A) τ (Q : A -> own -> Prop) :
  stays = false -> serving τ -> (forall r, unmoved (lose fd τ) (g r)) -> (forall a, Q a (lose fd τ)) ->
  keeps_custody τ (call (Close fd) ≫= g) Q.
Proof.
  intros Hs Hf Hg HQ. apply custody_call; [split; [by eexists; apply serving_socket|by rewrite Hs]|]. intros r _. cbn [becomes]. by apply custody_unmoved_last.
Qed.

Lemma serving_released {A} (a : A) τ : serving τ -> released a (lose fd τ).
Proof. unfold CustodyServer.serving, at_home, released. intros Hf. cbn [lose with_uses o_fds]. by rewrite Hf, delete_singleton_eq. Qed.

(** The thread keeps to the discipline. *)
Lemma custody_client_handler : stays = false -> keeps_custody arrived (client_handler F (Some fd)) released.
Proof.
  intros Hs. unfold client_handler. assert (Hf : serving arrived) by done.
  apply custody_call; [done|]. intros id Hid. cbn [becomes]. do 2 (apply custody_unmoved; [solve_unmoved|]; intros []).
  eapply custody_opens; [by apply custody_login|]. intros [cid name] τ1 Hf1. case_if.
  - apply custody_close_socket; [done|done|intros ?; solve_unmoved|intros ?; by apply serving_released].
  - apply custody_unmoved; [solve_unmoved|]. intros []. eapply custody_opens; [by apply custody_client_loop|]. intros [] τ2 Hf2.
    unfold connection_end. apply custody_unmoved; [solve_unmoved|]. intros r. apply custody_unmoved; [solve_unmoved|]. intros [].
    apply custody_unmoved; [solve_unmoved|]. intros n. do 2 (apply custody_unmoved; [solve_unmoved|]; intros []).
    apply custody_close_socket; [done|done|intros ?; solve_unmoved|intros ?; by apply serving_released].
Qed.
End handler.
