(* ===== verification/CustodyEffects.v ===== *)
(** * What the calls of a thread do to descriptors and files

    The effect on the process of one call that the discipline of custody
    permits. *)

From S2P Require Import Prelude CLib Posix Wp Protocol NetworkIO ClientManager FileLock Logger FileManager Store Threads Discipline Custody.

(** A call fails and changes nothing, or succeeds. *)
Lemma fallible_cases {S X} (w : world S) (ko : X) f r w' :
  fallible w ko f = (r, w') -> r = ko /\ w_kern w' = w_kern w \/ exists lim k', f lim (w_kern w) = inr (r, k') /\ w_kern w' = k'.
Proof.
  unfold fallible. destruct (pop (w_env w)) as [o en]. destruct o as [|n|z].
  - destruct (f None (w_kern w)) as [e|[x k']] eqn:E; intros [= <- <-]; [by left|right; by exists None, k'].
  - destruct (f (Some n) (w_kern w)) as [e|[x k']] eqn:E; intros [= <- <-]; [by left|right; by exists (Some n), k'].
  - intros [= <- <-]. by left.
Qed.

(** ** Opening *)

Lemma open_node_cases {S} (k : kern S) p nd fl r k' :
  open_node k p nd fl = inr (r, k') -> exists desc, (r, k') = add_fd desc k /\ (fl = storage_flags -> desc = FdDir p).
Proof.
  destruct nd as [ino| |t|]; cbn [open_node]; [case_match; [done|]|case_match; [done|]|done|case_match; [done|]];
    intros [= <- <-]; eexists; (split; [reflexivity|]); intros ->; done.
Qed.

Lemma open_cases {S} (k : kern S) p fl mode r k' :
  open_path k p fl mode = inr (r, k') ->
  (exists desc, (r, k') = add_fd desc k /\ (fl = storage_flags -> desc = FdDir p) /\ has fl O_CREAT && has fl O_EXCL = false) \/
  has fl O_CREAT = true /\ k_tree k !! p = None /\ (r, k') = create_file k p fl mode.
Proof.
  unfold open_path. destruct (k_tree k !! p) as [nd|] eqn:E.
  - destruct (has fl O_CREAT && has fl O_EXCL) eqn:Ec; [done|]. destruct (has fl O_NOFOLLOW) eqn:Ef.
    + intros Ho. left. destruct (open_node_cases _ _ _ _ _ _ Ho) as (desc & ? & ?). by exists desc.
    + destruct (follow k p) as [e|nd'] eqn:Ew; [done|]. intros Ho. left. destruct (open_node_cases _ _ _ _ _ _ Ho) as (desc & ? & ?).
      exists desc. split_and!; [done| |done]. by intros ->.
  - destruct (has fl O_CREAT) eqn:Ec; [|done]. destruct (is_dir k (removelast p)); [|done]. intros Ho. right. split_and!; [done|done|congruence].
Qed.

(** ** Names *)

Lemma dec_inj y z : 0 <= y -> 0 <= z -> dec y = dec z -> y = z.
Proof. intros Hy Hz E. pose proof (digits_value_dec y Hy) as H. rewrite E, (digits_value_dec z Hz) in H. done. Qed.

Section effects.
Variables (pid self : Z).
Abbreviation temp_name := (temp_name pid self).

(** Where the temporary file of the thread with this socket is. *)
Definition temp_path (fd : Z) : path := entry_path (temp_name fd).

Lemma temp_resolve fd : resolve storage_path (temp_name fd) = temp_path fd.
Proof.
  apply resolve_name; try done. unfold Custody.temp_name. rewrite !elem_of_app.
  intros [Hin|[Hin|[Hin|[Hin|[Hin|[Hin|Hin]]]]]];
    try (by apply (sdec_no_slash _ Hin)); try (by apply (dec_no_slash _ Hin)); revert Hin; by apply strchr_None.
Qed.

Lemma temp_path_inj fd fd' : 0 <= fd -> 0 <= fd' -> temp_path fd = temp_path fd' -> fd = fd'.
Proof.
  intros Hz Hz' [= E]. unfold Custody.temp_name in E. apply app_inv_head in E. injection E as E. apply app_inv_tail in E. unfold sdec in E.
  rewrite !(proj2 (Z.ltb_ge _ _)) in E by done. by apply dec_inj.
Qed.

(** No file with a valid name is a temporary file, a lock or a directory. *)
Lemma entry_not_temp name fd : filename_ok name -> entry_path name ≠ temp_path fd.
Proof.
  intros Hname [= E]. destruct Hname as (_ & _ & (c & t & Et & Hc) & _). rewrite Et in E.
  injection E as -> _. destruct Hc as [Hc|Hc]; by vm_compute in Hc.
Qed.

Lemma entry_not_locks name : filename_ok name -> entry_path name ≠ locks_path.
Proof.
  intros Hname [= E]. destruct Hname as (_ & _ & (c & t & Et & Hc) & _). rewrite Et in E.
  injection E as -> _. destruct Hc as [Hc|Hc]; by vm_compute in Hc.
Qed.
(** ** What a thread may rely on, and what it does *)

Definition fits (u : use) (d : fdesc) : Prop :=
  match u with
  | Socket => d = FdSocket
  | Dir b => d = FdDir b \/ exists entries, d = FdStream b entries
  | Plain => True
  | Temporary => exists ino off, d = FdFile ino off create_flags
  end.

(** The temporary file has the content on the account; while it is open for
    writing, it has no other name. *)
Definition temp_ok (fd : Z) (k : kern server) (τ : own) : Prop :=
  match o_temp τ with
  | None => not_writing τ
  | Some d => exists ino mode,
      k_tree k !! temp_path fd = Some (NReg ino) /\ k_inodes k !! ino = Some (mk_inode d mode) /\
      (forall g g', o_fds τ !! g = Some Temporary -> o_fds τ !! g' = Some Temporary -> g = g') /\
      forall g, o_fds τ !! g = Some Temporary ->
        k_fds k !! g = Some (FdFile ino (length d) create_flags) /\ forall p, k_tree k !! p = Some (NReg ino) -> p = temp_path fd
  end.

(** Every file has a content. *)
Definition store_sound (k : kern server) : Prop := forall p ino, k_tree k !! p = Some (NReg ino) -> is_Some (k_inodes k !! ino).

Record tended (fd : Z) (τ : own) (k : kern server) : Prop := {
  td_ids : k_pid k = pid /\ k_self k = self;
  td_fits : forall g u, o_fds τ !! g = Some u -> exists d, k_fds k !! g = Some d /\ fits u d;
  td_temp : temp_ok fd k τ;
  td_sound : store_sound k
}.

(** What a call of the thread does to the store: names stay, but for that of
    its temporary file; under valid names only complete uploads appear; and
    only the content of its temporary file changes. *)
Record store_step (fd : Z) (τ : own) (k k' : kern server) : Prop := {
  ss_kept : forall p nd, p ≠ temp_path fd -> k_tree k !! p = Some nd -> k_tree k' !! p = Some nd;
  ss_new : forall name nd, filename_ok name -> k_tree k !! entry_path name = None -> k_tree k' !! entry_path name = Some nd ->
    exists ino data mode, nd = NReg ino /\ k_inodes k' !! ino = Some (mk_inode data mode) /\ requested (o_input τ) name data;
  ss_data : forall ino i, k_inodes k !! ino = Some i ->
    k_inodes k' !! ino = Some i \/
    is_Some (k_inodes k' !! ino) /\ forall p, k_tree k !! p = Some (NReg ino) -> p = temp_path fd;
  ss_names : forall p ino, k_tree k' !! p = Some (NReg ino) ->
    k_tree k !! p = Some (NReg ino) \/ k_inodes k !! ino = None \/ k_tree k !! temp_path fd = Some (NReg ino)
}.

(** The effect of a call of the thread [fd], with the account before and after. *)
Record effect (fd : Z) (τ τ' : own) (k k' : kern server) : Prop := {
  ef_tended : tended fd τ' k';
  ef_others : forall g, o_fds τ !! g = None -> o_fds τ' !! g = None -> k_fds k' !! g = k_fds k !! g;
  ef_gained : forall g, is_Some (o_fds τ' !! g) -> is_Some (o_fds τ !! g) \/ k_fds k !! g = None;
  ef_lost : forall g, is_Some (o_fds τ !! g) -> o_fds τ' !! g = None -> k_fds k' !! g = None;
  ef_input : o_input τ' ++ stream (k_in k') fd = o_input τ ++ stream (k_in k) fd;
  ef_inputs : forall g, g ≠ fd -> stream (k_in k') g = stream (k_in k) g;
  ef_store : store_step fd τ k k'
}.

Lemma store_step_same fd τ k k' : k_tree k' = k_tree k -> k_inodes k' = k_inodes k -> store_step fd τ k k'.
Proof.
  intros Ht Hi. split; rewrite ?Ht, ?Hi; auto. intros name nd _ -> [=].
Qed.

(** The store, the input and the process stay. *)
Definition store_same (k k' : kern server) : Prop :=
  k_tree k' = k_tree k /\ k_inodes k' = k_inodes k /\ k_in k' = k_in k /\ k_pid k' = k_pid k /\ k_self k' = k_self k.

Section effect.
Context (fd : Z) (τ : own) (k : kern server).
Hypothesis (Ht : tended fd τ k).

Lemma effect_make τ' k' :
  k_pid k' = k_pid k -> k_self k' = k_self k ->
  (forall g u, o_fds τ' !! g = Some u ->
     o_fds τ !! g = Some u /\ k_fds k' !! g = k_fds k !! g \/
     (exists d, k_fds k' !! g = Some d /\ fits u d) /\ (is_Some (o_fds τ !! g) \/ k_fds k !! g = None)) ->
  (forall g, o_fds τ' !! g = None -> o_fds τ !! g = None /\ k_fds k' !! g = k_fds k !! g \/ k_fds k' !! g = None /\ is_Some (o_fds τ !! g)) ->
  o_input τ' ++ stream (k_in k') fd = o_input τ ++ stream (k_in k) fd ->
  (forall g, g ≠ fd -> stream (k_in k') g = stream (k_in k) g) ->
  store_step fd τ k k' -> temp_ok fd k' τ' -> store_sound k' -> effect fd τ τ' k k'.
Proof.
  intros Hp Hs Hgot Hnot Hin Hins Hst Htemp Hsound. destruct Ht as [Hids Hfits _ _]. split; try done.
  - split; [by rewrite Hp, Hs| |done|done]. intros g u Hg. destruct (Hgot g u Hg) as [[Hg' ->]|[? _]]; [by apply Hfits|done].
  - intros g Hg Hg'. destruct (Hnot g Hg') as [[_ ?]|[_ [? ?]]]; [done|congruence].
  - intros g [u Hg]. destruct (Hgot g u Hg) as [[Hg' _]|[_ ?]]; [left; by eexists|done].
  - intros g [u Hg] Hn. destruct (Hnot g Hn) as [[? _]|[? _]]; [congruence|done].
Qed.

(** The temporary file is not concerned. *)
Lemma temp_same τ' k' :
  k_tree k' = k_tree k -> k_inodes k' = k_inodes k -> o_temp τ' = o_temp τ ->
  (forall g, o_fds τ' !! g = Some Temporary -> o_fds τ !! g = Some Temporary /\ k_fds k' !! g = k_fds k !! g) -> temp_ok fd k' τ'.
Proof.
  intros Htr Hi Ho Hg. destruct Ht as [_ _ Htemp _]. unfold temp_ok in *. rewrite Ho, Htr, Hi. destruct (o_temp τ) as [data|].
  - destruct Htemp as (ino & mode & ? & ? & Hone & Hw). exists ino, mode. split_and!; [done|done| |].
    + intros g g' Hgt Hgt'. apply Hone; by apply Hg.
    + intros g Hgt. destruct (Hg g Hgt) as [Hgt' ->]. by apply Hw.
  - intros g Hgt. destruct (Hg g Hgt) as [Hgt' _]. by apply (Htemp g).
Qed.

(** The descriptors of the thread change, and nothing else. *)
Lemma effect_fds τ' k' :
  store_same k k' -> o_temp τ' = o_temp τ -> o_input τ' = o_input τ ->
  (forall g u, o_fds τ' !! g = Some u ->
     o_fds τ !! g = Some u /\ k_fds k' !! g = k_fds k !! g \/
     u ≠ Temporary /\ (exists d, k_fds k' !! g = Some d /\ fits u d) /\ (is_Some (o_fds τ !! g) \/ k_fds k !! g = None)) ->
  (forall g, o_fds τ' !! g = None -> o_fds τ !! g = None /\ k_fds k' !! g = k_fds k !! g \/ k_fds k' !! g = None /\ is_Some (o_fds τ !! g)) ->
  effect fd τ τ' k k'.
Proof.
  intros (Htr & Hi & Hin & Hp & Hs) Ho Hoi Hgot Hnot. apply effect_make; try done.
  - intros g u Hg. destruct (Hgot g u Hg) as [?|(_ & ? & ?)]; [by left|by right].
  - by rewrite Hoi, Hin.
  - by rewrite Hin.
  - by apply store_step_same.
  - apply temp_same; try done. intros g Hg. destruct (Hgot g _ Hg) as [?|[? _]]; done.
  - unfold store_sound. rewrite Htr, Hi. by destruct Ht.
Qed.

Lemma effect_nothing k' : store_same k k' -> k_fds k' = k_fds k -> effect fd τ τ k k'.
Proof. intros Hk Hf. apply effect_fds; try done; intros g; rewrite Hf; auto. Qed.

(** A descriptor in the thread's keeping moves. *)
Lemma effect_move f u d k' :
  store_same k k' -> k_fds k' = <[f := d]> (k_fds k) -> o_fds τ !! f = Some u -> u ≠ Temporary -> fits u d -> effect fd τ τ k k'.
Proof.
  intros Hk Hf Hu Hne Hd. apply effect_fds; try done.
  - intros g v Hg. rewrite Hf. destruct (decide (g = f)) as [->|Hgf]; [right|left; by rewrite lookup_insert_ne].
    rewrite lookup_insert_eq. simplify_eq. split_and!; [done|by exists d|left; by eexists].
  - intros g Hg. left. split; [done|]. rewrite Hf, lookup_insert_ne; [done|]. congruence.
Qed.

(** A new descriptor. *)
Lemma gain_lookup f u g v : o_fds (gain f u τ) !! g = Some v -> f = g /\ u = v \/ f ≠ g /\ o_fds τ !! g = Some v.
Proof. apply lookup_insert_Some. Qed.

Lemma gain_got f u d τ' (k' : kern server) :
  k_fds k !! f = None -> k_fds k' = <[f := d]> (k_fds k) -> o_fds τ' = <[f := u]> (o_fds τ) -> fits u d ->
  forall g v, o_fds τ' !! g = Some v ->
    o_fds τ !! g = Some v /\ k_fds k' !! g = k_fds k !! g \/
    (g = f /\ v = u) /\ (exists d, k_fds k' !! g = Some d /\ fits v d) /\ (is_Some (o_fds τ !! g) \/ k_fds k !! g = None).
Proof.
  intros Hn -> -> Hd g v Hg. apply lookup_insert_Some in Hg as [[<- <-]|[Hne Hg]]; [right|left; by rewrite lookup_insert_ne].
  rewrite lookup_insert_eq. split_and!; [done|done|by exists d|by right].
Qed.

Lemma gain_not f u d τ' (k' : kern server) :
  k_fds k' = <[f := d]> (k_fds k) -> o_fds τ' = <[f := u]> (o_fds τ) ->
  forall g, o_fds τ' !! g = None -> o_fds τ !! g = None /\ k_fds k' !! g = k_fds k !! g \/ k_fds k' !! g = None /\ is_Some (o_fds τ !! g).
Proof. intros -> -> g Hg. apply lookup_insert_None in Hg as [Hg Hne]. left. by rewrite lookup_insert_ne. Qed.

Lemma effect_gain u d k' :
  store_same k k' -> k_fds k' = <[next_fd (k_fds k) := d]> (k_fds k) -> u ≠ Temporary -> fits u d ->
  effect fd τ (gain (next_fd (k_fds k)) u τ) k k'.
Proof.
  intros Hk Hf Hne Hd. apply effect_fds; try done; [|by eapply gain_not].
  intros g v Hg. edestruct (gain_got (next_fd (k_fds k)) u d (gain (next_fd (k_fds k)) u τ) k') as [?|([-> ->] & ? & ?)]; [apply next_fd_fresh|done|done|done|exact Hg|by left|by right].
Qed.

(** A descriptor less. *)
Lemma effect_lose f k' :
  store_same k k' -> k_fds k' = delete f (k_fds k) -> is_Some (o_fds τ !! f) -> effect fd τ (lose f τ) k k'.
Proof.
  intros Hk Hf Hsome. apply effect_fds; try done; cbn [lose with_uses o_fds]; intros g.
  - intros u Hg. apply lookup_delete_Some in Hg as [Hne Hg]. left. by rewrite Hf, lookup_delete_ne.
  - intros Hg. apply lookup_delete_None in Hg as [<-|Hg]; [right; by rewrite Hf, lookup_delete_eq|].
    destruct (decide (f = g)) as [->|Hne]; [right; by rewrite Hf, lookup_delete_eq|left; by rewrite Hf, lookup_delete_ne].
Qed.

(** ** Changes of the store *)

(** A directory, or a lock file, appears: an entry that is no shared file. *)
Definition dull (p : path) : Prop := (forall name, filename_ok name -> p ≠ entry_path name).

(** The content of the temporary file, while nobody writes it. *)
Lemma temp_written data :
  o_temp τ = Some data -> exists ino mode, k_tree k !! temp_path fd = Some (NReg ino) /\ k_inodes k !! ino = Some (mk_inode data mode).
Proof. intros Ho. destruct Ht as [_ _ Htemp _]. unfold temp_ok in Htemp. rewrite Ho in Htemp. destruct Htemp as (ino & mode & ? & ? & _). by exists ino, mode. Qed.

(** The inode of an entry is not new. *)
Lemma entry_not_fresh p ino : k_tree k !! p = Some (NReg ino) -> ino ≠ fresh (dom (k_inodes k)).
Proof.
  intros Hp ->. destruct Ht as [_ _ _ Hsound]. apply (is_fresh (dom (k_inodes k))), elem_of_dom. by eapply Hsound.
Qed.

Lemma fresh_inode : k_inodes k !! fresh (dom (k_inodes k)) = None.
Proof. apply not_elem_of_dom, is_fresh. Qed.

Lemma effect_mkdir p :
  dull p -> k_tree k !! p = None -> effect fd τ τ k (with_tree (<[p := NDir]> (k_tree k)) k).
Proof.
  intros Hdull Hp. assert (Hkept : forall q nd, k_tree k !! q = Some nd -> <[p := NDir]> (k_tree k) !! q = Some nd).
  { intros q nd Hq. rewrite lookup_insert_ne; [done|]. congruence. }
  assert (Hback : forall q ino, <[p := NDir]> (k_tree k) !! q = Some (NReg ino) -> k_tree k !! q = Some (NReg ino)).
  { intros q ino Hq. by apply lookup_insert_Some in Hq as [[_ ?]|[_ ?]]. }
  apply effect_make; try done; [by left|by left| | |].
  - split; [auto| |by left|auto]. intros name nd Hname Hn Hn'. cbn [with_tree k_tree] in Hn'.
    rewrite lookup_insert_ne in Hn' by by apply Hdull. congruence.
  - destruct Ht as [_ _ Htemp _]. unfold temp_ok in *. destruct (o_temp τ) as [data|]; [|done].
    destruct Htemp as (ino & mode & ? & ? & Hone & Hw). exists ino, mode. split_and!; [by apply Hkept|done|done|].
    intros g Hg. destruct (Hw g Hg) as [? Hu]. split; [done|]. intros q Hq. by apply Hu, Hback.
  - destruct Ht as [_ _ _ Hsound]. intros q ino Hq. by eapply Hsound, Hback.
Qed.

Section create.
Context (p : path) (fl mode : Z).
Let ino := fresh (dom (k_inodes k)).
Let k' : kern server := snd (create_file k p fl mode).
Hypothesis (Hp : k_tree k !! p = None).

Lemma create_tree : k_tree k' = <[p := NReg ino]> (k_tree k).
Proof. reflexivity. Qed.

Lemma create_kept q nd : k_tree k !! q = Some nd -> k_tree k' !! q = Some nd.
Proof. intros Hq. cbn. rewrite lookup_insert_ne; [done|]. congruence. Qed.

Lemma create_back q ino' : k_tree k' !! q = Some (NReg ino') -> k_tree k !! q = Some (NReg ino') \/ q = p /\ ino' = ino.
Proof. cbn. intros Hq. apply lookup_insert_Some in Hq as [[<- [= <-]]|[_ ?]]; auto. Qed.

Lemma create_data i x : k_inodes k !! i = Some x -> k_inodes k' !! i = Some x.
Proof. intros Hi. cbn. rewrite lookup_insert_ne; [done|]. intros <-. by rewrite fresh_inode in Hi. Qed.

Lemma create_sound : store_sound k'.
Proof.
  intros q ino' Hq. destruct (create_back _ _ Hq) as [Hq'|[_ ->]].
  - destruct Ht as [_ _ _ Hsound]. destruct (Hsound _ _ Hq') as [x Hx]. exists x. by apply create_data.
  - cbn. eexists. apply lookup_insert_eq.
Qed.

Lemma create_step : dull p -> store_step fd τ k k'.
Proof.
  intros Hdull. split.
  - intros q nd _. apply create_kept.
  - intros name nd Hname Hn Hn'. rewrite create_tree, lookup_insert_ne in Hn' by by apply Hdull. congruence.
  - intros i x Hi. left. by apply create_data.
  - intros q ino' Hq. destruct (create_back _ _ Hq) as [?|[_ ->]]; [by left|right; left; apply fresh_inode].
Qed.

(** A lock file. *)
Lemma effect_create_lock : dull p -> p ≠ temp_path fd -> effect fd τ (gain (next_fd (k_fds k)) Plain τ) k k'.
Proof.
  intros Hdull Hne. apply effect_make; try done.
  - intros g u Hg. edestruct (gain_got (next_fd (k_fds k)) Plain (FdFile ino 0 fl) (gain (next_fd (k_fds k)) Plain τ) k') as [?|(_ & ? & ?)];
      [apply next_fd_fresh|done|done|done|exact Hg|by left|by right].
  - by eapply (gain_not (next_fd (k_fds k)) Plain (FdFile ino 0 fl)).
  - by apply create_step.
  - destruct Ht as [_ _ Htemp _]. unfold temp_ok in *. cbn [gain with_uses o_temp]. destruct (o_temp τ) as [data|].
    + destruct Htemp as (i & m & Hi & ? & Hone & Hw). exists i, m. split_and!; [by apply create_kept|by apply create_data| |].
      { intros g g' Hg Hg'. apply gain_lookup in Hg as [[_ ?]|[_ Hg]], Hg' as [[_ ?]|[_ Hg']]; try done. by apply Hone. }
      intros g Hg. apply gain_lookup in Hg as [[_ ?]|[Hneg Hg]]; [done|]. destruct (Hw g Hg) as [? Hu]. split.
      * cbn. by rewrite lookup_insert_ne.
      * intros q Hq. destruct (create_back _ _ Hq) as [?|[_ ->]]; [by apply Hu|]. by destruct (entry_not_fresh _ _ Hi).
    + intros g Hg. apply gain_lookup in Hg as [[_ ?]|[_ Hg]]; [done|]. by apply (Htemp g).
  - apply create_sound.
Qed.

(** The temporary file. *)
Lemma effect_create_temp :
  p = temp_path fd -> fl = create_flags -> not_writing τ ->
  effect fd τ (with_temp (Some []) (gain (next_fd (k_fds k)) Temporary τ)) k k'.
Proof.
  intros Hpath Hfl Hw. apply effect_make; try done.
  - intros g u Hg. edestruct (gain_got (next_fd (k_fds k)) Temporary (FdFile ino 0 fl) (gain (next_fd (k_fds k)) Temporary τ) k') as [?|(_ & ? & ?)];
      [apply next_fd_fresh|done|done|rewrite Hfl; by eexists _, _|exact Hg|by left|by right].
  - by eapply (gain_not (next_fd (k_fds k)) Temporary (FdFile ino 0 fl) (gain (next_fd (k_fds k)) Temporary τ)).
  - apply create_step. intros name Hname E. rewrite Hpath in E. by eapply entry_not_temp.
  - exists ino, mode. split_and!; [cbn; rewrite Hpath; apply lookup_insert_eq|cbn; apply lookup_insert_eq| |].
    { intros g g' Hg Hg'. apply gain_lookup in Hg as [[<- _]|[_ Hg]]; [|by destruct (Hw g)].
      by apply gain_lookup in Hg' as [[<- _]|[_ Hg']]; [|destruct (Hw g')]. }
    intros g Hg. apply gain_lookup in Hg as [[<- _]|[_ Hg]]; [|by destruct (Hw g)]. split.
    + cbn. rewrite Hfl. apply lookup_insert_eq.
    + intros q Hq. destruct (create_back _ _ Hq) as [Hq'|[-> _]]; [|done]. by destruct (entry_not_fresh _ _ Hq').
  - apply create_sound.
Qed.
End create.

(** The temporary file loses its name. *)
Lemma effect_unlink :
  not_writing τ -> effect fd τ (with_temp None τ) k (with_tree (delete (temp_path fd) (k_tree k)) k).
Proof.
  intros Hw. assert (Hback : forall q nd, delete (temp_path fd) (k_tree k) !! q = Some nd -> k_tree k !! q = Some nd).
  { intros q nd Hq. by apply lookup_delete_Some in Hq as [_ ?]. }
  apply effect_make; try done; [by left|by left| |].
  - split; cbn [with_tree k_tree k_inodes].
    + intros q nd Hne Hq. by rewrite lookup_delete_ne.
    + intros name nd Hname Hn Hn'. apply Hback in Hn'. congruence.
    + by left.
    + intros q ino Hq. left. by apply Hback.
  - destruct Ht as [_ _ _ Hsound]. intros q ino Hq. by eapply Hsound, Hback.
Qed.

(** The temporary file gets a second name. *)
Lemma effect_link name data nd :
  filename_ok name -> not_writing τ -> o_temp τ = Some data -> requested (o_input τ) name data ->
  k_tree k !! temp_path fd = Some nd -> k_tree k !! entry_path name = None ->
  effect fd τ τ k (with_tree (<[entry_path name := nd]> (k_tree k)) k).
Proof.
  intros Hname Hw Ho Hreq Hnd Hnew. destruct (temp_written _ Ho) as (ino & mode & Htmp & Hdata). rewrite Htmp in Hnd. injection Hnd as <-.
  assert (Hkept : forall q nd, k_tree k !! q = Some nd -> <[entry_path name := NReg ino]> (k_tree k) !! q = Some nd).
  { intros q nd Hq. rewrite lookup_insert_ne; [done|]. congruence. }
  assert (Hback : forall q i, <[entry_path name := NReg ino]> (k_tree k) !! q = Some (NReg i) -> k_tree k !! q = Some (NReg i) \/ i = ino).
  { intros q i Hq. apply lookup_insert_Some in Hq as [[_ [= <-]]|[_ ?]]; auto. }
  apply effect_make; try done; [by left|by left| | |].
  - split; cbn [with_tree k_tree k_inodes]; [auto| |by left|].
    + intros name' nd Hname' Hn Hn'. apply lookup_insert_Some in Hn' as [[E <-]|[_ Hn']]; [|congruence]. injection E as <-.
      by exists ino, data, mode.
    + intros q i Hq. destruct (Hback _ _ Hq) as [?| ->]; auto.
  - unfold temp_ok. rewrite Ho. exists ino, mode. split_and!; [by apply Hkept|done|intros g g' Hg; by destruct (Hw g)|]. intros g Hg. by destruct (Hw g).
  - destruct Ht as [_ _ _ Hsound]. intros q i Hq. destruct (Hback _ _ Hq) as [Hq'| ->]; [by eapply Hsound|by eapply Hsound].
Qed.

(** The temporary file gets a new content, or a new mode. *)
Lemma effect_content f ino off data data' mode' d' k' :
  o_fds τ !! f = Some Temporary -> o_temp τ = Some data -> k_fds k !! f = Some (FdFile ino off create_flags) ->
  k_tree k' = k_tree k -> k_in k' = k_in k -> k_pid k' = k_pid k -> k_self k' = k_self k ->
  k_inodes k' = <[ino := mk_inode data' mode']> (k_inodes k) -> k_fds k' = <[f := FdFile ino (length data') create_flags]> (k_fds k) ->
  d' = data' -> effect fd τ (with_temp (Some d') τ) k k'.
Proof.
  intros Hf Ho Hfile Htr Hin Hp Hs Hi Hfds ->. pose proof Ht as [Hids Hfits Htemp Hsound]. unfold temp_ok in Htemp. rewrite Ho in Htemp.
  destruct Htemp as (ino' & mode & Hpath & Hdata & Hone & Hw). destruct (Hw f Hf) as [Hfile' Hu].
  assert (ino' = ino) as -> by congruence. clear Hfile.
  apply effect_make; try done.
  - intros g u Hg. cbn [with_temp o_fds] in Hg. rewrite Hfds. destruct (decide (g = f)) as [->|Hne]; [right|left; by rewrite lookup_insert_ne].
    rewrite lookup_insert_eq. assert (u = Temporary) as -> by congruence. split; [|left; by eexists]. by eexists; split; [|eexists _, _].
  - intros g Hg. cbn [with_temp o_fds] in Hg. left. rewrite Hfds, lookup_insert_ne; [done|]. congruence.
  - by rewrite Hin.
  - by rewrite Hin.
  - split; rewrite ?Htr, ?Hi; auto; [by intros name nd _ -> ?|].
    intros i x Hx. destruct (decide (i = ino)) as [->|Hne]; [right|left; by rewrite lookup_insert_ne].
    split; [rewrite lookup_insert_eq; by eexists|done].
  - exists ino, mode'. rewrite Htr, Hi. split_and!; [done|apply lookup_insert_eq|done|].
    intros g Hg. rewrite (Hone g f Hg Hf), Hfds. by rewrite lookup_insert_eq.
  - intros q i Hq. rewrite Htr in Hq. rewrite Hi. destruct (decide (i = ino)) as [->|Hne]; [rewrite lookup_insert_eq; by eexists|].
    rewrite lookup_insert_ne by done. by eapply Hsound.
Qed.
End effect.
(** ** The calls *)

Definition files_of (k : kern server) := (k_fds k, k_tree k, k_inodes k, k_in k, k_pid k, k_self k).

(** These change neither descriptors nor files nor input. *)
Definition looks (e : sys server) : Prop :=
  match e with Fstat _ | Fsync _ | Fcntl_setlk _ _ | Fstatat_nofollow _ _ | Sendto _ _ => True | _ => outside e end.

Lemma looks_preserves e : looks e -> forall w, files_of (w_kern (snd (sem e w))) = files_of (w_kern w).
Proof.
  intros He w. destruct e; try done; try (apply (fallible_obs files_of); solve_obs); unfold sem, pthread_call.
  all: try (destruct (pop (w_env w)) as [[|n|z] en]; done).
  all: try (apply (fallible_obs files_of); intros lim k x k' E; unfold setlk_fd in E; repeat case_match; by simplify_eq).
  - destruct (pop (w_env w)) as [[|n|z] en]; [| |done]; by destruct (e_clock en).
  - by destruct (fgets size _) as [[]|].
Qed.

Lemma tended_dir fd τ k d b : tended fd τ k -> o_fds τ !! d = Some (Dir b) -> fd_dir k d = inr b.
Proof.
  intros [_ Hfits _ _] Hd. unfold fd_dir. destruct (Hfits _ _ Hd) as (desc & -> & Hf).
  destruct Hf as [->|[entries ->]]; done.
Qed.

Lemma at_dir_cases {S X} (k : kern S) d b (f : path -> Z + (X * kern S)) : fd_dir k d = inr b -> at_dir k d f = f b.
Proof. unfold at_dir. by intros ->. Qed.

Section calls.
Context (fd : Z) (τ : own) (k : kern server).
Hypothesis (Ht : tended fd τ k).
Abbreviation permits := (permits pid self fd false).
Abbreviation tells := (tells pid self fd false).

(** The call does what the discipline says it does. *)
Definition obeys (e : sys server) : Prop :=
  permits τ e -> forall en r w', sem e (W en k) = (r, w') -> tells τ e r /\ effect fd τ (becomes τ e r) k (w_kern w').

Lemma obeys_looks e : looks e -> (forall r, becomes τ e r = τ) -> (forall en, tells τ e (fst (sem e (W en k)))) -> obeys e.
Proof.
  intros He Hb Htell Hp en r w' Hs. split.
  - specialize (Htell en). by rewrite Hs in Htell.
  - rewrite Hb. pose proof (looks_preserves e He (W en k)) as Hk. rewrite Hs in Hk. unfold files_of in Hk. cbn [snd w_kern] in Hk.
    injection Hk as ? ? ? ? ? ?. by apply effect_nothing.
Qed.

(** Failing changes nothing. *)
Lemma effect_failed k' : k' = k -> effect fd τ τ k k'.
Proof. intros ->. by apply effect_nothing. Qed.

Lemma opened_fresh : 0 <= next_fd (k_fds k) /\ o_fds τ !! next_fd (k_fds k) = None.
Proof.
  split; [apply next_fd_nonneg|]. destruct (o_fds τ !! next_fd (k_fds k)) as [u|] eqn:E; [|done].
  destruct Ht as [_ Hfits _ _]. destruct (Hfits _ _ E) as (d & Hd & _). by rewrite next_fd_fresh in Hd.
Qed.

Lemma obeys_open p fl m : obeys (Open p fl m).
Proof.
  intros -> en r w' Hs. cbn [Custody.tells becomes]. apply fallible_cases in Hs as [[-> Hk]|(lim & k' & Hf & ->)]; cbn [w_kern] in *.
  { split; [by left|]. by apply effect_failed. }
  apply open_cases in Hf as [(desc & [= -> ->] & Hd & _)|[? _]]; [|done]. destruct opened_fresh as [Hz Hn].
  split; [right; by split_and!|]. rewrite (proj2 (Z.ltb_ge _ _)) by done. eapply effect_gain; [done|done|done|done|]. left. by apply Hd.
Qed.

Lemma obeys_dgram : obeys Socket_dgram.
Proof.
  intros _ en r w' Hs. cbn [Custody.tells becomes]. apply fallible_cases in Hs as [[-> Hk]|(lim & k' & Hf & ->)]; cbn [w_kern] in *.
  { split; [by left|]. by apply effect_failed. }
  injection Hf as <- <-. destruct opened_fresh as [Hz Hn].
  split; [right; by split_and!|]. rewrite (proj2 (Z.ltb_ge _ _)) by done. by eapply effect_gain.
Qed.

Lemma obeys_mkdir p m : obeys (Mkdir p m).
Proof.
  intros Hp en r w' Hs. cbn [Custody.tells becomes]. split; [done|].
  apply fallible_cases in Hs as [[-> Hk]|(lim & k' & Hf & ->)]; cbn [w_kern] in *; [by apply effect_failed|].
  unfold mkdir_path in Hf. destruct (k_tree k !! resolve [] p) eqn:E; [done|]. destruct (is_dir _ _); [|done]. injection Hf as <- <-.
  apply effect_mkdir; [done| |done]. intros name Hname Heq. destruct Hp as [->| ->].
  - by rewrite resolve_storage in Heq.
  - rewrite resolve_locks in Heq. by eapply entry_not_locks.
Qed.

Lemma effect_close f (e : env) : is_Some (o_fds τ !! f) -> effect fd τ (lose f τ) k (close_fd k f).
Proof. intros Hf. by eapply effect_lose. Qed.

Lemma obeys_close f : obeys (Close f).
Proof.
  intros [Hp _] en r w' Hs. split; [done|]. unfold sem in Hs. cbn [becomes w_env w_kern] in *.
  destruct (pop en) as [[|n|z] en']; injection Hs as <- <-; by apply (effect_close f en).
Qed.

Lemma obeys_closedir f : obeys (Closedir f).
Proof.
  intros [Hp _] en r w' Hs. split; [done|]. unfold sem in Hs. cbn [becomes w_env w_kern] in *.
  destruct (pop en) as [[|n|z] en']; injection Hs as <- <-; by apply (effect_close f en).
Qed.

Lemma obeys_read f n : obeys (Read f n).
Proof.
  intros Hp en r w' Hs. split; [done|]. apply fallible_cases in Hs as [[-> Hk]|(lim & k' & Hf & ->)]; cbn [w_kern becomes] in *; [by apply effect_failed|].
  unfold read_fd in Hf. destruct (k_fds k !! f) as [[]|] eqn:E; try done. destruct (k_inodes k !! ino); [|done]. injection Hf as <- <-.
  by eapply effect_move.
Qed.

Lemma obeys_fdopendir f : obeys (Fdopendir f).
Proof.
  intros [b Hp] en r w' Hs. apply fallible_cases in Hs as [[-> Hk]|(lim & k' & Hf & ->)]; cbn [w_kern becomes Custody.tells] in *.
  { split; [by left|]. by apply effect_failed. }
  unfold fdopendir_fd in Hf. destruct (k_fds k !! f) as [[]|] eqn:E; try done. injection Hf as <- <-. split; [by right|].
  destruct Ht as [_ Hfits _ _]. destruct (Hfits _ _ Hp) as (desc & Hdesc & Hd). rewrite E in Hdesc. injection Hdesc as <-.
  destruct Hd as [[= ->]|[? ?]]; [|done]. eapply effect_move; [done|done|done|done|done|]. right. by eexists.
Qed.

Lemma obeys_readdir f : obeys (Readdir f).
Proof.
  intros [b Hp] en r w' Hs. split; [done|]. apply fallible_cases in Hs as [[-> Hk]|(lim & k' & Hf & ->)]; cbn [w_kern becomes] in *; [by apply effect_failed|].
  unfold readdir_fd in Hf. destruct (k_fds k !! f) as [[]|] eqn:E; try done. destruct entries as [|x rest]; injection Hf as <- <-; [by apply effect_failed|].
  destruct Ht as [_ Hfits _ _]. destruct (Hfits _ _ Hp) as (desc & Hdesc & Hd). rewrite E in Hdesc. injection Hdesc as <-.
  destruct Hd as [?|[? [= -> _]]]; [done|]. eapply effect_move; [done|done|done|done|done|]. right. by eexists.
Qed.
Lemma obeys_openat d p fl m : obeys (Openat d p fl m).
Proof.
  intros (b & Hd & Hwhy) en r w' Hs. cbn [Custody.tells becomes]. apply fallible_cases in Hs as [[-> Hk]|(lim & k' & Hf & ->)]; cbn [w_kern] in *.
  { split; [by left|]. by apply effect_failed. }
  rewrite (at_dir_cases _ _ b) in Hf by by eapply tended_dir. destruct opened_fresh as [Hz Hn].
  apply open_cases in Hf as [(desc & [= -> ->] & _ & Hex)|(Hcreat & Hnone & Hc)].
  - split; [right; by split_and!|]. rewrite (proj2 (Z.ltb_ge _ _)) by done.
    destruct Hwhy as [Hc|[(_ & -> & _)|(_ & -> & _)]]; [| |done].
    + unfold creates. rewrite bool_decide_eq_false_2 by by intros ->. by eapply effect_gain.
    + change (creates lock_flags) with false. by eapply effect_gain.
  - assert (Hr : r = next_fd (k_fds k)) by by injection Hc. split; [right; rewrite Hr; by split_and!|]. rewrite (proj2 (Z.ltb_ge _ _)) by by rewrite Hr.
    assert (k' = snd (create_file k (resolve b p) fl m)) as -> by by rewrite <- Hc. rewrite Hr. destruct Hwhy as [?|[(-> & -> & name & Hname & ->)|(-> & -> & -> & Hw)]].
    + congruence.
    + change (creates lock_flags) with false. rewrite lock_name_resolve in * by done.
      apply effect_create_lock; [done|done| |done]. by intros name' _.
    + change (creates create_flags) with true. rewrite temp_resolve in *. by apply effect_create_temp.
Qed.

Lemma obeys_unlinkat d p : obeys (Unlinkat d p).
Proof.
  intros (Hd & -> & Hw) en r w' Hs. split; [done|]. cbn [becomes].
  apply fallible_cases in Hs as [[-> Hk]|(lim & k' & Hf & ->)]; cbn [w_kern] in *; [by apply effect_failed|].
  rewrite (at_dir_cases _ _ storage_path) in Hf by by eapply tended_dir. rewrite temp_resolve in Hf. unfold unlink_path in Hf.
  destruct (k_tree k !! temp_path fd) as [[]|]; try done; injection Hf as <- <-; by apply effect_unlink.
Qed.

Lemma obeys_linkat d p d' q : obeys (Linkat d p d' q).
Proof.
  intros (Hd & -> & -> & Hw & Hname & data & Ho & Hreq) en r w' Hs. split; [done|]. cbn [becomes].
  apply fallible_cases in Hs as [[-> Hk]|(lim & k' & Hf & ->)]; cbn [w_kern] in *; [by apply effect_failed|].
  rewrite !(at_dir_cases _ _ storage_path) in Hf by by eapply tended_dir. rewrite temp_resolve, filename_entry in Hf by done. unfold link_path in Hf.
  destruct (k_tree k !! temp_path fd) as [nd|] eqn:Et; [|done].
  assert (Hl : forall k1, nd ≠ NDir -> k_tree k !! entry_path q = None -> k1 = with_tree (<[entry_path q := nd]> (k_tree k)) k -> effect fd τ τ k k1)
    by (intros k1 _ ? ->; by eapply effect_link).
  destruct nd; try done; destruct (k_tree k !! entry_path q) eqn:Eq; try done; destruct (is_dir _ _); try done; injection Hf as <- <-; by apply Hl.
Qed.

(** The temporary file is open, and ends where the next byte will be written. *)
Lemma tended_temporary f :
  o_fds τ !! f = Some Temporary -> exists ino data mode, o_temp τ = Some data /\
    k_fds k !! f = Some (FdFile ino (length data) create_flags) /\ k_inodes k !! ino = Some (mk_inode data mode).
Proof.
  intros Hf. destruct Ht as [_ _ Htemp _]. unfold temp_ok in Htemp. destruct (o_temp τ) as [data|]; [|by destruct (Htemp f)].
  destruct Htemp as (ino & mode & _ & Hdata & _ & Hw). destruct (Hw f Hf) as [? _]. by exists ino, data, mode.
Qed.

Lemma obeys_write f s : obeys (Write f s).
Proof.
  intros Hp en r w' Hs. cbn [Custody.tells becomes]. destruct (tended_temporary f Hp) as (ino & data & mode & Ho & Hfile & Hdata).
  apply fallible_cases in Hs as [[-> Hk]|(lim & k' & Hf & ->)]; cbn [w_kern] in *.
  { split; [by left|]. by apply effect_failed. }
  unfold write_fd in Hf. rewrite Hfile, Hdata in Hf. change (has create_flags (O_WRONLY ||| O_RDWR)) with true in Hf.
  change (has create_flags O_APPEND) with false in Hf. cbv iota zeta in Hf. set (chunk := take (limit lim (length s)) s) in *.
  assert (Hchunk : r = zlen chunk /\ take (length chunk) s = chunk /\ zlen chunk <= zlen s).
  { injection Hf as <- _. split_and!; [done| |unfold zlen, chunk; rewrite length_take; lia].
    unfold chunk. rewrite length_take. rewrite <- (take_take s), firstn_all. done. }
  destruct Hchunk as (-> & Htake & Hle). pose proof (zlen_nonneg chunk). split; [right; lia|].
  rewrite (proj2 (Z.ltb_ge _ _)) by done. unfold zlen at 1. rewrite Nat2Z.id, Htake, Ho. cbn [fmap option_fmap option_map].
  cbn [i_data] in Hf. unfold splice in Hf. rewrite firstn_all, drop_ge, app_nil_r in Hf by lia.
  destruct chunk as [|c chunk]; injection Hf as <-.
  - rewrite app_nil_r. rewrite <- Ho. assert (Hsame : with_temp (o_temp τ) τ = τ) by by destruct τ. rewrite Hsame. by apply effect_failed.
  - eapply effect_content; try done. by rewrite length_app.
Qed.

Lemma obeys_fchmod f m : obeys (Fchmod f m).
Proof.
  intros Hp en r w' Hs. split; [done|]. cbn [becomes]. destruct (tended_temporary f Hp) as (ino & data & mode & Ho & Hfile & Hdata).
  apply fallible_cases in Hs as [[-> Hk]|(lim & k' & Hf & ->)]; cbn [w_kern] in *; [by apply effect_failed|].
  unfold fchmod_fd in Hf. rewrite Hfile, Hdata in Hf. injection Hf as <- <-.
  assert (Hsame : with_temp (Some data) τ = τ) by (rewrite <- Ho; by destruct τ). rewrite <- Hsame at 2.
  eapply effect_content; try done. cbn [with_inodes k_fds]. symmetry. by apply insert_id.
Qed.

Lemma obeys_recv f n : obeys (Recv f n).
Proof.
  intros [-> Hp] en r w' Hs. cbn [Custody.tells becomes].
  apply fallible_cases in Hs as [[-> Hk]|(lim & k' & Hf & ->)]; cbn [w_kern] in *.
  { split; [done|]. by apply effect_failed. }
  unfold recv_fd in Hf. destruct (k_fds k !! fd) as [[]|] eqn:E; try done. injection Hf as <- <-.
  set (st := stream (k_in k) fd). set (chunk := take _ st).
  assert (Hchunk : chunk ++ drop (length chunk) st = st).
  { unfold chunk. rewrite length_take. destruct (Nat.le_ge_cases (limit lim (Z.to_nat n)) (length st)) as [Hle|Hge].
    - rewrite Nat.min_l by done. apply take_drop.
    - rewrite Nat.min_r by done. by rewrite take_ge, drop_ge, app_nil_r by lia. }
  split. { intros data [= <-]. unfold zlen, chunk. rewrite length_take. unfold limit. destruct lim; lia. }
  apply effect_make; try done; auto.
  - cbn [with_in k_in add_input o_input]. rewrite stream_drop_eq. fold st. by rewrite <- (assoc_L (++)), Hchunk.
  - intros g Hg. cbn [with_in k_in]. rewrite stream_drop. by rewrite decide_False.
  - by apply store_step_same.
  - eapply temp_same; eauto.
  - by destruct Ht.
Qed.

Lemma obeys_all e : obeys e.
Proof.
  destruct e; try (by intros Hp); try (by apply obeys_looks).
  - apply obeys_looks; [done|done|]. intros en. destruct Ht as [[_ ?] _ _ _]. done.
  - apply obeys_looks; [done|done|]. intros en. destruct Ht as [[? _] _ _ _]. done.
  - apply obeys_recv.
  - apply obeys_open.
  - apply obeys_openat.
  - apply obeys_close.
  - apply obeys_read.
  - apply obeys_write.
  - apply obeys_mkdir.
  - apply obeys_unlinkat.
  - apply obeys_linkat.
  - apply obeys_fchmod.
  - apply obeys_fdopendir.
  - apply obeys_readdir.
  - apply obeys_closedir.
  - apply obeys_dgram.
Qed.
End calls.
End effects.
