(* ===== verification/CustodyInvariant.v ===== *)
(** * What the threads have in their keeping, together

    The invariant of the interleaved threads that the discipline of custody
    maintains: no descriptor has two owners, none is lost, what is published
    stays, and what is new is a complete upload. *)

From S2P Require Import Prelude CLib Posix Wp Protocol NetworkIO ClientManager FileLock Logger FileManager Store Threads Discipline Crowd CrowdRegistry Custody CustodyHandler CustodyEffects.

(** One thread makes a call; what another one has in its keeping is safe. *)
Section other.
Context (pid self fd fd' : Z) (τ τ' υ : own) (k k' : kern server).
Hypothesis (He : effect pid self fd τ τ' k k') (Hu : tended pid self fd' υ k).
Hypothesis (Hfd : 0 <= fd) (Hfd' : 0 <= fd') (Hne : fd ≠ fd').
Hypothesis (Hapart : forall g, is_Some (o_fds τ !! g) -> is_Some (o_fds υ !! g) -> False).

(** Its descriptors are not the other's, before and after. *)
Lemma other_apart g : is_Some (o_fds υ !! g) -> o_fds τ !! g = None /\ o_fds τ' !! g = None.
Proof.
  intros [u Hg]. assert (Hno : o_fds τ !! g = None).
  { destruct (o_fds τ !! g) eqn:E; [|done]. exfalso. apply (Hapart g); [by rewrite E|by eexists]. }
  split; [done|]. destruct (o_fds τ' !! g) eqn:E; [|done]. exfalso.
  destruct (ef_gained _ _ _ _ _ _ _ He g) as [[? ?]|Hn]; [by eexists|congruence|].
  destruct (td_fits _ _ _ _ _ Hu _ _ Hg) as (d & Hd & _). congruence.
Qed.

Lemma other_fds g : is_Some (o_fds υ !! g) -> k_fds k' !! g = k_fds k !! g.
Proof. intros Hg. destruct (other_apart g Hg). by eapply ef_others. Qed.

Lemma other_temp_path : temp_path pid self fd' ≠ temp_path pid self fd.
Proof. intros E. by apply temp_path_inj in E. Qed.

Lemma other_temp : temp_ok pid self fd' k' υ.
Proof.
  pose proof Hu as [_ Hfits Htemp Hsound]. pose proof (ef_store _ _ _ _ _ _ _ He) as Hst. unfold temp_ok in *.
  destruct (o_temp υ) as [data|]; [|done]. destruct Htemp as (ino & mode & Hpath & Hdata & Hone & Hw). exists ino, mode. split_and!; [| |done|].
  - apply (ss_kept _ _ _ _ _ _ Hst); [apply other_temp_path|done].
  - destruct (ss_data _ _ _ _ _ _ Hst _ _ Hdata) as [?|[_ Hmine]]; [done|]. by destruct (other_temp_path), (Hmine _ Hpath).
  - intros g Hg. destruct (Hw g Hg) as [Hfile Huniq]. split; [rewrite other_fds by (by eexists); done|].
    intros p Hp. destruct (ss_names _ _ _ _ _ _ Hst _ _ Hp) as [?|[?|Hmine]]; [by apply Huniq|congruence|].
    by destruct (other_temp_path), (Huniq _ Hmine).
Qed.

Lemma tended_other : tended pid self fd' υ k'.
Proof.
  destruct (ef_tended _ _ _ _ _ _ _ He) as [Hids _ _ Hsound]. split; [done| |apply other_temp|done].
  intros g u Hg. rewrite other_fds by (by eexists). by eapply td_fits.
Qed.
End other.

Section invariant.
(** The process at the start, and the sockets of the threads. *)
Context (k0 : kern server) (fds : list Z).
Hypothesis (Hnd : NoDup fds) (Hpos : Forall (fun fd => 0 <= fd) fds).

Abbreviation keeps_custody fd := (keeps_custody (k_pid k0) (k_self k0) fd false).
Abbreviation tended := (tended (k_pid k0) (k_self k0)).
Abbreviation temp_path := (temp_path (k_pid k0) (k_self k0)).

(** The descriptors that are not the clients'. *)
Definition base : gmap Z fdesc := filter (fun x => x.1 ∉ fds) (k_fds k0).

(** The client sent a request to upload this file, and the data right after. *)
Definition uploaded (fd : Z) (name data : bytes) : Prop :=
  exists before payload after,
    stream (k_in k0) fd = before ++ message_header MSG_UPLOAD (zlen payload) ++ payload ++ data ++ after /\
    parse_upload_metadata (Some (c_str payload)) FILE_NAME_MAX_SIZE = Some (name, zlen data).

Lemma requested_uploaded fd input rest name data :
  stream (k_in k0) fd = input ++ rest -> requested input name data -> uploaded fd name data.
Proof.
  intros Hs (before & payload & -> & Hp). exists before, payload, rest. split; [|done]. by rewrite Hs, <- !(assoc_L (++)).
Qed.

(** A shared file that was there, or that a client has uploaded. *)
Definition accounted (k : kern server) (name : bytes) (nd : node) : Prop :=
  k_tree k0 !! entry_path name = Some nd \/
  exists fd ino data mode, fd ∈ fds /\ nd = NReg ino /\ k_inodes k !! ino = Some (mk_inode data mode) /\ uploaded fd name data.

Record custody (p : pool) (τs : list own) : Prop := {
  cu_length : length τs = length (p_threads p);
  cu_sockets : (p_threads p).*1 = fds;
  cu_follows : forall i fd t τ, p_threads p !! i = Some (fd, t) -> τs !! i = Some τ -> keeps_custody fd τ (t_prog t) released;
  cu_tended : forall i fd t τ, p_threads p !! i = Some (fd, t) -> τs !! i = Some τ -> tended fd τ (w_kern (p_world p));
  cu_apart : forall i j τ υ g, τs !! i = Some τ -> τs !! j = Some υ -> is_Some (o_fds τ !! g) -> is_Some (o_fds υ !! g) -> i = j;
  cu_rest : forall g, (forall i τ, τs !! i = Some τ -> o_fds τ !! g = None) -> k_fds (w_kern (p_world p)) !! g = base !! g;
  cu_new : forall i τ g, τs !! i = Some τ -> is_Some (o_fds τ !! g) -> base !! g = None;
  cu_input : forall i fd t τ, p_threads p !! i = Some (fd, t) -> τs !! i = Some τ ->
    stream (k_in k0) fd = o_input τ ++ stream (k_in (w_kern (p_world p))) fd;
  cu_store : forall name nd, filename_ok name -> k_tree (w_kern (p_world p)) !! entry_path name = Some nd ->
    accounted (w_kern (p_world p)) name nd
}.

(** What has a name of its own keeps it, and its content. *)
Definition stable (k k' : kern server) : Prop :=
  forall p nd, (forall fd, fd ∈ fds -> p ≠ temp_path fd) -> k_tree k !! p = Some nd ->
    k_tree k' !! p = Some nd /\ forall ino i, nd = NReg ino -> k_inodes k !! ino = Some i -> k_inodes k' !! ino = Some i.

#[export] Instance stable_preorder : PreOrder stable.
Proof.
  split.
  - intros k p nd _ Hp. by split.
  - intros k1 k2 k3 H1 H2 p nd Hno Hp. destruct (H1 p nd Hno Hp) as [Hp2 Hi2]. destruct (H2 p nd Hno Hp2) as [Hp3 Hi3].
    split; [done|]. intros ino i -> Hi. eapply Hi3; [done|]. by eapply Hi2.
Qed.

Lemma store_step_stable fd τ k k' : fd ∈ fds -> store_step (k_pid k0) (k_self k0) fd τ k k' -> stable k k'.
Proof.
  intros Hfd [Hkept _ Hdata _] p nd Hno Hp. split; [apply Hkept; [by apply Hno|done]|]. intros ino i -> Hi.
  destruct (Hdata _ _ Hi) as [?|[_ Hmine]]; [done|]. by destruct (Hno fd Hfd), (Hmine _ Hp).
Qed.

Lemma thread_socket p τs i fd t : custody p τs -> p_threads p !! i = Some (fd, t) -> fds !! i = Some fd.
Proof. intros Hc Hi. rewrite <- (cu_sockets _ _ Hc). by eapply lookup_fst. Qed.

(** ** One turn *)

Section turn.
Context (p : pool) (τs : list own) (i : nat) (fd : Z) (t t' : thread server unit) (τ τ' : own) (w' : world server).
Hypothesis (Hc : custody p τs) (Hi : p_threads p !! i = Some (fd, t)) (Hτ : τs !! i = Some τ).
Let k := w_kern (p_world p).
Let k' := w_kern w'.
Let p' := Pool (<[i := (fd, t')]> (p_threads p)) w'.
Let τs' := <[i := τ']> τs.
Hypothesis (He : effect (k_pid k0) (k_self k0) fd τ τ' k k').

(** The thread itself, or another one. *)
Lemma turn_cases j fdj tj υ :
  p_threads p' !! j = Some (fdj, tj) -> τs' !! j = Some υ ->
  (j = i /\ fdj = fd /\ tj = t' /\ υ = τ') \/ j ≠ i /\ p_threads p !! j = Some (fdj, tj) /\ τs !! j = Some υ.
Proof.
  intros Hj Hυ. destruct (update_cases _ _ _ _ _ Hj) as [[-> [= -> ->]]|[Hne Hj']], (update_cases _ _ _ _ _ Hυ) as [[Hij ->]|[Hne' Hυ']]; try done.
  - left. by split_and!.
  - right. by split_and!.
Qed.

Lemma turn_apart j υ g : j ≠ i -> τs !! j = Some υ -> is_Some (o_fds τ !! g) -> is_Some (o_fds υ !! g) -> False.
Proof. intros Hne Hj Hg Hg'. apply Hne. by eapply cu_apart. Qed.

Lemma turn_socket_ne j fdj tj : j ≠ i -> p_threads p !! j = Some (fdj, tj) -> fd ≠ fdj.
Proof.
  intros Hne Hj ->. apply Hne. by eapply (NoDup_lookup fds); [|eapply thread_socket|eapply thread_socket].
Qed.

Lemma turn_nonneg j fdj tj : p_threads p !! j = Some (fdj, tj) -> 0 <= fdj.
Proof. intros Hj. rewrite Forall_forall in Hpos. eapply Hpos, list_elem_of_lookup_2, thread_socket; done. Qed.

(** The other one still keeps what it has. *)
Lemma turn_tended j fdj tj υ : j ≠ i -> p_threads p !! j = Some (fdj, tj) -> τs !! j = Some υ -> tended fdj υ k'.
Proof.
  intros Hne Hj Hυ. eapply (tended_other _ _ fd fdj τ τ' υ k k'); [exact He|by eapply cu_tended|by eapply turn_nonneg|by eapply turn_nonneg| |].
  - by eapply turn_socket_ne.
  - intros g. by eapply turn_apart.
Qed.

Lemma turn_gained j υ g : j ≠ i -> τs !! j = Some υ -> is_Some (o_fds υ !! g) -> o_fds τ' !! g = None.
Proof.
  intros Hne Hυ Hg. destruct (lookup_lt_is_Some_2 (p_threads p) j) as [[fdj tj] Hj]; [rewrite <- (cu_length _ _ Hc); by eapply lookup_lt_Some|].
  eapply (other_apart _ _ fd fdj τ τ' υ k k'); [exact He|by eapply cu_tended|by intros ?; eapply turn_apart|done].
Qed.

Lemma turn_rest g : (forall j υ, τs' !! j = Some υ -> o_fds υ !! g = None) -> k_fds k' !! g = base !! g.
Proof.
  intros Hnone. assert (Hn' : o_fds τ' !! g = None).
  { apply (Hnone i). apply list_lookup_insert_eq. by eapply lookup_lt_Some. }
  assert (Hoth : forall j υ, j ≠ i -> τs !! j = Some υ -> o_fds υ !! g = None).
  { intros j υ Hne Hj. apply (Hnone j). unfold τs'. by rewrite list_lookup_insert_ne. }
  destruct (o_fds τ !! g) as [u|] eqn:E.
  - rewrite (ef_lost _ _ _ _ _ _ _ He g) by done. symmetry. by eapply cu_new.
  - rewrite (ef_others _ _ _ _ _ _ _ He g) by done. apply (cu_rest _ _ Hc). intros j υ Hj.
    destruct (decide (j = i)) as [->|Hne]; [congruence|by eapply Hoth].
Qed.

Lemma turn_new g : is_Some (o_fds τ' !! g) -> base !! g = None.
Proof.
  intros Hg. destruct (ef_gained _ _ _ _ _ _ _ He g Hg) as [?|Hn]; [by eapply cu_new|].
  assert (Hno : forall j υ, τs !! j = Some υ -> o_fds υ !! g = None).
  { intros j υ Hj. destruct (o_fds υ !! g) as [u|] eqn:E; [|done]. exfalso.
    destruct (lookup_lt_is_Some_2 (p_threads p) j) as [[fdj tj] Htj]; [rewrite <- (cu_length _ _ Hc); by eapply lookup_lt_Some|].
    destruct (td_fits _ _ _ _ _ (cu_tended _ _ Hc _ _ _ _ Htj Hj) _ _ E) as (d & Hd & _). fold k in Hd. congruence. }
  rewrite <- (cu_rest _ _ Hc g Hno). exact Hn.
Qed.

(** A shared file after the call was there before, or has just been uploaded. *)
Lemma turn_accounted name nd : filename_ok name -> k_tree k' !! entry_path name = Some nd -> accounted k' name nd.
Proof.
  intros Hname Hnew. pose proof (ef_store _ _ _ _ _ _ _ He) as Hst. assert (Hfd : fd ∈ fds) by by eapply list_elem_of_lookup_2, thread_socket.
  destruct (k_tree k !! entry_path name) as [nd0|] eqn:E.
  - assert (nd0 = nd) as ->.
    { pose proof (ss_kept _ _ _ _ _ _ Hst (entry_path name) nd0) as Hk. rewrite Hk in Hnew; [by injection Hnew|by apply entry_not_temp|done]. }
    destruct (cu_store _ _ Hc name nd Hname E) as [?|(f & ino & data & mode & Hf & -> & Hdata & Hup)]; [by left|right].
    exists f, ino, data, mode. split_and!; [done|done| |done].
    destruct (ss_data _ _ _ _ _ _ Hst _ _ Hdata) as [?|[_ Hmine]]; [done|]. by destruct (entry_not_temp (k_pid k0) (k_self k0) name fd Hname), (Hmine _ E).
  - destruct (ss_new _ _ _ _ _ _ Hst name nd Hname E Hnew) as (ino & data & mode & -> & Hdata & Hreq). right.
    exists fd, ino, data, mode. split_and!; [done|done|done|]. by eapply requested_uploaded; [eapply cu_input|].
Qed.

Lemma custody_update : keeps_custody fd τ' (t_prog t') released -> custody p' τs'.
Proof.
  intros Hgo. split.
  - unfold τs', p'. cbn [p_threads]. rewrite !length_insert. apply (cu_length _ _ Hc).
  - unfold p'. cbn [p_threads]. rewrite list_fmap_insert, list_insert_id; [apply (cu_sockets _ _ Hc)|by eapply lookup_fst].
  - intros j fdj tj υ Hj Hυ. destruct (turn_cases _ _ _ _ Hj Hυ) as [(-> & -> & -> & ->)|(Hne & Hj' & Hυ')]; [done|by eapply cu_follows].
  - intros j fdj tj υ Hj Hυ. destruct (turn_cases _ _ _ _ Hj Hυ) as [(-> & -> & -> & ->)|(Hne & Hj' & Hυ')]; [by eapply ef_tended|by eapply turn_tended].
  - intros j j' υ υ' g Hj Hj' Hg Hg'. destruct (update_cases _ _ _ _ _ Hj) as [[-> ->]|[Hne Hj1]], (update_cases _ _ _ _ _ Hj') as [[-> ->]|[Hne' Hj1']]; [done| | |by eapply cu_apart].
    + rewrite (turn_gained j' υ' g) in Hg by done. by destruct Hg.
    + rewrite (turn_gained j υ g) in Hg' by done. by destruct Hg'.
  - apply turn_rest.
  - intros j υ g Hj. destruct (update_cases _ _ _ _ _ Hj) as [[-> ->]|[Hne Hj1]]; [apply turn_new|by eapply cu_new].
  - intros j fdj tj υ Hj Hυ. destruct (turn_cases _ _ _ _ Hj Hυ) as [(-> & -> & -> & ->)|(Hne & Hj' & Hυ')].
    + change (w_kern (p_world p')) with k'. rewrite (ef_input _ _ _ _ _ _ _ He). by eapply cu_input.
    + change (w_kern (p_world p')) with k'. rewrite (ef_inputs _ _ _ _ _ _ _ He); [by eapply cu_input|]. intros ->. by eapply turn_socket_ne.
  - apply turn_accounted.
Qed.
End turn.

Lemma custody_turn p τs i e r p' :
  custody p τs -> turn i e r p p' -> exists τs', custody p' τs' /\ stable (w_kern (p_world p)) (w_kern (p_world p')).
Proof.
  intros Hc (fd & t & g & w' & Hi & Hp & _ & Hs & ->).
  destruct (lookup_lt_is_Some_2 τs i) as [τ Hτ]; [rewrite (cu_length _ _ Hc); by eapply lookup_lt_Some|].
  pose proof (cu_follows _ _ Hc _ _ _ _ Hi Hτ) as Hf. rewrite Hp in Hf. destruct Hf as [Hperm Hgo].
  pose proof (cu_tended _ _ Hc _ _ _ _ Hi Hτ) as Htd.
  destruct (obeys_all _ _ fd τ _ Htd e Hperm _ r w' Hs) as [Htell Heff]. destruct (Hgo tt r Htell) as (τ' & -> & Hgo').
  exists (<[i := becomes τ e r]> τs). split; [by eapply custody_update|].
  eapply store_step_stable; [by eapply list_elem_of_lookup_2, thread_socket|by eapply ef_store].
Qed.

Lemma custody_reachable calm clear p τs p' :
  custody p τs -> pool_reachable calm clear p p' -> exists τs', custody p' τs' /\ stable (w_kern (p_world p)) (w_kern (p_world p')).
Proof.
  intros Hc Hr. revert τs Hc. induction Hr as [p|p p1 p2 (i & e & r & _ & _ & Hstep) _ IH]; intros τs Hc; [by exists τs|].
  destruct (custody_turn _ _ _ _ _ _ Hc Hstep) as (τs1 & Hc1 & Hs1). destruct (IH _ Hc1) as (τs2 & Hc2 & Hs2).
  exists τs2. split; [done|]. by etransitivity.
Qed.
End invariant.
