(* ===== verification/ManyClients.v ===== *)
(** * Many clients at once

    What the server promises when any number of its threads run together, in
    any order, each calling one system call at a time: the registry stays
    sound, nobody waits for a mutex for ever while the clients read what they
    are sent, everyone is gone from the registry in the end, and no client
    ever finds one message in the middle of another. *)

From S2P Require Import Prelude CLib Posix Wp Protocol NetworkIO ClientManager Registry RegistrySpec Sending Logger FileManager ClientHandler Threads Crowd CrowdRegistry CrowdStreams CrowdManager CrowdServer CrowdHandler.

Section many.
Context `{Libc}.
Variable F : nat.

(** A thread for each of these sockets, before its first call. *)
Definition serving (fds : list Z) (en : env) (k : kern server) : pool :=
  Pool ((fun fd => (fd, new_thread (client_handler F (Some fd)))) <$> fds) (W en k).

(** The sockets are distinct, not registered, and few enough for the counter
    of the clients; the registry is sound, and no thread is using it. *)
Definition admissible (fds : list Z) (k : kern server) : Prop :=
  NoDup fds /\ Forall (fun fd => 0 <= fd /\ ~ registered (k_static k) fd) fds /\ registry_ok (k_static k) /\
  next_client_id (k_static k) + zlen fds < 2 ^ 31 /\ forall m, registry_mutex m -> m ∉ k_held k.

Lemma serving_fst fds en k : (p_threads (serving fds en k)).*1 = fds.
Proof. cbn [serving p_threads]. rewrite <- list_fmap_compose. apply list_fmap_id. Qed.

Lemma serving_inv calm fds en k :
  admissible fds k -> inv (k_static k) calm (serving fds en k) (replicate (length (p_threads (serving fds en k))) free_hold) (k_static k).
Proof.
  intros (Hnd & Hfds & Hok & Hid & Hno). apply inv_initial; try done.
  - by rewrite (serving_fst fds en k).
  - intros i fd t Hi. apply list_lookup_fmap_Some in Hi as (fd' & [= -> ->] & _). apply guarded_client_handler.
  - by rewrite (serving_fst fds en k).
  - unfold zlen in *. rewrite <- (serving_fst fds en k) in Hid. by rewrite length_fmap in Hid.
Qed.

Lemma reachable_sockets calm clear p p' : pool_reachable calm clear p p' -> (p_threads p').*1 = (p_threads p).*1.
Proof.
  induction 1 as [p|p p1 p2 Hstep _ IH]; [done|]. rewrite IH. destruct Hstep as (i & e & r & _ & _ & fd & t & g & w' & Hi & _ & _ & _ & ->).
  cbn [p_threads]. rewrite list_fmap_insert. apply list_insert_id. by eapply lookup_fst.
Qed.

Lemma serving_reachable calm clear fds en k p :
  admissible fds k -> pool_reachable calm clear (serving fds en k) p -> exists σs B, inv (k_static k) calm p σs B.
Proof. intros Ha Hr. eapply inv_reachable; [by apply serving_inv|done]. Qed.

Lemma serving_streams fds en k p :
  admissible fds k -> pool_reachable true true (serving fds en k) p ->
  exists σs B, inv (k_static k) true p σs B /\ streams (k_out k) p σs B.
Proof. intros Ha Hr. eapply streams_reachable; [by apply serving_inv| |done]. apply streams_initial; [done|by apply serving_inv]. Qed.

(** C3. The registry is safe from races.  Whatever the clients send, whatever
    calls fail and however the calls of the threads are interleaved, whenever
    the mutex of the registry is free the registry is well formed (no name,
    socket or id twice, ...), it is the outcome of whole registrations and
    removals that happened one after the other, each by the thread of the
    client concerned, and it lists no one but these clients and those it
    listed at the beginning. *)
Theorem registry_survives_concurrency fds en k p :
  admissible fds k -> pool_reachable false false (serving fds en k) p -> Clients_mutex ∉ k_held (w_kern (p_world p)) ->
  registry_ok (current_of p) /\ history (k_static k) (current_of p) /\
  forall fd, registered (current_of p) fd -> registered (k_static k) fd \/ fd ∈ fds.
Proof.
  intros Ha Hr Hno. destruct (serving_reachable _ _ _ _ _ _ Ha Hr) as (σs & B & Hinv).
  destruct (inv_between _ _ _ _ _ Hinv Hno) as (HB & Hok & Hh). split_and!; [done|done|]. intros fd Hfd. rewrite HB in Hfd.
  apply (so_users _ _ _ (iv_sound _ _ _ _ _ Hinv)) in Hfd as [?|Hin]; [by left|right].
  apply list_elem_of_lookup in Hin as [n Hn]. apply lookup_zip_with_Some in Hn as (x & y & [= <- <-] & Hx & _).
  rewrite (reachable_sockets _ _ _ _ Hr), (serving_fst fds en k) in Hx. by eapply list_elem_of_lookup_2.
Qed.

(** C5. No deadlock among the threads.  Let any of the clients not read what
    they are sent, so that a [send] to them may never return.  However the
    threads are interleaved, and whatever fails but the calls on mutexes, there
    is always a thread that can go on without any client speaking, and without
    any of these clients reading, unless one is in [send] to one of these
    clients under a send mutex, or each thread has returned or waits, keeping
    nobody else from a mutex, for its own client to speak or to read, or for
    the lock of a file.  (A thread that has used up its fuel is one the model
    stops following; the statement is about the others.) *)
Theorem nobody_waits_for_ever (deaf : Z -> bool) fds en k p :
  admissible fds k -> pool_reachable true false (serving fds en k) p -> (forall x, x ∈ p_threads p -> ~ spent x.2) ->
  (exists i p', take_turn false false i p = Some p' /\
     exists x, p_threads p !! i = Some x /\ ~ waits_for_client x.2 /\ ~ waits_for_reader deaf x.2) \/
  (exists x slot, x ∈ p_threads p /\ waits_for_reader deaf x.2 /\ Send_mutex slot ∈ k_held (w_kern (p_world p))) \/
  (forall x, x ∈ p_threads p -> ended x.2 \/ waits_for_file (p_world p) x.2 \/ waits_for_client x.2 \/
     exists data g, t_prog x.2 = Call (Send x.1 data) g /\ deaf x.1 = true).
Proof.
  intros Ha Hr Hsp. destruct (serving_reachable _ _ _ _ _ _ Ha Hr) as (σs & B & Hinv).
  destruct (inv_no_deadlock deaf _ _ _ _ Hinv Hsp) as [([fd t] & Hin & Hgo)|[?|?]]; [left|right; by left|right; by right].
  apply list_elem_of_lookup in Hin as [i Hi]. destruct (can_go_turn deaf p i fd t Hi Hgo) as [p' Hp']. exists i, p'. split; [done|].
  exists (fd, t). split; [done|]. by eapply can_go_free.
Qed.

(** C24. The registry is not locked during input and output: while no call on a
    mutex fails, when every thread
    that has not returned is about to read from its client, to write to one,
    or to take the lock of a file, the mutex of the registry is free. *)
Theorem registry_is_free_during_io fds en k p :
  admissible fds k -> pool_reachable true false (serving fds en k) p ->
  (forall x, x ∈ p_threads p -> ended x.2 \/ exists e g, t_prog x.2 = Call e g /\ io e) ->
  Clients_mutex ∉ k_held (w_kern (p_world p)).
Proof.
  intros Ha Hr Hio Hin. destruct (serving_reachable _ _ _ _ _ _ Ha Hr) as (σs & B & Hinv).
  destruct (inv_io_outside _ _ _ _ Hinv) as (x & e & g & Hx & Hp & He); [|done|].
  - intros x Hx Hs. unfold spent in Hs. destruct (Hio x Hx) as [[a E]|(e & g & E & _)]; congruence.
  - destruct (Hio x Hx) as [[a E]|(e' & g' & E & He')]; [congruence|]. rewrite Hp in E. by injection E as <- _.
Qed.

(** C6. Nobody is left behind.  When every thread has returned, in an
    execution in which no call on a mutex has failed (anything else may), the
    registry lists exactly the sockets it listed before the first of these
    clients came, and its mutexes are free. *)
Theorem everyone_leaves fds en k p :
  admissible fds k -> pool_reachable true false (serving fds en k) p -> (forall x, x ∈ p_threads p -> ended x.2) ->
  (forall fd, registered (current_of p) fd <-> registered (k_static k) fd) /\
  Clients_mutex ∉ k_held (w_kern (p_world p)) /\ forall i, Send_mutex i ∉ k_held (w_kern (p_world p)).
Proof.
  intros Ha Hr Hend. destruct (serving_reachable _ _ _ _ _ _ Ha Hr) as (σs & B & Hinv).
  destruct (inv_all_gone _ _ _ _ Hinv Hend) as [Hno Hreg]. split_and!; [done|by apply Hno|intros i; by apply Hno].
Qed.

(** C4. Messages are never mixed.  While no [send], no [read] of a file and no
    mutex fails ([send] and [read] may do a part of the work only; a [read]
    that finds the end of the file before its announced size counts as
    failing), whatever the clients send and however the threads are
    interleaved, what has been written to a client is a sequence of whole
    messages, and of file announcements each followed by exactly the announced
    number of bytes, whenever no thread is writing to it; and so are all
    streams when every thread has returned. *)
Theorem messages_are_never_mixed fds en k p :
  admissible fds k -> pool_reachable true true (serving fds en k) p ->
  (forall slot, 0 <= slot -> active (entry (current_of p) slot) = true ->
     Clients_mutex ∉ k_held (w_kern (p_world p)) -> Send_mutex slot ∉ k_held (w_kern (p_world p)) ->
     let fd := socket_fd (entry (current_of p) slot) in
     exists l, Forall segment l /\ stream (k_out (w_kern (p_world p))) fd = stream (k_out k) fd ++ concat l) /\
  ((forall x, x ∈ p_threads p -> ended x.2) ->
     forall fd, exists l, Forall segment l /\ stream (k_out (w_kern (p_world p))) fd = stream (k_out k) fd ++ concat l).
Proof.
  intros Ha Hr. destruct (serving_streams _ _ _ _ Ha Hr) as (σs & B & Hinv & Hst).
  assert (Hem : forall f, emitted (k_out k) p f [] -> exists l, Forall segment l /\ stream (k_out (w_kern (p_world p))) f = stream (k_out k) f ++ concat l).
  { intros f (b & (l & Hl & ->) & E). exists l. split; [done|]. by rewrite E, app_nil_r. }
  split; [intros slot H0 Hact Hc Hs; apply Hem; by eapply streams_of_members|intros Hend f; apply Hem; by eapply streams_ended].
Qed.
End many.

(** ** Two clients, computed *)

(** Alice logs in, says hello and leaves; Bob logs in and hangs up. *)
Definition meeting : kern server :=
  with_in {[ 5 := frame MSG_LOGIN (B "alice") ++ frame MSG_CHAT (B "hello") ++ frame MSG_DISCONNECT []; 6 := frame MSG_LOGIN (B "bob") ]}
    (with_fds {[ 5 := FdSocket; 6 := FdSocket ]} (idle (init_state server_start))).

Definition arrivals : pool := serving (H := plain_libc) 10 [5; 6] calm meeting.

Lemma nobody_registered fd : ~ registered (init_state server_start) fd.
Proof.
  intros (i & e & Hi & Ha & _). assert (Hu : users (init_state server_start) !! username e = Some (socket_fd e, client_id e)).
  { apply users_lookup; [apply init_state_ok|]. by exists i, e. }
  by rewrite init_state_users, lookup_empty in Hu.
Qed.

Lemma admissible_start fds k :
  k_static k = init_state server_start -> k_held k = ∅ -> NoDup fds -> Forall (fun fd => 0 <= fd) fds -> zlen fds < 2 ^ 31 - 1 -> admissible fds k.
Proof.
  intros Hs Hh Hnd Hfd Hl. unfold admissible. rewrite Hs, Hh. split_and!; [done| |apply init_state_ok| |intros m _; set_solver].
  - eapply Forall_impl; [done|]. intros fd ?. split; [done|apply nobody_registered].
  - change (next_client_id (init_state server_start)) with 1. lia.
Qed.

Lemma meeting_admissible : admissible [5; 6] meeting.
Proof. apply admissible_start; [done|done| |by repeat constructor|done]. by apply (bool_decide_eq_true_1 (NoDup [5; 6])). Qed.

(** Both have logged in, and are listened to. *)
Definition both_in : pool := schedule true true [(0%nat, 29%nat); (1%nat, 29%nat)] arrivals.
(** Alice's greeting is under way when Bob leaves; then all there is left to do. *)
Definition all_done : pool := schedule true true [(0%nat, 5%nat); (1%nat, 100%nat); (0%nat, 100%nat); (1%nat, 100%nat)] both_in.

Definition has_ended (t : thread server unit) : bool := match t_prog t with Ret _ => true | _ => false end.
Definition is_spent (t : thread server unit) : bool := match t_prog t with Diverge => true | _ => false end.

Lemma all_ended ts : forallb (fun x => has_ended x.2) ts = true -> forall x : Z * thread server unit, x ∈ ts -> ended x.2.
Proof.
  intros Hf x Hx. rewrite forallb_forall in Hf. specialize (Hf x (proj1 (list_elem_of_In _ _) Hx)). unfold has_ended in Hf.
  destruct (t_prog x.2) as [a| |] eqn:E; try done. by exists a.
Qed.

Lemma none_spent ts : forallb (fun x => negb (is_spent x.2)) ts = true -> forall x : Z * thread server unit, x ∈ ts -> ~ spent x.2.
Proof.
  intros Hf x Hx Hs. rewrite forallb_forall in Hf. specialize (Hf x (proj1 (list_elem_of_In _ _) Hx)). unfold is_spent in Hf.
  unfold spent in Hs. by rewrite Hs in Hf.
Qed.

Lemma both_in_reachable calm clear : pool_reachable calm clear arrivals both_in.
Proof. apply reachable_weaken, schedule_reachable. Qed.

Lemma all_done_reachable calm clear : pool_reachable calm clear arrivals all_done.
Proof. etransitivity; [apply both_in_reachable|apply reachable_weaken, schedule_reachable]. Qed.

Lemma mutex_free p m : bool_decide (m ∈ k_held (w_kern (p_world p))) = false -> m ∉ k_held (w_kern (p_world p)).
Proof. apply bool_decide_eq_false_1. Qed.

Lemma registry_survives_concurrency_witness :
  registry_ok (current_of both_in) /\ history (init_state server_start) (current_of both_in) /\
  forall fd, registered (current_of both_in) fd -> registered (init_state server_start) fd \/ fd ∈ [5; 6].
Proof.
  apply (registry_survives_concurrency (H := plain_libc) 10 [5; 6] calm meeting both_in); [apply meeting_admissible|apply both_in_reachable|].
  apply mutex_free. vm_compute. reflexivity.
Defined.

Lemma nobody_waits_for_ever_witness :
  (exists i p', take_turn false false i both_in = Some p' /\
     exists x, p_threads both_in !! i = Some x /\ ~ waits_for_client x.2 /\ ~ waits_for_reader (fun f => f == 6) x.2) \/
  (exists x slot, x ∈ p_threads both_in /\ waits_for_reader (fun f => f == 6) x.2 /\ Send_mutex slot ∈ k_held (w_kern (p_world both_in))) \/
  (forall x, x ∈ p_threads both_in -> ended x.2 \/ waits_for_file (p_world both_in) x.2 \/ waits_for_client x.2 \/
     exists data g, t_prog x.2 = Call (Send x.1 data) g /\ (x.1 == 6) = true).
Proof.
  apply (nobody_waits_for_ever (H := plain_libc) 10 (fun f => f == 6) [5; 6] calm meeting both_in); [apply meeting_admissible|apply both_in_reachable|].
  apply none_spent. vm_compute. reflexivity.
Defined.

Lemma everyone_leaves_witness :
  (forall fd, registered (current_of all_done) fd <-> registered (init_state server_start) fd) /\
  Clients_mutex ∉ k_held (w_kern (p_world all_done)) /\ forall i, Send_mutex i ∉ k_held (w_kern (p_world all_done)).
Proof.
  apply (everyone_leaves (H := plain_libc) 10 [5; 6] calm meeting all_done); [apply meeting_admissible|apply all_done_reachable|].
  apply all_ended. vm_compute. reflexivity.
Defined.

Lemma messages_are_never_mixed_witness :
  (exists l, Forall segment l /\ stream (k_out (w_kern (p_world both_in))) 6 = [] ++ concat l) /\
  forall fd, exists l, Forall segment l /\ stream (k_out (w_kern (p_world all_done))) fd = stream (k_out meeting) fd ++ concat l.
Proof.
  split.
  - refine (proj1 (messages_are_never_mixed (H := plain_libc) 10 [5; 6] calm meeting both_in meeting_admissible (both_in_reachable _ _)) 1 _ _ _ _);
      [lia|vm_compute; reflexivity|apply mutex_free; vm_compute; reflexivity..].
  - apply (messages_are_never_mixed (H := plain_libc) 10 [5; 6] calm meeting all_done meeting_admissible (all_done_reachable _ _)).
    apply all_ended. vm_compute. reflexivity.
Defined.

Definition at_io (t : thread server unit) : bool :=
  match t_prog t with Call e _ => match e with Send _ _ | Recv _ _ | Fcntl_setlk _ _ => true | _ => false end | _ => false end.

Lemma all_at_io ts : forallb (fun x => at_io x.2) ts = true ->
  forall x : Z * thread server unit, x ∈ ts -> ended x.2 \/ exists e g, t_prog x.2 = Call e g /\ io e.
Proof.
  intros Hf x Hx. rewrite forallb_forall in Hf. specialize (Hf x (proj1 (list_elem_of_In _ _) Hx)). unfold at_io in Hf.
  destruct (t_prog x.2) as [a|e g|]; try done. right. exists e, g. split; [done|]. by destruct e.
Qed.

Lemma registry_is_free_during_io_witness : Clients_mutex ∉ k_held (w_kern (p_world both_in)).
Proof.
  apply (registry_is_free_during_io (H := plain_libc) 10 [5; 6] calm meeting both_in); [apply meeting_admissible|apply both_in_reachable|].
  apply all_at_io. vm_compute. reflexivity.
Defined.
