(* ===== verification/SharedStore.v ===== *)
(** * The shared files, with many clients at once

    What the server promises about descriptors and files when any number of
    its threads run together, in any order, whatever calls fail. *)

From S2P Require Import Prelude CLib Posix Wp Protocol NetworkIO ClientManager Registry FileLock Logger FileManager Store ClientHandler Threads Discipline Crowd Custody CustodyServer CustodyHandler CustodyEffects CustodyInvariant ManyClients.

(** The descriptors a call uses. *)
Definition uses (e : sys server) (f : Z) : Prop :=
  match e with
  | Send g _ | Recv g _ | Shutdown g | Openat g _ _ _ | Close g | Read g _ | Write g _ | Fstat g | Fstatat_nofollow g _
  | Unlinkat g _ | Fsync g | Fchmod g _ | Fdopendir g | Readdir g | Closedir g | Fcntl_setlk g _ | Sendto g _
  | Setsockopt g | Bind g _ | Bind_path g _ | Listen g _ | Connect g _ _ | Recvfrom g _ _ | Accept g _ => f = g
  | Linkat g _ h _ => f = g \/ f = h
  | _ => False
  end.

(** It is a [send]: a thread writes to the sockets of the others, too. *)
Definition sends (e : sys server) : Prop := match e with Send _ _ => True | _ => False end.

Lemma sends_dec e : sends e \/ ~ sends e.
Proof. destruct e; cbn [sends]; tauto. Qed.

Lemma permits_uses pid self fd stays τ e f : permits pid self fd stays τ e -> uses e f -> ~ sends e -> is_Some (o_fds τ !! f).
Proof.
  destruct e; try done; cbn [permits uses sends]; intros Hp Hu Hs; try (by destruct Hs); try (by destruct Hp);
    repeat match goal with
      | H : _ /\ _ |- _ => destruct H
      | H : exists _, _ |- _ => destruct H
      | H : f = _ \/ f = _ |- _ => destruct H
      end; subst; eauto.
Qed.

Lemma arrived_lookup fd g u : o_fds (arrived fd) !! g = Some u -> g = fd /\ u = Socket.
Proof. change (o_fds (arrived fd)) with ({[fd := Socket]} : gmap Z use). by intros [-> <-]%lookup_singleton_Some. Qed.

Section store.
Context `{Libc}.
Variable F : nat.
Abbreviation serving := (serving F).

(** The sockets of the clients are distinct and open; every file has a content. *)
Definition provided (fds : list Z) (k : kern server) : Prop :=
  NoDup fds /\ Forall (fun fd => 0 <= fd /\ k_fds k !! fd = Some FdSocket) fds /\ store_sound k.

Lemma provided_custody fds en k : provided fds k -> custody k fds (serving fds en k) (arrived <$> fds).
Proof.
  intros (Hnd & Hfds & Hsound). rewrite Forall_forall in Hfds.
  assert (Hth : forall i fd t, p_threads (serving fds en k) !! i = Some (fd, t) -> fds !! i = Some fd /\ t = new_thread (client_handler F (Some fd))).
  { intros i fd t Hi. cbn [p_threads ManyClients.serving] in Hi. apply list_lookup_fmap_Some in Hi as (fd' & [= -> ->] & ?). done. }
  assert (Hac : forall i τ, (arrived <$> fds) !! i = Some τ -> exists fd, fds !! i = Some fd /\ τ = arrived fd).
  { intros i τ Hi. apply list_lookup_fmap_Some in Hi as (fd & -> & ?). by exists fd. }
  assert (Hhome : forall fd g, is_Some (o_fds (arrived fd) !! g) -> g = fd).
  { intros fd g [u Hu]. by apply arrived_lookup in Hu as [-> _]. }
  split.
  - cbn [p_threads ManyClients.serving]. by rewrite !length_fmap.
  - by rewrite (serving_fst F).
  - intros i fd t τ Hi Hτ. destruct (Hth _ _ _ Hi) as [Hi' ->]. destruct (Hac _ _ Hτ) as (fd' & Hi'' & ->). simplify_eq.
    by apply custody_client_handler.
  - intros i fd t τ Hi Hτ. destruct (Hth _ _ _ Hi) as [Hi' ->]. destruct (Hac _ _ Hτ) as (fd' & Hi'' & ->). simplify_eq. split.
    + done.
    + intros g u Hu. apply arrived_lookup in Hu as [-> ->]. eexists. split; [by apply Hfds; eapply list_elem_of_lookup_2|done].
    + intros g Hg. by apply arrived_lookup in Hg as [_ ?].
    + done.
  - intros i j τ υ g Hi Hj Hg Hg'. destruct (Hac _ _ Hi) as (fd & Hfd & ->), (Hac _ _ Hj) as (fd' & Hfd' & ->).
    apply Hhome in Hg as ->. apply Hhome in Hg' as ->. by eapply NoDup_lookup.
  - intros g Hg. cbn [p_world ManyClients.serving w_kern]. unfold base. symmetry.
    assert (Hout : g ∉ fds).
    { intros Hin. apply list_elem_of_lookup in Hin as [i Hi]. specialize (Hg i (arrived g)).
      rewrite list_lookup_fmap, Hi in Hg. specialize (Hg eq_refl). destruct (at_home_client g) as [u Hu]. cbn [arrived o_fds] in Hg. congruence. }
    destruct (k_fds k !! g) as [d|] eqn:E; [by apply map_lookup_filter_Some_2|]. apply map_lookup_filter_None. by left.
  - intros i τ g Hi Hg. destruct (Hac _ _ Hi) as (fd & Hfd & ->). apply Hhome in Hg as ->. apply map_lookup_filter_None. right.
    intros d _ Hno. by apply Hno; eapply list_elem_of_lookup_2.
  - intros i fd t τ Hi Hτ. destruct (Hac _ _ Hτ) as (fd' & _ & ->). done.
  - by left.
Qed.

Lemma provided_sockets fds k : provided fds k -> NoDup fds /\ Forall (fun fd => 0 <= fd) fds.
Proof. intros (? & Hf & _). split; [done|]. eapply Forall_impl; [exact Hf|]. by intros fd [? _]. Qed.

Lemma provided_reachable calm clear fds en k p :
  provided fds k -> pool_reachable calm clear (serving fds en k) p -> exists τs, custody k fds p τs /\ stable k fds k (w_kern (p_world p)).
Proof.
  intros Hp Hr. destruct (provided_sockets _ _ Hp). eapply (custody_reachable k fds) in Hr as (τs & ? & ?); [by exists τs|done|done|by apply provided_custody].
Qed.

(** C7. Descriptors have one owner, who shares them for [send] only.  Whatever
    the clients send, whatever calls fail and however the threads are
    interleaved: a descriptor that a thread is about to use, other than to
    [send] to it, is open and none of those that the server had before; when
    two threads are about to use the same descriptor, one of them is about to
    [send] to it (a socket, which a broadcast of another client may write to,
    under its send mutex); and when all threads have returned, every descriptor
    they opened, and the socket of every client, has been closed, and the
    others are as they were. *)
Theorem descriptors_have_one_owner fds en k p :
  provided fds k -> pool_reachable false false (serving fds en k) p ->
  (forall i fd t e g f, p_threads p !! i = Some (fd, t) -> t_prog t = Call e g -> uses e f ->
     (~ sends e -> is_Some (k_fds (w_kern (p_world p)) !! f) /\ base k fds !! f = None) /\
     forall j fd' t' e' g', p_threads p !! j = Some (fd', t') -> t_prog t' = Call e' g' -> uses e' f -> j = i \/ sends e \/ sends e') /\
  ((forall x, x ∈ p_threads p -> ended x.2) -> k_fds (w_kern (p_world p)) = base k fds).
Proof.
  intros Hp Hr. destruct (provided_reachable _ _ _ _ _ _ Hp Hr) as (τs & Hc & _).
  assert (Hat : forall i fd t, p_threads p !! i = Some (fd, t) -> exists τ, τs !! i = Some τ /\
    keeps_custody (k_pid k) (k_self k) fd false τ (t_prog t) released /\ tended (k_pid k) (k_self k) fd τ (w_kern (p_world p))).
  { intros i fd t Hi. destruct (lookup_lt_is_Some_2 τs i) as [τ Hτ]; [rewrite (cu_length _ _ _ _ Hc); by eapply lookup_lt_Some|].
    exists τ. split_and!; [done|by eapply cu_follows|by eapply cu_tended]. }
  assert (Huse : forall i fd t e g f, p_threads p !! i = Some (fd, t) -> t_prog t = Call e g -> uses e f -> ~ sends e ->
    exists τ, τs !! i = Some τ /\ is_Some (o_fds τ !! f) /\ is_Some (k_fds (w_kern (p_world p)) !! f)).
  { intros i fd t e g f Hi Hpr Hu Hns. destruct (Hat _ _ _ Hi) as (τ & Hτ & Hk & Htd). rewrite Hpr in Hk. destruct Hk as [Hperm _].
    pose proof (permits_uses _ _ _ _ _ _ _ Hperm Hu Hns) as [u Ho]. exists τ. split_and!; [done|by eexists|].
    destruct (td_fits _ _ _ _ _ Htd _ _ Ho) as (d & Hd & _). by eexists. }
  split.
  - intros i fd t e g f Hi Hpr Hu. split.
    + intros Hns. destruct (Huse _ _ _ _ _ _ Hi Hpr Hu Hns) as (τ & Hτ & Ho & Hopen). split; [done|by eapply cu_new].
    + intros j fd' t' e' g' Hj Hpr' Hu'. destruct (sends_dec e) as [?|Hns]; [by right; left|]. destruct (sends_dec e') as [?|Hns']; [by right; right|left].
      destruct (Huse _ _ _ _ _ _ Hi Hpr Hu Hns) as (τ & Hτ & Ho & _), (Huse _ _ _ _ _ _ Hj Hpr' Hu' Hns') as (υ & Hυ & Ho' & _). by eapply cu_apart.
  - intros Hend. apply map_eq. intros g. apply (cu_rest _ _ _ _ Hc). intros i τ Hτ.
    destruct (lookup_lt_is_Some_2 (p_threads p) i) as [[fd t] Hi]; [rewrite <- (cu_length _ _ _ _ Hc); by eapply lookup_lt_Some|].
    destruct (Hat _ _ _ Hi) as (τ' & Hτ' & Hk & _). simplify_eq. destruct (Hend (fd, t)) as [a Ha]; [by eapply list_elem_of_lookup_2|].
    cbn [snd] in Ha. rewrite Ha in Hk. cbn in Hk. unfold released in Hk. by rewrite Hk.
Qed.

(** C10. What is published stays.  A file that is in the store at any time is
    there, with the same content, at any later time, whatever the clients ask
    for, whatever calls fail and however the threads are interleaved. *)
Theorem published_files_stay fds en k p p' name nd :
  provided fds k -> pool_reachable false false (serving fds en k) p -> pool_reachable false false p p' ->
  filename_ok name -> k_tree (w_kern (p_world p)) !! entry_path name = Some nd ->
  k_tree (w_kern (p_world p')) !! entry_path name = Some nd /\
  forall ino content, nd = NReg ino -> k_inodes (w_kern (p_world p)) !! ino = Some content ->
    k_inodes (w_kern (p_world p')) !! ino = Some content.
Proof.
  intros Hp Hr Hr' Hname Hnd. destruct (provided_sockets _ _ Hp) as [Hnd' Hpos]. destruct (provided_reachable _ _ _ _ _ _ Hp Hr) as (τs & Hc & _).
  destruct (custody_reachable k fds Hnd' Hpos _ _ _ _ _ Hc Hr') as (τs' & _ & Hst). apply Hst; [|done]. intros fd _. by apply entry_not_temp.
Qed.

(** C8. Only complete uploads are published.  At any time, a file of the store
    that was not there in the beginning is exactly what one of the clients has
    sent after its request to upload a file of that name and that size. *)
Theorem new_files_are_complete_uploads fds en k p name nd :
  provided fds k -> pool_reachable false false (serving fds en k) p ->
  filename_ok name -> k_tree (w_kern (p_world p)) !! entry_path name = Some nd -> k_tree k !! entry_path name ≠ Some nd ->
  exists fd ino data mode, fd ∈ fds /\ nd = NReg ino /\ k_inodes (w_kern (p_world p)) !! ino = Some (mk_inode data mode) /\
    uploaded k fd name data.
Proof.
  intros Hp Hr Hname Hnd Hno. destruct (provided_reachable _ _ _ _ _ _ Hp Hr) as (τs & Hc & _).
  by destruct (cu_store _ _ _ _ Hc name nd Hname Hnd).
Qed.
End store.

(** ** Two clients and a file, computed *)

(** Alice uploads a file and leaves; Bob asks for it. *)
Definition exchange : kern server :=
  with_in {[ 5 := frame MSG_LOGIN (B "alice") ++ frame MSG_UPLOAD (B "a.txt|3") ++ B "abc" ++ frame MSG_DISCONNECT [];
             6 := frame MSG_LOGIN (B "bob") ++ frame MSG_DOWNLOAD (B "a.txt") ++ frame MSG_DISCONNECT [] ]}
    (with_fds {[ 5 := FdSocket; 6 := FdSocket ]} (idle (init_state server_start))).

Definition callers : pool := serving (H := plain_libc) 10 [5; 6] calm exchange.
(** The file is on its way: its temporary file and its lock are open. *)
Definition uploading_now : pool := schedule true true [(0%nat, 62%nat)] callers.
(** It has just been published: the lock is still held. *)
Definition published : pool := schedule true true [(0%nat, 13%nat)] uploading_now.
Definition both_served : pool := schedule true true [(1%nat, 1000%nat); (0%nat, 1000%nat); (1%nat, 1000%nat)] published.

Lemma provided_start fds k :
  k_tree k = ∅ -> NoDup fds -> Forall (fun fd => 0 <= fd /\ k_fds k !! fd = Some FdSocket) fds -> provided fds k.
Proof. intros Ht Hnd Hf. split_and!; [done|done|]. intros p ino Hp. by rewrite Ht, lookup_empty in Hp. Qed.

Lemma sockets_distinct : NoDup [5; 6].
Proof. by apply (bool_decide_eq_true_1 (NoDup [5; 6])). Qed.

Lemma exchange_provided : provided [5; 6] exchange.
Proof. apply provided_start; [done|apply sockets_distinct|by repeat constructor]. Qed.

Lemma published_reachable calm clear : pool_reachable calm clear callers published.
Proof. transitivity uploading_now; apply reachable_weaken, schedule_reachable. Qed.

Lemma both_served_reachable calm clear : pool_reachable calm clear published both_served.
Proof. apply reachable_weaken, schedule_reachable. Qed.

Lemma a_txt_ok : filename_ok (B "a.txt").
Proof. by apply is_valid_shared_filename_iff. Qed.

(** The call a thread is about to make, computed. *)
Lemma next_call (check : prog server unit -> bool) p i fd :
  (fun x => (x.1, check (t_prog x.2))) <$> p_threads p !! i = Some (fd, true) ->
  exists t, p_threads p !! i = Some (fd, t) /\ check (t_prog t) = true.
Proof. intros H. apply fmap_Some in H as ([fd' t] & Hi & [= <- Ht]). by exists t. Qed.

Definition writes_now (f : Z) (p : prog server unit) : bool := match p with Call (Write g _) _ => g == f | _ => false end.

Lemma writes_now_spec f p : writes_now f p = true -> exists data g, p = Call (Write f data) g.
Proof. destruct p as [|e g|]; try done. destruct e; try done. intros ->%Z.eqb_eq. by eexists _, _. Qed.

Lemma descriptors_have_one_owner_witness :
  (exists t data g, p_threads uploading_now !! 0%nat = Some (5, t) /\ t_prog t = Call (Write 2 data) g /\
     is_Some (k_fds (w_kern (p_world uploading_now)) !! 2) /\ base exchange [5; 6] !! 2 = None) /\
  k_fds (w_kern (p_world both_served)) = base exchange [5; 6].
Proof.
  split.
  - destruct (next_call (writes_now 2) uploading_now 0 5) as (t & Et & Hw); [vm_compute; reflexivity|].
    destruct (writes_now_spec _ _ Hw) as (data & g & Hp).
    exists t, data, g. split; [done|]. split; [done|].
    destruct (descriptors_have_one_owner (H := plain_libc) 10 [5; 6] calm exchange uploading_now exchange_provided) as [Huse _].
    { apply reachable_weaken, schedule_reachable. }
    destruct (Huse 0%nat 5 t _ g 2 Et Hp eq_refl) as [Hopen _]. by apply Hopen; intros [].
  - apply (descriptors_have_one_owner (H := plain_libc) 10 [5; 6] calm exchange both_served exchange_provided).
    + transitivity published; [apply published_reachable|apply both_served_reachable].
    + apply all_ended. vm_compute. reflexivity.
Defined.

Lemma published_files_stay_witness :
  k_tree (w_kern (p_world both_served)) !! entry_path (B "a.txt") = Some (NReg 2) /\
  forall ino content, NReg 2 = NReg ino -> k_inodes (w_kern (p_world published)) !! ino = Some content ->
    k_inodes (w_kern (p_world both_served)) !! ino = Some content.
Proof.
  apply (published_files_stay (H := plain_libc) 10 [5; 6] calm exchange published both_served (B "a.txt") (NReg 2));
    [apply exchange_provided|apply published_reachable|apply both_served_reachable|apply a_txt_ok|vm_compute; reflexivity].
Defined.

Lemma new_files_are_complete_uploads_witness :
  exists fd ino data mode, fd ∈ [5; 6] /\ NReg 2 = NReg ino /\
    k_inodes (w_kern (p_world published)) !! ino = Some (mk_inode data mode) /\ uploaded exchange fd (B "a.txt") data.
Proof.
  apply (new_files_are_complete_uploads (H := plain_libc) 10 [5; 6] calm exchange published (B "a.txt") (NReg 2));
    [apply exchange_provided|apply published_reachable|apply a_txt_ok|vm_compute; reflexivity|done].
Defined.
