(* ===== verification/Together.v ===== *)
(** * Both disciplines together

    The discipline of the registry says when a client is registered; the one
    of custody, which descriptors are open.  Together they say that a client
    is registered only while its socket is open, so that nobody writes to a
    descriptor that has been closed, or is another one by now. *)

From S2P Require Import Prelude CLib Posix Wp Protocol NetworkIO ClientManager Registry RegistrySpec Sending PerfTimer FileLock Logger FileManager ClientHandler Threads Discipline Crowd CrowdRegistry CrowdManager CrowdServer CrowdHandler Custody CustodyServer CustodyHandler.

Section together.
Context `{Libc}.
Variables (pid self fd : Z) (F : nat).
Abbreviation guarded := (guarded fd).
Abbreviation keeps_custody := (keeps_custody pid self fd).

(** A thread closes the socket of its client when the client is not
    registered; from then on it sends nothing and registers nobody. *)
Definition linked (x : hold * own) (e : sys server) : Prop :=
  match e with
  | Close f | Closedir f => f = fd -> h_flawed x.1 = true \/ h_state x.1 ≠ Member
  | Send _ _ | Mutex_unlock _ => o_fds x.2 !! fd = Some Socket
  | _ => True
  end.

(** The program keeps to both. *)
Definition together {A} : hold * own -> prog server A -> (A -> hold * own -> Prop) -> Prop :=
  follows (fun x e => allowed fd x.1 e /\ permits pid self fd false x.2 e /\ linked x e)
    (fun x s e r => expects fd x.1 s e r /\ tells pid self fd false x.2 e r)
    (fun x s e r x' => moves fd x.1 s e r x'.1 /\ x'.2 = becomes x.2 e r).

(** What the two say of each part they say together. *)
Lemma stays_permits τ e : permits pid self fd true τ e -> permits pid self fd false τ e.
Proof. destruct e; try done; by intros [? _]. Qed.

Lemma absent_ne τ (r : Z) : o_fds τ !! r = None -> o_fds τ !! fd = Some Socket -> r ≠ fd.
Proof. intros Hr Hfd ->. congruence. Qed.

Lemma stays_tells τ e r : o_fds τ !! fd = Some Socket -> tells pid self fd false τ e r -> tells pid self fd true τ e r.
Proof.
  intros Hfd. destruct e; try done; cbn [tells]; (intros [?|(? & Hr & _)]; [by left|right]); (split_and!; [done|done|]); intros _; by apply (absent_ne τ).
Qed.

(** The socket of the client is open until it is closed. *)
Definition closes (e : sys server) : Prop := match e with Close f | Closedir f => f = fd | _ => False end.

Lemma gain_keeps (r : Z) u τ : o_fds τ !! r = None -> o_fds τ !! fd = Some Socket -> o_fds (gain r u τ) !! fd = Some Socket.
Proof. intros Hr Hfd. cbn [gain with_uses o_fds]. rewrite lookup_insert_ne; [done|]. by eapply absent_ne. Qed.

Lemma open_kept stays τ e r :
  tells pid self fd stays τ e r -> ~ closes e -> o_fds τ !! fd = Some Socket -> o_fds (becomes τ e r) !! fd = Some Socket.
Proof.
  intros Ht Hc Hfd. destruct e; try done; cbn [becomes tells closes] in *; try (by case_match).
  - destruct Ht as [->|(_ & Hr & _)]; [done|]. case_match; [done|]. by apply gain_keeps.
  - destruct Ht as [->|(_ & Hr & _)]; [done|]. case_match; [done|]. case_match; by apply gain_keeps.
  - cbn [lose with_uses o_fds]. by rewrite lookup_delete_ne.
  - cbn [lose with_uses o_fds]. by rewrite lookup_delete_ne.
  - destruct Ht as [->|(_ & Hr & _)]; [done|]. case_match; [done|]. by apply gain_keeps.
Qed.

Lemma stays_closes τ e : permits pid self fd true τ e -> ~ closes e.
Proof. destruct e; try (by intros _ []); intros [_ Hne] E; by apply Hne. Qed.

Lemma together_stays {A} (p : prog server A) σ τ Q Q' :
  guarded σ p Q -> keeps_custody true τ p Q' -> o_fds τ !! fd = Some Socket ->
  together (σ, τ) p (fun a x => Q a x.1 /\ Q' a x.2 /\ o_fds x.2 !! fd = Some Socket).
Proof.
  revert σ τ. induction p as [a|e g IH|]; intros σ τ Hg Hk Hfd; [done| |done]. destruct Hg as [Ha Hg], Hk as [Hp Hk]. split.
  - split_and!; [done|by apply stays_permits|]. destruct e; try done; cbn [linked fst snd].
    + intros E. by destruct Hp as [_ []].
    + intros E. by destruct Hp as [_ []].
  - intros s r [He Ht]. cbn [fst snd] in *. assert (Ht' : tells pid self fd true τ e r) by by apply stays_tells.
    destruct (Hg s r He) as (σ' & Hm & Hg'). destruct (Hk tt r Ht') as (τ' & -> & Hk'). exists (σ', becomes τ e r). split; [done|].
    apply IH; [done|done|]. eapply open_kept; [exact Ht|by eapply stays_closes|done].
Qed.

(** The last calls, of no consequence for the registry. *)
Lemma together_still {A} (p : prog server A) σ τ Q :
  h_flawed σ = true \/ bare σ -> h_flawed σ = true \/ h_state σ ≠ Member -> calls still p ->
  keeps_custody false τ p Q -> together (σ, τ) p (fun a x => x.1 = σ /\ Q a x.2).
Proof.
  intros Hb Hst. revert τ. induction p as [a|e g IH|]; intros τ Hc Hk; [done| |done]. destruct Hc as [He Hc], Hk as [Hp Hk].
  destruct (still_free fd σ e Hb He) as [Ha Hm]. split.
  - split_and!; [done|done|]. destruct e; try done; by intros _.
  - intros s r [Hex Ht]. cbn [fst snd] in *. destruct (Hk tt r Ht) as (τ' & -> & Hk'). exists (σ, becomes τ e r). split; [split; [by apply Hm|done]|].
    by apply IH.
Qed.

Lemma together_bind {A B} (p : prog server A) (g : A -> prog server B) x Q R :
  together x p R -> (forall a x', R a x' -> together x' (g a) Q) -> together x (p ≫= g) Q.
Proof. intros Hp Hg. apply follows_bind. eapply follows_mono; [|exact Hp]. exact Hg. Qed.

(** The two of them, for the next part of the program. *)
Lemma together_part {A B} (p : prog server A) (g : A -> prog server B) σ τ Q Q1 Q2 :
  o_fds τ !! fd = Some Socket -> guarded σ p Q1 -> keeps_custody true τ p Q2 ->
  (forall a σ' τ', Q1 a σ' -> Q2 a τ' -> o_fds τ' !! fd = Some Socket -> together (σ', τ') (g a) Q) -> together (σ, τ) (p ≫= g) Q.
Proof.
  intros Hfd H1 H2 Hg. eapply together_bind; [by eapply together_stays|]. intros a [σ' τ'] (? & ? & ?). by apply Hg.
Qed.

Abbreviation serving := (serving fd).

(** A part of no consequence for the registry. *)
Lemma together_pass {A B} (p : prog server A) (g : A -> prog server B) σ τ Q :
  h_flawed σ = true \/ bare σ -> serving τ -> calls still p -> unmoved pid self fd true τ p ->
  (forall a, together (σ, τ) (g a) Q) -> together (σ, τ) (p ≫= g) Q.
Proof.
  intros Hb Hs Hc Hu Hg. eapply (together_part p g σ τ Q (fun _ σ' => σ' = σ)); [by apply serving_socket| |exact Hu|by intros a σ' τ' -> -> _].
  by apply guarded_still_last.
Qed.

(** The end: the socket is closed, and a few words are said about it. *)
Lemma together_leave {A} (g : Z -> prog server A) σ τ (Q : A -> hold * own -> Prop) :
  h_flawed σ = true \/ bare σ -> h_flawed σ = true \/ h_state σ ≠ Member -> serving τ ->
  (forall r, calls still (g r)) -> (forall r, unmoved pid self fd false (lose fd τ) (g r)) -> (forall a, Q a (σ, lose fd τ)) ->
  together (σ, τ) (call (Close fd) ≫= g) Q.
Proof.
  intros Hb Hst Hs Hc Hu HQ. split.
  - split; [done|]. split; [split; [eexists; by apply serving_socket|done]|by intros _].
  - intros s r _. exists (σ, lose fd τ). split; [done|]. 
    eapply follows_mono; [|apply (together_still _ _ _ (fun _ τ' => τ' = lose fd τ)); [done|done|apply Hc|apply Hu]].
    intros a [σ' τ'] [E1 E2]. cbn [fst snd] in *. subst. apply HQ.
Qed.

(** The whole thread. *)
Definition gone {A} : A -> hold * own -> Prop := fun a x => finishes a x.1 /\ released a x.2.

Lemma finishes_bare {A} (a : A) σ : finishes a σ -> (h_flawed σ = true \/ bare σ) /\ (h_flawed σ = true \/ h_state σ ≠ Member).
Proof. intros [?|(? & ? & _)]; split; auto. Qed.

Lemma together_client_handler : together (free_hold, arrived fd) (client_handler F (Some fd)) gone.
Proof.
  assert (Hf : fresh free_hold) by (split_and!; [done|done|done|right; apply framed_nil]). assert (Hs : serving (arrived fd)) by done.
  unfold client_handler. do 3 (apply together_pass; [by right|done|solve_still|solve_unmoved|intros ?]).
  eapply together_part; [by apply serving_socket|by apply guarded_perform_login|by apply custody_login|].
  intros [cid name] σ1 τ1 H1 Hs1 _. destruct H1 as [[Hle H1]|[Hlt H1]]; cbn [fst] in *.
  - rewrite (proj2 (Z.leb_le _ _)) by done. destruct (finishes_bare _ _ H1). apply together_leave; try done.
    + intros r. solve_still.
    + intros r. solve_unmoved.
    + intros a'. split; [exact H1|by apply serving_released].
  - rewrite (proj2 (Z.leb_gt _ _)) by done. assert (Hb1 : h_flawed σ1 = true \/ bare σ1) by (destruct H1 as [?|[? _]]; auto).
    apply together_pass; [done|done|solve_still|solve_unmoved|intros _].
    eapply together_part; [by apply serving_socket|by apply guarded_client_loop|by apply custody_client_loop|].
    intros u σ2 τ2 H2 Hs2 _. unfold connection_end.
    eapply together_part; [by apply serving_socket|by apply guarded_remove|apply unmoved_outside, outside_remove|].
    intros r σ3 τ3 H3 -> _. assert (Hb3 : h_flawed σ3 = true \/ bare σ3) by (destruct H3 as [?|[? _]]; auto).
    apply together_pass; [done|done|solve_still|solve_unmoved|intros _].
    eapply together_part; [by apply serving_socket|by apply departed_counts|apply unmoved_outside, outside_count|].
    intros n σ4 τ4 H4 -> _. assert (Hfin : finishes tt σ4) by by apply departed_finishes. destruct (finishes_bare _ _ Hfin).
    do 2 (apply together_pass; [done|done|solve_still|solve_unmoved|intros _]). apply together_leave; try done.
    + intros r'. solve_still.
    + intros r'. solve_unmoved.
    + intros a'. split; [exact Hfin|by apply serving_released].
Qed.
End together.
