(* ===== verification/OpenSockets.v ===== *)
(** * Nobody writes to a closed socket

    The two invariants of the interleaved threads together, and what follows
    for the sockets of the registered clients. *)

From S2P Require Import Prelude CLib Posix Wp Protocol NetworkIO ClientManager Registry RegistrySpec Sending FileLock Logger FileManager Store ClientHandler Threads Discipline Crowd CrowdRegistry CrowdStreams CrowdManager CrowdServer CrowdHandler Custody CustodyServer CustodyHandler CustodyEffects CustodyInvariant Together ManyClients SharedStore.

(** The client of a thread is registered and removed by a critical section. *)
Lemma moves_state fd σ s e r σ' : moves fd σ s e r σ' -> (forall m, e ≠ Mutex_unlock m) -> h_state σ' = h_state σ.
Proof.
  intros Hm Hne. destruct e; try (by rewrite Hm); cbn [moves] in Hm.
  - by destruct Hm as (b & c & _ & ->).
  - destruct m; try (by rewrite Hm); case_match; try (by rewrite Hm); by destruct Hm as [_ ->].
  - by destruct (Hne m).
  - rewrite Hm. by case_match.
  - rewrite Hm. by repeat case_match.
Qed.

Section sockets.
Variables (fds : list Z) (k0 : kern server).
Hypothesis (Hnd : NoDup fds) (Hpos : Forall (fun fd => 0 <= fd) fds).
Let s0 := k_static k0.
Abbreviation inv := (@inv_with (fun _ _ _ => True) s0 true).
Abbreviation custody := (custody k0 fds).
Abbreviation together := (together (k_pid k0) (k_self k0)).

(** A registered client's thread still has its socket. *)
Record joint (p : pool) (σs : list hold) (B : server) (τs : list own) : Prop := {
  jo_inv : inv p σs B;
  jo_slots : slots_ok p σs B;
  jo_custody : custody p τs;
  jo_together : forall i fd t σ τ, p_threads p !! i = Some (fd, t) -> σs !! i = Some σ -> τs !! i = Some τ ->
    together fd (σ, τ) (t_prog t) gone;
  jo_member : forall i fd t σ τ, p_threads p !! i = Some (fd, t) -> σs !! i = Some σ -> τs !! i = Some τ ->
    h_state σ = Member -> o_fds τ !! fd = Some Socket
}.

(** The accounts of a thread. *)
Lemma joint_thread p σs B τs i fd t :
  joint p σs B τs -> p_threads p !! i = Some (fd, t) -> exists σ τ, σs !! i = Some σ /\ τs !! i = Some τ.
Proof.
  intros Hj Hi. destruct (lookup_lt_is_Some_2 σs i) as [σ Hσ]; [rewrite (iv_length _ _ _ _ _ (jo_inv _ _ _ _ Hj)); by eapply lookup_lt_Some|].
  destruct (lookup_lt_is_Some_2 τs i) as [τ Hτ]; [rewrite (cu_length _ _ _ _ (jo_custody _ _ _ _ Hj)); by eapply lookup_lt_Some|]. eauto.
Qed.

(** The socket stays with the thread while the client is registered. *)
Lemma member_kept fd σ τ s e r σ' :
  h_flawed σ = false -> linked fd (σ, τ) e -> tells (k_pid k0) (k_self k0) fd false τ e r -> moves fd σ s e r σ' ->
  (h_state σ = Member -> o_fds τ !! fd = Some Socket) -> h_state σ' = Member -> o_fds (becomes τ e r) !! fd = Some Socket.
Proof.
  intros Hfl Hl Ht Hm Hmem Hst. assert (Hu : (exists m, e = Mutex_unlock m) \/ forall m, e ≠ Mutex_unlock m).
  { destruct e; try (by right); left; by eexists. }
  destruct Hu as [[m ->]|Hne]; [exact Hl|]. rewrite (moves_state _ _ _ _ _ _ Hm Hne) in Hst. eapply open_kept; [exact Ht| |by apply Hmem].
  intros Hc. destruct e; try done; cbn [closes linked fst] in *; destruct (Hl Hc); congruence.
Qed.

(** ** One turn *)

Lemma joint_turn p σs B τs i e r p' :
  joint p σs B τs -> mutex_works e r -> turn i e r p p' -> exists σs' B' τs', joint p' σs' B' τs'.
Proof.
  intros Hj Hmw (fd & t & g & w' & Hi & Hp & Hre & Hs & ->). destruct (joint_thread _ _ _ _ _ _ _ Hj Hi) as (σ & τ & Hσ & Hτ).
  pose proof Hj as [Hinv Hslo Hcu Hto Hmem]. pose proof (Hto _ _ _ _ _ Hi Hσ Hτ) as Hf. rewrite Hp in Hf. destruct Hf as [(Hal & Hperm & Hlink) Hgo].
  apply ready_enabled in Hre. cbn [fst snd] in *. pose proof (answer_expected _ _ _ _ _ _ _ _ _ _ _ _ Hinv Hi Hσ Hre Hs) as Hexp.
  destruct (obeys_all _ _ fd τ _ (cu_tended _ _ _ _ Hcu _ _ _ _ Hi Hτ) e Hperm _ r w' Hs) as [Htell Heff].
  destruct (Hgo (current_of p) r (conj Hexp Htell)) as ([σ' τ'] & [Hmv Hτ'] & Hrest). cbn [fst snd] in *. subst τ'.
  edestruct (inv_turn_with (G := fun _ _ _ => True) s0 true p σs B i fd t e g r w' σ σ') as (B' & Hb & Hinv'); try done.
  pose proof (cu_follows _ _ _ _ Hcu _ _ _ _ Hi Hτ) as Hk. rewrite Hp in Hk. destruct Hk as [_ Hk]. destruct (Hk tt r Htell) as (τ' & -> & Hk').
  exists (<[i := σ']> σs), B', (<[i := becomes τ e r]> τs). split; [done|by eapply slots_turn|by eapply custody_update| |].
  - intros j fdj tj σj τj Hj1 Hj2 Hj3. cbn [p_threads] in Hj1. destruct (update_cases _ _ _ _ _ Hj1) as [[-> [= -> ->]]|[Hne Hj1']].
    + rewrite list_lookup_insert_eq in Hj2 by (by eapply lookup_lt_Some). rewrite list_lookup_insert_eq in Hj3 by (by eapply lookup_lt_Some). by simplify_eq.
    + rewrite list_lookup_insert_ne in Hj2 by done. rewrite list_lookup_insert_ne in Hj3 by done. by eapply Hto.
  - intros j fdj tj σj τj Hj1 Hj2 Hj3. cbn [p_threads] in Hj1. destruct (update_cases _ _ _ _ _ Hj1) as [[-> [= -> ->]]|[Hne Hj1']].
    + rewrite list_lookup_insert_eq in Hj2 by (by eapply lookup_lt_Some). rewrite list_lookup_insert_eq in Hj3 by (by eapply lookup_lt_Some). simplify_eq. eapply member_kept; try done.
      * by apply (iv_calm _ _ _ _ _ Hinv eq_refl _ _ Hσ).
      * by eapply Hmem.
    + rewrite list_lookup_insert_ne in Hj2 by done. rewrite list_lookup_insert_ne in Hj3 by done. by eapply Hmem.
Qed.

Lemma joint_reachable clear p σs B τs p' :
  joint p σs B τs -> pool_reachable true clear p p' -> exists σs' B' τs', joint p' σs' B' τs'.
Proof.
  intros Hj Hr. revert σs B τs Hj. induction Hr as [p|p p1 p2 (i & e & r & Hm & _ & Hstep) _ IH]; intros σs B τs Hj; [by eauto|].
  destruct (joint_turn _ _ _ _ _ _ _ _ Hj (Hm eq_refl) Hstep) as (σs1 & B1 & τs1 & Hj1). by eapply IH.
Qed.

(** ** What follows *)

(** The socket that a thread has not closed is open. *)
Lemma kept_open p σs B τs i fd t τ :
  joint p σs B τs -> p_threads p !! i = Some (fd, t) -> τs !! i = Some τ -> o_fds τ !! fd = Some Socket ->
  k_fds (w_kern (p_world p)) !! fd = Some FdSocket.
Proof.
  intros Hj Hi Hτ Ho. destruct (td_fits _ _ _ _ _ (cu_tended _ _ _ _ (jo_custody _ _ _ _ Hj) _ _ _ _ Hi Hτ) _ _ Ho) as (d & Hd & ->). done.
Qed.

(** The sockets of the registered clients are open. *)
Lemma registered_open p σs B τs f :
  joint p σs B τs -> sockets_open k0 -> Forall (fun fd => ~ registered s0 fd) fds -> registered B f ->
  k_fds (w_kern (p_world p)) !! f = Some FdSocket.
Proof.
  intros Hj Hopen Hnew Hr. pose proof (iv_sound _ _ _ _ _ (jo_inv _ _ _ _ Hj)) as Hso. apply (so_users _ _ _ Hso) in Hr as [Hr|Hr].
  - destruct Hr as (j & e & He & Hact & <-). set (f := socket_fd e). pose proof (Hopen _ _ He Hact) as Hf. assert (Hb : base k0 fds !! f = Some FdSocket).
    { apply map_lookup_filter_Some_2; [done|]. cbn [fst]. intros Hin. rewrite Forall_forall in Hnew. apply (Hnew _ Hin). by exists j, e. }
    rewrite (cu_rest _ _ _ _ (jo_custody _ _ _ _ Hj)); [done|]. intros i τ Hτ. destruct (o_fds τ !! f) eqn:E; [|done].
    rewrite (cu_new _ _ _ _ (jo_custody _ _ _ _ Hj) _ _ f Hτ) in Hb; [done|by eexists].
  - apply list_elem_of_lookup in Hr as [i Hi]. apply lookup_zip_with_Some in Hi as (x & y & [= <- <-] & Hx & Hy).
    rewrite list_lookup_fmap in Hx. rewrite list_lookup_fmap in Hy. destruct (p_threads p !! i) as [[fd t]|] eqn:Ei; [|done]. destruct (σs !! i) as [σ|] eqn:Eσ; [|done].
    injection Hx as Hx. injection Hy as Hy. cbn [fst] in Hx. subst f.
    destruct (joint_thread _ _ _ _ _ _ _ Hj Ei) as (σ2 & τ & Hσ & Hτ). simplify_eq. eapply kept_open; try done. by eapply jo_member.
Qed.

(** And whoever is about to write, writes to an open socket. *)
Lemma sends_open p σs B τs i fd t f data g :
  joint p σs B τs -> sockets_open k0 -> Forall (fun fd => ~ registered s0 fd) fds ->
  p_threads p !! i = Some (fd, t) -> t_prog t = Call (Send f data) g -> k_fds (w_kern (p_world p)) !! f = Some FdSocket.
Proof.
  intros Hj Hopen Hnew Hi Hp. destruct (joint_thread _ _ _ _ _ _ _ Hj Hi) as (σ & τ & Hσ & Hτ).
  pose proof (jo_together _ _ _ _ Hj _ _ _ _ _ Hi Hσ Hτ) as Hf. rewrite Hp in Hf. destruct Hf as [(Hal & _ & Hlink) _]. cbn [fst snd allowed linked] in *.
  pose proof (iv_calm _ _ _ _ _ (jo_inv _ _ _ _ Hj) eq_refl _ _ Hσ) as Hfl. destruct Hal as [?|[_ Hw]]; [congruence|].
  assert (Hown : k_fds (w_kern (p_world p)) !! fd = Some FdSocket) by by eapply kept_open.
  destruct Hw as [[a Ha]|[-> _]]; [|done]. assert (Ht : thread_at p σs i fd σ) by (split; [by exists t|done]).
  destruct (jo_slots _ _ _ _ Hj _ _ _ Ht _ _ Ha) as [H0 [[Hact <-]|[_ ->]]]; [|done].
  eapply registered_open; try done. by apply entry_registered.
Qed.
End sockets.

Section served.
Context `{Libc}.
Variable F : nat.
Abbreviation serving := (serving F).

Lemma serving_joint fds en k :
  admissible fds k -> provided fds k -> joint fds k (serving fds en k) (replicate (length fds) free_hold) (k_static k) (arrived <$> fds).
Proof.
  intros Ha Hp. pose proof (serving_inv F true fds en k Ha) as Hinv.
  assert (length (p_threads (serving fds en k)) = length fds) as E by apply length_fmap. rewrite E in Hinv. clear E.
  assert (Hfree : forall i σ, replicate (length fds) free_hold !! i = Some σ -> σ = free_hold) by (intros i σ Hσ; by apply lookup_replicate in Hσ as [-> _]).
  split; [by destruct Hinv; split| |by apply provided_custody| |].
  - intros i fd σ [_ Hσ] a f Ha'. by rewrite (Hfree _ _ Hσ) in Ha'.
  - intros i fd t σ τ Hi Hσ Hτ. rewrite (Hfree _ _ Hσ). cbn [p_threads ManyClients.serving] in Hi. apply list_lookup_fmap_Some in Hi as (fd1 & [= -> ->] & Hi1).
    apply list_lookup_fmap_Some in Hτ as (fd2 & -> & Hi2). simplify_eq. apply together_client_handler.
  - intros i fd t σ τ _ Hσ _ Hst. by rewrite (Hfree _ _ Hσ) in Hst.
Qed.

(** C9. Nobody writes to a closed socket.  However the threads are
    interleaved, whatever the clients send, and whatever fails but the calls
    on mutexes: a thread that is about to send, to its own client or to
    another one, sends to a socket that is open, and is the one of a client
    (not of a file, or of whoever got the number since); and whenever the
    mutex of the registry is free, the socket of every client on the list is
    open. *)
Theorem nobody_writes_to_a_closed_socket fds en k p :
  admissible fds k -> provided fds k -> sockets_open k -> pool_reachable true false (serving fds en k) p ->
  (forall i fd t f data g, p_threads p !! i = Some (fd, t) -> t_prog t = Call (Send f data) g ->
     k_fds (w_kern (p_world p)) !! f = Some FdSocket) /\
  (Clients_mutex ∉ k_held (w_kern (p_world p)) -> sockets_open (w_kern (p_world p))).
Proof.
  intros Ha Hp Hopen Hr. destruct (provided_sockets _ _ Hp) as [Hnd Hpos].
  assert (Hnew : Forall (fun fd => ~ registered (k_static k) fd) fds).
  { destruct Ha as (_ & Hf & _). eapply Forall_impl; [exact Hf|]. by intros fd [_ ?]. }
  eapply (joint_reachable fds k Hnd Hpos) in Hr as (σs & B & τs & Hj); [|by apply serving_joint]. split.
  - intros i fd t f data g Hi Hpr. by eapply sends_open.
  - intros Hc j c Hj1 Hact. eapply registered_open; try done.
    rewrite <- (iv_free _ _ _ _ _ (jo_inv _ _ _ _ _ _ Hj)); [by exists j, c|]. by eapply not_held_none; [eapply jo_inv|].
Qed.
End served.

(** ** Two clients, computed *)

(** Alice's greeting is about to be sent to Bob. *)
Definition greeting_bob : pool := schedule true true [(0%nat, 10%nat)] both_in.

Lemma meeting_provided : provided [5; 6] meeting.
Proof. apply provided_start; [done|apply sockets_distinct|by repeat constructor]. Qed.

Definition sends_now (f : Z) (p : prog server unit) : bool := match p with Call (Send g _) _ => g == f | _ => false end.

Lemma sends_now_spec f p : sends_now f p = true -> exists data g, p = Call (Send f data) g.
Proof. destruct p as [|e g|]; try done. destruct e; try done. intros ->%Z.eqb_eq. by eexists _, _. Qed.

Lemma nobody_writes_to_a_closed_socket_witness :
  exists t data g, p_threads greeting_bob !! 0%nat = Some (5, t) /\ t_prog t = Call (Send 6 data) g /\
    k_fds (w_kern (p_world greeting_bob)) !! 6 = Some FdSocket.
Proof.
  destruct (next_call (sends_now 6) greeting_bob 0 5) as (t & Et & Hw); [vm_compute; reflexivity|].
  destruct (sends_now_spec _ _ Hw) as (data & g & Hp).
  exists t, data, g. split; [done|]. split; [done|].
  refine (proj1 (nobody_writes_to_a_closed_socket (H := plain_libc) 10 [5; 6] calm meeting greeting_bob meeting_admissible meeting_provided _ _) 0%nat 5 t 6 data g Et Hp).
  - intros i e He Hact. destruct (nobody_registered (socket_fd e)). exact (ex_intro _ i (ex_intro _ e (conj He (conj Hact eq_refl)))).
  - transitivity both_in; [apply both_in_reachable|apply reachable_weaken, schedule_reachable].
Defined.
