(* ===== verification/CustodyRun.v ===== *)
(** * Custody in a single run

    What the discipline of custody says of a program that runs alone: it
    keeps the account true, and the storage directory orderly. *)

From S2P Require Import Prelude CLib Posix Wp Protocol NetworkIO ClientManager FileLock Logger FileManager Store Threads Discipline Custody CustodyEffects.

(** The two directories are directories, and everything else in the tree is a
    regular file. *)
Definition kinds (t : gmap path node) : Prop :=
  forall p nd, t !! p = Some nd ->
    (p = storage_path \/ p = locks_path) /\ nd = NDir \/ p ≠ storage_path /\ p ≠ locks_path /\ exists ino, nd = NReg ino.

Lemma kinds_insert_dir t p : kinds t -> p = storage_path \/ p = locks_path -> kinds (<[p := NDir]> t).
Proof. intros Ht Hp q nd Hq. apply lookup_insert_Some in Hq as [[<- <-]|[_ Hq]]; [by left|by apply Ht]. Qed.

Lemma kinds_insert_file t p ino : kinds t -> p ≠ storage_path -> p ≠ locks_path -> kinds (<[p := NReg ino]> t).
Proof. intros Ht H1 H2 q nd Hq. apply lookup_insert_Some in Hq as [[<- <-]|[_ Hq]]; [right; eauto|by apply Ht]. Qed.

Lemma kinds_delete t p : kinds t -> kinds (delete p t).
Proof. intros Ht q nd Hq. apply lookup_delete_Some in Hq as [_ Hq]. by apply Ht. Qed.

(** These calls leave the tree as it is. *)
Definition keeps_tree (e : sys server) : Prop :=
  match e with
  | Open _ _ _ | Openat _ _ _ _ | Mkdir _ _ | Unlink _ | Unlinkat _ _ | Link _ _ | Linkat _ _ _ _ | Bind_path _ _
  | Recvfrom _ _ _ | Accept _ _ => False
  | _ => True
  end.

Lemma keeps_tree_preserves e : keeps_tree e -> forall w, k_tree (w_kern (snd (sem e w))) = k_tree (w_kern w).
Proof.
  intros He w. destruct e; try done; try (apply (fallible_obs k_tree); solve_obs); unfold sem, pthread_call.
  all: try (destruct (pop (w_env w)) as [[|n|z] en]; done).
  - destruct (pop (w_env w)) as [[|n|z] en]; [| |done]; by destruct (e_clock en).
  - by destruct (fgets size _) as [[]|].
Qed.

Section run.
Context (pid self fd : Z).
Abbreviation permits := (permits pid self fd false).
Abbreviation tended := (tended pid self fd).

(** A permitted call keeps the kinds of the entries. *)
Lemma kinds_call τ en k e r w' :
  tended τ k -> permits τ e -> kinds (k_tree k) -> sem e (W en k) = (r, w') -> kinds (k_tree (w_kern w')).
Proof.
  intros Ht Hp Hk Hs. assert (Hrest : keeps_tree e -> kinds (k_tree (w_kern w'))).
  { intros He. pose proof (keeps_tree_preserves e He (W en k)) as E. rewrite Hs in E. cbn [snd w_kern] in E. by rewrite E. }
  destruct e; try (by apply Hrest); try done; cbn [Custody.permits] in Hp; apply fallible_cases in Hs as [[_ Hs]|(lim & k' & Hf & ->)]; cbn [w_kern] in *; try (by rewrite Hs).
  - subst. apply open_cases in Hf as [(desc & [= -> ->] & _)|[? _]]; done.
  - destruct Hp as (b & Hd & Hwhy). rewrite (at_dir_cases _ _ b) in Hf by by eapply tended_dir.
    apply open_cases in Hf as [(desc & [= -> ->] & _)|(Hcreat & Hnone & Hc)]; [done|].
    assert (k' = snd (create_file k (resolve b path) flags mode)) as -> by by rewrite <- Hc. rewrite create_tree.
    destruct Hwhy as [?|[(-> & _ & name & Hname & ->)|(-> & _ & -> & _)]]; [congruence| |].
    + rewrite lock_name_resolve by done. by apply kinds_insert_file.
    + rewrite temp_resolve. by apply kinds_insert_file.
  - unfold mkdir_path in Hf. destruct (k_tree k !! resolve [] path); [done|]. destruct (is_dir _ _); [|done]. injection Hf as <- <-.
    apply kinds_insert_dir; [done|]. destruct Hp as [->| ->]; [left; apply resolve_storage|right; apply resolve_locks].
  - destruct Hp as (Hd & -> & _). rewrite (at_dir_cases _ _ storage_path) in Hf by by eapply tended_dir. unfold unlink_path in Hf.
    repeat case_match; try done; injection Hf as <- <-; by apply kinds_delete.
  - destruct Hp as (Hd & -> & -> & _ & Hname & _). rewrite !(at_dir_cases _ _ storage_path) in Hf by by eapply tended_dir.
    rewrite temp_resolve, filename_entry in Hf by done. unfold link_path in Hf. destruct (k_tree k !! temp_path pid self fd) as [nd|] eqn:Et; [|done].
    destruct (Hk _ _ Et) as [[[|] _]|(_ & _ & ino & ->)]; [done|done|].
    destruct (k_tree k !! entry_path new); [done|]. destruct (is_dir _ _); [|done]. injection Hf as <- <-.
    apply kinds_insert_file; [done|done|by apply entry_not_locks].
Qed.

(** The state of a program that keeps to the discipline. *)
Definition in_order (τ : own) (k : kern server) : Prop := tended τ k /\ kinds (k_tree k).

(** When it runs alone the account is true at the end, and the store orderly. *)
Lemma wp_custody {A} (p : prog server A) τ Q R w :
  in_order τ (w_kern w) -> keeps_custody pid self fd false τ p R -> wp p Q w ->
  wp p (fun a w' => Q a w' /\ exists τ', R a τ' /\ in_order τ' (w_kern w')) w.
Proof.
  revert τ w. induction p as [a|e g IH|]; intros τ [en k] [Ht Hk] Hc Hw; [|..]; [split; [done|by exists τ]| |done].
  destruct Hc as [Hp Hc]. change (let '(r, w') := sem e (W en k) in wp (g r) Q w') in Hw.
  change (let '(r, w') := sem e (W en k) in wp (g r) (fun a w' => Q a w' /\ exists τ', R a τ' /\ in_order τ' (w_kern w')) w').
  destruct (sem e (W en k)) as [r w'] eqn:Hs. destruct (obeys_all _ _ fd τ k Ht e Hp en r w' Hs) as [Htell Heff].
  destruct (Hc tt r Htell) as (τ' & -> & Hc'). apply (IH r (becomes τ e r)); [|done|done].
  split; [apply Heff|by eapply kinds_call].
Qed.
End run.
