(* ===== verification/StoreSpec.v ===== *)
(** * The file store's contract and its refinement

    An abstract store is a finite map from names to contents.  [exec] runs
    one request on the file manager; [spec] says how the map changes and what
    the client is told.  A sequence of requests, of any clients, acts on the
    storage directory as the specification does on the map. *)

From S2P Require Import Prelude CLib Posix Wp Protocol NetworkIO ClientManager Registry Sending PerfTimer FileLock Logger FileManager Store Upload Download Listing Session Threads Discipline Custody CustodyServer CustodyEffects CustodyRun.

(** ** An upload to a name that is taken *)

Section taken.
Context `{Libc} (F : nat) (k : kern server) (en0 : env) (u : upload).
Let sock := u_socket u.
Let name := u_filename u.
Abbreviation see := (see sock k).
Abbreviation good := (good k en0).
Hypothesis (Hso : sockets_open k) (Hreg : registered (k_static k) sock) (HF : stream_fuel F en0).
Hypothesis (Hname : filename_ok name) (Hlock0 : 0 <= u_lock u) (Hcalm : faultless en0).

Definition taken_frame : bytes := frame MSG_ERROR (B "FILE_ALREADY_EXISTS").

Lemma wp_prepare_taken v en nd i :
  good en v -> Upload.locked k u v -> v_tree v !! entry_path name = Some nd -> stat_node (see v) nd = Some i ->
  wp (upload_prepare F u) (fun r w => r = 0 /\ exists en' v', w = W en' (see v') /\ v_out v' = taken_frame /\ v_in v' = 0%nat) (W en (see v)).
Proof.
  intros G L Hnd Hi. pose proof G as (_ & Hle0 & _). destruct (lk_phase _ _ _ L) as [Ho Hin].
  assert (Hno : forall en', env_le en' en0 -> ~ env_lt en' en0) by (intros en' _; by apply faultless_not_lt).
  unfold upload_prepare. change (u_socket u) with sock. change (u_filename u) with name.
  eapply wp_open_storage_directory; [exact (sv_storage _ _ _ (lk_store _ _ _ L))| |].
  2:{ intros en1 Hlt. exfalso. apply (Hno en1); env_lia. }
  intros en1 Hle1. set (sfd := next_fd (k_fds (see v))). pose proof (next_fd_nonneg (k_fds (see v))) as H0. fold sfd in H0.
  rewrite (proj2 (Z.ltb_ge sfd 0)) by done.
  assert (Hsee : with_fds (<[sfd := FdDir storage_path]> (k_fds (see v))) (see v) = see (with_storage sfd v)) by apply see_add_fd.
  rewrite Hsee. set (v1 := with_storage sfd v).
  assert (G1 : forall e, env_le e en1 -> good e v1) by (intros; apply (good_add_fd sock k en0); eapply good_le; [|done]; env_lia).
  destruct (see_fresh sock k v) as [Hx _]. fold sfd in Hx.
  assert (Hsl : sfd ≠ u_lock u) by (destruct (lk_extra _ _ _ L) as [ino E]; intros ->; by rewrite E, lookup_singleton_eq in Hx).
  assert (Hlv : leaving k en0 u sfd (-1) None en1 v1) by (apply storage_leaving; [apply G1; env_lia|done|done|done]).
  eapply wp_fallible_faultless; [reflexivity|by eapply faultless_le; [|exact Hcalm]; env_lia|]. cbv beta. unfold at_dir, fd_dir.
  rewrite (see_extra _ _ _ _ (FdDir storage_path)) by apply lookup_insert_eq. rewrite (filename_entry _ Hname).
  unfold lstat_path. change (k_tree (see v1)) with (v_tree v). rewrite Hnd. change (stat_node (see v1) nd) with (stat_node (see v) nd). rewrite Hi.
  eapply (wp_send_error sock k en0); [done|by apply G1|by apply stream_fuel_ok|done|done|].
  intros en2 h r out Hle2 G2 Hd. destruct Hd as [[-> ->]|(_ & Hlt & _)]; [|exfalso; apply (Hno en2); env_lia].
  eapply (wp_upload_cleanup F k en0 u); [done|done|exact G2|apply Hlv|by left|].
  intros en3 v3 Hle3 C. split; [done|]. exists en3, v3. split; [done|]. rewrite (lc_out _ _ _ _ _ _ _ _ C), (lc_in _ _ _ _ _ _ _ _ C). simpl. by rewrite Ho, Hin.
Qed.
End taken.

Lemma wp_upload_taken `{Libc} F sock user metadata name size (k : kern server) en nd i :
  sockets_open k -> registered (k_static k) sock -> stream_fuel F en -> faultless en ->
  parse_upload_metadata (Some metadata) FILE_NAME_MAX_SIZE = Some (name, size) ->
  k_tree k !! storage_path = Some NDir -> lock_usable name k -> k_tree k !! entry_path name = Some nd -> stat_node k nd = Some i ->
  wp (file_manager_handle_upload F sock (Some user) (Some metadata)) (fun r w => r = 0 /\
    stream (k_out (w_kern w)) sock = stream (k_out k) sock ++ taken_frame /\ stream (k_in (w_kern w)) sock = stream (k_in k) sock) (W en k).
Proof.
  intros Hso Hreg HF Hcalm Hp Hst Hlock Hnd Hi. unfold file_manager_handle_upload. rewrite Hp.
  apply parse_upload_iff in Hp as (Hname & _). assert (Hno : forall en', ~ env_lt en' en) by (intros en'; by apply faultless_not_lt).
  eapply wp_ensure_storage_directory.
  2:{ intros en1 k1 _ [Hlt|Hn] _; [by destruct (Hno en1)|]. destruct Hn. by right. }
  intros en1 k1 Hle1 [->|[_ ?]] _; [|congruence]. cbn [negb Z.eqb].
  apply wp_bind, wp_file_lock_acquire; [by eapply fuel_ok_le; [|apply stream_fuel_ok]|done|by right|done| |].
  2:{ intros en2 k2 Hle2 _ [Hlt|?]; [|done]. destruct (Hno en2). env_lia. }
  intros en2 k2 lock Hle2 [[B0 B1] B2 B3 (ino & _ & B4 & _ & B5)]. rewrite (proj2 (Z.ltb_ge lock 0)) by done.
  destruct (locked_after sock user k en name size lock en2 k2) as (v & -> & G & _ & _ & L); [exact Hname|env_lia|exact B2| | |exact B1|by exists ino, (lock_type_of FILE_LOCK_EXCLUSIVE)|].
  { eapply store_kept_mono; [|exact B3]. by right. }
  { by apply (kept_tree _ _ _ B3). }
  set (u := {| u_socket := sock; u_username := user; u_filename := name; u_size := size; u_lock := lock |}) in *.
  eapply wp_mono; [apply (wp_prepare_taken F k en u Hso Hreg HF Hname B0 Hcalm v en2 nd i G L)|].
  - by apply (kept_tree _ _ _ B3).
  - destruct nd as [ino1| | |]; try done. unfold stat_node in *. destruct (k_inodes k !! ino1) as [x|] eqn:E; [|done].
    pose proof (kept_data _ _ _ B3 _ _ E) as E'. change (k_inodes (Store.see sock k v)) with (k_inodes (Store.see (u_socket u) k v)) in E'. by rewrite E'.
  - intros r w (-> & en3 & v3 & -> & Ho & Hin). simpl. by rewrite stream_app_eq, stream_drop_eq, Ho, Hin.
Qed.

(** ** The contract *)

(** The shared files, and what each client has still to send. *)
Record abstract := { a_files : gmap bytes bytes; a_in : Z -> bytes }.

(** A request of the client on [sock]. *)
Inductive request :=
  | Put (sock : Z) (user metadata : bytes)
  | Get (sock : Z) (user name : bytes)
  | Ls (sock : Z) (user : bytes).

Definition client_of (rq : request) : Z := match rq with Put sock _ _ | Get sock _ _ | Ls sock _ => sock end.

Section exec.
Context `{Libc} (F : nat).

Definition exec (rq : request) : prog server Z :=
  match rq with
  | Put sock user metadata => file_manager_handle_upload F sock (Some user) (Some metadata)
  | Get sock user name => file_manager_handle_download F sock (Some user) (Some name)
  | Ls sock user => file_manager_handle_list F sock (Some user)
  end.

Fixpoint exec_all (rqs : list request) : prog server (list Z) :=
  match rqs with
  | [] => mret []
  | rq :: rqs => r ← exec rq; rs ← exec_all rqs; mret (r :: rs)
  end.
End exec.

(** The first [size] bytes of what the client sends become the file [name]. *)
Definition put (sock : Z) (name : bytes) (size : Z) (a : abstract) : abstract :=
  {| a_files := <[name := take (Z.to_nat size) (a_in a sock)]> (a_files a);
     a_in := fun fd => if fd == sock then drop (Z.to_nat size) (a_in a fd) else a_in a fd |}.

Definition entry_line (x : bytes * bytes) : bytes := x.1 ++ B "|" ++ dec (zlen x.2).

(** What the client is told, and the store afterwards. *)
Definition spec (a : abstract) (rq : request) (sent : bytes) (a' : abstract) : Prop :=
  match rq with
  | Put sock _ metadata =>
      match parse_upload_metadata (Some metadata) FILE_NAME_MAX_SIZE with
      | None => sent = frame MSG_ERROR (B "INVALID_UPLOAD_METADATA") /\ a' = a
      | Some (name, size) =>
          match a_files a !! name with
          | Some _ => sent = frame MSG_ERROR (B "FILE_ALREADY_EXISTS") /\ a' = a
          | None =>
              sent = frame MSG_RESPONSE (B "UPLOAD_READY") ++ frame MSG_RESPONSE (B "UPLOAD_SUCCESS " ++ name ++ B " " ++ dec size) /\
              a' = put sock name size a
          end
      end
  | Get _ _ name =>
      a' = a /\
      if is_valid_shared_filename (Some name) then
        match a_files a !! name with
        | Some data => sent = frame MSG_RESPONSE (B "DOWNLOAD_READY " ++ name ++ B "|" ++ dec (zlen data)) ++ data
        | None => sent = frame MSG_ERROR (B "FILE_NOT_FOUND")
        end
      else sent = frame MSG_ERROR (B "INVALID_DOWNLOAD_FILENAME")
  | Ls _ _ =>
      a' = a /\ exists entries, entries ≡ₚ map_to_list (a_files a) /\
        sent = list_stream (entry_line <$> entries) (list_end (entry_line <$> entries))
  end.

(** A client that is told to go ahead sends all it has announced. *)
Definition admissible (a : abstract) (rq : request) : Prop :=
  match rq with
  | Put sock _ metadata => forall name size,
      parse_upload_metadata (Some metadata) FILE_NAME_MAX_SIZE = Some (name, size) -> a_files a !! name = None -> size <= zlen (a_in a sock)
  | _ => True
  end.

(** ** The storage directory *)

(** The directory holds exactly these files; there is nothing else in it but
    locks, and no mutex is held. *)
Record holds_store (k : kern server) (a : abstract) : Prop := {
  hs_sockets : sockets_open k;
  hs_registry : registry_ok (k_static k);
  hs_mutexes : unlocked (k_held k);
  hs_storage : k_tree k !! storage_path = Some NDir;
  hs_kinds : kinds (k_tree k);
  hs_sound : store_sound k;
  hs_temp : forall sock, k_tree k !! upload_tmp sock k = None;
  hs_files : forall name data, filename_ok name ->
    a_files a !! name = Some data <-> exists ino mode, k_tree k !! entry_path name = Some (NReg ino) /\ k_inodes k !! ino = Some (mk_inode data mode);
  hs_names : forall name data, a_files a !! name = Some data -> filename_ok name /\ zlen data <= FILE_MAX_SIZE;
  hs_in : forall fd, stream (k_in k) fd = a_in a fd
}.

Lemma upload_tmp_not_area sock (k : kern server) : ~ store_area (upload_tmp sock k).
Proof. intros [?|(name & [?|?])]; discriminate. Qed.

(** What a request does besides: only names in [E] may appear in the store. *)
Record calm_step (E : bytes -> bool) (sock : Z) (k k' : kern server) : Prop := {
  cs_static : k_static k' = k_static k;
  cs_process : k_pid k' = k_pid k /\ k_self k' = k_self k;
  cs_fds : k_fds k' = k_fds k;
  cs_held : k_held k' = k_held k;
  cs_others : forall fd, fd ≠ sock -> stream (k_out k') fd = stream (k_out k) fd /\ stream (k_in k') fd = stream (k_in k) fd;
  cs_kept : forall p nd, k_tree k !! p = Some nd -> p ≠ upload_tmp sock k -> k_tree k' !! p = Some nd;
  cs_data : forall ino i, k_inodes k !! ino = Some i -> k_inodes k' !! ino = Some i;
  cs_new : forall p, k_tree k !! p = None -> is_Some (k_tree k' !! p) ->
    store_area p \/ exists name, filename_ok name /\ E name = true /\ p = entry_path name
}.

(** Every file of the store has its content. *)
Lemma store_entry k a name nd :
  holds_store k a -> filename_ok name -> k_tree k !! entry_path name = Some nd ->
  exists ino i, nd = NReg ino /\ k_inodes k !! ino = Some i /\ a_files a !! name = Some (i_data i).
Proof.
  intros Hs Hname Hnd. destruct (hs_kinds _ _ Hs _ _ Hnd) as [[[?|?] _]|(_ & _ & ino & ->)]; [done|by destruct (entry_not_locks name)|].
  destruct (hs_sound _ _ Hs _ _ Hnd) as [i Hi]. exists ino, i. split_and!; [done|done|]. apply (hs_files _ _ Hs); [done|].
  exists ino, (i_mode i). split; [done|]. by destruct i.
Qed.

Lemma store_no_entry k a name : holds_store k a -> filename_ok name -> a_files a !! name = None -> k_tree k !! entry_path name = None.
Proof.
  intros Hs Hname Ha. destruct (k_tree k !! entry_path name) as [nd|] eqn:E; [|done].
  destruct (store_entry _ _ _ _ Hs Hname E) as (ino & i & _ & _ & Hf). congruence.
Qed.

(** The other entries are what they were. *)
Lemma entry_same E sock k a k' name data :
  holds_store k a -> calm_step E sock k k' -> filename_ok name -> E name = false ->
  (exists ino mode, k_tree k' !! entry_path name = Some (NReg ino) /\ k_inodes k' !! ino = Some (mk_inode data mode)) <->
  (exists ino mode, k_tree k !! entry_path name = Some (NReg ino) /\ k_inodes k !! ino = Some (mk_inode data mode)).
Proof.
  intros Hs Hc Hname HE.
  assert (Hkept : forall nd, k_tree k !! entry_path name = Some nd -> k_tree k' !! entry_path name = Some nd).
  { intros nd Hnd. eapply cs_kept; [done|done|]. by apply upload_tmp_not_file. }
  split; intros (ino & mode & Ht & Hi).
  - destruct (k_tree k !! entry_path name) as [nd|] eqn:E1.
    + rewrite (Hkept _ eq_refl) in Ht. injection Ht as ->. destruct (hs_sound _ _ Hs _ _ E1) as [i Hi'].
      rewrite (cs_data _ _ _ _ Hc _ _ Hi') in Hi. injection Hi as ->. eauto.
    + destruct (cs_new _ _ _ _ Hc _ E1 ltac:(by eexists)) as [[?|[n Hn]]|(n & Hn & HE' & Heq)]; [done|by destruct (entry_not_lock name n)|].
      injection Heq as <-. congruence.
  - exists ino, mode. split; [by apply Hkept|by eapply cs_data].
Qed.

Lemma store_next E sock k a k' a' :
  holds_store k a -> calm_step E sock k k' -> kinds (k_tree k') -> store_sound k' ->
  (forall name, filename_ok name -> E name = true -> forall data,
     a_files a' !! name = Some data <-> exists ino mode, k_tree k' !! entry_path name = Some (NReg ino) /\ k_inodes k' !! ino = Some (mk_inode data mode)) ->
  (forall name, E name = false -> a_files a' !! name = a_files a !! name) ->
  (forall name data, a_files a' !! name = Some data -> filename_ok name /\ zlen data <= FILE_MAX_SIZE) ->
  (forall fd, stream (k_in k') fd = a_in a' fd) -> holds_store k' a'.
Proof.
  intros Hs Hc Hk Hsd Hin Hout Hnames Hst. pose proof Hc as [C1 [C2 C2'] C3 C4 _ C6 _ C8]. split; try done.
  - unfold sockets_open. rewrite C1, C3. apply Hs.
  - rewrite C1. apply Hs.
  - rewrite C4. apply Hs.
  - apply C6; [apply Hs|]. intros E1. apply (upload_tmp_not_area sock k). by left.
  - intros s. rewrite (upload_tmp_eq s k k') by done. destruct (k_tree k' !! upload_tmp s k) as [nd|] eqn:E1; [|done].
    destruct (C8 _ (hs_temp _ _ Hs s) ltac:(by eexists)) as [?|(n & Hn & _ & Heq)]; [by destruct (upload_tmp_not_area s k)|].
    by destruct (upload_tmp_not_file s k n).
  - intros name data Hname. destruct (E name) eqn:HE; [by apply Hin|]. rewrite (entry_same E sock k a k') by done.
    rewrite Hout by done. by apply Hs.
Qed.

(** A quiet request changes no file. *)
Lemma quiet_calm name sock en k en' k' :
  faultless en -> unlocked (k_held k) -> quiet name sock en k en' k' -> calm_step (fun _ => false) sock k k'.
Proof.
  intros Hf Hu [Q1 Q2 Q3 Q4 Q5 _ Q7 Q8 _ [Q10 Q11 Q12]]. split; try done.
  - destruct (Q2 Hu) as [?|Hlt]; [done|]. by destruct (faultless_not_lt _ _ Hf Hlt).
  - intros fd Hne. by rewrite Q7, Q8.
  - intros p nd Hp _. by apply Q10.
  - intros p Hp Hx. left. destruct (Q11 _ Hp Hx) as [?|?]; [by left|right; by exists name].
Qed.

Lemma store_quiet sock k a k' :
  holds_store k a -> calm_step (fun _ => false) sock k k' -> kinds (k_tree k') -> store_sound k' ->
  stream (k_in k') sock = stream (k_in k) sock -> holds_store k' a.
Proof.
  intros Hs Hc Hk Hsd Hin. eapply store_next; try done; [apply Hs|]. intros fd. rewrite <- (hs_in _ _ Hs).
  destruct (decide (fd = sock)) as [->|Hne]; [done|by apply (cs_others _ _ _ _ Hc)].
Qed.

Lemma upload_calm name size sock en k r en' k' :
  faultless en -> unlocked (k_held k) -> filename_ok name -> upload_outcome sock name size en k r en' k' ->
  calm_step (fun n => bool_decide (n = name)) sock k k'.
Proof.
  intros Hf Hu Hname [U1 U2 U3 U4 U5 _ U7 _ U9 U10 U11 _ _]. split; try done.
  - destruct (U2 Hu) as [?|Hlt]; [done|]. by destruct (faultless_not_lt _ _ Hf Hlt).
  - intros p Hp Hx. destruct (U11 _ Hp Hx) as [?|[?|[->|[_ Hlt]]]]; [left; by left|left; right; by exists name| |by destruct (faultless_not_lt _ _ Hf Hlt)].
    right. exists name. split_and!; [done|by apply bool_decide_eq_true|done].
Qed.

(** ** The entries of the directory *)

Lemma NoDup_omap_inj {A B'} (f : A -> option B') (l : list A) :
  NoDup l -> (forall x y z, x ∈ l -> y ∈ l -> f x = Some z -> f y = Some z -> x = y) -> NoDup (omap f l).
Proof.
  induction 1 as [|x l Hx Hl IH]; intros Hf; [constructor|]. cbn [omap list_omap]. assert (IH' : NoDup (omap f l)).
  { apply IH. intros y y' z Hy Hy'. apply Hf; by apply list_elem_of_further. }
  destruct (f x) as [z|] eqn:E; [|done]. constructor; [|done]. intros (y & Hy & E')%list_elem_of_omap. apply Hx.
  by rewrite (Hf x y z) by (done || by apply list_elem_of_here || by apply list_elem_of_further).
Qed.

(** The names in the directory, but [.] and [..]. *)
Definition names_in (t : gmap path node) : list bytes :=
  omap (fun '(p, _) => if bool_decide (removelast p = storage_path /\ p ≠ []) then last p else None) (map_to_list t).

Lemma names_in_spec t name : name ∈ names_in t <-> is_Some (t !! entry_path name).
Proof.
  unfold names_in. rewrite list_elem_of_omap. split.
  - intros ([p nd] & Hin & Hlast). apply elem_of_map_to_list in Hin. case_bool_decide as Hd; [|done]. destruct Hd as [Hr Hne].
    apply last_Some in Hlast as [l ->]. rewrite removelast_last in Hr. subst l. by eexists.
  - intros [nd Hnd]. exists (entry_path name, nd). split; [by apply elem_of_map_to_list|].
    rewrite bool_decide_eq_true_2; [done|]. split; [apply removelast_last|done].
Qed.

Lemma names_in_NoDup t : NoDup (names_in t).
Proof.
  apply NoDup_omap_inj; [apply NoDup_map_to_list|]. intros [p nd] [q nd'] name Hp Hq.
  apply elem_of_map_to_list in Hp, Hq. case_bool_decide as Hd; [|done]. case_bool_decide as Hd'; [|done]. destruct Hd as [Hr _], Hd' as [Hr' _].
  intros [l ->]%last_Some [l' ->]%last_Some. rewrite removelast_last in Hr, Hr'. subst l l'. rewrite Hp in Hq. by injection Hq as <-.
Qed.

Definition file_of (a : abstract) (name : bytes) : option (bytes * bytes) :=
  if is_valid_shared_filename (Some name) then pair name <$> a_files a !! name else None.

Lemma listed_file k a name : holds_store k a -> listed k name = entry_line <$> file_of a name.
Proof.
  intros Hs. unfold listed, file_of. destruct (is_valid_shared_filename (Some name)) eqn:Hv; [|done]. apply is_valid_shared_filename_iff in Hv as Hname.
  destruct (k_tree k !! entry_path name) as [nd|] eqn:E.
  - destruct (store_entry _ _ _ _ Hs Hname E) as (ino & i & -> & Hi & Hf). rewrite Hf. simpl. rewrite Hi. simpl. unfold list_line. simpl.
    rewrite (proj2 (Z.ltb_ge _ _)) by apply zlen_nonneg. cbn [negb orb]. rewrite (proj2 (Z.ltb_ge _ _)) by by eapply hs_names.
    apply sprintf_fit_ok. destruct Hname as [Hlen _]. destruct (hs_names _ _ Hs _ _ Hf) as [_ Hmax]. pose proof (zlen_nonneg (i_data i)).
    pose proof (dec_length (zlen (i_data i)) 8 ltac:(unfold FILE_MAX_SIZE in *; simpl; lia)) as Hdec.
    change (zlen (name ++ B "|" ++ dec (zlen (i_data i))) < FILE_NAME_MAX_SIZE + 64). rewrite !zlen_app. change (zlen (B "|")) with 1.
    unfold FILE_NAME_MAX_SIZE. simpl in Hdec. lia.
  - destruct (a_files a !! name) eqn:Ea; [|done]. apply (hs_files _ _ Hs) in Ea as (ino & mode & Ht & _); [congruence|done].
Qed.

Lemma listed_files k a : holds_store k a ->
  exists entries, entries ≡ₚ map_to_list (a_files a) /\ omap (listed k) (dir_names k storage_path) = entry_line <$> entries.
Proof.
  intros Hs. exists (omap (file_of a) (names_in (k_tree k))). split.
  - apply NoDup_Permutation; [|apply NoDup_map_to_list|].
    + apply NoDup_omap_inj; [apply names_in_NoDup|]. intros x y [n d] _ _. unfold file_of.
      do 2 case_match; try done. intros (? & _ & [= <- _])%fmap_Some (? & _ & [= <- _])%fmap_Some. done.
    + intros [n d]. rewrite list_elem_of_omap, elem_of_map_to_list. split.
      * intros (x & _ & Hx). unfold file_of in Hx. case_match; [|done]. by apply fmap_Some in Hx as (? & ? & [= -> ->]).
      * intros Hd. exists n. destruct (hs_names _ _ Hs _ _ Hd) as [Hname _]. split.
        -- apply names_in_spec. apply (hs_files _ _ Hs) in Hd as (ino & mode & Ht & _); [|done]. by eexists.
        -- unfold file_of. rewrite (proj2 (is_valid_shared_filename_iff n) Hname), Hd. done.
  - unfold dir_names. cbn [omap list_omap]. change (listed k [DOT]) with (None : option bytes). change (listed k [DOT; DOT]) with (None : option bytes).
    fold (names_in (k_tree k)). rewrite list_fmap_omap. apply list_omap_ext. apply Forall_Forall2_diag, Forall_true. intros n. by apply listed_file.
Qed.

(** ** One request *)

Section one_request.
Context `{Libc} (F : nat) (en : env) (k : kern server) (a : abstract) (sock : Z).
Hypothesis (Hs : holds_store k a) (Hreg : registered (k_static k) sock) (Hsock : 0 <= sock) (HF : stream_fuel F en) (Hcalm : faultless en).

(** The client has asked for what is done. *)
Definition request_text (rq : request) : bytes :=
  match rq with
  | Put _ _ metadata =>
      match parse_upload_metadata (Some metadata) FILE_NAME_MAX_SIZE with
      | Some (name, size) => let payload := name ++ BAR :: dec size in message_header MSG_UPLOAD (zlen payload) ++ payload
      | None => []
      end
  | _ => []
  end.

Lemma custody_exec rq :
  client_of rq = sock -> keeps_custody (k_pid k) (k_self k) sock false (Own (request_text rq) (at_home sock) None) (exec F rq) (fun _ => CustodyServer.serving sock).
Proof.
  intros <-. destruct rq as [fd user metadata|fd user name|fd user]; cbn [exec client_of].
  - apply custody_handle_upload; [done|]. intros name size Hp. cbn [o_input request_text]. rewrite Hp.
    apply parse_upload_iff in Hp as (Hname & Hmax & text & _ & Hnum). pose proof (numeral_nonneg _ _ Hnum).
    exists [], (name ++ BAR :: dec size). split; [done|]. rewrite c_str_id; [by apply parse_upload_print|].
    apply cstring_app. split; [by apply filename_ok_no_slash|]. apply (cstring_app [BAR]). split; [by apply (bool_decide_unpack (cstring _))|by apply dec_cstring].
  - by apply custody_handle_download.
  - by apply custody_handle_list.
Qed.

Lemma sock_account rq : in_order (k_pid k) (k_self k) sock (Own (request_text rq) (at_home sock) None) k.
Proof.
  split; [|apply Hs]. split; [done| | |apply Hs].
  - intros g u Hg. unfold at_home in Hg. cbn [o_fds] in Hg. apply lookup_singleton_Some in Hg as [<- <-]. exists FdSocket. split; [|done].
    destruct Hreg as (i & e & Hi & He & <-). by eapply hs_sockets.
  - intros f Hf. unfold at_home in Hf. cbn [o_fds] in Hf. by apply lookup_singleton_Some in Hf as [_ ?].
Qed.

(** Whatever the request, the tree stays orderly, and grows by little. *)
Lemma wp_request_orderly rq Q :
  client_of rq = sock -> list_fuel F k -> wp (exec F rq) Q (W en k) ->
  wp (exec F rq) (fun r w => Q r w /\ kinds (k_tree (w_kern w)) /\ store_sound (w_kern w) /\ (size (k_tree (w_kern w)) <= size (k_tree k) + 5)%nat) (W en k).
Proof.
  intros Hc HL Hw. assert (Hkept : wp (exec F rq) (fun _ w => (size (k_tree (w_kern w)) <= size (k_tree k) + 5)%nat) (W en k)).
  { assert (Hserve : Session.serving F sock en k) by (split; [apply Hs|apply Hs|done|done|done]).
    destruct rq as [fd user metadata|fd user name|fd user]; cbn [exec client_of] in *; subst fd; eapply wp_mono.
    - by apply (keeps_upload F sock [] user metadata).
    - intros r w [Hk _]. by apply kp_size in Hk.
    - by apply (keeps_download F sock [] user name).
    - intros r w [Hk _]. apply kp_size in Hk. lia.
    - by apply (serve_list F sock [] user).
    - intros r w [Hk _]. apply kp_size in Hk. lia. }
  eapply wp_mono; [apply wp_and; [exact Hkept|apply (wp_custody (k_pid k) (k_self k) sock _ _ _ _ (W en k) (sock_account rq) (custody_exec rq Hc) Hw)]|].
  intros r w [Hz [HQ (τ' & _ & [Ht Hk])]]. split_and!; [done|done|by eapply td_sound|done].
Qed.

(** The request has been served as the contract says. *)
Definition served (rq : request) (r : Z) (w : world server) : Prop :=
  r = 0 /\ env_le (w_env w) en /\ k_static (w_kern w) = k_static k /\ k_pid (w_kern w) = k_pid k /\ k_self (w_kern w) = k_self k /\
  (size (k_tree (w_kern w)) <= size (k_tree k) + 5)%nat /\
  exists sent a', spec a rq sent a' /\ holds_store (w_kern w) a' /\ stream (k_out (w_kern w)) sock = stream (k_out k) sock ++ sent /\
    forall fd, fd ≠ sock -> stream (k_out (w_kern w)) fd = stream (k_out k) fd.

Lemma no_fault en' : ~ env_lt en' en.
Proof. by apply faultless_not_lt. Qed.

Lemma delivered_calm type payload en' r out : delivered type payload en' en r out -> r = 0 /\ out = frame type payload.
Proof. intros [?|(_ & Hlt & _)]; [done|by destruct (no_fault en')]. Qed.

Lemma lock_ready name : filename_ok name -> lock_usable name k.
Proof.
  intros Hname. split.
  - destruct (k_tree k !! locks_path) as [nd|] eqn:E; [right|by left]. by destruct (hs_kinds _ _ Hs _ _ E) as [[_ ->]|(_ & ? & _)].
  - destruct (k_tree k !! lock_path name) as [nd|] eqn:E; [right|by left].
    destruct (hs_kinds _ _ Hs _ _ E) as [[[?|?] _]|(_ & _ & ino & ->)]; [done|done|]. exists ino. split; [done|by eapply hs_sound].
Qed.

(** A request that only answers. *)
Lemma request_answered rq r w name sent :
  quiet name sock en k (w_env w) (w_kern w) -> kinds (k_tree (w_kern w)) -> store_sound (w_kern w) ->
  (size (k_tree (w_kern w)) <= size (k_tree k) + 5)%nat -> r = 0 ->
  stream (k_out (w_kern w)) sock = stream (k_out k) sock ++ sent -> spec a rq sent a -> served rq r w.
Proof.
  intros Hq Hk Hsd Hz -> Ho Hsp. pose proof (quiet_calm _ _ _ _ _ _ Hcalm (hs_mutexes _ _ Hs) Hq) as Hc.
  split; [done|]. split; [apply Hq|]. split; [apply Hc|]. split; [apply Hc|]. split; [apply Hc|]. split; [done|].
  exists sent, a. split_and!; [done| |done|].
  - eapply store_quiet; try done. by rewrite (qu_in _ _ _ _ _ _ Hq).
  - intros fd Hne. by apply (cs_others _ _ _ _ Hc).
Qed.

Lemma wp_request_get user name : list_fuel F k -> wp (exec F (Get sock user name)) (served (Get sock user name)) (W en k).
Proof.
  intros HL. assert (Hso := hs_sockets _ _ Hs). eapply wp_mono; [apply wp_request_orderly; [done|done|by apply wp_handle_download]|].
  intros r w (Ho & Hk & Hsd & Hz). destruct (is_valid_shared_filename (Some name)) eqn:Hv.
  - pose proof (proj1 (is_valid_shared_filename_iff _) Hv) as Hname. destruct Ho as (Hq & Hr & Hout).
    destruct Hout as (out & Hst & Hans); [intros ino; apply Hs|]. assert (r = 0) as -> by (destruct Hr as [?|[_ Hlt]]; [done|by destruct (no_fault (w_env w))]).
    eapply request_answered; try done. cbn [spec]. rewrite Hv. split; [done|].
    assert (out = download_answer (k_tree k) (k_inodes k) name) as ->.
    { destruct Hans as [[_ Hout]|(? & _)]; [|done]. destruct Hout as [->|[_ [Hlt|Hn]]]; [done|by destruct (no_fault (w_env w))|].
      destruct Hn. split; [right; apply Hs|by apply lock_ready]. }
    unfold download_answer. destruct (k_tree k !! entry_path name) as [nd|] eqn:E.
    + destruct (store_entry _ _ _ _ Hs Hname E) as (ino & i & -> & Hi & Hf). rewrite Hi, Hf.
      rewrite (proj2 (Z.ltb_ge _ _)); [done|]. by eapply hs_names.
    + destruct (a_files a !! name) as [d|] eqn:Ea; [|done]. apply (hs_files _ _ Hs) in Ea as (ino & mode & Ht & _); [congruence|done].
  - destruct Ho as (Hq & out & Hd & Hst). destruct (delivered_calm _ _ _ _ _ Hd) as [-> ->]. eapply request_answered; try done.
    cbn [spec]. by rewrite Hv.
Qed.

(** ** Uploads *)

(** The name of the temporary file fits its buffer. *)
Hypothesis (Htext : zlen (temporary_text k {| u_socket := sock; u_username := []; u_filename := []; u_size := 0; u_lock := 0 |}) < FILE_NAME_MAX_SIZE).

Lemma request_stored user metadata name size r w :
  parse_upload_metadata (Some metadata) FILE_NAME_MAX_SIZE = Some (name, size) -> a_files a !! name = None ->
  upload_outcome sock name size en k r (w_env w) (w_kern w) -> upload_success sock name size k r (w_kern w) ->
  kinds (k_tree (w_kern w)) -> store_sound (w_kern w) -> (size <= zlen (a_in a sock)) ->
  (stdpp.base.size (k_tree (w_kern w)) <= stdpp.base.size (k_tree k) + 5)%nat -> served (Put sock user metadata) r w.
Proof.
  intros Hp Hfree Ho (-> & _ & (ino & mode & Ht & Hi) & Hin & Hout) Hk Hsd Hlen Hz.
  pose proof Hp as Hp'. apply parse_upload_iff in Hp' as (Hname & Hmax & text & _ & Hnum). pose proof (numeral_nonneg _ _ Hnum) as H0.
  pose proof (upload_calm _ _ _ _ _ _ _ _ Hcalm (hs_mutexes _ _ Hs) Hname Ho) as Hc.
  split; [done|]. split; [apply Ho|]. split; [apply Hc|]. split; [apply Hc|]. split; [apply Hc|]. split; [done|].
  exists (frame MSG_RESPONSE (B "UPLOAD_READY") ++ frame MSG_RESPONSE (B "UPLOAD_SUCCESS " ++ name ++ B " " ++ dec size)), (put sock name size a).
  split_and!; [cbn [spec]; rewrite Hp, Hfree; done| |exact Hout|].
  2:{ intros fd Hne. by apply (cs_others _ _ _ _ Hc). }
  rewrite (hs_in _ _ Hs) in *. eapply store_next; [done|exact Hc|done|done| | | |].
  - intros n Hn ->%bool_decide_eq_true data. cbn [put a_files]. rewrite lookup_insert_eq. split.
    + intros [= <-]. by exists ino, mode.
    + intros (ino' & mode' & Ht' & Hi'). rewrite Ht in Ht'. injection Ht' as <-. rewrite Hi in Hi'. by injection Hi' as <- <-.
  - intros n Hn%bool_decide_eq_false. cbn [put a_files]. by rewrite lookup_insert_ne.
  - intros n data. cbn [put a_files]. intros [[<- <-]|[_ Hd]]%lookup_insert_Some; [|by eapply hs_names].
    split; [done|]. unfold zlen. rewrite length_take. lia.
  - intros fd. cbn [put a_in]. destruct (Z.eqb_spec fd sock) as [->|Hne]; [by rewrite Hin|].
    rewrite <- (hs_in _ _ Hs). by apply (cs_others _ _ _ _ Hc).
Qed.

Lemma wp_request_put user metadata : list_fuel F k -> admissible a (Put sock user metadata) -> wp (exec F (Put sock user metadata)) (served (Put sock user metadata)) (W en k).
Proof.
  intros HL Ha. assert (Hso := hs_sockets _ _ Hs). pose proof (wp_handle_upload F sock user metadata k en Hso Hreg HF) as Hw.
  destruct (parse_upload_metadata (Some metadata) FILE_NAME_MAX_SIZE) as [[name size]|] eqn:Hp.
  2:{ eapply wp_mono; [by apply (wp_request_orderly (Put sock user metadata)); [| |exact Hw]|]. intros r [en' k'] ((Hle & Hh & out & Hd & Hk) & Hkinds & Hsd & Hz).
      destruct (delivered_calm _ _ _ _ _ Hd) as [-> ->]. cbn [w_env w_kern] in *. eapply (request_answered _ _ (W en' k') []); try done.
      - revert Hh Hk. generalize (k_held k'). intros h Hh ->. split; try done.
        + intros fd Hne. by apply stream_app_ne.
        + eexists. apply stream_app_eq.
        + by apply store_kept_same.
      - rewrite Hk. apply stream_app_eq.
      - cbn [spec]. by rewrite Hp. }
  pose proof Hp as Hp'. apply parse_upload_iff in Hp' as (Hname & Hmax & text & _ & Hnum). pose proof (numeral_nonneg _ _ Hnum) as H0.
  destruct (a_files a !! name) as [d|] eqn:Hfile.
  - assert (exists nd i, k_tree k !! entry_path name = Some nd /\ stat_node k nd = Some i) as (nd & i & Hnd & Hi).
    { apply (hs_files _ _ Hs) in Hfile as (ino & mode & Ht & Hi); [|done]. exists (NReg ino). unfold stat_node. rewrite Hi. by eexists. }
    pose proof (wp_upload_taken F sock user metadata name size k en nd i Hso Hreg HF Hcalm Hp (hs_storage _ _ Hs) (lock_ready _ Hname) Hnd Hi) as Hw'.
    eapply wp_mono; [by apply (wp_request_orderly (Put sock user metadata)); [| |by apply (wp_and _ _ _ _ Hw Hw')]|].
    intros r [en' k'] ((( Ho & _) & -> & Hout & Hin) & Hk & Hsd & Hz). cbn [w_env w_kern] in *.
    assert (Hc : calm_step (fun _ => false) sock k k').
    { destruct (upload_calm _ _ _ _ _ _ _ _ Hcalm (hs_mutexes _ _ Hs) Hname Ho) as [C1 C2 C3 C4 C5 C6 C7 C8]. split; try done.
      intros p Hn Hx. destruct (C8 p Hn Hx) as [?|(n & _ & ->%bool_decide_eq_true & ->)]; [by left|congruence]. }
    split; [done|]. split; [apply Ho|]. split; [apply Hc|]. split; [apply Hc|]. split; [apply Hc|]. split; [done|].
    exists taken_frame, a. split_and!; [cbn [spec]; by rewrite Hp, Hfile|by eapply store_quiet|done|].
    intros fd Hne. by apply (cs_others _ _ _ _ Hc).
  - eapply wp_mono; [by apply (wp_request_orderly (Put sock user metadata)); [| |exact Hw]|]. intros r [en' k'] ((Ho & Hsucc) & Hk & Hsd & Hz).
    cbn [w_env w_kern] in *. eapply request_stored; try done; [|by eapply Ha]. destruct Hsucc as [?|[Hlt|Hn]]; [done|by destruct (no_fault en')|].
    destruct Hn. split; [right; apply Hs|by apply lock_ready| | |done|].
    + by eapply store_no_entry.
    + by rewrite (hs_temp _ _ Hs).
    + rewrite (hs_in _ _ Hs). by eapply Ha.
Qed.

(** ** The list *)

Lemma wp_request_list user : list_fuel F k -> wp (exec F (Ls sock user)) (served (Ls sock user)) (W en k).
Proof.
  intros HL. assert (Hso := hs_sockets _ _ Hs). pose proof (stream_fuel_ok _ _ HF) as HF'.
  assert (Hsound : Forall (entry_sound k) (dir_names k storage_path)).
  { apply Forall_forall. intros name Hin Hname. assert (Hn : name ∈ names_in (k_tree k)).
    { apply is_valid_shared_filename_iff in Hname. apply elem_of_cons in Hin as [->|[->|?]%elem_of_cons]; done. }
    apply names_in_spec in Hn as [nd Hnd]. destruct (store_entry _ _ _ _ Hs Hname Hnd) as (ino & i & -> & Hi & _).
    exists (NReg ino). unfold stat_node. rewrite Hi. by eexists. }
  eapply wp_mono; [apply (wp_request_orderly (Ls sock user)); [done|done|apply wp_and; [by apply wp_handle_list|]]|].
  - apply wp_handle_list_calm; try done; apply Hs.
  - intros r w (((Hq & _) & -> & Hout) & Hk & Hsd & Hz). eapply request_answered; try done. destruct (listed_files _ _ Hs) as (entries & Hp & He).
    rewrite He. split; [done|]. by exists entries.
Qed.

Lemma wp_request rq : client_of rq = sock -> list_fuel F k -> admissible a rq -> wp (exec F rq) (served rq) (W en k).
Proof. intros Hc HL Ha. destruct rq as [c ? ?|c ? ?|c ?]; cbn [client_of] in Hc; subst c; [by apply wp_request_put|by apply wp_request_get|by apply wp_request_list]. Qed.
End one_request.

(** ** Sequences of requests *)

Inductive spec_all : abstract -> list request -> list bytes -> abstract -> Prop :=
  | spec_nil a : spec_all a [] [] a
  | spec_cons a rq sent a1 rqs sents a2 :
      spec a rq sent a1 -> spec_all a1 rqs sents a2 -> spec_all a (rq :: rqs) (sent :: sents) a2.

Fixpoint admissible_all (a : abstract) (rqs : list request) : Prop :=
  match rqs with
  | [] => True
  | rq :: rqs => admissible a rq /\ forall sent a', spec a rq sent a' -> admissible_all a' rqs
  end.

(** What one client is told, all in all. *)
Definition told (fd : Z) (rqs : list request) (sents : list bytes) : bytes :=
  concat (zip_with (fun rq sent => if client_of rq == fd then sent else []) rqs sents).

(** A logged-in client. *)
Record client_ok (k : kern server) (rq : request) : Prop := {
  co_registered : registered (k_static k) (client_of rq);
  co_sock : 0 <= client_of rq;
  co_text : zlen (temporary_text k {| u_socket := client_of rq; u_username := []; u_filename := []; u_size := 0; u_lock := 0 |}) < FILE_NAME_MAX_SIZE
}.

(** Fuel for the directory, which grows with each request. *)
Definition spacious (F n : nat) (k : kern server) : Prop :=
  (size (k_tree k) + 5 * n + 3 < F)%nat /\ Z.of_nat (size (k_tree k) + 5 * n) + 3 < 2 ^ 31.

Lemma wp_requests `{Libc} F rqs : forall a en (k : kern server),
  holds_store k a -> faultless en -> stream_fuel F en -> spacious F (length rqs) k -> Forall (client_ok k) rqs -> admissible_all a rqs ->
  wp (exec_all F rqs) (fun rs w => rs = replicate (length rqs) 0 /\ exists sents a', spec_all a rqs sents a' /\ holds_store (w_kern w) a' /\
    forall fd, stream (k_out (w_kern w)) fd = stream (k_out k) fd ++ told fd rqs sents) (W en k).
Proof.
  induction rqs as [|rq rqs IH]; intros a en k Hs Hf HF [Hsp1 Hsp2] Hok Ha; cbn [exec_all length] in *.
  { apply wp_ret. split; [done|]. exists [], a. split_and!; [constructor|done|]. intros fd. by rewrite app_nil_r. }
  apply Forall_cons in Hok as [[Hreg H0 Ht] Hok]. destruct Ha as [Ha Hnext].
  apply wp_bind. eapply wp_mono; [apply (wp_request F en k a (client_of rq)); try done; split; lia|].
  intros r [en1 k1] (-> & Hle & Est & Epid & Eself & Hz & sent & a1 & Hspec & Hs1 & Hout & Hoth). cbn [w_env w_kern] in *.
  apply wp_bind. eapply wp_mono; [apply (IH a1 en1 k1); [done|by eapply faultless_le|unfold stream_fuel in *; env_lia|split; lia| |by eapply Hnext]|].
  { eapply Forall_impl; [exact Hok|]. intros rq' [R1 R2 R3]. split; [by rewrite Est|done|]. unfold temporary_text in *. by rewrite Epid, Eself. }
  intros rs [en2 k2] (-> & sents & a2 & Hall & Hs2 & Hout2). apply wp_ret. cbn [w_kern] in *. split; [done|].
  exists (sent :: sents), a2. split_and!; [by econstructor|done|]. intros fd. rewrite Hout2. unfold told. cbn [zip_with concat].
  destruct (Z.eqb_spec (client_of rq) fd) as [<-|Hne]; [by rewrite Hout, <- app_assoc|by rewrite Hoth].
Qed.

(** C2. The storage directory implements the abstract store.  When no call
    fails, any sequence of uploads, downloads and lists, well formed or not,
    by any clients, leaves the directory with exactly the files of the map
    that the contract describes, answers each request as the contract says,
    and sends nothing to anybody else. *)
Theorem file_store_refinement `{Libc} F rqs a en (k : kern server) :
  holds_store k a -> faultless en -> stream_fuel F en -> spacious F (length rqs) k -> Forall (client_ok k) rqs -> admissible_all a rqs ->
  runs (exec_all F rqs) (W en k) (fun rs '(W _ k') => rs = replicate (length rqs) 0 /\ exists sents a', spec_all a rqs sents a' /\ holds_store k' a' /\
    forall fd, stream (k_out k') fd = stream (k_out k) fd ++ told fd rqs sents).
Proof. intros. apply wp_runs. eapply wp_mono; [by apply wp_requests|]. by intros rs [en' k']. Qed.

(** ** Two clients and their requests, computed *)

(** The store is empty; Alice has eleven bytes to send, and one more. *)
Definition empty_store : abstract := {| a_files := ∅; a_in := fun fd => stream (k_in upload_room) fd |}.

Definition some_requests : list request :=
  [Put 5 (B "alice") (B "a.txt|11"); Get 6 (B "bob") (B "a.txt"); Put 6 (B "bob") (B "a.txt|1"); Ls 5 (B "alice")].

Lemma upload_room_tree p nd : k_tree upload_room !! p = Some nd -> p = storage_path /\ nd = NDir.
Proof. change (k_tree upload_room) with ({[storage_path := NDir]} : gmap path node). by intros [<- <-]%lookup_singleton_Some. Qed.

Lemma upload_room_store : holds_store upload_room empty_store.
Proof.
  split; try done.
  - apply room_sockets.
  - apply room_ok.
  - intros p nd [-> ->]%upload_room_tree. left. auto.
  - intros p ino [_ ?]%upload_room_tree. done.
  - intros sock. destruct (k_tree upload_room !! upload_tmp sock upload_room) eqn:E; [|done]. by apply upload_room_tree in E as [? _].
  - intros name data _. split; [done|]. by intros (ino & mode & [? _]%upload_room_tree & _).
Qed.

Lemma some_requests_admissible : admissible_all empty_store some_requests.
Proof.
  assert (E1 : parse_upload_metadata (Some (B "a.txt|11")) FILE_NAME_MAX_SIZE = Some (B "a.txt", 11)) by reflexivity.
  assert (E2 : parse_upload_metadata (Some (B "a.txt|1")) FILE_NAME_MAX_SIZE = Some (B "a.txt", 1)) by reflexivity.
  split; [intros name size Hp _; rewrite E1 in Hp; injection Hp as <- <-; vm_compute; discriminate|].
  intros sent a1 Hsp. cbn [spec] in Hsp. rewrite E1 in Hsp. cbn [a_files empty_store] in Hsp. rewrite lookup_empty in Hsp. destruct Hsp as [_ ->].
  split; [done|]. intros sent2 a2 [-> _]. split; [|by split].
  intros name size Hp Hnone. rewrite E2 in Hp. injection Hp as <- <-. cbn [put a_files] in Hnone. by rewrite lookup_insert_eq in Hnone.
Qed.

Lemma upload_room_client rq : client_of rq = 5 \/ client_of rq = 6 -> client_ok upload_room rq.
Proof. intros [E|E]; split; rewrite E; first [by apply registeredb_true|done|by vm_compute]. Qed.

Lemma file_store_refinement_witness :
  runs (exec_all (H := plain_libc) (Z.to_nat 7000) some_requests) (W calm upload_room) (fun rs '(W _ k') =>
    rs = replicate 4 0 /\ exists sents a', spec_all empty_store some_requests sents a' /\ holds_store k' a' /\
      forall fd, stream (k_out k') fd = stream (k_out upload_room) fd ++ told fd some_requests sents).
Proof.
  apply (file_store_refinement (H := plain_libc) (Z.to_nat 7000) some_requests empty_store calm upload_room);
    [apply upload_room_store|done|by vm_compute|split; [apply Nat.ltb_lt; by vm_compute|by vm_compute]| |apply some_requests_admissible].
  repeat (apply Forall_cons; split; [apply upload_room_client; auto|]). by apply Forall_nil.
Defined.
