(* ===== verification/Races.v ===== *)
(** * Three executions that the server does not mean

    Computed executions of the interleaved threads: without any failed call,
    a client that is spoken to before it is welcomed, and a client that does
    not read and stops the others; with one failed [read], a message that
    becomes the contents of a downloaded file. *)

From S2P Require Import Prelude CLib Posix Wp Protocol NetworkIO ClientManager Registry FileLock FileManager Store DownloadClient ClientHandler Threads UploadClient ClientMain Conversation Crowd CrowdRegistry ManyClients.

(** ** Heard before being welcome *)

(** Bob is in the registry from the moment [client_manager_add] releases its
    mutex; his thread sends the answer to his login afterwards.  Alice speaks
    in between. *)
Definition too_early : pool := schedule true true [(0%nat, 31%nat); (1%nat, 16%nat); (0%nat, 100%nat); (1%nat, 100%nat)] arrivals.

(** Bob's client, connected on its descriptor 3, when its user types the name. *)
Definition bobs_client (from_server : bytes) : world client :=
  W calm (mk_kern (set_socket 3 client_start) ∅ ∅ ∅ {[ 0 := FdOther; 1 := FdOther; 2 := FdOther; 3 := FdSocket ]} []
            {[ 3 := from_server ]} ∅ ∅ (B "bob" ++ [NEWLINE]) [] [] 1 1 []).

(** C25. A client can be refused by its own side: there is an execution, without
    any failed call, in which a user who logs in properly is sent another
    user's message before the answer to the login, because [client_manager_add]
    makes him an addressee before [perform_login] answers; his client takes
    the message for the answer and gives up. *)
Theorem broadcast_can_precede_the_welcome :
  exists p sent, pool_reachable true true arrivals p /\ (forall x, x ∈ p_threads p -> ended x.2) /\
    sent = stream (k_out (w_kern (p_world p))) 6 /\
    sent = frame MSG_RESPONSE (B "USERNAME_REQUIRED") ++ frame MSG_BROADCAST (B "alice: hello") ++ frame MSG_RESPONSE (B "LOGIN_SUCCESS bob") /\
    exists w', run (login 10) (bobs_client sent) = Some (None, w') /\
      k_stderr (w_kern w') = B "Unexpected login response: alice: hello" ++ [NEWLINE].
Proof.
  exists too_early, (stream (k_out (w_kern (p_world too_early))) 6). split_and!.
  - apply schedule_reachable.
  - apply all_ended. vm_compute. reflexivity.
  - done.
  - vm_compute. reflexivity.
  - eexists. split; [|]. all: vm_compute; reflexivity.
Qed.

(** ** One client that does not listen *)

(** Four clients: Alice and Carol speak to everybody, Bob asks who is there,
    Dave is only about to log in. *)
Definition crowded : kern server :=
  with_in {[ 5 := frame MSG_LOGIN (B "alice") ++ frame MSG_CHAT (B "hello"); 6 := frame MSG_LOGIN (B "bob") ++ frame MSG_LIST_USERS [];
             7 := frame MSG_LOGIN (B "carol") ++ frame MSG_CHAT (B "hi"); 8 := frame MSG_LOGIN (B "dave") ]}
    (with_fds {[ 5 := FdSocket; 6 := FdSocket; 7 := FdSocket; 8 := FdSocket ]} (idle (init_state server_start))).

Definition four : pool := serving (H := plain_libc) 10 [5; 6; 7; 8] calm crowded.

(** Everyone but Dave logs in; Alice's thread is about to send to Bob, under
    the send mutex of his slot; Carol's thread holds the registry and waits
    for that mutex; the others wait for the registry. *)
Definition stalled : pool :=
  schedule true true [(0%nat, 29%nat); (1%nat, 29%nat); (2%nat, 29%nat); (0%nat, 10%nat); (2%nat, 100%nat); (1%nat, 100%nat); (3%nat, 100%nat)] four.

Definition sends_to (t : thread server unit) : option Z :=
  match t_prog t with Call e _ => match e with Send f _ => Some f | _ => None end | _ => None end.

Lemma sends_to_spec t f : sends_to t = Some f -> exists data g, t_prog t = Call (Send f data) g.
Proof. unfold sends_to. destruct (t_prog t) as [a|e g|]; try done. destruct e; try done. intros [= <-]. by eexists _, _. Qed.

Lemma is_sending p i fd f :
  (fun x => (x.1, sends_to x.2)) <$> p_threads p !! i = Some (fd, Some f) ->
  exists t data g, p_threads p !! i = Some (fd, t) /\ t_prog t = Call (Send f data) g.
Proof.
  destruct (p_threads p !! i) as [[fd' t]|]; [|done]. intros [= -> Hs]. destruct (sends_to_spec _ _ Hs) as (data & g & ?). by exists t, data, g.
Qed.

(** The thread has calls to make, and has to wait. *)
Definition is_blocked (p : pool) (i : nat) : bool :=
  match p_threads p !! i with
  | Some (_, t) => negb (has_ended t) && match take_turn false false i p with None => true | Some _ => false end
  | None => true
  end.

Lemma is_blocked_spec p i x : is_blocked p i = true -> p_threads p !! i = Some x -> ~ ended x.2 /\ take_turn false false i p = None.
Proof.
  unfold is_blocked. destruct x as [fd t]. intros Hb Hi. rewrite Hi in Hb. apply andb_true_iff in Hb as [He Ht].
  split; [|by destruct (take_turn _ _ _ _)]. intros [a Ha]. unfold has_ended in He. cbn [snd] in Ha. by rewrite Ha in He.
Qed.

Lemma all_blocked p n :
  length (p_threads p) = n -> forallb (is_blocked p) (seq 1 (n - 1)) = true ->
  forall i x, p_threads p !! i = Some x -> i ≠ 0%nat -> ~ ended x.2 /\ take_turn false false i p = None.
Proof.
  intros Hl Hb i x Hi Hne. apply is_blocked_spec; [|done]. rewrite forallb_forall in Hb. apply Hb, in_seq. apply lookup_lt_Some in Hi. lia.
Qed.

(** C26. One client that does not read its socket stops the server: there is an
    execution, without any failed call, after which the thread of one client is
    in [send] to another one and no other thread can go on before this call
    returns, although none of them has anything to send to him but one.  The
    registry's mutex, which is released before the [send], is held by a thread
    that waits for the send mutex. *)
Theorem one_reader_can_stop_all :
  exists p, pool_reachable true true four p /\
    (exists t data g, p_threads p !! 0%nat = Some (5, t) /\ t_prog t = Call (Send 6 data) g) /\
    (forall i x, p_threads p !! i = Some x -> i ≠ 0%nat -> ~ ended x.2 /\ take_turn false false i p = None) /\
    Clients_mutex ∈ k_held (w_kern (p_world p)).
Proof.
  exists stalled. split; [apply schedule_reachable|]. split_and!.
  - apply is_sending. vm_compute. reflexivity.
  - apply (all_blocked stalled 4); vm_compute; reflexivity.
  - apply (bool_decide_eq_true_1 (Clients_mutex ∈ k_held (w_kern (p_world stalled)))). vm_compute. reflexivity.
Qed.

(** ** A message in the place of a file *)

(** Alice asks for a file of fourteen bytes while Bob speaks. *)
Definition sharing : kern server :=
  with_inodes {[ 1%positive := mk_inode (B "file contents!") 0 ]}
    (with_tree (<[entry_path (B "notes.txt") := NReg 1]> {[ storage_path := NDir ]})
    (with_in {[ 5 := frame MSG_LOGIN (B "alice") ++ frame MSG_DOWNLOAD (B "notes.txt"); 6 := frame MSG_LOGIN (B "bob") ++ frame MSG_CHAT (B "x") ]}
    (with_fds {[ 5 := FdSocket; 6 := FdSocket ]} (idle (init_state server_start))))).

(** The call that fails, with EIO, is the [read] of the file. *)
Definition two : pool := serving (H := plain_libc) 40 [5; 6] (mk_env (replicate 59 Full ++ [Fail 5]) 0 [] [] []) sharing.

(** Bob's thread has its list of addressees when the file is announced to
    Alice; it gets her send mutex after the failed [read], before her thread
    takes her out of the registry. *)
Definition misread : pool :=
  schedule true false [(0%nat, 29%nat); (1%nat, 29%nat); (1%nat, 5%nat); (0%nat, 25%nat); (1%nat, 100%nat); (0%nat, 200%nat); (1%nat, 100%nat)] two.

(** The reason why [messages_are_never_mixed] leaves out failing reads: after
    one, another client's message can follow the announcement of the file, in
    the place of its bytes; and the receiver thread of the client takes it for
    them, and saves it under the name of the file. *)
Theorem a_message_can_replace_a_file :
  exists p w, pool_reachable true false two p /\ (forall x, x ∈ p_threads p -> ended x.2) /\
    stream (k_out (w_kern (p_world p))) 5 =
      frame MSG_RESPONSE (B "USERNAME_REQUIRED") ++ frame MSG_RESPONSE (B "LOGIN_SUCCESS alice") ++
      frame MSG_RESPONSE (B "DOWNLOAD_READY notes.txt|14") ++ frame MSG_BROADCAST (B "bob: x") /\
    run (receiver_thread 40) (W calm (downloader (frame MSG_RESPONSE (B "DOWNLOAD_READY notes.txt|14") ++ frame MSG_BROADCAST (B "bob: x")))) = Some (tt, w) /\
    k_tree (w_kern w) !! local_path (B "notes.txt") = Some (NReg 1) /\
    i_data <$> k_inodes (w_kern w) !! 1%positive = Some (frame MSG_BROADCAST (B "bob: x")).
Proof.
  exists misread. eexists. split_and!.
  - apply schedule_reachable.
  - apply all_ended. vm_compute. reflexivity.
  - vm_compute. reflexivity.
  - vm_compute. reflexivity.
  - vm_compute. reflexivity.
  - vm_compute. reflexivity.
Qed.
